(* ===== verification/_CoqProject ===== *)
-Q . S2P
Prelude.v
PyStr.v
PyCodec.v
Json.v
DateTime.v
Effects.v
Logging.v
PyNum.v
Paths.v
Limits.v
Config.v
Claims.v
KeyStore.v
Jwt.v
FsModel.v
Storage.v
Leases.v
Cli.v
Streaming.v
World.v
Frame.v
CliLaws.v
Backends.v
Auth.v
ClaimLaws.v
Bundles.v
Downloads.v
Inbox.v
Files.v
RoundTrips.v
SendInit.v
Upload.v
Download.v
TwoPhase.v
SendFlow.v
Deliver.v
Retry.v
Gc.v
Reaper.v
Expiry.v
Lifespan.v
Startup.v
Shutdown.v
Agents.v
Server.v
CliFlow.v
CliReceive.v
Fanout.v
Mcp.v
Agree.v
McpFlow.v
SyncDocs.v
