(* ===== verification/Prelude.v ===== *)
(** * Cassetta: a verification library

    Cassetta is a store-and-forward server for files: agents put bundles of
    files into a shared store ([store/]) or into the inbox of another agent
    ([inbox/<agent>/]), over a REST interface or as MCP tools.  This library
    models the server of [src/src/cassetta/] as executable Rocq functions and
    proves what makes it correct.  Every definition that models code keeps the
    name it has there; the sections below say in which file it stands.

    ** The program and its parts

    A request reaches [app.py], which authenticates it (API key, setup token or
    bearer token), finds its handler and turns what the handler raises into a
    response.  The handlers work on four pieces of state, each behind a
    protocol: the bundles ([backends/filesystem/storage.py]), the download
    claims ([claim_storage.py]: which credential has locked which bundle), the
    API keys ([keystore.py]) and the token keys ([jwt_hot_reload.py], rotated
    by a signal).  Small bundles travel inside the request.  Larger ones take
    two phases: a first request checks the manifest and returns a signed
    credential, the second one carries the bytes ([routes/upload.py],
    [routes/download.py]).  Two background loops remove what was abandoned or
    has expired ([gc.py] and the lifetime sweep of [app.py]).  The commands of
    [cli/] are clients of the same server.

    ** The files, in dependency order

    Shared theory:
    - [Prelude]: tactics, the hint database [cassetta], lemmas on lists.
    - [PyStr], [PyCodec], [Json], [DateTime], [PyNum]: what the code uses of
      Python's strings, codecs, [json], [datetime] and number conversions.
    - [Effects]: exceptions as values, the state and exception monad [M], the
      weakest preconditions [wp], log and metric events.
    - [Logging]: [structured_log.py]: the record of a call, the two formatters
      and the set-up of the loggers.

    Components below the protocols:
    - [Paths]: [path_validation.py], [auth/manifest_validation.py], [models.py].
    - [Limits]: [limits.py], [protocols/limits.py], [defaults/default_limits.py],
      [capabilities.py].
    - [Config]: [config.py]; the environment is a map, the result a record.
    - [Claims]: [claims.py], [claim_storage.py]; the state [ClaimDir] is the
      directory of sidecars and locks with an oracle of write failures.  Its
      second half has [issue] as system calls, for interleavings.
    - [KeyStore]: [keystore.py], [auth/models.py]; the state is the records in
      memory and the document on disk.
    - [Jwt]: [auth/jwt_tokens.py], [auth/jwt_hot_reload.py] over the class
      [PyJwt], whose laws [PyJwtLaws] are the documented behaviour of the
      library.
    - [FsModel]: a POSIX tree with the library functions on it.
    - [Storage], [Leases]: [backends/filesystem/storage.py] on that tree.
    - [Cli]: [cli/]: the commands over the files of the user, the output
      streams, the exit status and a network.
    - [Streaming]: [streaming.py], and the two threads of an upload as a step
      relation.

    The application:
    - [World]: the protocols as the classes [StorageBackend], [ClaimStorage],
      [KeyStoreProtocol]; the configuration and policies as the class [App];
      all state a request can change as the record [World]; authentication
      ([auth/dependencies.py]), [safe_emit], [mime.py].
    - [Frame]: what handlers leave alone ([frames]) and what they do not
      depend on ([same_run]).
    - [Backends]: the filesystem implementations as instances
      ([defaults/factory.py]) and a concrete server for the witnesses.
    - [Auth]: the two older dependencies of [auth/dependencies.py].
    - [Bundles], [ClaimLaws]: the contracts of a bundle store and of a claim
      store, and their proofs for the filesystem.
    - [Downloads], [Inbox], [Files], [SendInit], [Upload], [Download], [Gc],
      [Agents]: [downloads.py] and [envelopes.py], then the routes of
      [routes/], [send_init.py], [gc.py] and [rate_limit/limiter.py].
    - [Lifespan]: the lifetime loop of [app.py] with its lease, over the class
      [LeaseBackend], whose laws [LeaseLaws] the filesystem's leases keep.
    - [Startup]: [create_app] and [lifespan] of [app.py] on the state of a
      process, with the globals of [mcp_server.py] and the shared key holders.
    - [Shutdown]: the end of [lifespan]: the lifetime loop between its
      suspensions, where a cancellation reaches it.
    - [RoundTrips], [TwoPhase], [SendFlow], [Deliver], [Retry], [Fanout],
      [Reaper], [Expiry]: theorems about those handlers and loops together.
    - [Server]: [app.py], [middleware.py], [routes/capabilities.py].
    - [Mcp]: [mcp_server.py], [mcp_auth.py], on the same [World].
    - [Agree], [McpFlow]: the tools against the routes, with the relational
      logic [related] that compares two runs, and sending over MCP.
    - [CliLaws], [CliFlow], [CliReceive]: the commands alone, and the commands
      against the server.
    - [SyncDocs]: [scripts/sync-docs-version.py].

    ** State and operations

    A method or handler is a function in [M St]: it takes the state and gives
    a value or an exception, and the state after it; an exception keeps the
    changes made before it, as in Python.  Handlers run on [World]; [on_store],
    [on_claims] and [on_keys] run an operation of one component there.  Guards,
    early returns and [except] clauses are in the order of the source, and
    [HTTPException] is one of the exceptions.  Requests run one at a time; the
    places where the code itself relies on interleaving have step relations of
    their own: [Claims.sys_step] (concurrent claims), [Leases.lease_step]
    (processes that share a directory) and [Streaming.pump_step] (the event
    loop and the archive thread).  Integers are Python's, so there is no
    overflow; the bounds are those the configuration enforces.

    ** What is proved

    - Storing and reading.  What is stored reads back, at the backend
      ([Storage.store_bundle_reads_back]) and through the routes over any store
      with the contract ([RoundTrips]); a bundle is invisible before its commit;
      bundles do not nest; listing and deletion are exact; writes stay in the
      data directory; metadata the server writes is metadata it can list.
    - Sending in two phases.  The credential of the first phase is accepted by
      the second ([SendFlow]); an upload stores exactly what it declares or
      changes nothing, and a download serves only what its credential names, to
      the named recipient ([TwoPhase]); the queue reader implements a byte
      stream and short uploads end ([Streaming]).
    - From command to command.  [cassetta send] against the server leaves a
      bundle that reads back as the local files ([CliFlow]); a reference pick
      claims its bundle alone ([Deliver]); [cassetta download] with its envelope
      writes exactly those files and ends the claim ([CliReceive]).  Against any
      server the commands report what happened and stay in their directory
      ([CliLaws]).  The HTTP client and server between them are the record
      [CliFlow.Framework] with its laws: a request arrives as it was sent.
    - Interruptions.  Downloads that break off, in any number and order, neither
      lose a file nor end the claim early: it ends exactly when every file was
      sent to its end ([Retry]).
    - Over MCP.  The tools that share an operation with a route change the same
      state, answer the same text and refuse for the same reason ([Agree]); an
      inline send is all or nothing, its two steps fit together, and what a put
      stored both front ends read ([McpFlow]).
    - Broadcasting.  The reply splits the recipients into delivered, denied and
      failed, and the delivered ones have the files ([Fanout]).
    - Exclusion.  No two claims hold one bundle, in any sequence with faults and
      under any interleaving of system calls ([Claims]); no two processes hold
      the lease ([Leases]).
    - Authentication.  Requests without credentials, reads, and requests that
      policy denies change nothing ([Server]); keys validate exactly from
      creation to revocation ([KeyStore]); tokens exactly during their life,
      and an old key exactly during its overlap ([Jwt]).
    - Validation.  Which paths and manifests are accepted ([Paths]), which
      sizes ([Limits]), which configurations load ([Config]).
    - Cleaning.  A pass of the reaper removes exactly the old orphans, and the
      loop gets each of them in the end ([Reaper]).  An iteration of the
      lifetime loop removes exactly the expired bundles, and the loop gives back
      every lease it takes whatever the storage does ([Expiry], [Lifespan]),
      also when a shutdown cuts a sweep short ([Shutdown]).
    - Starting.  The tools and the routes of a started application verify with
      the same keys through every rotation ([Startup]).
    - Logging and documents.  A JSON log line parses back to its record
      ([Logging]); the version script is idempotent for release versions
      ([SyncDocs]).
    - Failures of the metrics provider are invisible to the REST routes
      ([Server]).

    Some examples record where the code does not do what it means to: for
    instance [Paths.prefix_collision_missed], [Storage.tmp_manifest_name_is_lost],
    [Streaming.long_upload_can_hang], [TwoPhase.star_sender_passes],
    [RoundTrips.nested_manifest_spoofs_bundle], [Reaper.sweep_takes_nested_bundle],
    [Lifespan.bad_manifest_stops_sweep],
    [Shutdown.shutdown_gives_back_leases] (its last case), [CliLaws.envelope_name_escapes_out],
    [SyncDocs.suffix_accumulates].

    ** Fuel

    Recursion that is not structural carries a bound that its caller computes,
    and a lemma that the bound suffices: [Storage.chunks] gets the length of
    the data ([chunks_spec] returns all of it); [Storage.walk_bundles] gets
    [walk_fuel], more than the depth of the tree ([walk_bundles_spec]);
    [Storage.check_ancestors] and [FsModel.mkdir_parents_go] get the number of
    components of the path they climb ([check_ancestors_Ok],
    [mkdir_parents_spec]); [Json.parse_value] gets the length of its input,
    which every document that [dumps] writes stays within; [SyncDocs.pieces] gets
    the length of the text ([flatten_sim]).  The endless loops
    of the background tasks take the number of iterations as an argument, and
    theorems about them quantify over it.  The step relations have no bound:
    termination of the upload pump is a theorem with a measure.

    ** What is not modelled

    - The wiring of FastAPI, FastMCP and typer: routers, mounts, sessions, tool
      schemas, option parsing, and the coercions of response models.
    - The renewals of a lease while its sweep runs are placed after its body,
      since they touch nothing the sweep reads.
    - Clients that disconnect while a request or a response streams, except
      for downloads: [download_until] takes the number of chunks after which
      the client leaves.
    - What the commands and scripts print beyond the text the theorems name.
    - Symbolic links, permissions and [fsync]; failing system calls are modelled
      for claims and the key file, and where the tree itself refuses them.
    - The libraries: token signing, archives ([tarfile] and gzip), the rate
      limiter's counting, and the framework's multipart parser and error
      responses are arguments with the behaviour the code relies on. *)

From stdpp Require Export base tactics list gmap strings sorting.
From Stdlib Require Export ZArith Lia.

(** ** Tactics *)

(** [solve_case] splits every [match]/[if] of the context or the goal and
    closes the branches that the equations decide. *)
Ltac solve_case :=
  repeat (case_match; simplify_eq/=); try done.

(** [bool_to_prop] turns the boolean tests of executable definitions into the
    propositions they decide. *)
Ltac bool_to_prop :=
  cbv beta in *;
  repeat match goal with
  | H : (_ && _)%bool = true |- _ => apply andb_true_iff in H as [? ?]
  | H : (_ && _)%bool = false |- _ => apply andb_false_iff in H
  | H : (_ || _)%bool = true |- _ => apply orb_true_iff in H
  | H : (_ || _)%bool = false |- _ => apply orb_false_iff in H as [? ?]
  | H : negb _ = true |- _ => apply negb_true_iff in H
  | H : negb _ = false |- _ => apply negb_false_iff in H
  | H : bool_decide _ = true |- _ => apply bool_decide_eq_true in H
  | H : bool_decide _ = false |- _ => apply bool_decide_eq_false in H
  | H : (_ <? _)%Z = true |- _ => apply Z.ltb_lt in H
  | H : (_ <? _)%Z = false |- _ => apply Z.ltb_ge in H
  | H : (_ <=? _)%Z = true |- _ => apply Z.leb_le in H
  | H : (_ <=? _)%Z = false |- _ => apply Z.leb_gt in H
  | H : (_ =? _)%Z = true |- _ => apply Z.eqb_eq in H
  | H : (_ =? _)%Z = false |- _ => apply Z.eqb_neq in H
  end.

(** The rewrite and resolution hints of the development. *)
Create HintDb cassetta.

(** ** Lists *)

Section lists.
Context {A B : Type}.
Implicit Types (l k : list A) (f : A → option B).

(** First element that satisfies a boolean test: Python's
    [next((x for x in l if p x), None)]. *)
Fixpoint find_first (p : A → bool) (l : list A) : option A :=
  match l with
  | [] => None
  | x :: l' => if p x then Some x else find_first p l'
  end.

Lemma find_first_Some p l x :
  find_first p l = Some x → x ∈ l ∧ p x = true.
Proof.
  induction l as [|y l IH]; simpl; [done|]. case_match; intros; simplify_eq.
  - split; [constructor|done].
  - destruct IH; [done|]. split; [by constructor|done].
Qed.

Lemma find_first_None p l :
  find_first p l = None ↔ ∀ x, x ∈ l → p x = false.
Proof.
  induction l as [|y l IH]; simpl.
  - split; [intros _ x Hx; inversion Hx|done].
  - destruct (p y) eqn:E; split.
    + done.
    + intros H. rewrite (H y) in E; [done|constructor].
    + intros H x [->|Hx]%elem_of_cons; [done|]. by apply IH.
    + intros H. apply IH. intros x Hx. apply H. by constructor.
Qed.

(** [l] starts with [k]. *)
Definition list_prefixb `{EqDecision A} (k l : list A) : bool :=
  bool_decide (k `prefix_of` l).
End lists.

(** In an association list with distinct keys a key has one value. *)
Lemma NoDup_fst_inj {A B} (l : list (A * B)) k b b' :
  NoDup l.*1 → (k, b) ∈ l → (k, b') ∈ l → b = b'.
Proof.
  intros Hnd [i Hi]%list_elem_of_lookup [j Hj]%list_elem_of_lookup.
  assert (i = j) as ->; [|by simplify_eq].
  eapply (NoDup_lookup l.*1); [done| |]; rewrite list_lookup_fmap; [by rewrite Hi|by rewrite Hj].
Qed.

(** Sum of a list of integers: Python's [sum]. *)
Definition sumZ (l : list Z) : Z := foldr Z.add 0%Z l.

Lemma sumZ_app l k : sumZ (l ++ k) = (sumZ l + sumZ k)%Z.
Proof. induction l as [|x l IH]; simpl; [done|]. unfold sumZ in *. lia. Qed.

Lemma sumZ_nonneg l : Forall (λ x, 0 ≤ x)%Z l → (0 ≤ sumZ l)%Z.
Proof. induction 1; simpl; [done|]. unfold sumZ in *. lia. Qed.

Lemma sumZ_elem_le l x :
  Forall (λ x, 0 ≤ x)%Z l → x ∈ l → (x ≤ sumZ l)%Z.
Proof.
  intros Hl Hx. apply list_elem_of_split in Hx as (l1 & l2 & ->).
  apply Forall_app in Hl as [H1 [Hx H2]%Forall_cons].
  rewrite sumZ_app. apply sumZ_nonneg in H1, H2. simpl. unfold sumZ in *. lia.
Qed.

