(* ===== verification/PyStr.v ===== *)
(** * Python strings

    The string operations of the Python standard library that the modelled
    code uses.  A Python [str] is represented by its UTF-8 encoding, so [str]
    and [bytes] are both Rocq [string]s (sequences of bytes): [str.encode] is
    the identity, [bytes.decode("utf-8")] is a validity check, and the
    operations below, whose separators are all ASCII, act on the bytes exactly
    as the Python ones act on code points.  UTF-8 preserves the order of code
    points, so [sorted] and [<] on strings are the byte-wise ones. *)

From S2P Require Import Prelude.
From Stdlib Require Import Ascii String NArith.
Local Open Scope string_scope.
Local Open Scope list_scope.

Abbreviation str := string (only parsing).
Abbreviation bytes := string (only parsing).

(** ** Basic operations *)

(** [len] of a [bytes] value. *)
Definition blen (b : bytes) : Z := Z.of_nat (String.length b).

(** [s.startswith(p)]. *)
Fixpoint startswith (p s : str) : bool :=
  match p, s with
  | "", _ => true
  | String a p', String b s' => if decide (a = b) then startswith p' s' else false
  | String _ _, "" => false
  end.

(** [s[n:]]. *)
Fixpoint str_drop (n : nat) (s : str) : str :=
  match n, s with
  | 0, _ => s
  | S n', String _ s' => str_drop n' s'
  | S _, "" => ""
  end.

(** [s[:n]]. *)
Fixpoint str_take (n : nat) (s : str) : str :=
  match n, s with
  | 0, _ => ""
  | S n', String a s' => String a (str_take n' s')
  | S _, "" => ""
  end.

(** [s.removeprefix(p)]. *)
Definition removeprefix (p s : str) : str :=
  if startswith p s then str_drop (String.length p) s else s.

(** [c in s] for a one-character [c]. *)
Fixpoint has_char (c : ascii) (s : str) : bool :=
  match s with
  | "" => false
  | String a s' => if decide (a = c) then true else has_char c s'
  end.

(** [s.rstrip(c)] and [s.lstrip(c)] for a one-character [c]. *)
Fixpoint rstrip (c : ascii) (s : str) : str :=
  match s with
  | "" => ""
  | String a s' =>
      match rstrip c s' with
      | "" => if decide (a = c) then "" else String a ""
      | t => String a t
      end
  end.

Fixpoint lstrip (c : ascii) (s : str) : str :=
  match s with
  | String a s' => if decide (a = c) then lstrip c s' else s
  | "" => ""
  end.

(** [s.split(c)]: never empty. *)
Fixpoint split (c : ascii) (s : str) : list str :=
  match s with
  | "" => [""]
  | String a s' =>
      if decide (a = c) then "" :: split c s'
      else match split c s' with
           | x :: xs => String a x :: xs
           | [] => [String a ""]
           end
  end.

(** [c.join(l)] for a one-character [c]. *)
Fixpoint join (c : ascii) (l : list str) : str :=
  match l with
  | [] => ""
  | [x] => x
  | x :: l' => x +:+ String c (join c l')
  end.

(** [s.replace(a, b)] for one-character [a], [b]. *)
Fixpoint replace_char (a b : ascii) (s : str) : str :=
  match s with
  | "" => ""
  | String x s' => String (if decide (x = a) then b else x) (replace_char a b s')
  end.

(** [s.split(c, 1)] when [c in s]. *)
Fixpoint split1 (c : ascii) (s : str) : option (str * str) :=
  match s with
  | "" => None
  | String a s' =>
      if decide (a = c) then Some ("", s')
      else '(x, y) ← split1 c s'; Some (String a x, y)
  end.

(** [s.rsplit(c, 1)] when [c in s]. *)
Fixpoint rsplit1 (c : ascii) (s : str) : option (str * str) :=
  match s with
  | "" => None
  | String a s' =>
      match rsplit1 c s' with
      | Some (x, y) => Some (String a x, y)
      | None => if decide (a = c) then Some ("", s') else None
      end
  end.

(** [s.split(c)[-1]]. *)
Definition last_segment (c : ascii) (s : str) : str := default "" (last (split c s)).

(** [s.endswith(t)]. *)
Definition str_rev (s : str) : str :=
  string_of_list_ascii (rev (list_ascii_of_string s)).
Definition endswith (t s : str) : bool := startswith (str_rev t) (str_rev s).

(** All characters satisfy a test. *)
Fixpoint str_forall (p : ascii → bool) (s : str) : bool :=
  match s with
  | "" => true
  | String a s' => p a && str_forall p s'
  end.

(** ASCII lower case, as [str.lower] acts on ASCII letters. *)
Definition lower_char (a : ascii) : ascii :=
  let n := nat_of_ascii a in
  if (65 <=? n)%nat && (n <=? 90)%nat then ascii_of_nat (n + 32) else a.
Fixpoint lower (s : str) : str :=
  match s with "" => "" | String a s' => String (lower_char a) (lower s') end.

(** [s.strip()] on ASCII white space. *)
Fixpoint lstrip_ws (s : str) : str :=
  match s with
  | String a s' => if Ascii.is_space a then lstrip_ws s' else s
  | "" => ""
  end.
Definition strip (s : str) : str := str_rev (lstrip_ws (str_rev (lstrip_ws s))).

(** [a < b] on strings. *)
Definition str_ltb (a b : str) : bool := String.ltb a b.
(** [sorted] on strings. *)
Definition sorted (l : list str) : list str := merge_sort String.le l.

(** ** Lemmas *)

Lemma app_cons a s t : String a s +:+ t = String a (s +:+ t).
Proof. done. Qed.
Lemma app_empty_l s : "" +:+ s = s.
Proof. done. Qed.
Lemma app_empty_r s : s +:+ "" = s.
Proof. induction s as [|a s IH]; [done|]. by rewrite app_cons, IH. Qed.
Lemma app_str_assoc s t u : s +:+ t +:+ u = (s +:+ t) +:+ u.
Proof. induction s as [|a s IH]; [done|]. by rewrite !app_cons, IH. Qed.
Lemma list_ascii_app s t :
  list_ascii_of_string (s +:+ t) = list_ascii_of_string s ++ list_ascii_of_string t.
Proof. induction s as [|a s IH]; [done|]. rewrite app_cons; simpl. by rewrite IH. Qed.
Lemma list_ascii_inj s t : list_ascii_of_string s = list_ascii_of_string t → s = t.
Proof.
  intros H. rewrite <- (string_of_list_ascii_of_string s), <- (string_of_list_ascii_of_string t).
  by rewrite H.
Qed.
Lemma app_str_inj_r s t u : s +:+ u = t +:+ u → s = t.
Proof.
  intros H%(f_equal list_ascii_of_string). rewrite !list_ascii_app in H.
  by apply app_inv_tail, list_ascii_inj in H.
Qed.

(** Strings with different last characters differ. *)
Lemma app_str_last_ne s t u v :
  last (list_ascii_of_string u) ≠ last (list_ascii_of_string v) →
  u ≠ "" → v ≠ "" → s +:+ u ≠ t +:+ v.
Proof.
  intros Hl Hu Hv H%(f_equal (λ x, last (list_ascii_of_string x))).
  rewrite !list_ascii_app, !last_app in H.
  destruct (last (list_ascii_of_string u)) eqn:E1; [|apply last_None in E1; by destruct u].
  destruct (last (list_ascii_of_string v)) eqn:E2; [|apply last_None in E2; by destruct v].
  congruence.
Qed.
Lemma string_of_list_ascii_app k l :
  string_of_list_ascii (k ++ l) = string_of_list_ascii k +:+ string_of_list_ascii l.
Proof. induction k as [|a k IH]; [done|]. cbn. by rewrite IH. Qed.
Lemma str_rev_app s t : str_rev (s +:+ t) = str_rev t +:+ str_rev s.
Proof. unfold str_rev. by rewrite list_ascii_app, rev_app_distr, string_of_list_ascii_app. Qed.
Lemma app_str_inj s t u : s +:+ t = s +:+ u → t = u.
Proof. induction s as [|a s IH]; [done|]. rewrite !app_cons. intros [=]. auto. Qed.
Lemma length_app_str s t :
  String.length (s +:+ t) = String.length s + String.length t.
Proof. induction s as [|a s IH]; [done|]. rewrite app_cons. simpl. by rewrite IH. Qed.

#[export] Hint Rewrite app_cons app_empty_l app_empty_r length_app_str : cassetta.

Lemma blen_nonneg b : (0 ≤ blen b)%Z.
Proof. unfold blen. lia. Qed.
#[export] Hint Resolve blen_nonneg : cassetta.

Lemma startswith_spec p s : startswith p s = true ↔ ∃ t, s = p +:+ t.
Proof.
  revert s. induction p as [|a p IH]; intros s; simpl.
  { split; [intros _; by exists s|done]. }
  destruct s as [|b s]; [split; [done|by intros [t Ht]]|].
  case_decide; simplify_eq.
  - rewrite IH. split.
    + intros [t ->]. by exists t.
    + intros [t Ht]. exists t. rewrite app_cons in Ht. by simplify_eq.
  - split; [done|]. intros [t Ht]. rewrite app_cons in Ht. by simplify_eq.
Qed.

Lemma startswith_app p s : startswith p (p +:+ s) = true.
Proof. apply startswith_spec. by exists s. Qed.
#[export] Hint Rewrite startswith_app : cassetta.

Lemma string_length_app s t :
  String.length (s +:+ t) = (String.length s + String.length t)%nat.
Proof. induction s; [done|]. rewrite app_cons. simpl. lia. Qed.

Lemma str_take_length n s : (String.length (str_take n s) ≤ n)%nat.
Proof.
  revert s. induction n as [|n IH]; intros [|a s]; cbn; [lia..|]. specialize (IH s). lia.
Qed.

Lemma str_drop_app p s : str_drop (String.length p) (p +:+ s) = s.
Proof. induction p as [|a p IH]; [by destruct s|done]. Qed.

Lemma removeprefix_app p s : removeprefix p (p +:+ s) = s.
Proof. unfold removeprefix. by rewrite startswith_app, str_drop_app. Qed.
#[export] Hint Rewrite removeprefix_app : cassetta.

Lemma has_char_app c s t : has_char c (s +:+ t) = has_char c s || has_char c t.
Proof.
  induction s as [|a s IH]; [done|]. rewrite app_cons; simpl. by case_decide.
Qed.
#[export] Hint Rewrite has_char_app : cassetta.

Lemma str_forall_app p s t : str_forall p (s +:+ t) = str_forall p s && str_forall p t.
Proof.
  induction s as [|a s IH]; [done|]. rewrite app_cons; simpl. rewrite IH.
  by rewrite andb_assoc.
Qed.
#[export] Hint Rewrite str_forall_app : cassetta.

Lemma str_forall_has_char p c s :
  str_forall p s = true → p c = false → has_char c s = false.
Proof.
  intros Hs Hc. induction s as [|a s IH]; [done|]; simpl in *.
  bool_to_prop. case_decide; simplify_eq; [congruence|auto].
Qed.

Lemma split_not_nil c s : split c s ≠ [].
Proof. destruct s; simpl; repeat case_match; done. Qed.

Lemma join_split c s : join c (split c s) = s.
Proof.
  induction s as [|a s IH]; [done|]; simpl. case_decide; simplify_eq.
  - pose proof (split_not_nil c s). destruct (split c s) as [|l l0] eqn:E; [done|].
    change (join c ("" :: l :: l0)) with ("" +:+ String c (join c (l :: l0))).
    by rewrite app_empty_l, IH.
  - pose proof (split_not_nil c s). destruct (split c s) as [|x xs]; [done|].
    destruct xs; simpl in *; by rewrite ?app_cons, IH.
Qed.

(** Splitting an atom without separator. *)
Lemma split_atom c s : has_char c s = false → split c s = [s].
Proof.
  induction s as [|a s IH]; [done|]; simpl. case_decide; [done|].
  intros Hs. by rewrite IH.
Qed.

Lemma split_app c s t :
  has_char c s = false → split c (s +:+ String c t) = s :: split c t.
Proof.
  induction s as [|a s IH]; intros H.
  - rewrite app_empty_l; simpl. by rewrite decide_True.
  - simpl in H. rewrite app_cons; simpl. case_decide; [done|]. by rewrite IH.
Qed.

(** Joining two separator-joined strings appends their segments. *)
Lemma split_app_sep c s t : split c (s +:+ String c t) = split c s ++ split c t.
Proof.
  induction s as [|a s IH].
  - rewrite app_empty_l; simpl. by rewrite decide_True.
  - rewrite app_cons; simpl. case_decide; [by rewrite IH|].
    rewrite IH. pose proof (split_not_nil c s).
    by destruct (split c s).
Qed.

Lemma split_atoms c s : Forall (λ x, has_char c x = false) (split c s).
Proof.
  induction s as [|a s IH]; simpl; [by repeat constructor|].
  case_decide; [by constructor|].
  pose proof (split_not_nil c s). destruct (split c s) as [|x xs]; [done|].
  apply Forall_cons in IH as [? ?]. constructor; [|done].
  simpl. by rewrite decide_False.
Qed.

Lemma split_join c l :
  l ≠ [] → Forall (λ x, has_char c x = false) l → split c (join c l) = l.
Proof.
  intros Hne Hl. induction Hl as [|x l Hx Hl IH]; [done|].
  destruct l as [|y l]; [by apply split_atom|].
  change (join c (x :: y :: l)) with (x +:+ String c (join c (y :: l))).
  rewrite split_app by done. by rewrite IH.
Qed.

Lemma join_inj c l k :
  l ≠ [] → k ≠ [] →
  Forall (λ x, has_char c x = false) l → Forall (λ x, has_char c x = false) k →
  join c l = join c k → l = k.
Proof.
  intros ???? H. rewrite <- (split_join c l), <- (split_join c k) by done.
  by rewrite H.
Qed.

Lemma rsplit1_None c s : rsplit1 c s = None ↔ has_char c s = false.
Proof.
  induction s as [|a s IH]; [done|]; simpl.
  destruct (rsplit1 c s) as [[x y]|]; case_decide; simplify_eq; naive_solver.
Qed.

Lemma rsplit1_app c s t :
  has_char c t = false → rsplit1 c (s +:+ String c t) = Some (s, t).
Proof.
  intros Ht. induction s as [|a s IH].
  - rewrite app_empty_l; simpl. apply rsplit1_None in Ht.
    by rewrite Ht, decide_True.
  - rewrite app_cons; simpl. by rewrite IH.
Qed.

Lemma rstrip_char c s : rstrip c (s +:+ String c "") = rstrip c s.
Proof.
  induction s as [|a s IH].
  - rewrite app_empty_l; simpl. by rewrite decide_True.
  - rewrite app_cons; simpl. by rewrite IH.
Qed.

(** A string that does not end in [c] is not changed by [rstrip]. *)
Lemma rstrip_id c s t a : a ≠ c → t = s +:+ String a "" → rstrip c t = t.
Proof.
  intros Ha ->. induction s as [|b s IH].
  - rewrite app_empty_l; simpl. by rewrite decide_False.
  - rewrite app_cons; simpl. rewrite IH. by destruct s.
Qed.

Lemma rstrip_idemp c s : rstrip c (rstrip c s) = rstrip c s.
Proof.
  induction s as [|a s IH]; [done|]; simpl.
  destruct (rstrip c s) as [|b t] eqn:E; simpl.
  - case_decide; [done|]. simpl. by rewrite decide_False.
  - simpl in IH. by rewrite IH.
Qed.


(** ** [repr] and substring search *)

Definition dquote : ascii := ascii_of_nat 34.
Definition squote : ascii := ascii_of_nat 39.
Definition backslash : ascii := ascii_of_nat 92.
Definition newline : ascii := ascii_of_nat 10.

Definition lower_hex (n : nat) : ascii :=
  default "0"%char (String.get n "0123456789abcdef").

(** One character of [repr(s)], for the quote [q] that delimits it. *)
Definition repr_char (q a : ascii) : str :=
  let n := nat_of_ascii a in
  if decide (a = backslash) then String backslash (String backslash "")
  else if decide (a = q) then String backslash (String q "")
  else if decide (n = 10) then String backslash "n"
  else if decide (n = 13) then String backslash "r"
  else if decide (n = 9) then String backslash "t"
  else if decide (n < 32 ∨ n = 127)
  then String backslash (String "x"%char
         (String (lower_hex (n / 16)) (String (lower_hex (n mod 16)) "")))
  else String a "".

Fixpoint repr_body (q : ascii) (s : str) : str :=
  match s with
  | "" => ""
  | String a s' => repr_char q a +:+ repr_body q s'
  end.

(** [repr(s)] ([f"{s!r}"]); characters outside ASCII are taken to be printable. *)
Definition repr (s : str) : str :=
  let q := if has_char squote s && negb (has_char dquote s) then dquote else squote in
  String q (repr_body q s) +:+ String q "".

(** [sub in s]. *)
Fixpoint contains (sub s : str) : bool :=
  startswith sub s || match s with "" => false | String _ s' => contains sub s' end.

(** [sep.join(l)] for an arbitrary separator. *)
Fixpoint join_str (sep : str) (l : list str) : str :=
  match l with
  | [] => ""
  | [x] => x
  | x :: l' => x +:+ sep +:+ join_str sep l'
  end.

(** [sorted(set(l))]. *)
Definition sorted_set (l : list str) : list str := sorted (remove_dups l).

Lemma elem_of_sorted l x : x ∈ sorted l ↔ x ∈ l.
Proof. unfold sorted. by rewrite merge_sort_Permutation. Qed.

Lemma elem_of_sorted_set l x : x ∈ sorted_set l ↔ x ∈ l.
Proof. unfold sorted_set. by rewrite elem_of_sorted, elem_of_remove_dups. Qed.

Lemma sorted_set_StronglySorted l : StronglySorted String.le (sorted_set l).
Proof. apply (StronglySorted_merge_sort _). Qed.

Lemma sorted_set_NoDup l : NoDup (sorted_set l).
Proof.
  unfold sorted_set, sorted. rewrite merge_sort_Permutation. apply NoDup_remove_dups.
Qed.

(** ** The order of strings and prefixes *)

Lemma str_le_cons x y a b :
  String.le (String x a) (String y b) ↔
  (nat_of_ascii x < nat_of_ascii y ∨ (x = y ∧ String.le a b)).
Proof.
  unfold String.le, String.leb. simpl. unfold Ascii.compare.
  unfold nat_of_ascii.
  destruct (N.compare_spec (N_of_ascii x) (N_of_ascii y)) as [E|E|E].
  - assert (x = y) as -> by (rewrite <- (ascii_N_embedding x), E; apply ascii_N_embedding).
    split; [by right|]. intros [?|[_ ?]]; [lia|done].
  - split; [|done]. intros _. left. lia.
  - split; [done|]. intros [?|[-> ?]]; lia.
Qed.

(** A string between [a] and an extension of [a] extends [a]. *)
Lemma str_le_between a c s :
  String.le a c → String.le c (a +:+ s) → startswith a c = true.
Proof.
  revert c. induction a as [|x a IH]; intros c; [done|].
  destruct c as [|y c]; [done|]. rewrite app_cons, !str_le_cons; simpl.
  intros [?|[-> ?]] [?|[? ?]]; simplify_eq; try lia.
  rewrite decide_True by done. by apply IH.
Qed.

(** Comparing two strings with a common prefix compares what follows. *)
Lemma str_le_app a s t : String.le (a +:+ s) (a +:+ t) ↔ String.le s t.
Proof.
  induction a as [|x a IH]; [done|].
  rewrite !app_cons, str_le_cons, IH. naive_solver lia.
Qed.
