(* ===== verification/PyCodec.v ===== *)
(** * Byte codecs of the Python standard library

    UTF-8 decoding, [base64] and percent-encoding, as the modelled code uses
    them, with the round-trip lemmas the wire-format theorems rest on.  A
    [str] is its UTF-8 encoding (see [PyStr]), so [data.decode("utf-8")] is
    the identity on well-formed input and an error otherwise. *)

From S2P Require Import Prelude PyStr.
From Stdlib Require Import Ascii String NArith.
Local Open Scope string_scope.
Local Open Scope list_scope.
Local Open Scope N_scope.
Ltac Zify.zify_post_hook ::= Z.to_euclidean_division_equations.

(** ** UTF-8 *)

(** [lo <= byte <= hi]. *)
Definition byte_in (lo hi : N) (a : ascii) : bool :=
  (lo <=? N_of_ascii a) && (N_of_ascii a <=? hi).

Definition cont_byte : ascii → bool := byte_in 128 191.

(** [data.decode("utf-8")] succeeds: the well-formed byte sequences of the
    Unicode standard (table 3-7), which is what Python's strict decoder
    accepts. *)
Fixpoint utf8_valid (s : bytes) : bool :=
  match s with
  | "" => true
  | String a s1 =>
      if byte_in 0 127 a then utf8_valid s1 else
      match s1 with
      | "" => false
      | String b s2 =>
          if byte_in 194 223 a then cont_byte b && utf8_valid s2 else
          match s2 with
          | "" => false
          | String c s3 =>
              if byte_in 224 224 a then byte_in 160 191 b && cont_byte c && utf8_valid s3
              else if byte_in 237 237 a then byte_in 128 159 b && cont_byte c && utf8_valid s3
              else if byte_in 225 239 a then cont_byte b && cont_byte c && utf8_valid s3
              else match s3 with
              | "" => false
              | String d s4 =>
                  (if byte_in 240 240 a then byte_in 144 191 b
                   else if byte_in 241 243 a then cont_byte b
                   else if byte_in 244 244 a then byte_in 128 143 b
                   else false)
                  && cont_byte c && cont_byte d && utf8_valid s4
              end
          end
      end
  end.

(** [data.decode("utf-8")]: [None] is [UnicodeDecodeError]. *)
Definition utf8_decode (data : bytes) : option str :=
  if utf8_valid data then Some data else None.

(** ** Base64 *)

Definition b64_alphabet : str :=
  "ABCDEFGHIJKLMNOPQRSTUVWXYZabcdefghijklmnopqrstuvwxyz0123456789+/".

Definition sextet (n : N) : ascii :=
  default "A"%char (String.get (N.to_nat n) b64_alphabet).

Definition unsextet (c : ascii) : option N :=
  let n := N_of_ascii c in
  if byte_in 65 90 c then Some (n - 65)
  else if byte_in 97 122 c then Some (n - 71)
  else if byte_in 48 57 c then Some (n + 4)
  else if byte_in 43 43 c then Some 62
  else if byte_in 47 47 c then Some 63
  else None.

Definition pad : ascii := "="%char.

(** [base64.b64encode(data).decode("ascii")]. *)
Fixpoint b64encode (data : bytes) : str :=
  match data with
  | "" => ""
  | String a "" =>
      let a := N_of_ascii a in
      String (sextet (a / 4)) (String (sextet (a mod 4 * 16)) "==")
  | String a (String b "") =>
      let a := N_of_ascii a in let b := N_of_ascii b in
      String (sextet (a / 4)) (String (sextet (a mod 4 * 16 + b / 16))
        (String (sextet (b mod 16 * 4)) "="))
  | String a (String b (String c rest)) =>
      let a := N_of_ascii a in let b := N_of_ascii b in let c := N_of_ascii c in
      String (sextet (a / 4)) (String (sextet (a mod 4 * 16 + b / 16))
        (String (sextet (b mod 16 * 4 + c / 64)) (String (sextet (c mod 64))
          (b64encode rest))))
  end.

(** [base64.b64decode(content, validate=True)]: [None] is [binascii.Error]
    (a [ValueError]).  As in CPython, padding may only end the input and the
    unused bits of the last sextet are ignored. *)
Fixpoint b64decode (content : str) : option bytes :=
  match content with
  | "" => Some ""
  | String w (String x (String y (String z rest))) =>
      match unsextet w, unsextet x with
      | Some w, Some x =>
          let a := ascii_of_N (w * 4 + x / 16) in
          if decide (z = pad) then
            if decide (rest = "") then
              if decide (y = pad) then Some (String a "")
              else y ← unsextet y;
                   Some (String a (String (ascii_of_N (x mod 16 * 16 + y / 4)) ""))
            else None
          else
            y ← unsextet y;
            z ← unsextet z;
            t ← b64decode rest;
            Some (String a (String (ascii_of_N (x mod 16 * 16 + y / 4))
                   (String (ascii_of_N (y mod 4 * 64 + z)) t)))
      | _, _ => None
      end
  | _ => None
  end.

(** ** Percent-encoding *)

Definition hex_digit (n : N) : ascii :=
  default "0"%char (String.get (N.to_nat n) "0123456789ABCDEF").

Definition unhex (c : ascii) : option N :=
  let n := N_of_ascii c in
  if byte_in 48 57 c then Some (n - 48)
  else if byte_in 65 70 c then Some (n - 55)
  else if byte_in 97 102 c then Some (n - 87)
  else None.

(** The characters [urllib.parse.quote] never escapes. *)
Definition unreserved (c : ascii) : bool :=
  byte_in 65 90 c || byte_in 97 122 c || byte_in 48 57 c
  || byte_in 95 95 c || byte_in 46 46 c || byte_in 45 45 c || byte_in 126 126 c.

Definition percent : ascii := "%"%char.

(** [urllib.parse.quote(s, safe="")]. *)
Fixpoint quote (s : str) : str :=
  match s with
  | "" => ""
  | String a s' =>
      if unreserved a then String a (quote s')
      else let n := N_of_ascii a in
           String percent (String (hex_digit (n / 16)) (String (hex_digit (n mod 16)) (quote s')))
  end.

(** [urllib.parse.unquote(s)]; escapes that are not two hexadecimal digits are
    left as they are.  (Python additionally replaces byte sequences that are
    not UTF-8 by U+FFFD; the bytes are kept here.) *)
Fixpoint unquote (s : str) : str :=
  match s with
  | "" => ""
  | String a s' =>
      if decide (a = percent) then
        match s' with
        | String h (String l s'') =>
            match unhex h, unhex l with
            | Some h, Some l => String (ascii_of_N (h * 16 + l)) (unquote s'')
            | _, _ => String a (unquote s')
            end
        | _ => String a (unquote s')
        end
      else String a (unquote s')
  end.

(** ** Lemmas *)

Arguments unreserved : simpl never.
Arguments unhex : simpl never.
Arguments hex_digit : simpl never.
Arguments sextet : simpl never.
Arguments unsextet : simpl never.
Arguments percent : simpl never.

Lemma byte_bound a : N_of_ascii a < 256.
Proof. apply N_ascii_bounded. Qed.

(** Checking a boolean property of the first [n] naturals by computation. *)
Lemma N_forall_lt (p : N → bool) (n : nat) :
  forallb (λ k, p (N.of_nat k)) (seq 0 n) = true →
  ∀ k, k < N.of_nat n → p k = true.
Proof.
  intros H k Hk. rewrite forallb_forall in H.
  rewrite <- (N2Nat.id k). apply H, in_seq. lia.
Qed.

Lemma sextet_spec n :
  n < 64 → unsextet (sextet n) = Some n ∧ sextet n ≠ pad.
Proof.
  intros Hn.
  pose proof (N_forall_lt
    (λ n, bool_decide (unsextet (sextet n) = Some n ∧ sextet n ≠ pad)) 64 eq_refl n Hn).
  by bool_to_prop.
Qed.

Lemma hex_digit_spec n : n < 16 → unhex (hex_digit n) = Some n.
Proof.
  intros Hn.
  pose proof (N_forall_lt (λ n, bool_decide (unhex (hex_digit n) = Some n)) 16 eq_refl n Hn).
  by bool_to_prop.
Qed.

(** Recombining the digits of a byte gives the byte back. *)
Lemma ascii_of_digits (a : ascii) n : n = N_of_ascii a → ascii_of_N n = a.
Proof. intros ->. apply ascii_N_embedding. Qed.

(** Three-step induction on strings, the recursion of the base64 routines. *)
Lemma string_ind3 (P : string → Prop) :
  P "" → (∀ a, P (String a "")) → (∀ a b, P (String a (String b ""))) →
  (∀ a b c s, P s → P (String a (String b (String c s)))) → ∀ s, P s.
Proof.
  intros H0 H1 H2 H3.
  fix IH 1. intros [|a [|b [|c s]]]; [done|apply H1|apply H2|apply H3, IH].
Qed.

Ltac b64_step :=
  repeat match goal with
  | |- context [unsextet (sextet ?n)] =>
      let H := fresh in
      assert (n < 64) as H by lia;
      destruct (sextet_spec n H) as [-> ?]; clear H; simpl
  end; repeat first [rewrite decide_True by done | rewrite decide_False by done].

Lemma b64decode_encode data : b64decode (b64encode data) = Some data.
Proof.
  induction data as [|a|a b|a b c rest IH] using string_ind3; [done|..];
    pose proof (byte_bound a); simpl.
  - b64_step. f_equal. f_equal. apply ascii_of_digits. lia.
  - pose proof (byte_bound b). b64_step.
    f_equal. f_equal; [|f_equal]; apply ascii_of_digits; lia.
  - pose proof (byte_bound b). pose proof (byte_bound c). b64_step.
    rewrite IH; simpl.
    f_equal. f_equal; [|f_equal; [|f_equal]]; apply ascii_of_digits; lia.
Qed.

Lemma unquote_cons_safe a s : a ≠ percent → unquote (String a s) = String a (unquote s).
Proof. intros Ha. simpl. by rewrite decide_False by done. Qed.

Lemma unreserved_not_percent a : unreserved a = true → a ≠ percent.
Proof. intros H ->. vm_compute in H. done. Qed.

Lemma unquote_escape h l s x y :
  unhex h = Some x → unhex l = Some y →
  unquote (String percent (String h (String l s)))
  = String (ascii_of_N (x * 16 + y)) (unquote s).
Proof. intros Hh Hl. cbn [unquote]. rewrite Hh, Hl. by destruct (decide (percent = percent)). Qed.

Lemma unquote_quote s : unquote (quote s) = s.
Proof.
  induction s as [|a s IH]; [done|]; simpl. destruct (unreserved a) eqn:E.
  - rewrite unquote_cons_safe by (by apply unreserved_not_percent). by rewrite IH.
  - pose proof (byte_bound a).
    erewrite unquote_escape by (apply hex_digit_spec; lia).
    rewrite IH. f_equal. apply ascii_of_digits. lia.
Qed.

(** A quoted string holds no separator of a URL path or query. *)
Lemma quote_no_char c s :
  unreserved c = false → c ≠ percent → str_forall (λ d, negb (bool_decide (d = c))) "0123456789ABCDEF" = true →
  has_char c (quote s) = false.
Proof.
  intros Hc Hp Hhex.
  assert (∀ n, n < 16 → hex_digit n ≠ c) as Hh.
  { intros n Hn. unfold hex_digit.
    pose proof (N_forall_lt (λ n, bool_decide (has_char
      (default "0"%char (String.get (N.to_nat n) "0123456789ABCDEF")) "0123456789ABCDEF" = true))
      16 eq_refl n Hn) as Hin. bool_to_prop. intros Heq. rewrite Heq in Hin.
    pose proof (str_forall_has_char _ c _ Hhex) as Hno. rewrite Hno in Hin; [done|].
    by rewrite bool_decide_true. }
  induction s as [|a s IH]; [done|]; simpl. destruct (unreserved a) eqn:E; simpl.
  - case_decide; [congruence|done].
  - pose proof (byte_bound a). rewrite !decide_False; [done|apply Hh; lia..|done].
Qed.

(** A quoted string is made of unreserved characters and [%]. *)
Lemma quote_forall p s :
  (∀ a, unreserved a = true → p a = true) → p percent = true → str_forall p (quote s) = true.
Proof.
  intros Hu Hp.
  assert (∀ n, n < 16 → p (hex_digit n) = true) as Hh.
  { intros n Hn. apply Hu.
    pose proof (N_forall_lt (λ n, unreserved (hex_digit n)) 16 eq_refl n Hn) as Hin. done. }
  induction s as [|a s IH]; [done|]; simpl. destruct (unreserved a) eqn:E; simpl.
  - by rewrite Hu.
  - pose proof (byte_bound a). by rewrite Hp, !Hh by lia.
Qed.

(** Percent-decoding leaves a string without [%] alone. *)
Lemma unquote_id s : has_char percent s = false → unquote s = s.
Proof.
  induction s as [|a s IH]; [done|]. intros H. simpl in H. case_decide; [done|].
  rewrite unquote_cons_safe by done. by rewrite IH.
Qed.
