(* ===== verification/Json.v ===== *)
(** * JSON

    The [json] module as the code uses it: [json.dumps] with its default
    options, and [json.loads].  Numbers with a fraction or an exponent keep
    their literal text; a lone surrogate escape, which Python would turn into
    a string that cannot be encoded, is a decoding error here.  The theorem of
    the file is that [loads] inverts [dumps]. *)

From Stdlib Require Import Ascii String NArith.
From stdpp Require Import pretty.
From S2P Require Import Prelude PyStr PyCodec.
Local Open Scope string_scope.
Local Open Scope list_scope.
Local Open Scope N_scope.

Inductive json :=
  | JNull
  | JBool (b : bool)
  | JInt (z : Z)
  | JFloat (text : str)
  | JStr (s : str)
  | JList (l : list json)
  | JDict (kv : list (str * json)).

(** ** Dictionaries, in insertion order *)

Abbreviation dict := (list (str * json)).

(** [d.get(k)]. *)
Definition dict_get (k : str) (d : dict) : option json :=
  snd <$> find_first (λ kv, bool_decide (kv.1 = k)) d.

(** [d[k] = v]. *)
Fixpoint dict_set (k : str) (v : json) (d : dict) : dict :=
  match d with
  | [] => [(k, v)]
  | (k', v') :: d' => if decide (k' = k) then (k, v) :: d' else (k', v') :: dict_set k v d'
  end.

(** ** Code points *)

Fixpoint code_points (s : str) : list N :=
  match s with
  | "" => []
  | String a s1 =>
      let n := N_of_ascii a in
      if n <? 128 then n :: code_points s1 else
      match s1 with
      | "" => []
      | String b s2 =>
          let n := (n mod 64) * 64 + N_of_ascii b mod 64 in
          if N_of_ascii a <? 224 then n mod 2048 :: code_points s2 else
          match s2 with
          | "" => []
          | String c s3 =>
              let n := n * 64 + N_of_ascii c mod 64 in
              if N_of_ascii a <? 240 then n mod 65536 :: code_points s3 else
              match s3 with
              | "" => []
              | String d s4 =>
                  (n * 64 + N_of_ascii d mod 64) mod 2097152 :: code_points s4
              end
          end
      end
  end.

(** [chr(n)], in UTF-8. *)
Definition chr (n : N) : str :=
  if n <? 128 then String (ascii_of_N n) ""
  else if n <? 2048 then
    String (ascii_of_N (192 + n / 64)) (String (ascii_of_N (128 + n mod 64)) "")
  else if n <? 65536 then
    String (ascii_of_N (224 + n / 4096)) (String (ascii_of_N (128 + n / 64 mod 64))
      (String (ascii_of_N (128 + n mod 64)) ""))
  else
    String (ascii_of_N (240 + n / 262144)) (String (ascii_of_N (128 + n / 4096 mod 64))
      (String (ascii_of_N (128 + n / 64 mod 64)) (String (ascii_of_N (128 + n mod 64)) ""))).

(** ** Encoding *)

Definition hex_lower (n : N) : ascii :=
  default "0"%char (String.get (N.to_nat n) "0123456789abcdef").

(** [\uXXXX]. *)
Definition escape_u (n : N) : str :=
  String backslash (String "u" (String (hex_lower (n / 4096)) (String (hex_lower (n / 256 mod 16))
    (String (hex_lower (n / 16 mod 16)) (String (hex_lower (n mod 16)) ""))))).

Definition escape_pair (c : ascii) : str := String backslash (String c "").

(** [ESCAPE_ASCII] and [ESCAPE_DCT] of [json.encoder]. *)
Definition escape_char (n : N) : str :=
  if n =? 34 then escape_pair dquote
  else if n =? 92 then escape_pair backslash
  else if n =? 10 then escape_pair "n"
  else if n =? 13 then escape_pair "r"
  else if n =? 9 then escape_pair "t"
  else if n =? 12 then escape_pair "f"
  else if n =? 8 then escape_pair "b"
  else if (32 <=? n) && (n <=? 126) then String (ascii_of_N n) ""
  else if n <? 65536 then escape_u n
  else escape_u (55296 + (n - 65536) / 1024) +:+ escape_u (56320 + (n - 65536) mod 1024).

(** [ESCAPE] of [json.encoder], for [ensure_ascii=False]. *)
Definition escape_raw (n : N) : str :=
  if n =? 34 then escape_pair dquote
  else if n =? 92 then escape_pair backslash
  else if n =? 10 then escape_pair "n"
  else if n =? 13 then escape_pair "r"
  else if n =? 9 then escape_pair "t"
  else if n =? 12 then escape_pair "f"
  else if n =? 8 then escape_pair "b"
  else if n <? 32 then escape_u n
  else chr n.

(** [json.dumps] over a way to escape characters. *)
Section dumps.
Variable escape : N → str.

Definition dump_string_with (s : str) : str :=
  String dquote (foldr (λ n acc, escape n +:+ acc) (String dquote "") (code_points s)).

Fixpoint json_dumps_with (j : json) : str :=
  match j with
  | JNull => "null"
  | JBool true => "true"
  | JBool false => "false"
  | JInt z => pretty z
  | JFloat text => text
  | JStr s => dump_string_with s
  | JList l => "[" +:+ join_str ", " (map json_dumps_with l) +:+ "]"
  | JDict kv =>
      "{" +:+ join_str ", " (map (λ '(k, v), dump_string_with k +:+ ": " +:+ json_dumps_with v) kv) +:+ "}"
  end.
End dumps.

(** The default options. *)
Definition dump_string : str → str := dump_string_with escape_char.
Definition json_dumps : json → str := json_dumps_with escape_char.

(** [str(x)] of a decoded value; of a list or an object, its JSON text stands
    for Python's [repr]. *)
Definition py_str (j : json) : str :=
  match j with
  | JStr s => s
  | JInt z => pretty z
  | JNull => "None"
  | JBool true => "True"
  | JBool false => "False"
  | JFloat t => t
  | JList _ | JDict _ => json_dumps j
  end.

(** The truth value of a decoded value; a number with a fraction counts as
    true. *)
Definition py_truthy (j : json) : bool :=
  match j with
  | JNull => false
  | JBool b => b
  | JInt z => negb (bool_decide (z = 0%Z))
  | JFloat _ => true
  | JStr s => negb (bool_decide (s = ""))
  | JList l => match l with [] => false | _ => true end
  | JDict kv => match kv with [] => false | _ => true end
  end.

(** [d.get(k) or ""], and [str(d.get(k) or "")]. *)
Definition get_or_empty (k : str) (d : dict) : str :=
  match dict_get k d with
  | Some j => if py_truthy j then py_str j else ""
  | None => ""
  end.

(** [str(d.get(k, default))]. *)
Definition get_str (k : str) (default : str) (d : dict) : str :=
  match dict_get k d with Some j => py_str j | None => default end.

(** ** Decoding *)

Fixpoint skip_ws (s : str) : str :=
  match s with
  | String a s' =>
      if bool_decide (a = " "%char ∨ a = "009"%char ∨ a = "010"%char ∨ a = "013"%char)
      then skip_ws s' else s
  | "" => ""
  end.

Definition take_hex4 (s : str) : option (N * str) :=
  match s with
  | String a (String b (String c (String d s'))) =>
      a ← unhex a; b ← unhex b; c ← unhex c; d ← unhex d;
      Some (((a * 16 + b) * 16 + c) * 16 + d, s')
  | _ => None
  end.

Definition simple_escape (c : ascii) : option ascii :=
  if decide (c = dquote) then Some dquote
  else if decide (c = backslash) then Some backslash
  else if decide (c = "/"%char) then Some "/"%char
  else if decide (c = "b"%char) then Some "008"%char
  else if decide (c = "f"%char) then Some "012"%char
  else if decide (c = "n"%char) then Some "010"%char
  else if decide (c = "r"%char) then Some "013"%char
  else if decide (c = "t"%char) then Some "009"%char
  else None.

(** The escape sequence after a backslash: its characters and what follows. *)
Definition parse_escape (s : str) : option (str * str) :=
  match s with
  | "" => None
  | String e s' =>
      if decide (e = "u"%char) then
        '(u, r) ← take_hex4 s';
        if (55296 <=? u) && (u <? 56320) then
          match r with
          | String b (String v r') =>
              if bool_decide (b = backslash ∧ v = "u"%char) then
                '(lo, r'') ← take_hex4 r';
                if (56320 <=? lo) && (lo <? 57344)
                then Some (chr (65536 + (u - 55296) * 1024 + (lo - 56320)), r'')
                else None
              else None
          | _ => None
          end
        else if (56320 <=? u) && (u <? 57344) then None
        else Some (chr u, r)
      else c ← simple_escape e; Some (String c "", s')
  end.

(** The body of a string literal and what follows its closing quote. *)
Fixpoint parse_chars (fuel : nat) (s : str) : option (str * str) :=
  match fuel, s with
  | S fuel, String a s' =>
      if decide (a = dquote) then Some ("", s')
      else if decide (a = backslash) then
        '(c, r) ← parse_escape s';
        '(t, r') ← parse_chars fuel r;
        Some (c +:+ t, r')
      else if N_of_ascii a <? 32 then None
      else '(t, r) ← parse_chars fuel s'; Some (String a t, r)
  | _, _ => None
  end.

Definition is_digit (a : ascii) : bool := byte_in 48 57 a.

Fixpoint span_digits (s : str) : str * str :=
  match s with
  | "" => ("", "")
  | String a s' =>
      if is_digit a then let '(d, r) := span_digits s' in (String a d, r) else ("", s)
  end.

Fixpoint digits_value (acc : N) (s : str) : N :=
  match s with
  | "" => acc
  | String a s' => digits_value (acc * 10 + (N_of_ascii a - 48)) s'
  end.

(** [0|[1-9][0-9]*]. *)
Definition parse_nat (s : str) : option (str * str) :=
  match s with
  | String a s' =>
      if decide (a = "0"%char) then Some (String a "", s')
      else match span_digits s with
           | ("", _) => None
           | (d, r) => Some (d, r)
           end
  | "" => None
  end.

(** [(\.[0-9]+)?] and [([eE][-+]?[0-9]+)?]: the matched text and what follows. *)
Definition parse_frac (s : str) : str * str :=
  match s with
  | String a s' =>
      if decide (a = "."%char) then
        match span_digits s' with
        | ("", _) => ("", s)
        | (d, r) => (String a d, r)
        end
      else ("", s)
  | "" => ("", "")
  end.

Definition parse_exp (s : str) : str * str :=
  match s with
  | String a s' =>
      if bool_decide (a = "e"%char ∨ a = "E"%char) then
        let '(sign, s'') :=
          match s' with
          | String b t => if bool_decide (b = "-"%char ∨ b = "+"%char)
                          then (String b "", t) else ("", s')
          | "" => ("", "")
          end in
        match span_digits s'' with
        | ("", _) => ("", s)
        | (d, r) => (String a (sign +:+ d), r)
        end
      else ("", s)
  | "" => ("", "")
  end.

Definition parse_number (s : str) : option (json * str) :=
  let '(neg, t) := match s with
    | String a s' => if decide (a = "-"%char) then (true, s') else (false, s)
    | "" => (false, "")
    end in
  '(d, r) ← parse_nat t;
  let '(f, r1) := parse_frac r in
  let '(e, r2) := parse_exp r1 in
  if decide (f = "" ∧ e = "") then
    let n := Z.of_N (digits_value 0 d) in
    Some (JInt (if neg then Z.opp n else n), r)
  else Some (JFloat ((if neg then "-" else "") +:+ d +:+ f +:+ e), r2).

Definition words : list (str * json) :=
  [("null", JNull); ("true", JBool true); ("false", JBool false);
   ("NaN", JFloat "NaN"); ("Infinity", JFloat "Infinity"); ("-Infinity", JFloat "-Infinity")].

Definition parse_word (s : str) : option (json * str) :=
  '(w, j) ← find_first (λ wj, startswith wj.1 s) words;
  Some (j, str_drop (String.length w) s).

Fixpoint parse_value (fuel : nat) (s : str) : option (json * str) :=
  match fuel, s with
  | S fuel, String a s1 =>
      if decide (a = dquote) then
        '(t, r) ← parse_chars (String.length s1) s1; Some (JStr t, r)
      else if decide (a = "["%char) then
        if startswith "]" (skip_ws s1) then Some (JList [], str_drop 1 (skip_ws s1))
        else '(l, r) ← parse_items fuel (skip_ws s1); Some (JList l, r)
      else if decide (a = "{"%char) then
        if startswith "}" (skip_ws s1) then Some (JDict [], str_drop 1 (skip_ws s1))
        else '(l, r) ← parse_members fuel (skip_ws s1);
             Some (JDict (foldl (λ d '(k, v), dict_set k v d) [] l), r)
      else match parse_word s with Some x => Some x | None => parse_number s end
  | _, _ => None
  end
with parse_items (fuel : nat) (s : str) : option (list json * str) :=
  match fuel with
  | 0%nat => None
  | S fuel =>
      '(v, r) ← parse_value fuel s;
      match skip_ws r with
      | String b r' =>
          if decide (b = ","%char) then
            '(l, r'') ← parse_items fuel (skip_ws r'); Some (v :: l, r'')
          else if decide (b = "]"%char) then Some ([v], r')
          else None
      | "" => None
      end
  end
with parse_members (fuel : nat) (s : str) : option (dict * str) :=
  match fuel, s with
  | S fuel, String q s1 =>
      if decide (q = dquote) then
        '(k, r) ← parse_chars (String.length s1) s1;
        match skip_ws r with
        | String c r1 =>
            if decide (c = ":"%char) then
              '(v, r2) ← parse_value fuel (skip_ws r1);
              match skip_ws r2 with
              | String b r' =>
                  if decide (b = ","%char) then
                    '(l, r'') ← parse_members fuel (skip_ws r'); Some ((k, v) :: l, r'')
                  else if decide (b = "}"%char) then Some ([(k, v)], r')
                  else None
              | "" => None
              end
            else None
        | "" => None
        end
      else None
  | _, _ => None
  end.

(** [json.loads(s)]: [None] is [JSONDecodeError]. *)
Definition json_loads (s : str) : option json :=
  '(j, r) ← parse_value (String.length s) (skip_ws s);
  if decide (skip_ws r = "") then Some j else None.

Example loads_example :
  json_loads (" {" +:+ dump_string "a" +:+ " : [1, -20,2.5e3 ,null]," +:+ dump_string "a" +:+ ":{}}")
  = Some (JDict [("a", JDict [])]).
Proof. vm_compute. reflexivity. Qed.

(** ** Lemmas *)

Lemma dict_get_eq k v d : dict_get k ((k, v) :: d) = Some v.
Proof. unfold dict_get. cbn [find_first fst]. by rewrite bool_decide_true. Qed.
Lemma dict_get_ne k k' v d : k' ≠ k → dict_get k ((k', v) :: d) = dict_get k d.
Proof. intros Hk. unfold dict_get. cbn [find_first fst]. by rewrite bool_decide_false. Qed.
Lemma dict_get_nil k : dict_get k [] = None.
Proof. done. Qed.

(** Looking a literal key up in a literal dictionary. *)
Ltac dict_lookup :=
  repeat first [rewrite dict_get_eq | rewrite dict_get_ne by done | rewrite dict_get_nil].

Arguments hex_lower : simpl never.
Arguments chr : simpl never.
Arguments escape_char : simpl never.
Arguments escape_u : simpl never.

(** *** Code points *)

(** A Unicode scalar value. *)
Definition scalar (n : N) : Prop := n < 55296 ∨ 57344 ≤ n < 1114112.

Lemma byte_in_spec lo hi a :
  byte_in lo hi a = true ↔ lo ≤ N_of_ascii a ∧ N_of_ascii a ≤ hi.
Proof. unfold byte_in. by rewrite andb_true_iff, !N.leb_le. Qed.

Lemma byte_in_false lo hi a :
  byte_in lo hi a = false ↔ N_of_ascii a < lo ∨ hi < N_of_ascii a.
Proof. unfold byte_in. by rewrite andb_false_iff, !N.leb_gt. Qed.

Definition string_of_points (l : list N) : str := foldr (λ n acc, chr n +:+ acc) "" l.

(** Shorthand for the continuation bytes of a proof. *)
Ltac utf8_bounds :=
  unfold cont_byte in *;
  repeat match goal with
  | H : _ && _ = true |- _ => apply andb_true_iff in H as [? ?]
  | H : (if ?b then _ else _) = true |- _ => destruct b eqn:?
  | H : false = true |- _ => discriminate H
  | H : byte_in _ _ _ = true |- _ => apply byte_in_spec in H
  | H : byte_in _ _ _ = false |- _ => apply byte_in_false in H
  end.

Ltac chr_cases :=
  unfold chr;
  repeat match goal with
  | |- context [?a <? ?b] => destruct (N.ltb_spec a b); try lia
  end.

Lemma base64_digits4 x y z w :
  y < 64 → z < 64 → w < 64 →
  let n := ((x * 64 + y) * 64 + z) * 64 + w in
  n / 262144 = x ∧ (n / 4096) mod 64 = y ∧ (n / 64) mod 64 = z ∧ n mod 64 = w.
Proof. intros. cbv zeta. lia. Qed.

(** The encoding of a code point of four bytes, from its digits. *)
Lemma chr_digits4 x y z w :
  x < 8 → y < 64 → z < 64 → w < 64 → 65536 <= ((x * 64 + y) * 64 + z) * 64 + w →
  chr (((x * 64 + y) * 64 + z) * 64 + w)
  = String (ascii_of_N (240 + x)) (String (ascii_of_N (128 + y))
      (String (ascii_of_N (128 + z)) (String (ascii_of_N (128 + w)) ""))).
Proof.
  intros Hx Hy Hz Hw Hn. destruct (base64_digits4 x y z w Hy Hz Hw) as (E1 & E2 & E3 & E4).
  set (n := ((x * 64 + y) * 64 + z) * 64 + w) in *. clearbody n.
  unfold chr. rewrite !(proj2 (N.ltb_ge _ _)) by lia. by rewrite E1, E2, E3, E4.
Qed.

Lemma code_points_spec s :
  utf8_valid s = true →
  string_of_points (code_points s) = s ∧ Forall scalar (code_points s).
Proof.
  remember (String.length s) as n eqn:Hn.
  assert (Hle : (String.length s ≤ n)%nat) by lia. clear Hn. revert s Hle.
  induction n as [|n IH]; intros [|a s1] Hle Hv; simpl in Hle; [done|lia|done|].
  pose proof (byte_bound a). cbn [utf8_valid] in Hv. cbn [code_points].
  destruct (N.ltb_spec (N_of_ascii a) 128) as [Ha|Ha].
  { replace (byte_in 0 127 a) with true in Hv by (symmetry; apply byte_in_spec; lia).
    destruct (IH s1) as [E1 E2]; [lia|done|]. split; [|constructor; [left; lia|done]].
    simpl. rewrite E1. chr_cases. rewrite app_cons. by rewrite ascii_N_embedding. }
  replace (byte_in 0 127 a) with false in Hv by (symmetry; apply byte_in_false; lia).
  destruct s1 as [|b s2]; [done|]. pose proof (byte_bound b).
  destruct (N.ltb_spec (N_of_ascii a) 224) as [Ha2|Ha2].
  { destruct (byte_in 194 223 a) eqn:E2.
    2:{ destruct s2 as [|c s3]; [done|]. utf8_bounds; try lia.
        all: destruct s3; [done|]; utf8_bounds; lia. }
    utf8_bounds. destruct (IH s2) as [E3 E4]; [simpl in Hle; lia|done|].
    split; [|constructor; [left; lia|done]].
    simpl. rewrite E3. chr_cases. rewrite ?app_cons; simpl. f_equal; [|f_equal]; apply ascii_of_digits; lia. }
  replace (byte_in 194 223 a) with false in Hv by (symmetry; apply byte_in_false; lia).
  destruct s2 as [|c s3]; [done|]. pose proof (byte_bound c).
  destruct (N.ltb_spec (N_of_ascii a) 240) as [Ha3|Ha3].
  { assert (Hv3 : utf8_valid s3 = true ∧ byte_in 128 191 b = true ∧ byte_in 128 191 c = true
      ∧ (N_of_ascii a = 224 → 160 ≤ N_of_ascii b) ∧ (N_of_ascii a = 237 → N_of_ascii b ≤ 159)).
    { utf8_bounds; rewrite ?byte_in_spec; split_and?; try done; try lia.
      all: destruct s3; [done|]; utf8_bounds; lia. }
    clear Hv. destruct Hv3 as (Hv & Hb & Hc & Hlo & Hhi). utf8_bounds.
    destruct (IH s3) as [E3 E4]; [simpl in Hle; lia|done|].
    split; [|constructor; [|done]].
    - simpl. rewrite E3. chr_cases. rewrite ?app_cons; simpl.
      f_equal; [|f_equal; [|f_equal]]; apply ascii_of_digits; lia.
    - unfold scalar. lia. }
  destruct s3 as [|d s4]; [by exfalso; utf8_bounds; lia|]. pose proof (byte_bound d).
  assert (Hv4 : utf8_valid s4 = true ∧ byte_in 128 191 b = true ∧ byte_in 128 191 c = true
    ∧ byte_in 128 191 d = true ∧ N_of_ascii a <= 244
    ∧ (N_of_ascii a = 240 → 144 <= N_of_ascii b) ∧ (N_of_ascii a = 244 → N_of_ascii b <= 143)).
  { utf8_bounds; rewrite ?byte_in_spec; split_and?; try done; lia. }
  clear Hv. destruct Hv4 as (Hv & Hb & Hc & Hd & Ha4 & Hlo & Hhi). utf8_bounds.
  destruct (IH s4) as [E3 E4]; [simpl in Hle; lia|done|].
  set (na := N_of_ascii a) in *. set (nb := N_of_ascii b) in *.
  set (nc := N_of_ascii c) in *. set (nd := N_of_ascii d) in *.
  assert (Ea : na mod 64 = 48 + (na - 240)) by (clear -Ha3 Ha4; lia).
  assert (Eb : nb mod 64 = nb - 128) by (clear -Hb; lia).
  assert (Ec : nc mod 64 = nc - 128) by (clear -Hc; lia).
  assert (Ed : nd mod 64 = nd - 128) by (clear -Hd; lia).
  assert (E : (((na mod 64 * 64 + nb mod 64) * 64 + nc mod 64) * 64 + nd mod 64) mod 2097152
    = (((na - 240) * 64 + (nb - 128)) * 64 + (nc - 128)) * 64 + (nd - 128)).
  { rewrite Ea, Eb, Ec, Ed. symmetry. apply (N.mod_unique _ _ 6); lia. }
  rewrite E. split; [|constructor; [unfold scalar; lia|done]].
  simpl. rewrite E3, chr_digits4 by lia. rewrite !app_cons, app_empty_l.
  f_equal; [|f_equal; [|f_equal; [|f_equal]]]; apply ascii_of_digits;
    [clear -Ha3; unfold na in *|clear -Hb; unfold nb in *|clear -Hc; unfold nc in *
    |clear -Hd; unfold nd in *]; lia.
Qed.

(** *** String literals *)

Lemma unhex_hex_lower n : n < 16 → unhex (hex_lower n) = Some n.
Proof.
  intros Hn.
  pose proof (N_forall_lt (λ n, bool_decide (unhex (hex_lower n) = Some n)) 16 eq_refl n Hn).
  by bool_to_prop.
Qed.

Lemma take_hex4_spec n s :
  n < 65536 →
  take_hex4 (String (hex_lower (n / 4096)) (String (hex_lower (n / 256 mod 16))
    (String (hex_lower (n / 16 mod 16)) (String (hex_lower (n mod 16)) s)))) = Some (n, s).
Proof.
  intros Hn. cbn [take_hex4]. rewrite !unhex_hex_lower by lia. cbn [mbind option_bind].
  do 2 f_equal. lia.
Qed.

Lemma parse_escape_u n s :
  n < 55296 ∨ 57344 ≤ n < 65536 →
  parse_escape (str_drop 1 (escape_u n) +:+ s) = Some (chr n, s).
Proof.
  intros Hn. unfold escape_u. cbn [str_drop]. rewrite !app_cons. cbn [parse_escape].
  rewrite decide_True by done. rewrite take_hex4_spec by lia. cbn [mbind option_bind].
  destruct (N.leb_spec 55296 n), (N.ltb_spec n 56320); try lia; cbn [andb];
    try (destruct (N.leb_spec 56320 n), (N.ltb_spec n 57344); try lia; done).
Qed.

Lemma parse_escape_surrogates n s :
  65536 ≤ n < 1114112 →
  parse_escape (str_drop 1 (escape_u (55296 + (n - 65536) / 1024))
    +:+ escape_u (56320 + (n - 65536) mod 1024) +:+ s) = Some (chr n, s).
Proof.
  intros Hn. unfold escape_u. cbn [str_drop].
  set (hi := 55296 + _). set (lo := 56320 + _). rewrite !app_cons. cbn [parse_escape].
  assert (55296 ≤ hi < 56320) by lia. assert (56320 ≤ lo < 57344) by lia.
  rewrite decide_True by done. rewrite take_hex4_spec by lia. cbn [mbind option_bind].
  rewrite (proj2 (N.leb_le 55296 hi)), (proj2 (N.ltb_lt hi 56320)) by lia. cbn [andb].
  rewrite !app_empty_l. cbv iota beta. rewrite bool_decide_true by done.
  rewrite take_hex4_spec by lia. cbn [mbind option_bind].
  rewrite (proj2 (N.leb_le 56320 lo)), (proj2 (N.ltb_lt lo 57344)) by lia. cbn [andb].
  do 3 f_equal. lia.
Qed.

(** One character of a dumped literal is one step of the decoder. *)
Lemma parse_chars_step fuel n s :
  scalar n →
  parse_chars (S fuel) (escape_char n +:+ s) =
    '(t, r) ← parse_chars fuel s; Some (chr n +:+ t, r).
Proof.
  intros Hn. unfold escape_char.
  assert (Hesc : ∀ c d, simple_escape c = Some d → c ≠ "u"%char → chr n = String d "" →
    parse_chars (S fuel) (escape_pair c +:+ s) =
      '(t, r) ← parse_chars fuel s; Some (chr n +:+ t, r)).
  { intros c d Hc Hu Hd. unfold escape_pair. rewrite !app_cons. cbn [parse_chars].
    rewrite decide_False, decide_True by done. rewrite app_empty_l; cbn [parse_escape].
    rewrite decide_False, Hc by done. cbn [mbind option_bind].
    by rewrite Hd. }
  repeat match goal with
  | |- context [?a =? ?b] => destruct (N.eqb_spec a b) as [->|]
  end; try (eapply Hesc; [vm_compute; reflexivity|done|done]).
  clear Hesc.
  destruct (N.leb_spec 32 n), (N.leb_spec n 126); cbn [andb].
  { rewrite app_cons. rewrite app_empty_l; cbn [parse_chars].
    assert (Hid : N_of_ascii (ascii_of_N n) = n) by (apply N_ascii_embedding; lia).
    rewrite !decide_False.
    2,3: intros E; apply (f_equal N_of_ascii) in E; rewrite Hid in E; vm_compute in E; lia.
    rewrite Hid, (proj2 (N.ltb_ge n 32)) by lia.
    unfold chr. by rewrite (proj2 (N.ltb_lt n 128)) by lia. }
  all: destruct (N.ltb_spec n 65536); try lia.
  1,3: assert (E : escape_u n +:+ s = String backslash (str_drop 1 (escape_u n) +:+ s)) by done;
    rewrite E; cbn [parse_chars]; rewrite decide_False, decide_True by done;
    unfold scalar in Hn; rewrite parse_escape_u by lia; done.
  rewrite <- app_str_assoc.
  change (escape_u (55296 + (n - 65536) / 1024) +:+ ?x) with
    (String backslash (str_drop 1 (escape_u (55296 + (n - 65536) / 1024)) +:+ x)).
  cbn [parse_chars]. rewrite decide_False, decide_True by done.
  unfold scalar in Hn. rewrite parse_escape_surrogates by lia. done.
Qed.

Lemma parse_chars_mono fuel fuel' s x :
  parse_chars fuel s = Some x → (fuel ≤ fuel')%nat → parse_chars fuel' s = Some x.
Proof.
  revert fuel' s x. induction fuel as [|fuel IH]; intros [|fuel'] [|a s] x E Hf; try done; [lia|].
  cbn [parse_chars] in *. case_decide; [done|]. case_decide.
  - destruct (parse_escape s) as [[c r]|]; [|done]. cbn [mbind option_bind] in *.
    destruct (parse_chars fuel r) as [[t r']|] eqn:Et; [|done]. by rewrite (IH fuel' r (t, r')) by (done || lia).
  - destruct (_ <? 32); [done|]. destruct (parse_chars fuel s) as [[t r]|] eqn:Et; [|done].
    by rewrite (IH fuel' s (t, r)) by (done || lia).
Qed.

(** What the decoder relies on of the escapes. *)
Class Escapes (escape : N → str) : Prop := {
  escape_step fuel n s t r : scalar n → parse_chars fuel s = Some (t, r) →
    parse_chars (String.length (escape n) + fuel) (escape n +:+ s) = Some (chr n +:+ t, r);
}.

Section strings.
Context (escape : N → str) `{!Escapes escape}.

Definition string_body (l : list N) : str :=
  foldr (λ n acc, escape n +:+ acc) (String dquote "") l.

Lemma parse_chars_body l s :
  Forall scalar l →
  parse_chars (String.length (string_body l)) (string_body l +:+ s) = Some (string_of_points l, s).
Proof.
  induction 1 as [|n l Hn Hl IH].
  - unfold string_body. cbn [foldr]. rewrite app_cons. cbn [parse_chars String.length].
    by rewrite decide_True.
  - unfold string_body. cbn [foldr]. fold (string_body l).
    rewrite string_length_app, <- app_str_assoc. by apply escape_step.
Qed.

Lemma parse_chars_dump s r :
  utf8_valid s = true →
  parse_chars (String.length (string_body (code_points s) +:+ r))
    (string_body (code_points s) +:+ r) = Some (s, r).
Proof.
  intros [E Hs]%code_points_spec. eapply parse_chars_mono.
  - rewrite parse_chars_body by done. by rewrite E.
  - rewrite string_length_app. lia.
Qed.

Lemma dump_string_app s r :
  dump_string_with escape s +:+ r = String dquote (string_body (code_points s) +:+ r).
Proof. done. Qed.
End strings.

#[export] Instance escapes_char : Escapes escape_char.
Proof.
  split. intros fuel n s t r Hn E.
  assert (Hlen : (1 ≤ String.length (escape_char n))%nat).
  { unfold escape_char. repeat case_match; simpl; lia. }
  eapply parse_chars_mono; [rewrite (parse_chars_step fuel) by done; by rewrite E|lia].
Qed.

(** Characters that stand for themselves in a literal. *)
Definition plain_char (a : ascii) : bool :=
  bool_decide (a ≠ dquote ∧ a ≠ backslash) && byte_in 32 255 a.

Lemma parse_chars_plain t fuel s u r :
  str_forall plain_char t = true → parse_chars fuel s = Some (u, r) →
  parse_chars (String.length t + fuel) (t +:+ s) = Some (t +:+ u, r).
Proof.
  intros Ht E. induction t as [|a t IH]; [done|]. cbn [str_forall] in Ht.
  apply andb_true_iff in Ht as [[[Hq Hb]%bool_decide_eq_true Ha%byte_in_spec]%andb_true_iff Ht].
  rewrite !app_cons. cbn [String.length plus parse_chars]. rewrite !decide_False by done.
  rewrite (proj2 (N.ltb_ge (N_of_ascii a) 32)) by lia. by rewrite IH.
Qed.

Lemma chr_plain n : scalar n → 32 ≤ n → n ≠ 34 → n ≠ 92 → str_forall plain_char (chr n) = true.
Proof.
  intros Hn Hlo Hq Hb. unfold scalar in Hn.
  assert (Hbyte : ∀ m, m < 256 → 32 ≤ m → m ≠ 34 → m ≠ 92 → plain_char (ascii_of_N m) = true).
  { intros m Hm Hm32 Hm34 Hm92. unfold plain_char. pose proof (N_ascii_embedding m Hm) as E.
    apply andb_true_iff. split; [|apply byte_in_spec; lia].
    apply bool_decide_eq_true. split; intros Ea; rewrite Ea in E; vm_compute in E; lia. }
  unfold chr. repeat case_match; cbn [str_forall];
    repeat match goal with H : (_ <? _) = _ |- _ => first [apply N.ltb_lt in H|apply N.ltb_ge in H] end;
    rewrite !Hbyte by lia; done.
Qed.

#[export] Instance escapes_raw : Escapes escape_raw.
Proof.
  split. intros fuel n s t r Hn E. unfold escape_raw.
  destruct (N.eqb_spec n 34) as [->|H34]; [by apply (escapes_char.(escape_step _) fuel 34)|].
  destruct (N.eqb_spec n 92) as [->|H92]; [by apply (escapes_char.(escape_step _) fuel 92)|].
  destruct (N.eqb_spec n 10) as [->|H10]; [by apply (escapes_char.(escape_step _) fuel 10)|].
  destruct (N.eqb_spec n 13) as [->|H13]; [by apply (escapes_char.(escape_step _) fuel 13)|].
  destruct (N.eqb_spec n 9) as [->|H9]; [by apply (escapes_char.(escape_step _) fuel 9)|].
  destruct (N.eqb_spec n 12) as [->|H12]; [by apply (escapes_char.(escape_step _) fuel 12)|].
  destruct (N.eqb_spec n 8) as [->|H8]; [by apply (escapes_char.(escape_step _) fuel 8)|].
  destruct (N.ltb_spec n 32).
  - assert (Ec : escape_char n = escape_u n).
    { unfold escape_char. rewrite !(proj2 (N.eqb_neq _ _)) by done.
      rewrite (proj2 (N.leb_gt 32 n)), (proj2 (N.ltb_lt n 65536)) by lia. done. }
    rewrite <- Ec. by apply escapes_char.
  - apply parse_chars_plain; [by apply chr_plain|done].
Qed.

(** *** Numbers *)

(** What may follow a number inside a dumped document. *)
Definition stops (s : str) : Prop :=
  match s with "" => True | String a _ => a = ","%char ∨ a = "]"%char ∨ a = "}"%char end.

Lemma digits_value_app acc s t :
  digits_value acc (s +:+ t) = digits_value (digits_value acc s) t.
Proof. revert acc. induction s as [|a s IH]; intros acc; [done|]. rewrite app_cons. simpl. apply IH. Qed.

Lemma str_forall_snoc p s c : str_forall p s = true → p c = true → str_forall p (s +:+ String c "") = true.
Proof.
  induction s as [|a s IH]; [rewrite app_empty_l; simpl; by intros _ ->|].
  rewrite app_cons. simpl.
  intros [-> ?]%andb_true_iff ?. by apply IH.
Qed.

Lemma pretty_N_char_spec n :
  n < 10 →
  is_digit (pretty_N_char n) = true ∧ N_of_ascii (pretty_N_char n) - 48 = n
  ∧ (0 < n → pretty_N_char n ≠ "0"%char).
Proof.
  intros Hn.
  pose proof (N_forall_lt (λ n, bool_decide (is_digit (pretty_N_char n) = true
    ∧ N_of_ascii (pretty_N_char n) - 48 = n ∧ (0 < n → pretty_N_char n ≠ "0"%char))) 10 eq_refl n Hn).
  by bool_to_prop.
Qed.

Lemma pretty_N_go_spec x s :
  ∃ ds, pretty_N_go x s = ds +:+ s ∧ str_forall is_digit ds = true ∧ digits_value 0 ds = x ∧
    match ds with "" => x = 0 | String d _ => d ≠ "0"%char end.
Proof.
  revert s. induction (N.lt_wf_0 x) as [x _ IH]; intros s.
  destruct (decide (x = 0)) as [->|Hx].
  { exists "". by rewrite pretty_N_go_0. }
  rewrite pretty_N_go_step by lia.
  destruct (IH (x / 10) ltac:(lia) (String (pretty_N_char (x mod 10)) s))
    as (ds & E & Hd & Hv & Hne).
  assert (Hm : x mod 10 < 10) by lia. destruct (pretty_N_char_spec _ Hm) as (Hc & Hcv & Hc0).
  exists (ds +:+ String (pretty_N_char (x mod 10)) ""). split_and!.
  - rewrite E, <- app_str_assoc. by rewrite app_cons, app_empty_l.
  - by apply str_forall_snoc.
  - rewrite digits_value_app, Hv. simpl. rewrite Hcv. lia.
  - destruct ds as [|d ds]; [|done]. rewrite app_empty_l. apply Hc0. lia.
Qed.

Lemma span_digits_app d r :
  str_forall is_digit d = true →
  match r with "" => True | String a _ => is_digit a = false end →
  span_digits (d +:+ r) = (d, r).
Proof.
  intros Hd Hr. induction d as [|a d IH].
  - rewrite app_empty_l. destruct r; [done|]. cbn [span_digits]. by rewrite Hr.
  - simpl in Hd. apply andb_true_iff in Hd as [Ha Hd].
    rewrite app_cons. cbn [span_digits]. by rewrite Ha, IH.
Qed.

Lemma pretty_N_spec n :
  ∃ a ds, pretty n = String a ds ∧ is_digit a = true ∧ digits_value 0 (pretty n) = n ∧
    ∀ r, stops r → parse_nat (pretty n +:+ r) = Some (pretty n, r).
Proof.
  destruct (decide (n = 0)) as [->|Hn].
  { exists "0"%char, "". split_and!; [done..|]. intros r _.
    change (pretty 0) with "0". rewrite app_cons, app_empty_l. done. }
  unfold pretty, pretty_N. rewrite decide_False by done.
  destruct (pretty_N_go_spec n "") as (ds & E & Hd & Hv & Hne).
  rewrite app_empty_r in E. rewrite E. destruct ds as [|a ds]; [done|].
  exists a, ds. split_and!; [done|by apply andb_true_iff in Hd as [? _]|done|].
  intros r Hr. unfold parse_nat. rewrite app_cons, decide_False by done.
  rewrite <- app_cons, span_digits_app; [done|done|].
  destruct r; [done|]. by destruct Hr as [->|[->| ->]].
Qed.

Lemma parse_frac_stops r : stops r → parse_frac r = ("", r).
Proof. destruct r; [done|]. simpl. intros Hr. rewrite decide_False; [done|]. intros ->. naive_solver. Qed.
Lemma parse_exp_stops r : stops r → parse_exp r = ("", r).
Proof.
  destruct r; [done|]. simpl. intros Hr.
  rewrite bool_decide_false; [done|]. intros [-> | ->]; naive_solver.
Qed.

Lemma parse_word_digit a s : is_digit a = true → parse_word (String a s) = None.
Proof.
  intros Ha. unfold parse_word, words. cbn [find_first fst startswith].
  rewrite !decide_False; [done|intros <-; vm_compute in Ha; done..].
Qed.

Lemma parse_word_minus a s : is_digit a = true → parse_word (String "-" (String a s)) = None.
Proof.
  intros Ha. unfold parse_word, words. cbn [find_first fst startswith].
  rewrite !(decide_False (P := _ = "-"%char)) by done.
  rewrite (decide_True (P := "-"%char = "-"%char)) by done.
  rewrite decide_False; [done|]. intros <-. vm_compute in Ha. done.
Qed.

Lemma digit_ne a c : is_digit a = true → is_digit c = false → a ≠ c.
Proof. intros ?? ->. congruence. Qed.

Lemma parse_number_pretty z r :
  stops r →
  parse_word (pretty z +:+ r) = None ∧ parse_number (pretty z +:+ r) = Some (JInt z, r).
Proof.
  intros Hr. unfold parse_number. destruct z as [|p|p].
  - destruct (pretty_N_spec 0) as (a & ds & E & Ha & Hv & Hp).
    change (pretty 0%Z) with (pretty 0). specialize (Hp r Hr).
    rewrite E in *. rewrite app_cons in *. split; [by apply parse_word_digit|].
    rewrite decide_False by (by apply digit_ne). rewrite Hp. cbn [mbind option_bind].
    rewrite parse_frac_stops, parse_exp_stops by done. by rewrite Hv.
  - destruct (pretty_N_spec (Npos p)) as (a & ds & E & Ha & Hv & Hp).
    change (pretty (Zpos p)) with (pretty (Npos p)). specialize (Hp r Hr).
    rewrite E in *. rewrite app_cons in *. split; [by apply parse_word_digit|].
    rewrite decide_False by (by apply digit_ne). rewrite Hp. cbn [mbind option_bind].
    rewrite parse_frac_stops, parse_exp_stops by done. by rewrite Hv.
  - destruct (pretty_N_spec (Npos p)) as (a & ds & E & Ha & Hv & Hp).
    change (pretty (Zneg p)) with ("-" +:+ pretty (Npos p)). specialize (Hp r Hr).
    rewrite E in *. rewrite app_cons in *. rewrite !app_cons, app_empty_l.
    split; [by apply parse_word_minus|].
    rewrite decide_True, app_cons, Hp by done. cbn [mbind option_bind].
    rewrite parse_frac_stops, parse_exp_stops by done. by rewrite Hv.
Qed.

(** *** Documents *)

(** What [json.dumps] is applied to: strings are Unicode, the keys of a
    dictionary are distinct, and numbers are integers. *)
Fixpoint json_wf (j : json) : bool :=
  match j with
  | JFloat _ => false
  | JStr s => utf8_valid s
  | JList l => forallb json_wf l
  | JDict kv =>
      bool_decide (NoDup kv.*1) && forallb (λ '(k, v), utf8_valid k && json_wf v) kv
  | _ => true
  end.

Fixpoint json_size (j : json) : nat :=
  match j with
  | JList l => S (list_sum (map (λ x, S (json_size x)) l))
  | JDict kv => S (list_sum (map (λ '(_, v), S (json_size v)) kv))
  | _ => 1
  end.

(** Where a dumped value does not start. *)
Definition value_start (s : str) : Prop :=
  match s with
  | "" => False
  | String a _ => skip_ws s = s ∧ a ≠ "]"%char ∧ a ≠ "}"%char
  end.

Section round_trip.
Context (escape : N → str) `{!Escapes escape}.
Abbreviation dumps := (json_dumps_with escape).

Lemma dumps_start j r : json_wf j = true → value_start (dumps j +:+ r).
Proof.
  assert (Hdig : ∀ a t, is_digit a = true → value_start (String a t)).
  { intros a t Ha. split_and!; [|by apply digit_ne..]. cbn [skip_ws].
    rewrite bool_decide_false; [done|].
    intros [E|[E|[E|E]]]; revert E; by apply digit_ne. }
  destruct j as [|[]|z| |s|l|kv]; intros Hj; try done.
  cbn [json_dumps_with]. destruct z as [|p|p].
  - by apply Hdig.
  - destruct (pretty_N_spec (Npos p)) as (a & ds & E & Ha & _).
    change (pretty (Zpos p)) with (pretty (Npos p)). rewrite E, app_cons. by apply Hdig.
  - change (pretty (Zneg p)) with ("-" +:+ pretty (Npos p)). by rewrite !app_cons.
Qed.

Lemma value_start_skip s : value_start s → skip_ws s = s.
Proof. by destruct s; [|intros []]. Qed.

Lemma skip_ws_space s : skip_ws (String " " s) = skip_ws s.
Proof. cbn [skip_ws]. by rewrite bool_decide_true by (by left). Qed.

Lemma join_map_cons {A} sep (f : A → str) x y l :
  join_str sep (map f (x :: y :: l)) = f x +:+ sep +:+ join_str sep (map f (y :: l)).
Proof. done. Qed.

(** The items of a dumped list, up to its closing bracket. *)
Lemma parse_items_dumps fuel l r :
  l ≠ [] →
  (∀ j s, j ∈ l → stops s → ∀ f, (json_size j ≤ f)%nat →
     parse_value f (dumps j +:+ s) = Some (j, s)) →
  forallb json_wf l = true →
  (list_sum (map (λ x, S (json_size x)) l) ≤ fuel)%nat →
  parse_items fuel (join_str ", " (map dumps l) +:+ "]" +:+ r) = Some (l, r).
Proof.
  revert fuel. induction l as [|j l IH]; intros fuel Hne Hj Hwf Hf; [done|].
  simpl in Hf. destruct fuel as [|fuel]; [lia|].
  cbn [forallb] in Hwf. apply andb_true_iff in Hwf as [Hw Hwf].
  destruct l as [|j' l].
  - cbn [map join_str parse_items].
    rewrite (Hj j); [|constructor|by right; left|lia].
    cbn [mbind option_bind]. rewrite app_cons. by rewrite app_empty_l.
  - rewrite join_map_cons. cbn [parse_items]. rewrite <- !app_str_assoc.
    rewrite (Hj j); [|constructor|by left|lia]. cbn [mbind option_bind].
    rewrite !app_cons, !app_empty_l.
    change (skip_ws (String "," ?s)) with (String "," s). cbv iota beta.
    rewrite decide_True, skip_ws_space by done.
    assert (Hst : ∀ t, value_start (join_str ", " (map dumps (j' :: l)) +:+ t)).
    { intros t. cbn [forallb] in Hwf. apply andb_true_iff in Hwf as [Hw' _].
      destruct l; [|rewrite join_map_cons, <- app_str_assoc]; by apply dumps_start. }
    rewrite value_start_skip by apply Hst.
    pose proof (IH fuel) as E. rewrite app_cons, app_empty_l in E.
    rewrite E; [done|done| |done|simpl in *; lia].
    intros k s Hk. apply Hj. by constructor.
Qed.

Definition dump_member (m : str * json) : str := dump_string_with escape m.1 +:+ ": " +:+ dumps m.2.

Lemma dumps_dict kv :
  dumps (JDict kv) = "{" +:+ join_str ", " (map dump_member kv) +:+ "}".
Proof.
  cbn [json_dumps_with]. do 3 f_equal. by apply map_ext; intros [].
Qed.

Lemma dump_member_app m s :
  dump_member m +:+ s
  = String dquote (string_body escape (code_points m.1) +:+ String ":" (String " " (dumps m.2 +:+ s))).
Proof.
  unfold dump_member. rewrite <- !app_str_assoc, dump_string_app.
  by rewrite !app_cons, !app_empty_l.
Qed.

Lemma parse_members_dumps fuel kv r :
  kv ≠ [] →
  (∀ k j s, (k, j) ∈ kv → stops s → ∀ f, (json_size j ≤ f)%nat →
     parse_value f (dumps j +:+ s) = Some (j, s)) →
  forallb (λ '(k, v), utf8_valid k && json_wf v) kv = true →
  (list_sum (map (λ '(_, v), S (json_size v)) kv) ≤ fuel)%nat →
  parse_members fuel (join_str ", " (map dump_member kv) +:+ "}" +:+ r) = Some (kv, r).
Proof.
  revert fuel. induction kv as [|[k j] kv IH]; intros fuel Hne Hj Hwf Hf; [done|].
  simpl in Hf. destruct fuel as [|fuel]; [lia|].
  cbn [forallb] in Hwf. apply andb_true_iff in Hwf as [[Hk Hw]%andb_true_iff Hwf].
  assert (Hstep : ∀ s, stops s →
    parse_members (S fuel) (dump_member (k, j) +:+ s) =
      match skip_ws s with
      | String b r' =>
          if decide (b = ","%char) then
            '(l, r'') ← parse_members fuel (skip_ws r'); Some ((k, j) :: l, r'')
          else if decide (b = "}"%char) then Some ([(k, j)], r')
          else None
      | "" => None
      end).
  { intros s Hs. rewrite dump_member_app. cbn [parse_members fst snd].
    rewrite decide_True, parse_chars_dump by done. cbn [mbind option_bind].
    change (skip_ws (String ":" ?s)) with (String ":" s). cbv iota beta.
    rewrite decide_True, skip_ws_space by done.
    rewrite value_start_skip by by apply dumps_start.
    rewrite (Hj k j); [done|constructor|done|lia]. }
  destruct kv as [|[k' j'] kv].
  - cbn [map join_str]. rewrite Hstep by (by right; right). rewrite app_cons. by rewrite app_empty_l.
  - rewrite join_map_cons, <- !app_str_assoc.
    rewrite Hstep by by left. rewrite !app_cons, !app_empty_l.
    change (skip_ws (String "," ?s)) with (String "," s). cbv iota beta.
    rewrite decide_True, skip_ws_space by done.
    assert (Hst : ∀ t, skip_ws (join_str ", " (map dump_member ((k', j') :: kv)) +:+ t)
      = join_str ", " (map dump_member ((k', j') :: kv)) +:+ t).
    { intros t. destruct kv; [cbn [map join_str]|rewrite join_map_cons, <- app_str_assoc];
        by rewrite dump_member_app. }
    rewrite Hst. pose proof (IH fuel) as E. rewrite app_cons, app_empty_l in E.
    rewrite E; [done|done| |done|simpl in *; lia].
    intros k0 j0 s Hk0. apply (Hj k0). by constructor.
Qed.

(** Inserting the members of a literal one by one gives the literal back. *)
Lemma dict_set_fresh k v (d : dict) : k ∉ d.*1 → dict_set k v d = d ++ [(k, v)].
Proof.
  induction d as [|[k' v'] d IH]; intros Hk; [done|]. simpl in *.
  apply not_elem_of_cons in Hk as [Hk1 Hk2]. rewrite decide_False by done.
  by rewrite IH.
Qed.

Lemma dict_of_members (l d : dict) :
  NoDup (d ++ l).*1 → foldl (λ d '(k, v), dict_set k v d) d l = d ++ l.
Proof.
  revert d. induction l as [|[k v] l IH]; intros d Hd; simpl; [by rewrite app_nil_r|].
  rewrite dict_set_fresh.
  - rewrite IH; [by rewrite <- app_assoc|]. by rewrite <- app_assoc.
  - rewrite fmap_app in Hd. apply NoDup_app in Hd as (_ & Hd & _).
    intros Hk. apply (Hd k Hk). constructor.
Qed.

Lemma list_sum_elem {A} (f : A → nat) x l : x ∈ l → (f x ≤ list_sum (map f l))%nat.
Proof.
  induction l as [|y l IH]; intros Hx; [by apply not_elem_of_nil in Hx|]. simpl.
  apply elem_of_cons in Hx as [->|Hx]; [lia|]. specialize (IH Hx). lia.
Qed.

Lemma forallb_elem {A} (p : A → bool) x l : forallb p l = true → x ∈ l → p x = true.
Proof. rewrite forallb_forall. intros H Hx. apply H. by apply list_elem_of_In. Qed.

Lemma dumps_int_start (z : Z) r :
  ∃ a t, pretty z +:+ r = String a t ∧ (is_digit a = true ∨ a = "-"%char).
Proof.
  destruct z as [|p|p].
  - exists "0"%char, r. change (pretty 0%Z) with "0". rewrite app_cons, app_empty_l. by split; [|left].
  - destruct (pretty_N_spec (Npos p)) as (a & ds & E & Ha & _).
    change (pretty (Zpos p)) with (pretty (Npos p)). rewrite E, app_cons.
    do 2 eexists. split; [done|by left].
  - change (pretty (Zneg p)) with ("-" +:+ pretty (Npos p)). rewrite !app_cons.
    do 2 eexists. split; [done|by right].
Qed.

Lemma parse_value_dumps n j r fuel :
  (json_size j ≤ n)%nat → json_wf j = true → stops r → (json_size j ≤ fuel)%nat →
  parse_value fuel (dumps j +:+ r) = Some (j, r).
Proof.
  revert j r fuel. induction n as [|n IH]; intros j r fuel Hn Hw Hr Hf.
  { destruct j; simpl in Hn; lia. }
  destruct fuel as [|fuel]; [destruct j; simpl in Hf; lia|].
  destruct j as [|b|z|t|s|l|kv].
  - done.
  - by destruct b.
  - destruct (parse_number_pretty z r Hr) as [E1 E2]. cbn [json_dumps_with].
    destruct (dumps_int_start z r) as (a & t & Ea & Ha). rewrite Ea in *.
    cbn [parse_value]. rewrite E1, E2.
    rewrite !decide_False; [done|..];
      (intros ->; destruct Ha as [Ha|Ha]; [vm_compute in Ha|]; done).
  - done.
  - cbn [json_dumps_with]. rewrite dump_string_app. cbn [parse_value].
    rewrite decide_True by done. by rewrite parse_chars_dump.
  - cbn [json_dumps_with]. rewrite <- !app_str_assoc, app_cons, app_empty_l.
    cbn [parse_value]. rewrite decide_False, decide_True by done.
    destruct l as [|j l]; [done|]. cbn [json_wf] in Hw.
    assert (Hst : value_start (join_str ", " (map dumps (j :: l)) +:+ "]" +:+ r)).
    { pose proof (forallb_elem _ j _ Hw ltac:(constructor)).
      destruct l; [|rewrite join_map_cons, <- app_str_assoc]; by apply dumps_start. }
    rewrite value_start_skip by apply Hst.
    assert (E : parse_items fuel (join_str ", " (map dumps (j :: l)) +:+ "]" +:+ r)
      = Some (j :: l, r)).
    { apply parse_items_dumps; [done| |done|simpl in *; lia].
      intros j' s Hj' Hs f Hjf.
      pose proof (list_sum_elem (λ x, S (json_size x)) j' _ Hj').
      apply IH; [simpl in *; lia|by eapply forallb_elem|done|done]. }
    rewrite E. destruct (_ +:+ "]" +:+ r) as [|a t] eqn:Ea; [done|].
    destruct Hst as (_ & Ha & _). cbn [startswith]. by rewrite decide_False by congruence.
  - rewrite dumps_dict, <- !app_str_assoc, app_cons, app_empty_l.
    cbn [parse_value]. rewrite !decide_False, decide_True by done.
    destruct kv as [|[k j] kv]; [done|].
    cbn [json_wf] in Hw. apply andb_true_iff in Hw as [Hnd%bool_decide_eq_true Hw].
    assert (E : parse_members fuel (join_str ", " (map dump_member ((k, j) :: kv)) +:+ "}" +:+ r)
      = Some ((k, j) :: kv, r)).
    { apply parse_members_dumps; [done| |done|simpl in *; lia].
      intros k' j' s Hj' Hs f Hjf.
      pose proof (list_sum_elem (λ '(_, v), S (json_size v)) _ _ Hj') as Hsz. simpl in Hsz.
      pose proof (forallb_elem _ _ _ Hw Hj') as Hwj. cbn in Hwj.
      apply andb_true_iff in Hwj as [_ Hwj].
      apply IH; [simpl in *; lia|done..]. }
    assert (Hst : ∃ t, join_str ", " (map dump_member ((k, j) :: kv)) +:+ "}" +:+ r = String dquote t).
    { destruct kv; [cbn [map join_str]|rewrite join_map_cons, <- app_str_assoc];
        rewrite dump_member_app; by eexists. }
    destruct Hst as [t Ht]. rewrite Ht in *.
    change (skip_ws (String dquote t)) with (String dquote t). rewrite E.
    cbn [startswith mbind option_bind]. rewrite decide_False by done.
    by rewrite dict_of_members.
Qed.

(** The fuel of [json_loads] covers every dumped document. *)
Lemma json_size_length n j :
  (json_size j ≤ n)%nat → json_wf j = true → (json_size j ≤ String.length (dumps j))%nat.
Proof.
  revert j. induction n as [|n IH]; intros j Hn Hw; [destruct j; simpl in Hn; lia|].
  assert (Hjoin : ∀ l : list str, ∀ sz : list nat,
    Forall2 (λ m s, (m ≤ String.length s)%nat) sz l → l ≠ [] →
    (list_sum (map S sz) < String.length (join_str ", " l) + 2)%nat).
  { intros l sz H. induction H as [|m s sz l Hms HF IHF]; intros Hne; [done|].
    destruct HF as [|m' s' sz' l' Hms' HF]; cbn [map join_str list_sum].
    - simpl. lia.
    - change (join_str ", " (s :: s' :: l')) with (s +:+ ", " +:+ join_str ", " (s' :: l')).
      rewrite !string_length_app. specialize (IHF ltac:(done)). cbn [map] in *. simpl in *. lia. }
  destruct j as [|b|z|t|s|l|kv]; try done.
  - simpl. lia.
  - destruct b; simpl; lia.
  - cbn [json_dumps_with json_size]. destruct (dumps_int_start z "") as (a & t & Ea & _).
    rewrite app_empty_r in Ea. rewrite Ea. simpl. lia.
  - cbn [json_dumps_with json_size]. unfold dump_string_with. simpl. lia.
  - cbn [json_dumps_with]. rewrite !string_length_app. simpl in Hn |- *.
    destruct l as [|j l]; [simpl; lia|].
    assert (HF : Forall2 (λ m s, (m ≤ String.length s)%nat)
      (map json_size (j :: l)) (map dumps (j :: l))).
    { apply Forall2_fmap_2, Forall_Forall2_diag, Forall_forall. intros x Hx.
      pose proof (list_sum_elem (λ x, S (json_size x)) x _ Hx).
      apply IH; [simpl in *; lia|by eapply forallb_elem]. }
    specialize (Hjoin _ _ HF ltac:(done)). rewrite map_map in Hjoin. simpl in *. lia.
  - rewrite dumps_dict, !string_length_app. simpl in Hn |- *.
    destruct kv as [|m kv]; [simpl; lia|].
    assert (HF : Forall2 (λ m s, (m ≤ String.length s)%nat)
      (map (λ '(_, v), json_size v) (m :: kv)) (map dump_member (m :: kv))).
    { apply Forall2_fmap_2, Forall_Forall2_diag, Forall_forall. intros [k x] Hx.
      pose proof (list_sum_elem (λ '(_, v), S (json_size v)) _ _ Hx) as Hsz. simpl in Hsz.
      cbn [json_wf] in Hw. apply andb_true_iff in Hw as [_ Hw].
      pose proof (forallb_elem _ _ _ Hw Hx) as Hwx. cbn in Hwx.
      apply andb_true_iff in Hwx as [_ Hwx].
      unfold dump_member. rewrite !string_length_app. cbn [fst snd].
      etrans; [apply IH; [simpl in *; lia|done]|lia]. }
    specialize (Hjoin _ _ HF ltac:(done)). rewrite map_map in Hjoin.
    rewrite (map_ext _ (λ '(_, v), S (json_size v))) in Hjoin by by intros [].
    simpl in *. lia.
Qed.

Lemma loads_dumps j : json_wf j = true → json_loads (dumps j) = Some j.
Proof.
  intros Hw. unfold json_loads.
  pose proof (dumps_start j "" Hw) as Hs. rewrite app_empty_r in Hs.
  rewrite value_start_skip by done.
  pose proof (json_size_length (json_size j) j ltac:(done) Hw) as Hlen.
  pose proof (parse_value_dumps (json_size j) j "" _ ltac:(done) Hw I Hlen) as E.
  rewrite app_empty_r in E. rewrite E. cbn [mbind option_bind]. by rewrite decide_True.
Qed.
End round_trip.

(** [json.loads(json.dumps(j)) == j]. *)
Lemma json_loads_dumps j : json_wf j = true → json_loads (json_dumps j) = Some j.
Proof. apply loads_dumps, _. Qed.

(** *** Updated dictionaries *)

Lemma dict_get_set k k' v d :
  dict_get k (dict_set k' v d) = if decide (k = k') then Some v else dict_get k d.
Proof.
  induction d as [|[k0 v0] d IH]; cbn [dict_set].
  - case_decide as E; [subst; apply dict_get_eq|]. by rewrite dict_get_ne.
  - destruct (decide (k0 = k')) as [->|Hne].
    + case_decide as E; [subst; apply dict_get_eq|]. by rewrite !dict_get_ne.
    + destruct (decide (k0 = k)) as [->|Hne'].
      * rewrite !dict_get_eq. by rewrite decide_False.
      * by rewrite !dict_get_ne.
Qed.

Lemma dict_set_keys k v (d : dict) :
  (dict_set k v d).*1 = if decide (k ∈ d.*1) then d.*1 else d.*1 ++ [k].
Proof.
  induction d as [|[k0 v0] d IH]; cbn [dict_set].
  - rewrite decide_False; [done|]. cbn. apply not_elem_of_nil.
  - destruct (decide (k0 = k)) as [->|Hne].
    + cbn. rewrite decide_True; [done|]. by left.
    + rewrite !fmap_cons. cbn [fst]. rewrite IH. repeat case_decide; set_solver.
Qed.

Lemma dict_set_wf k v d :
  json_wf (JDict d) = true → utf8_valid k = true → json_wf v = true →
  json_wf (JDict (dict_set k v d)) = true.
Proof.
  intros Hd Hk Hv. cbn [json_wf] in *. apply andb_true_iff in Hd as [Hnd Hall].
  bool_to_prop. apply andb_true_iff. split.
  - apply bool_decide_eq_true. rewrite dict_set_keys. case_decide; [done|].
    apply NoDup_app. split_and!; [done| |apply NoDup_singleton]. set_solver.
  - clear Hnd. induction d as [|[k0 v0] d IH]; cbn [dict_set forallb] in *.
    + by rewrite Hk, Hv.
    + apply andb_true_iff in Hall as [H0 Hall]. destruct (decide (k0 = k)); cbn [forallb].
      * by rewrite Hk, Hv, Hall.
      * by rewrite H0, IH.
Qed.

(** *** Dumped documents are ASCII *)

Definition is_ascii (a : ascii) : bool := byte_in 0 127 a.

Lemma ascii_utf8 s : str_forall is_ascii s = true → utf8_valid s = true.
Proof.
  induction s as [|a s IH]; [done|]. cbn [str_forall utf8_valid].
  intros [Ha Hs]%andb_true_iff. unfold is_ascii in Ha. rewrite Ha. by apply IH.
Qed.

Lemma str_forall_concat p (l : list str) sep :
  str_forall p sep = true → Forall (λ s, str_forall p s = true) l →
  str_forall p (join_str sep l) = true.
Proof.
  intros Hsep Hl. induction Hl as [|s l Hs Hl IH]; [done|].
  destruct l as [|s' l]; [done|].
  change (join_str sep (s :: s' :: l)) with (s +:+ sep +:+ join_str sep (s' :: l)).
  rewrite !str_forall_app. by rewrite Hs, Hsep, IH.
Qed.

Lemma get_forall p s n a : str_forall p s = true → String.get n s = Some a → p a = true.
Proof.
  revert n. induction s as [|b s IH]; intros [|n]; simpl; [done..| |].
  - by intros [? _]%andb_true_iff [= <-].
  - intros [_ ?]%andb_true_iff. by apply IH.
Qed.

Lemma hex_lower_ascii n : is_ascii (hex_lower n) = true.
Proof.
  unfold hex_lower. destruct (String.get _ _) as [a|] eqn:E; [|done].
  by eapply get_forall in E.
Qed.

Lemma escape_char_ascii n : scalar n → str_forall is_ascii (escape_char n) = true.
Proof.
  intros Hn. unfold escape_char. repeat case_match; try done.
  - simpl. unfold is_ascii. rewrite andb_true_r. apply andb_true_iff in H6 as [H6 H7].
    apply N.leb_le in H6, H7. apply byte_in_spec. rewrite N_ascii_embedding; lia.
  - unfold escape_u. simpl. by rewrite !hex_lower_ascii.
  - rewrite str_forall_app. unfold escape_u. simpl. by rewrite !hex_lower_ascii.
Qed.

Lemma str_forall_mono (p q : ascii → bool) s :
  (∀ a, p a = true → q a = true) → str_forall p s = true → str_forall q s = true.
Proof.
  intros Hpq. induction s as [|a s IH]; [done|]. cbn [str_forall].
  intros [??]%andb_true_iff. apply andb_true_iff. auto.
Qed.

Lemma pretty_N_printable (n : N) : str_forall (byte_in 32 126) (pretty n) = true.
Proof.
  unfold pretty, pretty_N. case_decide; [done|].
  destruct (pretty_N_go_spec n "") as (ds & E & Hd & _). rewrite E, app_empty_r.
  eapply str_forall_mono; [|done]. intros a. unfold is_digit. rewrite !byte_in_spec. lia.
Qed.

Lemma pretty_Z_printable (z : Z) : str_forall (byte_in 32 126) (pretty z) = true.
Proof.
  destruct z as [|p|p]; [done|apply (pretty_N_printable (Npos p))|].
  change (pretty (Zneg p)) with ("-" +:+ pretty (Npos p)).
  rewrite str_forall_app. by rewrite pretty_N_printable.
Qed.

(** A property of every byte of a document, from that of its literals. *)
Section bytes.
Context (escape : N → str) (q : ascii → bool).
Hypothesis Hescape : ∀ n, scalar n → str_forall q (escape n) = true.
Hypothesis Hprint : ∀ a, byte_in 32 126 a = true → q a = true.

Lemma printable_forall t : str_forall (byte_in 32 126) t = true → str_forall q t = true.
Proof. by apply str_forall_mono. Qed.

Lemma dump_string_forall s : utf8_valid s = true → str_forall q (dump_string_with escape s) = true.
Proof.
  intros [_ Hs]%code_points_spec. unfold dump_string_with. cbn [str_forall].
  apply andb_true_iff. split; [by apply Hprint|]. induction Hs as [|n l Hn Hl IH]; cbn [foldr str_forall].
  - by rewrite Hprint.
  - by rewrite str_forall_app, Hescape, IH.
Qed.

Lemma dumps_forall n j :
  (json_size j ≤ n)%nat → json_wf j = true → str_forall q (json_dumps_with escape j) = true.
Proof.
  revert j. induction n as [|n IH]; intros j Hn Hw; [destruct j; simpl in Hn; lia|].
  destruct j as [|[]|z|t|s|l|kv]; try done; try by apply printable_forall.
  - cbn [json_dumps_with]. apply printable_forall. apply pretty_Z_printable.
  - by apply dump_string_forall.
  - cbn [json_dumps_with].
    rewrite !str_forall_app, (printable_forall "["), (printable_forall "]") by done.
    rewrite str_forall_concat; [done|by apply printable_forall|].
    apply Forall_fmap, Forall_forall. intros x Hx.
    pose proof (list_sum_elem (λ x, S (json_size x)) x _ Hx).
    apply IH; [simpl in *; lia|by eapply forallb_elem].
  - rewrite dumps_dict, !str_forall_app, (printable_forall "{"), (printable_forall "}") by done.
    rewrite str_forall_concat; [done|by apply printable_forall|].
    apply Forall_fmap, Forall_forall. intros [k x] Hx.
    pose proof (list_sum_elem (λ '(_, v), S (json_size v)) _ _ Hx) as Hsz. simpl in Hsz.
    cbn [json_wf] in Hw. apply andb_true_iff in Hw as [_ Hw].
    pose proof (forallb_elem _ _ _ Hw Hx) as Hwx. cbn in Hwx.
    apply andb_true_iff in Hwx as [Hk Hwx].
    unfold compose, dump_member. cbn [fst snd].
    rewrite !str_forall_app, dump_string_forall, IH, (printable_forall ": ") by (done || simpl in *; lia). done.
Qed.
End bytes.

Lemma json_dumps_ascii n j :
  (json_size j ≤ n)%nat → json_wf j = true → str_forall is_ascii (json_dumps j) = true.
Proof.
  apply dumps_forall; [apply escape_char_ascii|]. intros a. unfold is_ascii. rewrite !byte_in_spec. lia.
Qed.

Lemma json_dumps_utf8 j : json_wf j = true → utf8_valid (json_dumps j) = true.
Proof. intros Hw. by eapply ascii_utf8, json_dumps_ascii. Qed.

(** *** Documents on one line *)

(** No control character. *)
Definition no_control (a : ascii) : bool := byte_in 32 255 a.

Lemma escape_raw_no_control n : scalar n → str_forall no_control (escape_raw n) = true.
Proof.
  intros Hn. unfold escape_raw.
  repeat match goal with |- context [?a =? ?b] => destruct (N.eqb_spec a b) as [->|]; [done|] end.
  destruct (N.ltb_spec n 32).
  - assert (Hh : ∀ m, no_control (hex_lower m) = true).
    { intros m. unfold hex_lower. destruct (String.get _ _) as [a|] eqn:E; [|done]. by eapply get_forall in E. }
    unfold escape_u. cbn [str_forall]. by rewrite !Hh.
  - eapply str_forall_mono; [|by apply chr_plain]. intros a [_ Ha]%andb_true_iff. done.
Qed.

Lemma dumps_raw_no_control j :
  json_wf j = true → str_forall no_control (json_dumps_with escape_raw j) = true.
Proof.
  intros Hw. eapply dumps_forall; [apply escape_raw_no_control| |done|done].
  intros a. unfold no_control. rewrite !byte_in_spec. lia.
Qed.
