(* ===== verification/DateTime.v ===== *)
(** * Dates

    [datetime] as the code uses it: instants are microseconds since the epoch,
    [isoformat] of a UTC datetime, and [fromisoformat] for the format
    [YYYY-MM-DD(T| )HH:MM:SS] with an optional fraction of three or six digits
    and an optional offset [Z] or [+HH:MM]; other forms that Python accepts
    (dates without a time, week dates, ...) are errors here.  The calendar is
    the proleptic Gregorian one. *)

From Stdlib Require Import Ascii String.
From S2P Require Import Prelude PyStr PyCodec Json.
Local Open Scope string_scope.
Local Open Scope list_scope.
Local Open Scope Z_scope.

(** ** The calendar *)

(** Days since 1970-01-01 of a date. *)
Definition days_from_civil (y m d : Z) : Z :=
  let y := if m <=? 2 then y - 1 else y in
  let doy := (153 * (if 2 <? m then m - 3 else m + 9) + 2) / 5 + d - 1 in
  let yoe := y mod 400 in
  y / 400 * 146097 + (yoe * 365 + yoe / 4 - yoe / 100 + doy) - 719468.

(** Year and day of the year (counted from March) of a day of an era. *)
Definition year_of_era (doe : Z) : Z := (doe - doe / 1460 + doe / 36524 - doe / 146096) / 365.
Definition day_of_year (doe : Z) : Z :=
  let yoe := year_of_era doe in doe - (365 * yoe + yoe / 4 - yoe / 100).

(** The date of a day since 1970-01-01. *)
Definition civil_from_days (n : Z) : Z * Z * Z :=
  let z := n + 719468 in
  let doe := z mod 146097 in
  let doy := day_of_year doe in
  let mp := (5 * doy + 2) / 153 in
  let d := doy - (153 * mp + 2) / 5 + 1 in
  let m := if mp <? 10 then mp + 3 else mp - 9 in
  let y := year_of_era doe + z / 146097 * 400 in
  (if m <=? 2 then y + 1 else y, m, d).

(** ** Digits *)

Definition digit (n : Z) : ascii := ascii_of_N (48 + Z.to_N n).

(** [f"{n:0{k}d}"] for [0 <= n < 10^k]. *)
Fixpoint pad (k : nat) (n : Z) : str :=
  match k with
  | O => ""
  | S k => pad k (n / 10) +:+ String (digit (n mod 10)) ""
  end.

(** [k] decimal digits and what follows. *)
Fixpoint read_digits (k : nat) (acc : Z) (s : str) : option (Z * str) :=
  match k with
  | O => Some (acc, s)
  | S k =>
      match s with
      | String a s' =>
          if is_digit a then read_digits k (acc * 10 + Z.of_N (N_of_ascii a - 48)) s' else None
      | "" => None
      end
  end.

(** One given character. *)
Definition read_char (c : ascii) (s : str) : option str :=
  match s with
  | String a s' => if decide (a = c) then Some s' else None
  | "" => None
  end.

(** ** [isoformat] and [fromisoformat] *)

Definition day_us : Z := 86400 * 1000000.

(** [datetime.fromtimestamp(t / 10**6, UTC).isoformat()]. *)
Definition isoformat (t : Z) : str :=
  let '(y, m, d) := civil_from_days (t / day_us) in
  let r := t mod day_us in
  let us := r mod 1000000 in
  let secs := r / 1000000 in
  pad 4 y +:+ "-" +:+ pad 2 m +:+ "-" +:+ pad 2 d +:+ "T"
  +:+ pad 2 (secs / 3600) +:+ ":" +:+ pad 2 (secs / 60 mod 60) +:+ ":" +:+ pad 2 (secs mod 60)
  +:+ (if us =? 0 then "" else "." +:+ pad 6 us) +:+ "+00:00".

(** The fraction of a second, in microseconds. *)
Definition read_fraction (s : str) : option (Z * str) :=
  match read_char "." s with
  | None => Some (0, s)
  | Some s1 =>
      match read_digits 6 0 s1 with
      | Some r => Some r
      | None => '(ms, r) ← read_digits 3 0 s1; Some (ms * 1000, r)
      end
  end.

(** The offset from UTC in microseconds; a naive time is taken as UTC, which is
    what the callers do with it. *)
Definition read_offset (s : str) : option Z :=
  match s with
  | "" => Some 0
  | String a s' =>
      if decide (a = "Z"%char) then if decide (s' = "") then Some 0 else None
      else if bool_decide (a = "+"%char ∨ a = "-"%char) then
        '(hh, s1) ← read_digits 2 0 s';
        s2 ← read_char ":" s1;
        '(mm, s3) ← read_digits 2 0 s2;
        if decide (s3 = "" ∧ hh < 24 ∧ mm < 60)
        then Some ((if decide (a = "-"%char) then -1 else 1) * (hh * 3600 + mm * 60) * 1000000)
        else None
      else None
  end.

(** [datetime.fromisoformat(s)] as an instant: [None] is [ValueError]. *)
Definition fromisoformat (s : str) : option Z :=
  '(y, s) ← read_digits 4 0 s; s ← read_char "-" s;
  '(m, s) ← read_digits 2 0 s; s ← read_char "-" s;
  '(d, s) ← read_digits 2 0 s;
  s ← (match read_char "T" s with Some s => Some s | None => read_char " " s end);
  '(hh, s) ← read_digits 2 0 s; s ← read_char ":" s;
  '(mm, s) ← read_digits 2 0 s; s ← read_char ":" s;
  '(ss, s) ← read_digits 2 0 s;
  '(us, s) ← read_fraction s;
  off ← read_offset s;
  let days := days_from_civil y m d in
  if decide (1 <= y ∧ 1 <= m <= 12 ∧ civil_from_days days = (y, m, d) ∧ hh < 24 ∧ mm < 60 ∧ ss < 60)
  then Some (days * day_us + (hh * 3600 + mm * 60 + ss) * 1000000 + us - off)
  else None.

(** The instants Python can represent: years 1 to 9999. *)
Definition representable (t : Z) : Prop := -62135596800 * 1000000 <= t < 253402300800 * 1000000.

(** ** Lemmas *)

Lemma era_bounds doe :
  0 <= doe < 146097 → 0 <= year_of_era doe < 400 ∧ 0 <= day_of_year doe <= 365.
Proof.
  intros Hd. assert (Hy : 0 <= year_of_era doe < 400) by (unfold year_of_era; lia).
  split; [done|]. unfold day_of_year, year_of_era in *. cbv zeta.
  assert (doe / 36524 = 0 ∨ doe / 36524 = 1 ∨ doe / 36524 = 2 ∨ doe / 36524 = 3 ∨ doe / 36524 = 4)
    by lia.
  assert (doe / 146096 = 0 ∨ doe / 146096 = 1) by lia.
  split; lia.
Qed.

(** The date of a day, and back. *)
Lemma days_civil n y m d :
  civil_from_days n = (y, m, d) → days_from_civil y m d = n ∧ 1 <= m <= 12 ∧ 1 <= d <= 31.
Proof.
  unfold civil_from_days, days_from_civil.
  set (z := n + 719468). set (era := z / 146097).
  pose proof (Z.mod_pos_bound z 146097 ltac:(lia)) as Hdoe.
  pose proof (Z.div_mod z 146097 ltac:(lia)) as Hz. fold era in Hz.
  set (doe := z mod 146097) in *. destruct (era_bounds doe Hdoe) as [Hy Hd].
  assert (Hdoy : day_of_year doe = doe - (365 * year_of_era doe
    + year_of_era doe / 4 - year_of_era doe / 100)) by done.
  set (yoe := year_of_era doe) in *. set (doy := day_of_year doe) in *.
  set (mp := (5 * doy + 2) / 153).
  assert (Hmp : 0 <= mp <= 11) by (subst mp; lia).
  intros [= <- <- <-].
  assert (Hd1 : 1 <= doy - (153 * mp + 2) / 5 + 1 <= 31) by (subst mp; lia).
  destruct (Z.ltb_spec mp 10) as [Hm|Hm]; cbv zeta.
  - rewrite !(proj2 (Z.leb_gt (mp + 3) 2)), !(proj2 (Z.ltb_lt 2 (mp + 3))) by lia.
    split; [|lia].
    replace ((yoe + era * 400) mod 400) with yoe by lia.
    replace ((yoe + era * 400) / 400) with era by lia.
    replace (mp + 3 - 3) with mp by lia. lia.
  - rewrite !(proj2 (Z.leb_le (mp - 9) 2)), !(proj2 (Z.ltb_ge 2 (mp - 9))) by lia.
    split; [|lia].
    replace (yoe + era * 400 + 1 - 1) with (yoe + era * 400) by lia.
    replace ((yoe + era * 400) mod 400) with yoe by lia.
    replace ((yoe + era * 400) / 400) with era by lia.
    replace (mp - 9 + 9) with mp by lia. lia.
Qed.

(** The year of a representable instant. *)
Lemma year_bounds n y m d :
  civil_from_days n = (y, m, d) → -719162 <= n < 2932897 → 1 <= y <= 9999.
Proof.
  unfold civil_from_days.
  set (z := n + 719468). set (era := z / 146097).
  pose proof (Z.mod_pos_bound z 146097 ltac:(lia)) as Hdoe.
  pose proof (Z.div_mod z 146097 ltac:(lia)) as Hz. fold era in Hz.
  set (doe := z mod 146097) in *. destruct (era_bounds doe Hdoe) as [Hy Hd].
  assert (Hdoy : day_of_year doe = doe - (365 * year_of_era doe
    + year_of_era doe / 4 - year_of_era doe / 100)) by done.
  set (yoe := year_of_era doe) in *. set (doy := day_of_year doe) in *.
  set (mp := (5 * doy + 2) / 153). intros [= <- _ _] Hn.
  destruct (Z.ltb_spec mp 10) as [Hm|Hm].
  - rewrite (proj2 (Z.leb_gt (mp + 3) 2)) by (subst mp; lia). subst mp z. lia.
  - rewrite (proj2 (Z.leb_le (mp - 9) 2)) by (subst mp; lia). subst mp z. lia.
Qed.

(** *** Digits *)

Lemma digit_spec n : 0 <= n < 10 → is_digit (digit n) = true ∧ Z.of_N (N_of_ascii (digit n) - 48) = n.
Proof.
  intros Hn. assert (n = 0 ∨ n = 1 ∨ n = 2 ∨ n = 3 ∨ n = 4 ∨ n = 5 ∨ n = 6 ∨ n = 7 ∨ n = 8 ∨ n = 9)
    as H by lia.
  by destruct H as [->|[->|[->|[->|[->|[->|[->|[->|[->| ->]]]]]]]]].
Qed.

Lemma read_digits_app j k acc n s :
  0 <= n < 10 ^ Z.of_nat j →
  read_digits (j + k) acc (pad j n +:+ s) = read_digits k (acc * 10 ^ Z.of_nat j + n) s.
Proof.
  revert k acc n s. induction j as [|j IH]; intros k acc n s Hn.
  { simpl in Hn. cbn [pad Nat.add]. rewrite app_empty_l. f_equal. lia. }
  rewrite Nat2Z.inj_succ, Z.pow_succ_r in * by lia.
  cbn [pad]. rewrite <- app_str_assoc, app_cons, app_empty_l.
  replace (S j + k)%nat with (j + S k)%nat by lia.
  rewrite IH by (pose proof (Z.div_lt_upper_bound n 10 (10 ^ Z.of_nat j)); lia).
  destruct (digit_spec (n mod 10)) as [Hd Hv]; [lia|].
  cbn [read_digits]. rewrite Hd, Hv. f_equal. lia.
Qed.

Lemma read_digits_pad k n s :
  0 <= n < 10 ^ Z.of_nat k → read_digits k 0 (pad k n +:+ s) = Some (n, s).
Proof.
  intros Hn. pose proof (read_digits_app k 0 0 n s Hn) as H.
  rewrite Nat.add_0_r in H. rewrite H. cbn [read_digits]. by rewrite Z.mul_0_l.
Qed.

Lemma read_char_cons c s : read_char c (String c s) = Some s.
Proof. unfold read_char. by rewrite decide_True. Qed.

Lemma read_fraction_iso us s :
  0 <= us < 1000000 → read_char "." s = None →
  read_fraction ((if us =? 0 then "" else "." +:+ pad 6 us) +:+ s) = Some (us, s).
Proof.
  intros Hus Hs. unfold read_fraction. destruct (Z.eqb_spec us 0) as [->|Hne].
  - by rewrite app_empty_l, Hs.
  - rewrite <- app_str_assoc, app_cons, app_empty_l, read_char_cons.
    by rewrite read_digits_pad by (simpl; lia).
Qed.

(** [fromisoformat(t.isoformat()) == t]. *)
Lemma fromisoformat_isoformat t : representable t → fromisoformat (isoformat t) = Some t.
Proof.
  unfold representable. intros Ht. unfold isoformat.
  destruct (civil_from_days (t / day_us)) as [[y m] d] eqn:Ec.
  pose proof (days_civil _ _ _ _ Ec) as (Hd & Hm & Hdd).
  assert (Hy : 1 <= y <= 9999) by (eapply year_bounds; [done|]; unfold day_us; lia).
  set (r := t mod day_us). set (us := r mod 1000000). set (secs := r / 1000000).
  assert (Hr : 0 <= r < day_us) by (subst r; unfold day_us; lia).
  assert (Hus : 0 <= us < 1000000) by (subst us; lia).
  assert (Hsecs : 0 <= secs < 86400) by (subst secs; unfold day_us in *; lia).
  unfold fromisoformat.
  rewrite read_digits_pad by (simpl; lia). cbn [mbind option_bind].
  rewrite app_cons, app_empty_l, read_char_cons. cbn [mbind option_bind].
  rewrite read_digits_pad by (simpl; lia). cbn [mbind option_bind].
  rewrite app_cons, app_empty_l, read_char_cons. cbn [mbind option_bind].
  rewrite read_digits_pad by (simpl; lia). cbn [mbind option_bind].
  rewrite app_cons, app_empty_l, read_char_cons. cbn [mbind option_bind].
  rewrite read_digits_pad by (simpl; lia). cbn [mbind option_bind].
  rewrite app_cons, app_empty_l, read_char_cons. cbn [mbind option_bind].
  rewrite read_digits_pad by (simpl; lia). cbn [mbind option_bind].
  rewrite app_cons, app_empty_l, read_char_cons. cbn [mbind option_bind].
  rewrite read_digits_pad by (simpl; lia). cbn [mbind option_bind].
  rewrite read_fraction_iso by done. cbn [mbind option_bind].
  change (read_offset "+00:00") with (Some 0). cbn [mbind option_bind].
  rewrite decide_True.
  - f_equal. rewrite Hd. subst us secs r. unfold day_us. lia.
  - rewrite Hd. split_and!; try lia. done.
Qed.

Lemma pad_ascii k n : str_forall is_ascii (pad k n) = true.
Proof.
  revert n. induction k as [|k IH]; intros n; [done|]. cbn [pad]. rewrite str_forall_app, IH. cbn.
  rewrite andb_true_r. destruct (digit_spec (n mod 10)) as [Hd _]; [apply Z.mod_pos_bound; lia|].
  revert Hd. generalize (digit (n mod 10)). intros a. unfold is_digit, is_ascii, byte_in. rewrite !andb_true_iff, !N.leb_le. lia.
Qed.

Lemma isoformat_utf8 t : utf8_valid (isoformat t) = true.
Proof.
  apply ascii_utf8. unfold isoformat. destruct (civil_from_days _) as [[y m] d].
  rewrite !str_forall_app, !pad_ascii. by destruct (_ =? 0)%Z; rewrite ?str_forall_app, ?pad_ascii.
Qed.

Example isoformat_example : isoformat 1709164800000001 = "2024-02-29T00:00:00.000001+00:00".
Proof. vm_compute. reflexivity. Qed.

(** [isoformat().replace("+00:00", "Z")] of a whole second. *)
Definition iso_z (secs : Z) : str :=
  str_take 19 (isoformat (secs * 1000000)) +:+ "Z".
Example iso_z_example : iso_z 0 = "1970-01-01T00:00:00Z".
Proof. vm_compute. reflexivity. Qed.
