(* ===== verification/Effects.v ===== *)
(** * Exceptions, state and observability

    The effects of the modelled Python code: exceptions as values of [exn],
    one sum type with the classes the code raises and catches; a state and
    exception monad [M] in which a raised exception keeps the state changes
    made before it; the weakest-precondition transformer [wp] the proofs use;
    and the log and metric events a request emits. *)

From S2P Require Import Prelude PyStr.
From Stdlib Require Import Ascii String.
Local Open Scope string_scope.
Local Open Scope list_scope.

(** ** Exceptions *)

(** [errno] of an [OSError]; [ENOENT] is [FileNotFoundError] and [EEXIST] is
    [FileExistsError]. *)
Inductive errno := ENOENT | EEXIST | ENOTDIR | EISDIR | EIO.

(** [ValueError] and the subclasses of it the code defines. *)
Inductive value_class :=
  | PlainValueError
  | PathValidationError
  | ManifestError
  | UnknownRecipientError
  | AccessDenied.

(** [BundlePathConflictError.kind]. *)
Inductive conflict_kind := shadow_parent | shadow_child.

(** The fields of [LimitsRejection] that reach the wire. *)
Inductive limits_error := cap_exceeded | batch_required.
Inductive limits_constraint :=
  | per_file_max | per_bundle_total_max | per_bundle_file_count_max | max_inline_size.

(** The [TokenError] hierarchy of [auth/jwt_tokens.py]. *)
Inductive token_error :=
  | TokenExpired
  | TokenNotYetValid
  | TokenInvalidSignature
  | TokenMissingClaim (claim : str)
  | TokenDecodeError
  | RevokedTokenError (jti : str).

(** The [detail] of an [HTTPException], or a flat JSON body. *)
Inductive detail := DText (t : str) | DDict (kv : list (str * str)).

Inductive exn :=
  | ValueError (c : value_class) (msg : str)
  | KeyError (msg : str)
  | OSError (e : errno) (msg : str)
  | BundlePathConflictError (conflicting_path : str) (kind : conflict_kind)
  | BundleClaimedError (bundle_path : str)
  | LimitsRejection (error : limits_error) (constraint : limits_constraint)
      (limit : option Z) (observed : Z) (reason : str)
  | TokenError (t : token_error)
  | HTTPException (status : Z) (d : detail)
  | DownloadError (status : Z) (body : list (str * str)) (headers : list (str * str))
  | ManifestViolation (reason name : str)
  | TarError (msg : str)
  | FanoutCapExceeded (max_targets : Z)
  | RateLimitExceeded (expiry : option Z)
  | AssertionError
  | SystemExit (code : Z)
  | TyperExit (code : Z)
  | BadParameter (msg : str)
  | HTTPStatusError
  | RequestError (msg : str)
  | OtherError (msg : str).

(** The [isinstance] tests of the [except] clauses. *)
Definition is_FileNotFoundError (e : exn) : bool :=
  match e with OSError ENOENT _ => true | _ => false end.
Definition is_FileExistsError (e : exn) : bool :=
  match e with OSError EEXIST _ => true | _ => false end.
Definition is_OSError (e : exn) : bool :=
  match e with OSError _ _ => true | _ => false end.
Definition is_ValueError (e : exn) : bool :=
  match e with ValueError _ _ => true | _ => false end.
Definition is_PathValidationError (e : exn) : bool :=
  match e with ValueError PathValidationError _ => true | _ => false end.

(** ** The monad *)

Inductive res (A : Type) :=
  | Ok (a : A)
  | Raise (e : exn).
Arguments Ok {_} _.
Arguments Raise {_} _.

Definition M (St A : Type) : Type := St → res A * St.

Declare Scope effect_scope.
Delimit Scope effect_scope with eff.

Section monad.
Context {St : Type}.

Definition ret {A} (a : A) : M St A := λ s, (Ok a, s).
Definition raise {A} (e : exn) : M St A := λ s, (Raise e, s).
Definition bind {A B} (m : M St A) (k : A → M St B) : M St B := λ s,
  match m s with
  | (Ok a, s') => k a s'
  | (Raise e, s') => (Raise e, s')
  end.
Definition get : M St St := λ s, (Ok s, s).
Definition gets {A} (f : St → A) : M St A := λ s, (Ok (f s), s).
Definition modify (f : St → St) : M St unit := λ s, (Ok tt, f s).
Definition of_res {A} (r : res A) : M St A := λ s, (r, s).

(** [try: m; except: ...]: [h e = None] is "no clause matches". *)
Definition catch {A} (m : M St A) (h : exn → option (M St A)) : M St A := λ s,
  match m s with
  | (Ok a, s') => (Ok a, s')
  | (Raise e, s') =>
      match h e with
      | Some m' => m' s'
      | None => (Raise e, s')
      end
  end.

(** [try: m; finally: c] for a [c] that does not raise. *)
Definition finally {A} (m : M St A) (c : M St unit) : M St A := λ s,
  let '(r, s') := m s in let '(_, s'') := c s' in (r, s'').

Definition when (b : bool) (m : M St unit) : M St unit :=
  if b then m else ret tt.

(** [for x in l: f x]. *)
Fixpoint for_each {A} (l : list A) (f : A → M St unit) : M St unit :=
  match l with
  | [] => ret tt
  | x :: l' => bind (f x) (λ _, for_each l' f)
  end.

(** A loop that carries an accumulator. *)
Fixpoint fold_m {A B} (f : B → A → M St B) (acc : B) (l : list A) : M St B :=
  match l with
  | [] => ret acc
  | x :: l' => bind (f acc x) (λ acc', fold_m f acc' l')
  end.

(** [[f x for x in l]]. *)
Fixpoint map_m {A B} (f : A → M St B) (l : list A) : M St (list B) :=
  match l with
  | [] => ret []
  | x :: l' => bind (f x) (λ y, bind (map_m f l') (λ ys, ret (y :: ys)))
  end.
End monad.

Notation "x <- m ;; k" := (bind m (λ x, k))
  (at level 100, m at next level, right associativity) : effect_scope.
Notation "' p <- m ;; k" := (bind m (λ x, match x with p => k end))
  (at level 100, p pattern, m at next level, right associativity) : effect_scope.
Notation "m ;;; k" := (bind m (λ _, k))
  (at level 100, right associativity) : effect_scope.

(** Running a computation on a part of the state. *)
Definition lift {S T A} (proj : T → S) (upd : S → T → T) (m : M S A) : M T A := λ t,
  let '(r, s) := m (proj t) in (r, upd s t).

(** ** Weakest preconditions

    [wp m Q X s]: running [m] from [s] ends in [Q] with its value, or in [X]
    with its exception. *)

Definition wp {St A} (m : M St A) (Q : A → St → Prop) (X : exn → St → Prop) (s : St) : Prop :=
  match m s with
  | (Ok a, s') => Q a s'
  | (Raise e, s') => X e s'
  end.

Section wp.
Context {St : Type}.
Implicit Types (s : St) (X : exn → St → Prop).

Lemma wp_elim {A} (m : M St A) Q X s r s' :
  wp m Q X s → m s = (r, s') →
  match r with Ok a => Q a s' | Raise e => X e s' end.
Proof. unfold wp. intros H Hm. rewrite Hm in H. by destruct r. Qed.

Lemma wp_mono {A} (m : M St A) (Q Q' : A → St → Prop) X X' s :
  (∀ a s', Q a s' → Q' a s') → (∀ e s', X e s' → X' e s') →
  wp m Q X s → wp m Q' X' s.
Proof. unfold wp. intros ??. destruct (m s) as [[] ?]; auto. Qed.

Lemma wp_ret {A} (a : A) Q X s : Q a s → wp (ret a) Q X s.
Proof. done. Qed.
Lemma wp_raise {A} e (Q : A → St → Prop) X s : X e s → wp (raise e) Q X s.
Proof. done. Qed.
Lemma wp_of_res {A} (r : res A) (Q : A → St → Prop) X s :
  match r with Ok a => Q a s | Raise e => X e s end → wp (of_res r) Q X s.
Proof. by destruct r. Qed.
Lemma wp_bind {A B} (m : M St A) (k : A → M St B) Q X s :
  wp m (λ a, wp (k a) Q X) X s → wp (bind m k) Q X s.
Proof. unfold wp, bind. by destruct (m s) as [[] ?]. Qed.
Lemma wp_get Q X s : Q s s → wp get Q X s.
Proof. done. Qed.
Lemma wp_gets {A} (f : St → A) (Q : A → St → Prop) X s : Q (f s) s → wp (gets f) Q X s.
Proof. done. Qed.
Lemma wp_modify f (Q : unit → St → Prop) X s : Q tt (f s) → wp (modify f) Q X s.
Proof. done. Qed.
Lemma wp_catch {A} (m : M St A) h Q X s :
  wp m Q (λ e s', match h e with Some m' => wp m' Q X s' | None => X e s' end) s →
  wp (catch m h) Q X s.
Proof. unfold wp, catch. destruct (m s) as [[] ?]; [done|]. by destruct (h e). Qed.
Lemma wp_when b m (Q : unit → St → Prop) X s :
  (b = true → wp m Q X s) → (b = false → Q tt s) → wp (when b m) Q X s.
Proof. destruct b; intros H1 H2; [by apply H1|by apply H2]. Qed.

(** The loop rule: an invariant that every iteration keeps. *)
Lemma wp_for_each {A} (I : St → Prop) (l : list A) f X s :
  (∀ x s', x ∈ l → I s' → wp (f x) (λ _, I) X s') →
  I s → wp (for_each l f) (λ _, I) X s.
Proof.
  revert s. induction l as [|x l IH]; intros s Hf Hs; [done|].
  apply wp_bind. eapply wp_mono; cycle 2; [apply Hf; [constructor|done]| |done].
  intros [] s' Hs'. apply IH; [|done]. intros y s'' Hy. apply Hf. by constructor.
Qed.

Lemma wp_fold_m {A B} (I : B → St → Prop) (l : list A) f acc X s :
  (∀ b x s', x ∈ l → I b s' → wp (f b x) I X s') →
  I acc s → wp (fold_m f acc l) I X s.
Proof.
  revert acc s. induction l as [|x l IH]; intros acc s Hf Hs; [done|].
  apply wp_bind. eapply wp_mono; cycle 2; [apply Hf; [constructor|done]| |done].
  intros b s' Hs'. apply IH; [|done]. intros b' y s'' Hy. apply Hf. by constructor.
Qed.
End wp.

(** [wp_step] peels one constructor of the monad off the goal. *)
Ltac wp_step :=
  lazymatch goal with
  | |- wp (ret _) _ _ _ => apply wp_ret
  | |- wp (raise _) _ _ _ => apply wp_raise
  | |- wp (of_res _) _ _ _ => apply wp_of_res
  | |- wp (bind _ _) _ _ _ => apply wp_bind
  | |- wp get _ _ _ => apply wp_get
  | |- wp (gets _) _ _ _ => apply wp_gets
  | |- wp (modify _) _ _ _ => apply wp_modify
  | |- wp (catch _ _) _ _ _ => apply wp_catch
  | |- wp (when _ _) _ _ _ => apply wp_when; intros
  | |- wp (match ?x with _ => _ end) _ _ _ => destruct x eqn:?
  end.
Ltac wp_steps := repeat (wp_step; cbv beta).

(** A computation that leaves the state alone. *)
Definition pure_state {St A} (m : M St A) : Prop := ∀ s, (m s).2 = s.

Lemma pure_ret {St A} (a : A) : pure_state (@ret St A a).
Proof. done. Qed.
Lemma pure_raise {St A} e : pure_state (@raise St A e).
Proof. done. Qed.
Lemma pure_bind {St A B} (m : M St A) (k : A → M St B) :
  pure_state m → (∀ a, pure_state (k a)) → pure_state (bind m k).
Proof.
  intros Hm Hk s. unfold bind. specialize (Hm s).
  destruct (m s) as [[] s']; simpl in *; subst; [apply Hk|done].
Qed.
#[export] Hint Resolve pure_ret pure_raise pure_bind : cassetta.

(** ** Observability *)

Inductive log_level := DEBUG | INFO | WARNING | ERROR.

(** One structured log record (its level and event name) or one metric call. *)
Inductive event :=
  | Log (level : log_level) (name : str)
  | Increment (name : str) (value : Z) (tags : list (str * str))
  | Gauge (name : str) (value : Z)
  | Observe (name : str).
