(* ===== verification/Logging.v ===== *)
(** * Structured logging

    [structured_log.py] below [struct_log]: the record a call makes, the JSON
    and the text formatter, and [configure_logging] on the registry of the
    [logging] module.  An object that [json] cannot encode is represented by
    its [str]; the traceback text of an exception and the local time of the
    text format are given.  The routes use [World.struct_log], which keeps the
    level and the event name of the record. *)

From Stdlib Require Import Ascii String.
From S2P Require Import Prelude PyStr PyCodec Json DateTime Effects.
Local Open Scope string_scope.
Local Open Scope list_scope.

(** ** Values and records *)

(** What [json.dumps(..., default=str)] is given. *)
Inductive pyval :=
  | VNull
  | VBool (b : bool)
  | VInt (z : Z)
  | VFloat (text : str)
  | VStr (s : str)
  | VList (l : list pyval)
  | VDict (kv : list (str * pyval))
  | VOther (text : str).

(** The document it writes: [default=str] on what JSON has no form for. *)
Fixpoint encode (v : pyval) : json :=
  match v with
  | VNull => JNull
  | VBool b => JBool b
  | VInt z => JInt z
  | VFloat t => JFloat t
  | VStr s => JStr s
  | VList l => JList (map encode l)
  | VDict kv => JDict (map (λ '(k, v), (k, encode v)) kv)
  | VOther text => JStr text
  end.

Definition level_name (l : log_level) : str :=
  match l with DEBUG => "DEBUG" | INFO => "INFO" | WARNING => "WARNING" | ERROR => "ERROR" end.

(** [logging.LogRecord]: the attributes set by [extra], and the formatted
    exception of [exc_info]. *)
Record LogRecord := {
  lr_created : Z;
  lr_level : log_level;
  lr_message : str;
  lr_extra : list (str * pyval);
  lr_exception : option str;
}.

(** [getattr(record, field, None)]. *)
Definition attribute (r : LogRecord) (field : str) : pyval :=
  match find_first (λ kv, bool_decide (kv.1 = field)) (lr_extra r) with
  | Some (_, v) => v
  | None => VNull
  end.

(** ** [JsonFormatter] *)

Definition STRUCTURED_FIELDS : list str :=
  ["event"; "request_id"; "identity_label"; "identity_extra"; "resource"; "action"; "result";
   "duration_ms"; "detail"].

(** One iteration of the loop over the structured fields. *)
Definition pull_field (r : LogRecord) (obj : dict) (field : str) : dict :=
  match attribute r field with
  | VNull => obj
  | v => dict_set field (encode v) obj
  end.

(** [if key not in obj: obj[key] = value]. *)
Definition set_missing (key : str) (value : option json) (obj : dict) : dict :=
  match dict_get key obj, value with
  | None, Some v => dict_set key v obj
  | _, _ => obj
  end.

(** The object [format] builds; [request_id] is the context variable. *)
Definition log_object (request_id : option str) (r : LogRecord) : dict :=
  let obj := [("timestamp", JStr (isoformat (lr_created r))); ("level", JStr (level_name (lr_level r)))] in
  let obj := foldl (pull_field r) obj STRUCTURED_FIELDS in
  let obj := set_missing "event" (Some (JStr (lr_message r))) obj in
  let obj := set_missing "request_id" (JStr <$> request_id) obj in
  match lr_exception r with
  | Some text => dict_set "exception" (JStr text) obj
  | None => obj
  end.

Definition json_format (request_id : option str) (r : LogRecord) : str :=
  json_dumps_with escape_raw (JDict (log_object request_id r)).

(** ** [TextFormatter] *)

(** [logging.Formatter.format] with the format of the class. *)
Definition text_format (asctime : Z → str) (r : LogRecord) : str :=
  let s := asctime (lr_created r) +:+ " " +:+ level_name (lr_level r) +:+ " " +:+ lr_message r in
  match lr_exception r with
  | Some text => s +:+ (if endswith (String newline "") s then "" else String newline "") +:+ text
  | None => s
  end.

(** ** [struct_log] *)

Record LogFields := {
  lf_identity_label : option str;
  lf_identity_extra : option (list (str * pyval));
  lf_resource : option str;
  lf_action : option str;
  lf_result : option str;
  lf_duration_ms : option str;
  lf_detail : option pyval;
}.
Definition no_fields : LogFields := {|
  lf_identity_label := None; lf_identity_extra := None; lf_resource := None; lf_action := None;
  lf_result := None; lf_duration_ms := None; lf_detail := None |}.

(** [if x is not None: extra[key] = x]. *)
Definition opt_entry {A} (key : str) (f : A → pyval) (x : option A) : list (str * pyval) :=
  match x with Some a => [(key, f a)] | None => [] end.

Definition struct_extra (event : str) (request_id : option str) (f : LogFields) : list (str * pyval) :=
  [("event", VStr event)]
  ++ opt_entry "request_id" VStr request_id
  ++ opt_entry "identity_label" VStr (lf_identity_label f)
  ++ opt_entry "identity_extra" VDict (lf_identity_extra f)
  ++ opt_entry "resource" VStr (lf_resource f)
  ++ opt_entry "action" VStr (lf_action f)
  ++ opt_entry "result" VStr (lf_result f)
  ++ opt_entry "duration_ms" VFloat (lf_duration_ms f)
  ++ opt_entry "detail" id (lf_detail f).

(** The record [logger.log(level, event, extra=extra)] makes at a time. *)
Definition struct_record (now : Z) (level : log_level) (event : str) (request_id : option str)
    (f : LogFields) : LogRecord := {|
  lr_created := now; lr_level := level; lr_message := event;
  lr_extra := struct_extra event request_id f; lr_exception := None |}.

(** ** [configure_logging] *)

(** A handler: its identity, the [_cassetta_managed] marker, its formatter. *)
Record Handler := { h_id : nat; h_managed : bool; h_json : bool }.
#[export] Instance handler_eq_dec : EqDecision Handler.
Proof. solve_decision. Defined.

Record Logger := {
  lg_handlers : list Handler;
  lg_level : option log_level;
  lg_propagate : bool;
}.

(** The registry of the process, and the identity of the next handler. *)
Record Registry := mkRegistry { rg_loggers : gmap str Logger; rg_next : nat }.

(** [logging.getLogger(name)]: an unknown name is a new logger. *)
Definition getLogger (rg : Registry) (name : str) : Logger :=
  default {| lg_handlers := []; lg_level := None; lg_propagate := true |} (rg_loggers rg !! name).

Definition set_logger (name : str) (l : Logger) (rg : Registry) : Registry :=
  mkRegistry (<[name := l]> (rg_loggers rg)) (rg_next rg).

(** [list.remove]: the first occurrence. *)
Fixpoint remove_first (h : Handler) (l : list Handler) : list Handler :=
  match l with
  | [] => []
  | x :: l' => if decide (x = h) then l' else x :: remove_first h l'
  end.

Definition addHandler (h : Handler) (l : list Handler) : list Handler :=
  if decide (h ∈ l) then l else l ++ [h].

(** [_attach_managed_handler]. *)
Definition attach_managed_handler (name : str) (handler : Handler) (rg : Registry) : Registry :=
  let target := getLogger rg name in
  let cleared := foldl (λ hs existing, if h_managed existing then remove_first existing hs else hs)
                   (lg_handlers target) (lg_handlers target) in
  set_logger name {| lg_handlers := addHandler handler cleared; lg_level := Some DEBUG;
                     lg_propagate := lg_propagate target |} rg.

Definition set_propagate (name : str) (b : bool) (rg : Registry) : Registry :=
  let target := getLogger rg name in
  set_logger name {| lg_handlers := lg_handlers target; lg_level := lg_level target; lg_propagate := b |} rg.

Definition OWN_LOG_TREES : list str := ["cassetta"; "cassetta.auth"].

Definition configure_logging (log_format : str) (extra_log_trees : list str) (rg : Registry) : Registry :=
  let handler := {| h_id := rg_next rg; h_managed := true; h_json := bool_decide (log_format = "json") |} in
  let rg := mkRegistry (rg_loggers rg) (S (rg_next rg)) in
  let rg := foldl (λ rg name, set_propagate name false (attach_managed_handler name handler rg))
              rg OWN_LOG_TREES in
  foldl (λ rg name, if decide (name ∈ OWN_LOG_TREES) then rg else attach_managed_handler name handler rg)
    rg extra_log_trees.

(** ** Lemmas: the object of a line *)

(** The structured field [k] of a record, if it has one. *)
Definition given (r : LogRecord) (k : str) : option json :=
  match attribute r k with VNull => None | v => Some (encode v) end.

(** What a line says under a key. *)
Definition rendered (request_id : option str) (r : LogRecord) (k : str) : option json :=
  if decide (k = "timestamp") then Some (JStr (isoformat (lr_created r)))
  else if decide (k = "level") then Some (JStr (level_name (lr_level r)))
  else if decide (k = "exception") then JStr <$> lr_exception r
  else if decide (k = "event") then Some (default (JStr (lr_message r)) (given r "event"))
  else if decide (k = "request_id") then
    match given r "request_id" with Some v => Some v | None => JStr <$> request_id end
  else if decide (k ∈ STRUCTURED_FIELDS) then given r k
  else None.

Lemma pull_field_given r obj f :
  pull_field r obj f = match given r f with Some v => dict_set f v obj | None => obj end.
Proof. unfold pull_field, given. by destruct (attribute r f). Qed.

Lemma get_pulled r fields obj k :
  dict_get k (foldl (pull_field r) obj fields) =
    match given r k with
    | Some v => if decide (k ∈ fields) then Some v else dict_get k obj
    | None => dict_get k obj
    end.
Proof.
  revert obj. induction fields as [|f fields IH]; intros obj; cbn [foldl].
  { destruct (given r k); by rewrite ?decide_False by apply not_elem_of_nil. }
  rewrite IH, pull_field_given. destruct (decide (k = f)) as [->|Hne].
  - destruct (given r f) as [v|]; [|done].
    rewrite (decide_True (P := f ∈ f :: fields)) by by left.
    rewrite dict_get_set, (decide_True (P := f = f)) by done. by case_decide.
  - assert (Ed : dict_get k match given r f with Some v => dict_set f v obj | None => obj end = dict_get k obj).
    { destruct (given r f); [|done]. by rewrite dict_get_set, decide_False. }
    rewrite Ed. destruct (given r k); [|done].
    destruct (decide (k ∈ fields)); [rewrite decide_True by (by right)|rewrite decide_False by set_solver]; done.
Qed.

Lemma get_set_missing key v obj k :
  dict_get k (set_missing key v obj) =
    match dict_get k obj with Some j => Some j | None => if decide (k = key) then v else None end.
Proof.
  unfold set_missing. destruct (dict_get key obj) as [j|] eqn:E.
  - destruct (dict_get k obj) eqn:Ek; [done|]. case_decide; [subst; congruence|done].
  - destruct v as [v|]; [rewrite dict_get_set|]; case_decide; subst; rewrite ?E; try done;
      by destruct (dict_get k obj).
Qed.

Lemma get_head r k :
  dict_get k [("timestamp", JStr (isoformat (lr_created r))); ("level", JStr (level_name (lr_level r)))]
  = if decide (k = "timestamp") then Some (JStr (isoformat (lr_created r)))
    else if decide (k = "level") then Some (JStr (level_name (lr_level r))) else None.
Proof.
  destruct (decide (k = "timestamp")) as [->|H1]; [by rewrite dict_get_eq|].
  rewrite dict_get_ne by done. destruct (decide (k = "level")) as [->|H2]; [by rewrite dict_get_eq|].
  by rewrite dict_get_ne, dict_get_nil by done.
Qed.

Ltac not_structured := apply (bool_decide_unpack _); vm_compute; exact I.

Lemma log_object_get request_id r k : dict_get k (log_object request_id r) = rendered request_id r k.
Proof.
  unfold log_object. set (obj := set_missing "request_id" _ _).
  assert (Eo : dict_get k obj = if decide (k = "exception") then None else rendered request_id r k).
  { unfold obj, rendered. rewrite !get_set_missing, get_pulled, get_head. clear obj.
    destruct (decide (k = "timestamp")) as [->|H1].
    { destruct (given r _); [|done]. rewrite (decide_False (P := "timestamp" ∈ _)) by not_structured. done. }
    destruct (decide (k = "level")) as [->|H2].
    { destruct (given r _); [|done]. rewrite (decide_False (P := "level" ∈ _)) by not_structured. done. }
    destruct (decide (k = "exception")) as [->|H3].
    { destruct (given r _); [|done]. rewrite (decide_False (P := "exception" ∈ _)) by not_structured. done. }
    destruct (decide (k = "event")) as [->|H4].
    { destruct (given r "event"); [|done]. by rewrite (decide_True (P := "event" ∈ _)) by (left; done). }
    destruct (decide (k = "request_id")) as [->|H5].
    { destruct (given r "request_id"); [|done].
      by rewrite (decide_True (P := "request_id" ∈ _)) by (right; left; done). }
    destruct (given r k); by destruct (decide (k ∈ STRUCTURED_FIELDS)). }
  destruct (lr_exception r) as [text|] eqn:Ex.
  - rewrite dict_get_set, Eo. unfold rendered. rewrite Ex.
    destruct (decide (k = "exception")) as [->|]; [|done]. by rewrite !decide_False by done.
  - rewrite Eo. unfold rendered. rewrite Ex.
    destruct (decide (k = "exception")) as [->|]; [|done]. by rewrite !decide_False by done.
Qed.

(** Text that a line can carry. *)
Record record_ok (request_id : option str) (r : LogRecord) : Prop := {
  ro_message : utf8_valid (lr_message r) = true;
  ro_extra : Forall (λ kv, json_wf (encode kv.2) = true) (lr_extra r);
  ro_request_id : ∀ rid, request_id = Some rid → utf8_valid rid = true;
  ro_exception : ∀ text, lr_exception r = Some text → utf8_valid text = true;
}.

Lemma given_wf request_id r k v : record_ok request_id r → given r k = Some v → json_wf v = true.
Proof.
  intros Hr. unfold given, attribute. destruct (find_first _ (lr_extra r)) as [[k' v']|] eqn:E; [|done].
  apply find_first_Some in E as [Hin _]. pose proof (ro_extra _ _ Hr) as Hx. rewrite Forall_forall in Hx.
  specialize (Hx _ Hin). cbn in Hx. destruct v'; intros [= <-]; done.
Qed.

Lemma set_missing_wf key v obj :
  json_wf (JDict obj) = true → utf8_valid key = true → (∀ j, v = Some j → json_wf j = true) →
  json_wf (JDict (set_missing key v obj)) = true.
Proof.
  intros Ho Hk Hv. unfold set_missing. destruct (dict_get key obj); [done|]. destruct v; [|done].
  apply dict_set_wf; auto.
Qed.

Lemma log_object_wf request_id r :
  record_ok request_id r → json_wf (JDict (log_object request_id r)) = true.
Proof.
  intros Hr. unfold log_object.
  assert (Hpull : ∀ fields obj, Forall (λ f, utf8_valid f = true) fields → json_wf (JDict obj) = true →
    json_wf (JDict (foldl (pull_field r) obj fields)) = true).
  { induction fields as [|f fields IH]; intros obj Hf Ho; [done|]. apply Forall_cons in Hf as [Hf Hfs].
    cbn [foldl]. apply IH; [done|]. rewrite pull_field_given.
    destruct (given r f) eqn:E; [|done]. apply dict_set_wf; [done..|]. by eapply given_wf. }
  assert (Hobj : json_wf (JDict (set_missing "request_id" (JStr <$> request_id)
    (set_missing "event" (Some (JStr (lr_message r)))
      (foldl (pull_field r) [("timestamp", JStr (isoformat (lr_created r)));
        ("level", JStr (level_name (lr_level r)))] STRUCTURED_FIELDS)))) = true).
  { apply set_missing_wf; [apply set_missing_wf; [apply Hpull| |]| |].
    - by repeat constructor.
    - cbn [json_wf forallb]. rewrite isoformat_utf8. by destruct (lr_level r).
    - done.
    - intros j [= <-]. apply Hr.
    - done.
    - intros j. destruct request_id as [rid|] eqn:E; intros [= <-]. by apply (ro_request_id _ _ Hr). }
  destruct (lr_exception r) as [text|] eqn:E; [|done]. apply dict_set_wf; [done..|].
  by apply (ro_exception _ _ Hr).
Qed.

(** ** Lemmas: the registry *)

Lemma remove_unmanaged x acc l :
  h_managed x = false →
  foldl (λ hs e, if h_managed e then remove_first e hs else hs) (x :: acc) l
  = x :: foldl (λ hs e, if h_managed e then remove_first e hs else hs) acc l.
Proof.
  intros Hx. revert acc. induction l as [|e l IH]; intros acc; [done|]. cbn [foldl].
  destruct (h_managed e) eqn:E; [|apply IH]. cbn [remove_first].
  rewrite decide_False by congruence. apply IH.
Qed.

(** The clearing loop keeps exactly the handlers without the marker. *)
Lemma cleared_handlers l :
  foldl (λ hs e, if h_managed e then remove_first e hs else hs) l l
  = filter (λ h, h_managed h = false) l.
Proof.
  induction l as [|x l IH]; [done|]. cbn [foldl]. destruct (h_managed x) eqn:E.
  - cbn [remove_first]. rewrite decide_True by done. rewrite filter_cons_False by congruence. apply IH.
  - rewrite remove_unmanaged, filter_cons_True by done. by rewrite IH.
Qed.

Definition foreign (l : Logger) : list Handler := filter (λ h, h_managed h = false) (lg_handlers l).
Definition managed (l : Logger) : list Handler := filter (λ h, h_managed h = true) (lg_handlers l).

(** A logger the call has configured with the handler [h]; [l] is the logger
    before it. *)
Record configured (h : Handler) (l l' : Logger) : Prop := {
  cf_managed : managed l' = [h];
  cf_foreign : foreign l' = foreign l;
  cf_level : lg_level l' = Some DEBUG;
}.

Lemma get_set_logger rg name l name' :
  getLogger (set_logger name l rg) name' = if decide (name' = name) then l else getLogger rg name'.
Proof.
  unfold getLogger, set_logger. cbn. case_decide as E; [subst; by rewrite lookup_insert_eq|].
  by rewrite lookup_insert_ne.
Qed.

Lemma attach_get name h rg name' :
  h_managed h = true →
  let l' := getLogger (attach_managed_handler name h rg) name' in
  (name' = name → configured h (getLogger rg name) l' ∧ lg_propagate l' = lg_propagate (getLogger rg name)) ∧
  (name' ≠ name → l' = getLogger rg name').
Proof.
  intros Hh. unfold attach_managed_handler. cbn zeta. rewrite get_set_logger, cleared_handlers. split.
  - intros ->. rewrite decide_True by done. split; [|done].
    set (fl := filter _ _).
    assert (Hfl : ∀ x, x ∈ fl → h_managed x = false) by (intros x [Hx _]%list_elem_of_filter; done).
    assert (Ha : addHandler h fl = fl ++ [h]).
    { unfold addHandler. rewrite decide_False; [done|]. intros Hin%Hfl. congruence. }
    assert (Hmf : filter (λ x, h_managed x = true) fl = []).
    { apply elem_of_nil_inv. intros x [Hx Hin]%list_elem_of_filter. apply Hfl in Hin. congruence. }
    assert (Hff : filter (λ x, h_managed x = false) fl = fl).
    { clear Ha Hmf. induction fl as [|x fl IH]; [done|].
      rewrite filter_cons_True by (apply Hfl; by left). f_equal. apply IH. intros y Hy. apply Hfl. by right. }
    split; unfold managed, foreign; cbn [lg_handlers lg_level]; [| |done]; rewrite Ha, filter_app.
    + by rewrite Hmf, filter_cons_True.
    + rewrite Hff, filter_cons_False by congruence. by rewrite app_nil_r.
  - intros Hne. by rewrite decide_False.
Qed.

Lemma configured_again h l l' l'' : configured h l l' → configured h l' l'' → configured h l l''.
Proof. intros [] []. split; congruence. Qed.

Lemma set_propagate_get name b rg name' :
  let l := getLogger rg name' in
  let l' := getLogger (set_propagate name b rg) name' in
  lg_handlers l' = lg_handlers l ∧ lg_level l' = lg_level l ∧
  lg_propagate l' = if decide (name' = name) then b else lg_propagate l.
Proof.
  unfold set_propagate. cbn zeta. rewrite get_set_logger. case_decide as E; [subst; done|done].
Qed.

(** One of the project's own trees. *)
Lemma own_get n h rg name :
  h_managed h = true →
  let l' := getLogger (set_propagate n false (attach_managed_handler n h rg)) name in
  (name = n → configured h (getLogger rg name) l' ∧ lg_propagate l' = false) ∧
  (name ≠ n → l' = getLogger rg name).
Proof.
  intros Hh. cbn zeta. set (rg1 := attach_managed_handler n h rg).
  destruct (set_propagate_get n false rg1 name) as (Es & El & Ep). cbn zeta in *.
  destruct (attach_get n h rg name Hh) as [Ha Hb]. fold rg1 in Ha, Hb. cbn zeta in *. split.
  - intros ->. destruct (Ha eq_refl) as [[Hm Hf Hl] _]. rewrite decide_True in Ep by done.
    split; [|done]. unfold managed, foreign in *. split; unfold managed, foreign; by rewrite ?Es, ?El.
  - intros Hne. unfold set_propagate. cbn zeta. rewrite get_set_logger, decide_False by done. by apply Hb.
Qed.

(** The loop over the supplied trees. *)
Lemma supplied_get h names rg name' :
  h_managed h = true →
  let rg' := foldl (λ rg name, if decide (name ∈ OWN_LOG_TREES) then rg else attach_managed_handler name h rg)
               rg names in
  lg_propagate (getLogger rg' name') = lg_propagate (getLogger rg name') ∧
  (name' ∉ OWN_LOG_TREES → name' ∈ names → configured h (getLogger rg name') (getLogger rg' name')) ∧
  (name' ∈ OWN_LOG_TREES ∨ name' ∉ names → getLogger rg' name' = getLogger rg name').
Proof.
  intros Hh. revert rg. induction names as [|n names IH]; intros rg; cbn [foldl] in *.
  { split_and!; [done| |done]. by intros _ ?%not_elem_of_nil. }
  cbn zeta in *. destruct (decide (n ∈ OWN_LOG_TREES)) as [Hn|Hn].
  { destruct (IH rg) as (IH1 & IH2 & IH3). split_and!; [done| |].
    - intros Ho [->|Hin]%elem_of_cons; [done|auto].
    - intros [Ho|Ho]; apply IH3; [by left|right; set_solver]. }
  destruct (IH (attach_managed_handler n h rg)) as (IH1 & IH2 & IH3).
  destruct (attach_get n h rg name' Hh) as [Ha Hb]. destruct (decide (name' = n)) as [->|Hne].
  - destruct (Ha eq_refl) as [Hc Hp]. split_and!.
    + by rewrite IH1.
    + intros _ _. destruct (decide (n ∈ names)) as [Hin|Hin].
      * by eapply configured_again; [|apply IH2].
      * by rewrite IH3 by by right.
    + intros [?|Hin]; [done|]. destruct Hin. by left.
  - rewrite Hb in * by done. split_and!; [done| |].
    + intros Ho [->|Hin]%elem_of_cons; [done|auto].
    + intros [Ho|Ho]; apply IH3; [by left|right; set_solver].
Qed.

(** ** Properties *)

(** C40: a JSON log line is one line and loses nothing: for a record with text
    that can be encoded, the line [json_format] writes holds no control
    character, so no line break, and reads back as an object; its time is the
    time of the record, and under every key it holds exactly what the record
    says: the level, the event given or else the message, the request
    identifier given or else that of the context, the other structured fields
    that are set, the exception, and no other key. *)
Theorem json_lines request_id r :
  record_ok request_id r → representable (lr_created r) →
  let line := json_format request_id r in
  str_forall no_control line = true ∧
  ∃ obj, json_loads line = Some (JDict obj) ∧
    (∀ k, dict_get k obj = rendered request_id r k) ∧
    fromisoformat (get_str "timestamp" "" obj) = Some (lr_created r).
Proof.
  intros Hr Ht line. pose proof (log_object_wf request_id r Hr) as Hw. unfold line, json_format.
  split; [by apply dumps_raw_no_control|]. exists (log_object request_id r).
  split_and!; [by apply loads_dumps; [apply _|]|apply log_object_get|].
  unfold get_str. rewrite log_object_get. unfold rendered. rewrite decide_True by done.
  by apply fromisoformat_isoformat.
Qed.

Definition demo_record : LogRecord :=
  struct_record 0 INFO "file.uploaded" (Some "r-1")
    {| lf_identity_label := Some "alice"; lf_identity_extra := None; lf_resource := Some "files:a";
       lf_action := None; lf_result := Some "ok"; lf_duration_ms := None;
       lf_detail := Some (VDict [("size", VInt 5); ("note", VStr (String newline "two lines"))]) |}.

Lemma json_lines_witness :
  str_forall no_control (json_format None demo_record) = true ∧
  ∃ obj, json_loads (json_format None demo_record) = Some (JDict obj) ∧
    dict_get "resource" obj = Some (JStr "files:a").
Proof.
  destruct (json_lines None demo_record) as [H1 (obj & H2 & H3 & _)].
  - split; [reflexivity| | |]; [|discriminate|discriminate].
    repeat constructor; vm_compute; reflexivity.
  - vm_compute. split; congruence.
  - split; [exact H1|]. exists obj. split; [exact H2|]. rewrite H3. vm_compute. reflexivity.
Defined.

(** [configure_logging] is idempotent and respects what it does not own:
    from any registry, so also from one it has configured before, the trees of
    the project and the supplied ones end with exactly one handler of its own,
    the new one, with their other handlers as they were, in their order, and
    at level DEBUG; the project's trees do not propagate, every other tree
    propagates as before, and trees that are neither are unchanged. *)
Theorem configure_logging_idempotent log_format extra_log_trees rg name :
  let rg' := configure_logging log_format extra_log_trees rg in
  let h := {| h_id := rg_next rg; h_managed := true; h_json := bool_decide (log_format = "json") |} in
  (name ∈ OWN_LOG_TREES ++ extra_log_trees → configured h (getLogger rg name) (getLogger rg' name)) ∧
  (name ∈ OWN_LOG_TREES → lg_propagate (getLogger rg' name) = false) ∧
  (name ∉ OWN_LOG_TREES → lg_propagate (getLogger rg' name) = lg_propagate (getLogger rg name)) ∧
  (name ∉ OWN_LOG_TREES ++ extra_log_trees → getLogger rg' name = getLogger rg name).
Proof.
  cbn zeta. unfold configure_logging. set (h := {| h_id := rg_next rg; h_managed := true; h_json := _ |}).
  set (rg0 := mkRegistry _ _). set (rg1 := foldl _ rg0 OWN_LOG_TREES).
  assert (E0 : ∀ n, getLogger rg0 n = getLogger rg n) by done.
  assert (H1 : (name ∈ OWN_LOG_TREES → configured h (getLogger rg name) (getLogger rg1 name)
                 ∧ lg_propagate (getLogger rg1 name) = false) ∧
               (name ∉ OWN_LOG_TREES → getLogger rg1 name = getLogger rg name)).
  { unfold rg1, OWN_LOG_TREES. cbn [foldl].
    set (rga := set_propagate "cassetta" false _).
    destruct (own_get "cassetta" h rg0 name eq_refl) as [Ha1 Ha2]. fold rga in Ha1, Ha2.
    destruct (own_get "cassetta.auth" h rga name eq_refl) as [Hb1 Hb2]. cbn zeta in *. split.
    - intros [->|[->|[]%not_elem_of_nil]%elem_of_cons]%elem_of_cons.
      + rewrite Hb2 by done. by apply Ha1.
      + rewrite <- E0, <- Ha2 by done. by apply Hb1.
    - intros Hn. rewrite Hb2, Ha2 by set_solver. done. }
  destruct (supplied_get h extra_log_trees rg1 name eq_refl) as (Hp & Hs & Hu). cbn zeta in *.
  destruct H1 as [Hown Hother].
  destruct (decide (name ∈ OWN_LOG_TREES)) as [Ho|Ho].
  - destruct (Hown Ho) as [Hc Hf]. rewrite Hu by by left. split_and!; [done|done|done|].
    intros Hn. destruct Hn. apply elem_of_app. by left.
  - specialize (Hother Ho). rewrite Hother in *. split_and!; [|done|done|].
    + intros [?|Hin]%elem_of_app; [done|auto].
    + intros Hn. apply Hu. right. intros Hin. apply Hn, elem_of_app. by right.
Qed.

(** The text format leaves the structured fields out. *)
Example text_format_drops_fields asctime now level event rid f :
  text_format asctime (struct_record now level event rid f)
  = text_format asctime (struct_record now level event None no_fields).
Proof. reflexivity. Qed.
