(* ===== verification/PyNum.v ===== *)
(** * Conversions to integers, and sorting

    [int(x)] of strings and of decoded JSON values, and Python's stable
    [sorted].  Decimal digits are the ASCII ones; a number with a fraction or
    an exponent is truncated exactly, where Python first rounds it to a
    double. *)

From Stdlib Require Import Ascii String.
From S2P Require Import Prelude PyStr Json Effects.
Local Open Scope string_scope.
Local Open Scope list_scope.
Local Open Scope Z_scope.

(** ** [int(s)] *)

Definition digit_of (a : ascii) : Z := Z.of_N (N_of_ascii a) - 48.

(** The digits of a literal, with single underscores between them. *)
Fixpoint int_digits (acc : Z) (after_digit : bool) (s : str) : option Z :=
  match s with
  | "" => if after_digit then Some acc else None
  | String a s' =>
      if is_digit a then int_digits (acc * 10 + digit_of a) true s'
      else if bool_decide (a = "_"%char) && after_digit then int_digits acc false s'
      else None
  end.

Definition int_of_str (s : str) : option Z :=
  match strip s with
  | String a s' =>
      if decide (a = "-"%char) then Z.opp <$> int_digits 0 false s'
      else if decide (a = "+"%char) then int_digits 0 false s'
      else int_digits 0 false (String a s')
  | "" => None
  end.

Example int_examples :
  map int_of_str ["42"; " -7 "; "+1_000"; ""; "_1"; "1__2"; "0x10"; "1."]
  = [Some 42; Some (-7); Some 1000; None; None; None; None; None].
Proof. vm_compute. reflexivity. Qed.

(** ** [int(x)] of a decoded value *)

(** Digits up to the first other character: value, count, rest. *)
Fixpoint take_digits (acc : Z) (n : Z) (s : str) : Z * Z * str :=
  match s with
  | String a s' => if is_digit a then take_digits (acc * 10 + digit_of a) (n + 1) s' else (acc, n, s)
  | "" => (acc, n, s)
  end.

(** [int(float(t))]: [None] for the infinities and not-a-number. *)
Definition float_int (t : str) : option Z :=
  let '(neg, t) := match t with
    | String a t' => if decide (a = "-"%char) then (true, t') else (false, t)
    | "" => (false, t)
    end in
  let '(m, n0, t) := take_digits 0 0 t in
  let '(m, k, t) := match t with
    | String a t' => if decide (a = "."%char) then take_digits m 0 t' else (m, 0, t)
    | "" => (m, 0, t)
    end in
  e ← match t with
    | "" => Some 0
    | String a t' => if decide (a = "e"%char ∨ a = "E"%char) then int_of_str t' else None
    end;
  if decide (n0 = 0) then None
  else
    let z := if decide (k ≤ e) then m * 10 ^ (e - k) else Z.quot m (10 ^ (k - e)) in
    if decide (2 ^ 1024 ≤ z) then None else Some (if neg then - z else z).

Definition type_error_int : exn := OtherError "TypeError: int() argument".

Definition is_TypeError (e : exn) : bool :=
  match e with OtherError msg => startswith "TypeError" msg | _ => false end.

Definition py_int (j : json) : res Z :=
  match j with
  | JInt z => Ok z
  | JBool b => Ok (if b then 1 else 0)
  | JFloat t => match float_int t with
                | Some z => Ok z
                | None => Raise (OtherError "OverflowError")
                end
  | JStr s => match int_of_str s with
              | Some z => Ok z
              | None => Raise (ValueError PlainValueError "invalid literal for int()")
              end
  | JNull | JList _ | JDict _ => Raise type_error_int
  end.

Example float_examples :
  map float_int ["2.5"; "-3.9"; "1e3"; "12.5e-1"; "NaN"; "1e400"]
  = [Some 2; Some (-3); Some 1000; Some 1; None; None].
Proof. vm_compute. reflexivity. Qed.

(** [int(d.get(k, default))]. *)
Definition get_int (k : str) (default : Z) (d : dict) : res Z :=
  match dict_get k d with Some j => py_int j | None => Ok default end.

(** [d[k]]. *)
Definition dict_item (k : str) (d : dict) : res json :=
  match dict_get k d with Some j => Ok j | None => Raise (KeyError k) end.

(** [d.get(k) == s] for a string [s]. *)
Definition get_is (k s : str) (d : dict) : bool :=
  match dict_get k d with Some (JStr t) => bool_decide (t = s) | _ => false end.

(** [json[k]] and [json.get(k)] need a dictionary. *)
Definition as_dict (j : json) : res dict :=
  match j with JDict d => Ok d | _ => Raise (OtherError "AttributeError") end.

(** Iteration over [list(d.get(k, []))]. *)
Definition get_list (k : str) (d : dict) : res (list json) :=
  match dict_get k d with
  | None => Ok []
  | Some (JList l) => Ok l
  | Some (JDict kv) => Ok (map (λ kv, JStr kv.1) kv)
  | Some (JStr s) => Ok (map (λ a, JStr (String a "")) (list_ascii_of_string s))
  | Some _ => Raise (OtherError "TypeError: object is not iterable")
  end.

(** [[f(x) for x in l]] and [sum(f(x) for x in l)] of a function that can
    raise. *)
Fixpoint map_res {A B} (f : A → res B) (l : list A) : res (list B) :=
  match l with
  | [] => Ok []
  | x :: l' =>
      match f x with
      | Raise e => Raise e
      | Ok y => match map_res f l' with Raise e => Raise e | Ok ys => Ok (y :: ys) end
      end
  end.

Definition res_bind {A B} (r : res A) (f : A → res B) : res B :=
  match r with Ok a => f a | Raise e => Raise e end.
Notation "x <-? r ;; k" := (res_bind r (λ x, k))
  (at level 100, r at next level, right associativity) : effect_scope.

(** ** [list.sort(key=..., reverse=True)], which is stable *)

Fixpoint insert_by {A} (before : A → A → bool) (x : A) (l : list A) : list A :=
  match l with
  | [] => [x]
  | y :: l' => if before x y then x :: l else y :: insert_by before x l'
  end.

Definition stable_sort {A} (before : A → A → bool) (l : list A) : list A :=
  foldr (insert_by before) [] l.

Lemma insert_by_perm {A} (before : A → A → bool) x l : insert_by before x l ≡ₚ x :: l.
Proof.
  induction l as [|y l IH]; cbn [insert_by]; [done|]. case_match; [done|].
  rewrite IH. apply Permutation_swap.
Qed.

Lemma stable_sort_perm {A} (before : A → A → bool) l : stable_sort before l ≡ₚ l.
Proof. induction l as [|x l IH]; [done|]. cbn. rewrite insert_by_perm. by rewrite <- IH at 2. Qed.

Lemma elem_of_stable_sort {A} (before : A → A → bool) l x : x ∈ stable_sort before l ↔ x ∈ l.
Proof. by rewrite (stable_sort_perm before l). Qed.

Section sorting.
Context {A : Type} (before : A → A → bool).
Hypothesis before_total : ∀ x y, before x y = true ∨ before y x = true.
Hypothesis before_trans : ∀ x y z, before x y = true → before y z = true → before x z = true.

Lemma insert_by_sorted x l :
  StronglySorted (λ x y, before x y = true) l →
  StronglySorted (λ x y, before x y = true) (insert_by before x l).
Proof.
  induction 1 as [|y l Hl IH Hy]; cbn [insert_by]; [repeat constructor|].
  destruct (before x y) eqn:E.
  - constructor; [by constructor|]. constructor; [done|].
    eapply Forall_impl; [exact Hy|]. intros z Hz. by eapply before_trans.
  - constructor; [done|]. rewrite insert_by_perm. constructor; [|done].
    by destruct (before_total x y); [congruence|].
Qed.

Lemma stable_sort_sorted l : StronglySorted (λ x y, before x y = true) (stable_sort before l).
Proof. induction l as [|x l IH]; [constructor|]. by apply insert_by_sorted. Qed.
End sorting.

(** ** Lemmas *)

Lemma map_res_Ok {A B} (f : A → res B) l ys :
  map_res f l = Ok ys ↔ Forall2 (λ x y, f x = Ok y) l ys.
Proof.
  revert ys. induction l as [|x l IH]; intros ys; cbn [map_res].
  - split; [by intros [= <-]|by inversion 1].
  - destruct (f x) as [y|e] eqn:E; [|split; [done|inversion 1; congruence]].
    destruct (map_res f l) as [ys'|e].
    + split.
      * intros [= <-]. constructor; [done|]. by apply IH.
      * inversion 1 as [|? y' ? ys0 Hy Hl]; subst. rewrite E in Hy. injection Hy as ->.
        apply IH in Hl. by injection Hl as ->.
    + split; [done|]. inversion 1 as [|? y' ? ys0 Hy Hl]; subst. by apply IH in Hl.
Qed.
