(* ===== verification/Paths.v ===== *)
(** * Path and manifest validation

    [path_validation.py], [auth/manifest_validation.py] and the field
    validators of the key requests of [models.py]. *)

From S2P Require Import Prelude PyStr Effects.
From Stdlib Require Import Ascii String.
Local Open Scope string_scope.
Local Open Scope list_scope.
Local Open Scope effect_scope.

(** ** Character classes of the [re] module

    A path is matched against [^[charset]+$], where [charset] is the body of a
    character class: literals, [\c] escapes and [a-b] ranges.  Negated classes,
    an inner [\]] and the class escapes ([\d], [\w], ...) are not modelled. *)

Inductive class_item := Single (c : ascii) | Range (lo hi : ascii).

Fixpoint class_tokens (s : str) : list (bool * ascii) :=
  match s with
  | "" => []
  | String a s' =>
      match s' with
      | String b s'' =>
          if decide (a = backslash) then (true, b) :: class_tokens s''
          else (false, a) :: class_tokens s'
      | "" => [(false, a)]
      end
  end.

Fixpoint class_items (l : list (bool * ascii)) : list class_item :=
  match l with
  | [] => []
  | (_, a) :: l' =>
      match l' with
      | (false, d) :: (_, b) :: l'' =>
          if decide (d = "-"%char) then Range a b :: class_items l''
          else Single a :: class_items l'
      | _ => Single a :: class_items l'
      end
  end.

Definition item_match (i : class_item) (c : ascii) : bool :=
  match i with
  | Single a => bool_decide (c = a)
  | Range lo hi =>
      (nat_of_ascii lo <=? nat_of_ascii c)%nat && (nat_of_ascii c <=? nat_of_ascii hi)%nat
  end.

(** [re.compile(f"[{charset}]").match(c)]. *)
Definition in_class (charset : str) (c : ascii) : bool :=
  existsb (λ i, item_match i c) (class_items (class_tokens charset)).

(** [re.compile(f"^[{charset}]+$").match(s)].  Without [re.MULTILINE], [$]
    matches at the end of the string and also before one newline that ends
    it. *)
Fixpoint class_plus_match (charset : str) (s : str) : bool :=
  match s with
  | "" => false
  | String a s' =>
      in_class charset a &&
      (bool_decide (s' = "") || bool_decide (s' = String newline "")
       || class_plus_match charset s')
  end.

(** ** [path_validation.py] *)

(** The characters [a-zA-Z0-9\-_./'] of [path_validation.py]. *)
Definition DEFAULT_ALLOWED_CHARS : str := "a-zA-Z0-9\-_./'".

Definition path_error (msg : str) : exn := ValueError PathValidationError msg.

(** [set(repr(char) for char in path if it is not allowed)]. *)
Definition disallowed_chars (charset path : str) : list str :=
  omap (λ c, if in_class charset c then None else Some (repr (String c "")))
    (list_ascii_of_string path).

Definition path_segments (path : str) : list str :=
  split "/" (replace_char backslash "/" path).

Definition validate_path (path : str) (allowed_chars : option str) : res unit :=
  if decide (path = "") then Raise (path_error "File path must not be empty")
  else if startswith "/" path
  then Raise (path_error "File path must be relative, not absolute")
  else if bool_decide (".." ∈ path_segments path)
  then Raise (path_error ("Path traversal not allowed: '" +:+ path +:+ "' contains '..'"))
  else
    let charset := match allowed_chars with
                   | Some c => if decide (c = "") then DEFAULT_ALLOWED_CHARS else c
                   | None => DEFAULT_ALLOWED_CHARS
                   end in
    if class_plus_match charset path then Ok tt
    else Raise (path_error ("Path contains disallowed characters: "
                 +:+ join_str ", " (sorted_set (disallowed_chars charset path)))).

(** ** [auth/manifest_validation.py] *)

(** [ManifestFile] and [UploadManifest] of [protocols/limits.py]. *)
Record ManifestFile := {
  mf_name : str;
  mf_size : Z;
  mf_mime : option str;
}.
Record UploadManifest := {
  um_file_count : Z;
  um_files : list ManifestFile;
}.

Definition RESERVED_NAMES : list str := ["meta.json"].

(** [_fail(reason, name, **extra)]. *)
Definition fail_msg (reason name extras : str) : str :=
  "invalid_manifest: reason=" +:+ reason +:+ ", name=" +:+ repr name +:+ extras.
Definition fail (reason name : str) : exn :=
  ValueError PlainValueError (fail_msg reason name "").

Definition validate_path_for_manifest (name : str) : res str :=
  if decide (name = "") then Raise (fail "empty" name)
  else if startswith "/" name then Raise (fail "absolute" name)
  else match validate_path name None with
       | Ok _ => Ok name
       | Raise (ValueError PathValidationError text) =>
           if contains "traversal" (lower text) || contains ".." text
           then Raise (fail "traversal" name)
           else Raise (fail "invalid_char" name)
       | Raise e => Raise e
       end.

(** The per-entry loop of [validate_manifest]; [seen] is kept in insertion
    order. *)
Fixpoint check_entries (seen : list str) (files : list ManifestFile) : res (list str) :=
  match files with
  | [] => Ok seen
  | entry :: files' =>
      let name := mf_name entry in
      match validate_path_for_manifest name with
      | Raise e => Raise e
      | Ok _ =>
          if bool_decide (name ∈ RESERVED_NAMES) then Raise (fail "reserved_name" name)
          else if bool_decide (name ∈ seen) then Raise (fail "duplicate" name)
          else check_entries (seen ++ [name]) files'
      end
  end.

(** The prefix-collision loop over the sorted names. *)
Fixpoint check_prefixes (names : list str) : res unit :=
  match names with
  | prev :: rest =>
      match rest with
      | curr :: _ =>
          if startswith (prev +:+ "/") curr
          then Raise (ValueError PlainValueError
                 (fail_msg "prefix_collision" prev (", conflicts_with=" +:+ repr curr)))
          else check_prefixes rest
      | [] => Ok tt
      end
  | [] => Ok tt
  end.

Definition validate_manifest (manifest : UploadManifest) : res unit :=
  match check_entries [] (um_files manifest) with
  | Raise e => Raise e
  | Ok seen => check_prefixes (sorted_set seen)
  end.

(** ** Key labels, [models.py] *)

Definition KEY_LABEL_CHARS : str := "a-zA-Z0-9_\-".

Definition validate_key_field (value field_name : str) : res str :=
  if decide (value = "") then
    Raise (ValueError PlainValueError (field_name +:+ " must not be empty"))
  else if class_plus_match KEY_LABEL_CHARS value then Ok value
  else Raise (ValueError PlainValueError (field_name +:+
    " contains invalid characters. Allowed: alphanumeric, hyphens, underscores")).

(** [SetupRequest] and [KeyCreateRequest]: validated fields and [label]. *)
Record KeyRequest := { kr_host : str; kr_project : str }.

Definition make_key_request (host project : str) : res KeyRequest :=
  match validate_key_field host "host" with
  | Raise e => Raise e
  | Ok h => match validate_key_field project "project" with
            | Raise e => Raise e
            | Ok p => Ok {| kr_host := h; kr_project := p |}
            end
  end.

Definition key_label (r : KeyRequest) : str := kr_host r +:+ ":" +:+ kr_project r.

(** ** Lemmas *)

Arguments in_class : simpl never.
Arguments repr : simpl never.

Definition effective_charset (allowed_chars : option str) : str :=
  match allowed_chars with
  | Some c => if decide (c = "") then DEFAULT_ALLOWED_CHARS else c
  | None => DEFAULT_ALLOWED_CHARS
  end.

Lemma class_plus_match_spec charset s :
  class_plus_match charset s = true ↔
  ∃ t, t ≠ "" ∧ str_forall (in_class charset) t = true ∧
       (s = t ∨ s = t +:+ String newline "").
Proof.
  induction s as [|a s IH]; simpl.
  { split; [done|]. intros (t & Ht & _ & [<-|E]); [done|]. by destruct t. }
  rewrite andb_true_iff, !orb_true_iff, !bool_decide_eq_true, IH. split.
  - intros [Ha [[->| ->]|(t & Ht & Hcs & E)]].
    + exists (String a ""); simpl; rewrite Ha; eauto.
    + exists (String a ""); simpl; rewrite Ha; eauto.
    + exists (String a t); simpl; rewrite Ha, Hcs. split_and!; [done..|].
      rewrite app_cons. naive_solver.
  - intros ([|b t] & Ht & Hcs & E); [done|]. simpl in Hcs. bool_to_prop.
    rewrite app_cons in E.
    assert (b = a ∧ (s = t ∨ s = t +:+ String newline "")) as [-> E'] by naive_solver.
    split; [done|]. destruct t as [|c t]; [naive_solver|].
    right. exists (String c t). auto.
Qed.

Lemma validate_path_Ok path allowed :
  validate_path path allowed = Ok tt ↔
  path ≠ "" ∧ startswith "/" path = false ∧ ".." ∉ path_segments path ∧
  class_plus_match (effective_charset allowed) path = true.
Proof.
  unfold validate_path, effective_charset.
  repeat case_decide; try case_bool_decide; repeat case_match; naive_solver.
Qed.

(** What an accepted manifest entry looks like. *)
Definition entry_ok (name : str) : Prop :=
  validate_path name None = Ok tt ∧ name ∉ RESERVED_NAMES.

Lemma validate_path_for_manifest_Ok name n :
  validate_path_for_manifest name = Ok n → n = name ∧ validate_path name None = Ok tt.
Proof.
  unfold validate_path_for_manifest. destruct (validate_path name None) as [[]|e].
  - repeat case_match; naive_solver.
  - destruct e; try (repeat case_match; naive_solver).
Qed.

Lemma validate_path_for_manifest_complete name :
  validate_path name None = Ok tt → validate_path_for_manifest name = Ok name.
Proof.
  intros H. pose proof H as (Hne & Habs & _)%validate_path_Ok.
  unfold validate_path_for_manifest. by rewrite decide_False, Habs, H by done.
Qed.

Lemma check_entries_Ok seen files names :
  NoDup seen →
  check_entries seen files = Ok names ↔
  names = seen ++ map mf_name files ∧ NoDup names ∧ Forall entry_ok (map mf_name files).
Proof.
  revert seen. induction files as [|f files IH]; intros seen Hseen; simpl.
  { rewrite app_nil_r. naive_solver. }
  destruct (validate_path_for_manifest (mf_name f)) as [n|e] eqn:Hv; cycle 1.
  { split; [done|]. intros (_ & _ & [[Hok _] _]%Forall_cons).
    by rewrite validate_path_for_manifest_complete in Hv. }
  apply validate_path_for_manifest_Ok in Hv as [-> Hv].
  case_bool_decide as Hres.
  { split; [done|]. by intros (_ & _ & [[_ ?] _]%Forall_cons). }
  case_bool_decide as Hdup.
  { split; [done|]. intros (-> & Hnd & _). apply NoDup_app in Hnd as (_ & Hnd & _).
    exfalso. apply (Hnd _ Hdup). by constructor. }
  rewrite IH, <- (assoc_L (++)); simpl.
  - rewrite Forall_cons. unfold entry_ok at 2. tauto.
  - apply NoDup_app; split_and!; [done| |apply NoDup_singleton].
    intros x Hx ->%list_elem_of_singleton. done.
Qed.

(** [a] is a strict path prefix of [b]. *)
Definition path_prefix (a b : str) : Prop := ∃ t, b = a +:+ "/" +:+ t.

Lemma path_prefix_startswith a b : path_prefix a b ↔ startswith (a +:+ "/") b = true.
Proof.
  rewrite startswith_spec. unfold path_prefix. split; intros [t ->]; exists t.
  - by rewrite app_str_assoc.
  - by rewrite <- app_str_assoc.
Qed.

(** Adjacent entries do not collide. *)
Fixpoint adjacent_free (names : list str) : Prop :=
  match names with
  | a :: rest => match rest with b :: _ => ¬ path_prefix a b | [] => True end ∧ adjacent_free rest
  | [] => True
  end.

Lemma check_prefixes_Ok names : check_prefixes names = Ok tt ↔ adjacent_free names.
Proof.
  induction names as [|a rest IH]; [done|]. destruct rest as [|b rest]; [done|].
  change (adjacent_free (a :: b :: rest)) with (¬ path_prefix a b ∧ adjacent_free (b :: rest)).
  rewrite path_prefix_startswith, <- IH. simpl.
  destruct (startswith (a +:+ "/") b); naive_solver.
Qed.

(** The characters that sort before ["/"]. *)
Definition sorts_after_slash (s : str) : bool :=
  str_forall (λ c, (47 <=? nat_of_ascii c)%nat) s.

Lemma adjacent_free_complete names :
  StronglySorted String.le names → NoDup names →
  Forall (λ n, sorts_after_slash n = true) names →
  adjacent_free names → ∀ a b, a ∈ names → b ∈ names → ¬ path_prefix a b.
Proof.
  induction names as [|x rest IH]; intros Hs Hnd Hc Ha a b Hina Hinb Hpre; [inversion Hina|].
  apply StronglySorted_cons in Hs as [Hx Hs]. apply NoDup_cons in Hnd as [Hxr Hnd].
  apply Forall_cons in Hc as [Hcx Hc]. destruct Ha as [Hadj Ha].
  assert (∀ s, ¬ String.le (s +:+ "/" +:+ "") s) as Hstrict.
  { intros s. rewrite <- (app_empty_r s) at 2. rewrite str_le_app. by intros []. }
  apply elem_of_cons in Hina as [->|Hina].
  - apply elem_of_cons in Hinb as [->|Hinb].
    { destruct Hpre as [t E]. apply (f_equal String.length) in E.
      rewrite !length_app_str in E. simpl in E. lia. }
    destruct rest as [|c rest]; [inversion Hinb|].
    apply Hadj. destruct Hpre as [t ->].
    apply Forall_cons in Hx as [Hxc _]. apply Forall_cons in Hc as [Hcc _].
    assert (String.le c (x +:+ "/" +:+ t)) as Hcb.
    { apply StronglySorted_cons in Hs as [Hle _].
      apply elem_of_cons in Hinb as [<-|Hinb]; [reflexivity|].
      rewrite Forall_forall in Hle. by apply Hle. }
    pose proof (str_le_between _ _ _ Hxc Hcb) as [u ->]%startswith_spec.
    apply str_le_app in Hcb. destruct u as [|d u].
    { rewrite app_empty_r in Hxr. by destruct Hxr; constructor. }
    unfold sorts_after_slash in Hcc. rewrite str_forall_app in Hcc.
    apply andb_true_iff in Hcc as [_ Hd]. cbn [str_forall] in Hd. apply andb_true_iff in Hd as [Hd _].
    apply Nat.leb_le in Hd. rewrite app_cons in Hcb.
    apply str_le_cons in Hcb as [Hlt|[-> _]]; [change (nat_of_ascii "/") with 47 in Hlt; lia|].
    exists u. by rewrite app_cons.
  - apply elem_of_cons in Hinb as [->|Hinb]; [|by apply (IH Hs Hnd Hc Ha a b)].
    rewrite Forall_forall in Hx. specialize (Hx _ Hina).
    destruct Hpre as [t E]. rewrite E in Hx.
    apply (Hstrict a). transitivity (a +:+ "/" +:+ t); [|done].
    apply str_le_app. by destruct t.
Qed.

(** Treating backslashes as separators only splits segments further. *)
Lemma split_replace_char c b s :
  b ≠ c → split c (replace_char b c s) = mjoin (split b <$> split c s).
Proof.
  intros Hbc. induction s as [|a s IH]; [done|]; simpl.
  destruct (decide (a = b)) as [->|Hab]; simpl.
  - rewrite decide_True, decide_False by done. rewrite IH.
    pose proof (split_not_nil c s). destruct (split c s) as [|x xs]; [done|].
    simpl. by rewrite decide_True.
  - destruct (decide (a = c)) as [->|Hac]; simpl.
    + by rewrite IH.
    + rewrite IH. pose proof (split_not_nil c s). destruct (split c s) as [|x xs]; [done|].
      simpl. rewrite decide_False by done.
      pose proof (split_not_nil b x). by destruct (split b x).
Qed.

Lemma path_segments_segment path x :
  x ∈ split "/" path → has_char backslash x = false → x ∈ path_segments path.
Proof.
  intros Hx Hb. unfold path_segments. rewrite split_replace_char by done.
  apply list_elem_of_join. exists (split backslash x). rewrite split_atom by done.
  split; [by constructor|]. apply list_elem_of_fmap. exists x.
  by rewrite split_atom.
Qed.

(** An accepted path has no [".."] component. *)
Lemma validate_path_no_dotdot path allowed :
  validate_path path allowed = Ok tt → ".." ∉ split "/" path.
Proof.
  intros (_ & _ & Hseg & _)%validate_path_Ok Hin.
  by apply Hseg, path_segments_segment.
Qed.

Lemma validate_manifest_seen manifest :
  validate_manifest manifest = Ok tt ↔
  let names := map mf_name (um_files manifest) in
  NoDup names ∧ Forall entry_ok names ∧ adjacent_free (sorted_set names).
Proof.
  unfold validate_manifest. simpl.
  destruct (check_entries [] (um_files manifest)) as [seen|e] eqn:E.
  - apply check_entries_Ok in E as (-> & Hnd & Hok); [|constructor].
    rewrite check_prefixes_Ok. simpl in *. naive_solver.
  - split; [done|]. intros (Hnd & Hok & _).
    assert (check_entries [] (um_files manifest) = Ok (map mf_name (um_files manifest))) as E'.
    { by apply check_entries_Ok; [constructor|]. }
    by rewrite E in E'.
Qed.

(** ** Properties *)

(** C23: [validate_manifest] accepts exactly the manifests whose entry names are
    pairwise distinct, pass the single-path checks, avoid the reserved sidecar
    name, and of which no two neighbours in sorted order collide. *)
Theorem validate_manifest_accepts manifest :
  validate_manifest manifest = Ok tt ↔
  let names := map mf_name (um_files manifest) in
  NoDup names ∧
  (∀ n, n ∈ names → n ≠ "" ∧ startswith "/" n = false ∧ ".." ∉ path_segments n ∧
     class_plus_match DEFAULT_ALLOWED_CHARS n = true ∧ n ≠ "meta.json") ∧
  adjacent_free (sorted_set names).
Proof.
  rewrite validate_manifest_seen. simpl. rewrite Forall_forall.
  unfold entry_ok. setoid_rewrite validate_path_Ok. unfold RESERVED_NAMES.
  setoid_rewrite not_elem_of_cons. split.
  - intros (Hnd & H & Ha). split_and!; [done| |done]. intros n Hn.
    destruct (H n Hn) as [(?&?&?&?) [? _]]. done.
  - intros (Hnd & H & Ha). split_and!; [done| |done]. intros n Hn.
    destruct (H n Hn) as (?&?&?&?&?). split_and!; [done..|apply not_elem_of_nil].
Qed.

(** On names whose characters all sort after the slash (letters, digits,
    underscore) the adjacent-pairs check is complete: no entry of an accepted
    manifest is a strict path prefix of another. *)
Theorem validate_manifest_prefix_free manifest a b :
  validate_manifest manifest = Ok tt →
  Forall (λ f, sorts_after_slash (mf_name f) = true) (um_files manifest) →
  a ∈ map mf_name (um_files manifest) → b ∈ map mf_name (um_files manifest) →
  ¬ path_prefix a b.
Proof.
  intros (Hnd & _ & Hadj)%validate_manifest_seen Hc Ha Hb.
  eapply adjacent_free_complete; [apply sorted_set_StronglySorted|apply sorted_set_NoDup| |exact Hadj|..].
  - rewrite Forall_forall in Hc. apply Forall_forall. intros n Hn.
    rewrite elem_of_sorted_set in Hn.
    apply list_elem_of_fmap in Hn as (f & -> & Hf). by apply Hc.
  - by apply elem_of_sorted_set.
  - by apply elem_of_sorted_set.
Qed.

Definition sample_file (name : str) : ManifestFile :=
  {| mf_name := name; mf_size := 1; mf_mime := None |}.

Lemma validate_manifest_prefix_free_witness :
  ¬ path_prefix "docs" "docs_b/x".
Proof.
  apply (validate_manifest_prefix_free
    {| um_file_count := 2; um_files := [sample_file "docs"; sample_file "docs_b/x"] |}).
  - vm_compute. reflexivity.
  - repeat constructor.
  - apply list_elem_of_In. vm_compute. auto.
  - apply list_elem_of_In. vm_compute. auto.
Defined.

(** The adjacent-pairs check misses a collision when a sibling name sorts
    between the two: the manifest [a], [a.txt], [a/b] is accepted although [a]
    is a strict path prefix of [a/b]. *)
Theorem prefix_collision_missed :
  let manifest := {| um_file_count := 3;
    um_files := [sample_file "a"; sample_file "a.txt"; sample_file "a/b"] |} in
  validate_manifest manifest = Ok tt ∧
  "a" ∈ map mf_name (um_files manifest) ∧ "a/b" ∈ map mf_name (um_files manifest) ∧
  path_prefix "a" "a/b".
Proof.
  split_and!; [vm_compute; reflexivity|by constructor|do 2 constructor; by constructor|].
  by exists "b".
Qed.

(** A name with one trailing newline passes the character check. *)
Example trailing_newline_accepted :
  validate_path ("notes.txt" +:+ String newline "") None = Ok tt.
Proof. vm_compute. reflexivity. Qed.

Lemma validate_key_field_Ok v fn x :
  validate_key_field v fn = Ok x → x = v ∧ has_char ":" v = false.
Proof.
  unfold validate_key_field. case_decide; [done|]. destruct (class_plus_match _ v) eqn:E; [|done].
  intros [= ->]. split; [done|]. apply class_plus_match_spec in E as (t & _ & Ht & [->| ->]).
  - by eapply str_forall_has_char.
  - rewrite has_char_app. erewrite str_forall_has_char by done. done.
Qed.

(** A key label [host:project] determines the host and the project it was
    built from: accepted requests with equal labels are equal. *)
Theorem key_label_injective h1 p1 h2 p2 r1 r2 :
  make_key_request h1 p1 = Ok r1 → make_key_request h2 p2 = Ok r2 →
  key_label r1 = key_label r2 → h1 = h2 ∧ p1 = p2.
Proof.
  unfold make_key_request, key_label. intros H1 H2 E.
  destruct (validate_key_field h1 _) eqn:Eh1; [|done].
  destruct (validate_key_field p1 _) eqn:Ep1; [|done].
  destruct (validate_key_field h2 _) eqn:Eh2; [|done].
  destruct (validate_key_field p2 _) eqn:Ep2; [|done].
  apply validate_key_field_Ok in Eh1 as [-> Hh1], Ep1 as [-> Hp1],
    Eh2 as [-> Hh2], Ep2 as [-> Hp2]. simplify_eq/=.
  apply (f_equal (split ":")) in E. change (":" +:+ ?x) with (String ":" x) in E.
  rewrite !split_app, !split_atom in E by done. by simplify_eq.
Qed.

Lemma key_label_injective_witness : "laptop" = "laptop" ∧ "notes" = "notes".
Proof.
  apply (key_label_injective "laptop" "notes" "laptop" "notes"
    {| kr_host := "laptop"; kr_project := "notes" |}
    {| kr_host := "laptop"; kr_project := "notes" |}); vm_compute; reflexivity.
Defined.
