(* ===== verification/Limits.v ===== *)
(** * Upload and download limits

    [limits.py], [protocols/limits.py] and [defaults/default_limits.py]: the
    arithmetic that decides whether a manifest is accepted inline, routed to
    the batch transport or rejected, and the [LimitsPolicy] interface the
    handlers are written against. *)

From S2P Require Import Prelude PyStr Effects Paths.
From stdpp Require Import pretty.
From Stdlib Require Import Ascii String.
Local Open Scope string_scope.
Local Open Scope list_scope.
Local Open Scope Z_scope.

(** ** Identities, [protocols/identity.py] *)

(** [extra] is opaque to the code but for the truth value of two keys. *)
Record Identity := {
  id_label : str;
  id_extra : list (str * bool);
}.

Definition extra_get (k : str) (i : Identity) : bool :=
  existsb (λ kv, bool_decide (kv.1 = k) && kv.2) (id_extra i).

Definition dev_identity : Identity := {| id_label := "dev"; id_extra := [("dev", true)] |}.
Definition operator_identity : Identity :=
  {| id_label := "operator"; id_extra := [("operator", true)] |}.

(** ** [protocols/limits.py] *)

(** ["mode"] of a decision; [OtherMode] stands for any other value a foreign
    policy returns. *)
Inductive UploadMode := Inline | Batch | OtherUploadMode (repr_text : str).
Inductive DownloadMode := InlineDownload | Reference | OtherDownloadMode (text : str).

Inductive UploadDecision :=
  | Accepted (mode : UploadMode)
  | Rejected (error : limits_error) (constraint : limits_constraint)
      (limit : option Z) (observed : Z).

Record LimitsAdvertisement := {
  la_per_file_max : option Z;
  la_per_bundle_total_max : option Z;
  la_per_bundle_file_count_max : option Z;
  la_max_inline_size : option Z;
}.

Record TTLSettings := {
  ttl_upload_token : Z;
  ttl_download_claim : Z;
  ttl_gc_min_age : Z;
  ttl_gc_interval : Z;
}.

Record DownloadEntry := { de_file_count : Z; de_total_size : Z }.

(** The [LimitsPolicy] protocol; implementations are stateless, a call may
    raise. *)
Record LimitsPolicy := {
  evaluate_upload : Identity → UploadManifest → res UploadDecision;
  evaluate_download : Identity → DownloadEntry → res DownloadMode;
  advertise_limits : Identity → LimitsAdvertisement;
  ttls : Identity → TTLSettings;
  advertise_features : Identity → list str;
}.

(** ** [limits.py] *)

Definition total_size (files : list ManifestFile) : Z := sumZ (map mf_size files).

(** [cap is not None and observed > cap]. *)
Definition exceeds (observed : Z) (cap : option Z) : bool :=
  match cap with Some c => c <? observed | None => false end.

Definition check_manifest_against_limits
    (manifest : UploadManifest) (limits : LimitsAdvertisement) : UploadDecision :=
  let files := um_files manifest in
  let file_count := um_file_count manifest in
  if exceeds file_count (la_per_bundle_file_count_max limits) then
    Rejected cap_exceeded per_bundle_file_count_max
      (la_per_bundle_file_count_max limits) file_count
  else match find_first (λ f, exceeds (mf_size f) (la_per_file_max limits)) files with
  | Some f => Rejected cap_exceeded per_file_max (la_per_file_max limits) (mf_size f)
  | None =>
      let total := total_size files in
      if exceeds total (la_per_bundle_total_max limits) then
        Rejected cap_exceeded per_bundle_total_max (la_per_bundle_total_max limits) total
      else if exceeds total (la_max_inline_size limits) then Accepted Batch
      else Accepted Inline
  end.

(** ** [config.py], the limits block *)

Record LimitsConfig := {
  lc_per_file_max : option Z;
  lc_per_bundle_total_max : option Z;
  lc_per_bundle_file_count_max : option Z;
  lc_max_inline_size : option Z;
  lc_upload_token_ttl : Z;
  lc_download_claim_ttl : Z;
  lc_passive_gc_min_age : Z;
  lc_passive_gc_interval : Z;
}.

Definition default_limits_config : LimitsConfig := {|
  lc_per_file_max := None;
  lc_per_bundle_total_max := None;
  lc_per_bundle_file_count_max := Some 25;
  lc_max_inline_size := Some (100 * 1024);
  lc_upload_token_ttl := 300;
  lc_download_claim_ttl := 300;
  lc_passive_gc_min_age := 3600;
  lc_passive_gc_interval := 600;
|}.

(** ** [defaults/default_limits.py] *)

Definition DEFAULT_PER_FILE_MAX : Z := 100 * 1024 * 1024.

(** [f"{limit}"] of an [int | None]. *)
Definition str_opt_Z (o : option Z) : str :=
  match o with Some z => pretty z | None => "None" end.

Definition error_name (e : limits_error) : str :=
  match e with cap_exceeded => "cap_exceeded" | batch_required => "batch_required" end.
Definition constraint_name (c : limits_constraint) : str :=
  match c with
  | per_file_max => "per_file_max"
  | per_bundle_total_max => "per_bundle_total_max"
  | per_bundle_file_count_max => "per_bundle_file_count_max"
  | max_inline_size => "max_inline_size"
  end.

Definition format_reason (error : limits_error) (constraint : limits_constraint)
    (limit : option Z) (observed : Z) (context : option str) : str :=
  match error, constraint with
  | batch_required, _ =>
      "bundle exceeds max inline size; upload it with the batch URL and token send_init returns"
  | _, per_bundle_file_count_max =>
      "bundle has " +:+ pretty observed +:+ " files; per_bundle_file_count_max is "
      +:+ str_opt_Z limit
  | _, per_bundle_total_max =>
      "sum is " +:+ pretty observed +:+ " bytes; per_bundle_total_max is "
      +:+ str_opt_Z limit +:+ " bytes"
  | _, per_file_max =>
      let who := match context with Some c => if decide (c = "") then "file" else c | None => "file" end in
      who +:+ " is " +:+ pretty observed +:+ " bytes; per_file_max is "
      +:+ str_opt_Z limit +:+ " bytes"
  | _, _ =>
      constraint_name constraint +:+ ": observed " +:+ pretty observed
      +:+ ", limit " +:+ str_opt_Z limit
  end.

(** [str(LimitsRejection)]. *)
Definition rejection_str (error : limits_error) (reason : str) : str :=
  error_name error +:+ ": " +:+ reason.

Definition core_advertise_limits (c : LimitsConfig) : LimitsAdvertisement := {|
  la_per_file_max := lc_per_file_max c;
  la_per_bundle_total_max := lc_per_bundle_total_max c;
  la_per_bundle_file_count_max := lc_per_bundle_file_count_max c;
  la_max_inline_size := lc_max_inline_size c;
|}.

Definition core_evaluate_download (c : LimitsConfig) (entry : DownloadEntry) : DownloadMode :=
  match lc_max_inline_size c with
  | None => InlineDownload
  | Some inline_max => if de_total_size entry <=? inline_max then InlineDownload else Reference
  end.

Definition core_ttls (c : LimitsConfig) : TTLSettings := {|
  ttl_upload_token := lc_upload_token_ttl c;
  ttl_download_claim := lc_download_claim_ttl c;
  ttl_gc_min_age := lc_passive_gc_min_age c;
  ttl_gc_interval := lc_passive_gc_interval c;
|}.

(** [capabilities.py]: the canonical feature tuple. *)
Definition FEATURES : list str :=
  ["peek"; "batch_upload"; "reference_download"; "rest_send_init"].

Definition CoreLimitsPolicy (c : LimitsConfig) : LimitsPolicy := {|
  evaluate_upload := λ _ manifest,
    Ok (check_manifest_against_limits manifest (core_advertise_limits c));
  evaluate_download := λ _ entry, Ok (core_evaluate_download c entry);
  advertise_limits := λ _, core_advertise_limits c;
  ttls := λ _, core_ttls c;
  advertise_features := λ _, FEATURES;
|}.

(** ** [capabilities.py] *)

Record CapabilitiesDocument := {
  cd_schema_version : Z;
  cd_server_version : str;
  cd_supported_modes : list str;
  cd_limits : LimitsAdvertisement;
  cd_ttls : TTLSettings;
  cd_features : list str;
}.

Definition SUPPORTED_MODES : list str := ["inline"; "batch"; "reference"].

Definition build_capabilities_document (server_version : str) (policy : LimitsPolicy)
    (identity : Identity) : CapabilitiesDocument := {|
  cd_schema_version := 1;
  cd_server_version := server_version;
  cd_supported_modes := SUPPORTED_MODES;
  cd_limits := advertise_limits policy identity;
  cd_ttls := ttls policy identity;
  cd_features := advertise_features policy identity;
|}.

(** ** Lemmas *)

(** [observed] respects [cap]. *)
Definition within (observed : Z) (cap : option Z) : Prop :=
  match cap with Some c => observed ≤ c | None => True end.

Lemma exceeds_false o c : exceeds o c = false ↔ within o c.
Proof. destruct c; simpl; [apply Z.ltb_ge|done]. Qed.

Lemma exceeds_true o c : exceeds o c = true ↔ ∃ z, c = Some z ∧ z < o.
Proof. destruct c; simpl; [rewrite Z.ltb_lt|]; naive_solver. Qed.

(** The verdict on a manifest that no cap rejects. *)
Definition respects_caps (manifest : UploadManifest) (limits : LimitsAdvertisement) : Prop :=
  within (um_file_count manifest) (la_per_bundle_file_count_max limits) ∧
  Forall (λ f, within (mf_size f) (la_per_file_max limits)) (um_files manifest) ∧
  within (total_size (um_files manifest)) (la_per_bundle_total_max limits).

Lemma find_oversize_None files cap :
  find_first (λ f, exceeds (mf_size f) cap) files = None ↔
  Forall (λ f, within (mf_size f) cap) files.
Proof.
  rewrite find_first_None, Forall_forall.
  split; intros H f Hf; specialize (H f Hf); by apply exceeds_false.
Qed.

(** ** Properties *)

(** C24: the decision of [check_manifest_against_limits] is complete: a manifest
    is accepted exactly when it respects the count, per-file and total caps, and
    then the mode is inline exactly when its total is within the inline
    maximum. *)
Theorem check_manifest_accepts manifest limits mode :
  check_manifest_against_limits manifest limits = Accepted mode ↔
  respects_caps manifest limits ∧
  mode = (if exceeds (total_size (um_files manifest)) (la_max_inline_size limits)
          then Batch else Inline).
Proof.
  unfold check_manifest_against_limits, respects_caps.
  rewrite <- find_oversize_None, <- !exceeds_false.
  destruct (exceeds (um_file_count manifest) _); [naive_solver|].
  destruct (find_first _ _); [naive_solver|].
  destruct (exceeds _ (la_per_bundle_total_max _)); [naive_solver|].
  destruct (exceeds _ (la_max_inline_size _)); naive_solver.
Qed.

(** A rejection is truthful: its error is [cap_exceeded], the reported limit
    is the advertised cap of the reported constraint, and the observed value,
    which is strictly above it, is the count, a declared file size or the
    total. *)
Theorem check_manifest_rejection_sound manifest limits e c limit observed :
  check_manifest_against_limits manifest limits = Rejected e c limit observed →
  e = cap_exceeded ∧
  (∃ cap, limit = Some cap ∧ cap < observed) ∧
  match c with
  | per_bundle_file_count_max =>
      limit = la_per_bundle_file_count_max limits ∧ observed = um_file_count manifest
  | per_file_max =>
      limit = la_per_file_max limits ∧ ∃ f, f ∈ um_files manifest ∧ observed = mf_size f
  | per_bundle_total_max =>
      limit = la_per_bundle_total_max limits ∧ observed = total_size (um_files manifest)
  | max_inline_size => False
  end.
Proof.
  unfold check_manifest_against_limits.
  destruct (exceeds (um_file_count manifest) _) eqn:E1.
  { apply exceeds_true in E1 as (z & Hz & ?). naive_solver. }
  destruct (find_first _ _) as [f|] eqn:E2.
  { apply find_first_Some in E2 as [? (z & Hz & ?)%exceeds_true]. naive_solver. }
  destruct (exceeds _ (la_per_bundle_total_max _)) eqn:E3.
  { apply exceeds_true in E3 as (z & Hz & ?). naive_solver. }
  by destruct (exceeds _ (la_max_inline_size _)).
Qed.

Definition tiny_manifest (size : Z) : UploadManifest :=
  {| um_file_count := 1;
     um_files := [{| mf_name := "a"; mf_size := size; mf_mime := None |}] |}.

Lemma check_manifest_rejection_sound_witness :
  cap_exceeded = cap_exceeded ∧ (∃ cap, Some 10 = Some cap ∧ cap < 11) ∧
  (Some 10 = Some 10 ∧ ∃ f, f ∈ um_files (tiny_manifest 11) ∧ 11 = mf_size f).
Proof.
  apply (check_manifest_rejection_sound (tiny_manifest 11)
    {| la_per_file_max := Some 10; la_per_bundle_total_max := None;
       la_per_bundle_file_count_max := None; la_max_inline_size := None |}
    cap_exceeded per_file_max (Some 10) 11).
  vm_compute. reflexivity.
Defined.

(** A client that pre-checks a manifest against the limits block of the
    capabilities document gets the server's verdict, and a bundle the core
    policy accepts inline is also served inline when it is read back. *)
Theorem precheck_agrees_and_inline_is_symmetric version c identity manifest :
  let policy := CoreLimitsPolicy c in
  let doc := build_capabilities_document version policy identity in
  evaluate_upload policy identity manifest
    = Ok (check_manifest_against_limits manifest (cd_limits doc)) ∧
  (evaluate_upload policy identity manifest = Ok (Accepted Inline) →
   ∀ n, evaluate_download policy identity
     {| de_file_count := n; de_total_size := total_size (um_files manifest) |}
     = Ok InlineDownload).
Proof.
  split; [done|]. simpl. intros [= [_ Hm]%check_manifest_accepts] n.
  unfold core_evaluate_download; simpl in *.
  destruct (lc_max_inline_size c) as [m|]; simpl in *; [|done].
  destruct (Z.ltb_spec m (total_size (um_files manifest))); [done|].
  by rewrite (proj2 (Z.leb_le _ _)).
Qed.
