(* ===== verification/Config.v ===== *)
(** * Configuration

    [config.py]: the settings the library loads from environment variables.
    [os.environ] is a map, [read_file] the outcome of reading a key file; the
    messages on the standard error stream are left out, an exit with status 1
    is the exception [SystemExit 1].  [urlsplit] is modelled for the scheme and
    the network location without its IPv6 bracket checks. *)

From Stdlib Require Import Ascii String.
From stdpp Require Import pretty.
From S2P Require Import Prelude PyStr PyCodec Json Effects PyNum Limits.
Local Open Scope string_scope.
Local Open Scope list_scope.
Local Open Scope effect_scope.

(** ** [AppConfig] *)

Record AppConfig := {
  cf_setup_token : str;
  cf_dev_mode : bool;
  cf_storage_path : str;
  cf_keys_file : str;
  cf_default_ttl : Z;
  cf_allowed_path_chars : str;
  cf_mcp_allowed_hosts : list str;
  cf_jwt_primary_key : bytes;
  cf_public_base_url : str;
  cf_jwt_secondary_key : option bytes;
  cf_jwt_primary_key_source : str;
  cf_log_format : str;
  cf_limits : LimitsConfig;
  cf_rate_limit_broadcast : str;
  cf_broadcast_max_targets : Z;
  cf_jwt_key_overlap_ttl : Z;
}.

Definition MIN_HS256_KEY_BYTES : Z := 32.

Definition exit1 {A} : res A := Raise (SystemExit 1).

(** ** Integers *)

Definition parse_cap (raw : str) : res (option Z) :=
  if decide (raw = "") then Ok None
  else match int_of_str raw with
       | None => exit1
       | Some value => if decide (value < 0)%Z then exit1 else Ok (Some value)
       end.

Definition parse_ttl (raw : str) (default : Z) : res Z :=
  if decide (raw = "") then Ok default
  else match int_of_str raw with
       | None => exit1
       | Some value => if decide (value <= 0)%Z then exit1 else Ok value
       end.

Definition parse_positive_int (raw : str) : res Z :=
  match int_of_str raw with
  | None => exit1
  | Some value => if decide (value <= 0)%Z then exit1 else Ok value
  end.

(** ** [_RATE_LIMIT_PATTERN] and its units *)

Definition RATE_UNIT_NORMALISE : list (str * str) :=
  [("sec", "second"); ("second", "second"); ("min", "minute"); ("minute", "minute");
   ("hour", "hour"); ("hourly", "hour")].

(** [[1-9]\d*]. *)
Definition rate_count (s : str) : bool :=
  match s with
  | String a s' => byte_in 49 57 a && str_forall is_digit s'
  | "" => false
  end.

Definition unit_of (u : str) : option str :=
  snd <$> find_first (λ kv : str * str, bool_decide (kv.1 = lower u)) RATE_UNIT_NORMALISE.

Definition parse_rate_limit (raw : str) : res str :=
  match split1 "/" (strip raw) with
  | Some (count, u) =>
      if rate_count count then
        match unit_of u with
        | Some canonical => Ok (count +:+ "/" +:+ canonical)
        | None => exit1
        end
      else exit1
  | None => exit1
  end.

(** ** Keys *)

Definition decode_jwt_key (raw : str) : res bytes :=
  match b64decode (strip raw) with
  | None => exit1
  | Some decoded => if decide (blen decoded < MIN_HS256_KEY_BYTES)%Z then exit1 else Ok decoded
  end.

(** ** The base URL *)

(** [urlsplit(raw)]: the scheme and the network location. *)
Definition scheme_char (a : ascii) : bool :=
  byte_in 65 90 a || byte_in 97 122 a || byte_in 48 57 a
  || bool_decide (a = "+"%char) || bool_decide (a = "-"%char) || bool_decide (a = "."%char).
Definition scheme_start (a : ascii) : bool := byte_in 65 90 a || byte_in 97 122 a.

Definition is_scheme (s : str) : bool :=
  match s with String a s' => scheme_start a && str_forall scheme_char s' | "" => false end.

Fixpoint take_netloc (s : str) : str :=
  match s with
  | String a s' =>
      if decide (a = "/"%char ∨ a = "?"%char ∨ a = "#"%char) then "" else String a (take_netloc s')
  | "" => ""
  end.

(** Line breaks and tabs are removed before splitting. *)
Fixpoint drop_unsafe (s : str) : str :=
  match s with
  | String a s' =>
      if byte_in 9 10 a || byte_in 13 13 a then drop_unsafe s' else String a (drop_unsafe s')
  | "" => ""
  end.

Definition urlsplit (raw : str) : str * str :=
  let url := drop_unsafe raw in
  let '(scheme, rest) := match split1 ":" url with
    | Some (s, rest) => if is_scheme s then (lower s, rest) else ("", url)
    | None => ("", url)
    end in
  (scheme, if startswith "//" rest then take_netloc (str_drop 2 rest) else "").

Section load.
(** [os.environ], and the text of a file or the exception reading it raises. *)
Variable env : gmap str str.
Variable read_file : str → res str.

Definition environ (k default : str) : str := match env !! k with Some v => v | None => default end.

Definition load_jwt_key_pair (value_var file_var : str) (required : bool)
    : res (option bytes * option str) :=
  let file_path := strip (environ file_var "") in
  if decide (file_path = "") then
    let env_value := strip (environ value_var "") in
    if decide (env_value = "") then
      if required then exit1 else Ok (None, None)
    else k <-? decode_jwt_key env_value;; Ok (Some k, Some "env")
  else
    match read_file file_path with
    | Raise e => if is_OSError e then exit1 else Raise e
    | Ok text =>
        let raw := strip text in
        if decide (raw = "") then exit1
        else k <-? decode_jwt_key raw;; Ok (Some k, Some "file")
    end.

Definition load_public_base_url (var_name : str) : res str :=
  let raw := strip (environ var_name "") in
  if decide (raw = "") then exit1
  else
    let '(scheme, netloc) := urlsplit raw in
    if bool_decide (scheme = "http" ∨ scheme = "https") && negb (bool_decide (netloc = ""))
    then Ok (rstrip "/" raw) else exit1.

(** [if env_var in os.environ: kwargs[field] = parse(...)]. *)
Definition env_field {A} (var : str) (parse : str → res A) (default : A) : res A :=
  match env !! var with Some raw => parse raw | None => Ok default end.

Definition load_limits_config : res LimitsConfig :=
  let d := default_limits_config in
  per_file <-? env_field "CASSETTA_PER_FILE_MAX" parse_cap (lc_per_file_max d);;
  total <-? env_field "CASSETTA_PER_BUNDLE_TOTAL_MAX" parse_cap (lc_per_bundle_total_max d);;
  count <-? env_field "CASSETTA_PER_BUNDLE_FILE_COUNT_MAX" parse_cap (lc_per_bundle_file_count_max d);;
  inline <-? env_field "CASSETTA_MAX_INLINE_SIZE" parse_cap (lc_max_inline_size d);;
  up <-? env_field "CASSETTA_UPLOAD_TOKEN_TTL" (λ raw, parse_ttl raw (lc_upload_token_ttl d))
           (lc_upload_token_ttl d);;
  down <-? env_field "CASSETTA_DOWNLOAD_CLAIM_TTL" (λ raw, parse_ttl raw (lc_download_claim_ttl d))
           (lc_download_claim_ttl d);;
  age <-? env_field "CASSETTA_PASSIVE_GC_MIN_AGE" (λ raw, parse_ttl raw (lc_passive_gc_min_age d))
           (lc_passive_gc_min_age d);;
  interval <-? env_field "CASSETTA_PASSIVE_GC_INTERVAL"
           (λ raw, parse_ttl raw (lc_passive_gc_interval d)) (lc_passive_gc_interval d);;
  Ok {| lc_per_file_max := per_file; lc_per_bundle_total_max := total;
        lc_per_bundle_file_count_max := count; lc_max_inline_size := inline;
        lc_upload_token_ttl := up; lc_download_claim_ttl := down;
        lc_passive_gc_min_age := age; lc_passive_gc_interval := interval |}.

(** [os.path.join(a, b)] of a relative [b]. *)
Definition path_join (a b : str) : str :=
  if decide (a = "") then b else if endswith "/" a then a +:+ b else a +:+ "/" +:+ b.

Definition load_default_ttl : res Z :=
  match int_of_str (environ "CASSETTA_DEFAULT_TTL" "0") with
  | None => exit1
  | Some ttl => if decide (ttl < 0)%Z then exit1 else Ok ttl
  end.

Definition load_log_format : str :=
  let raw := lower (environ "CASSETTA_LOG_FORMAT" "text") in
  if bool_decide (raw = "text" ∨ raw = "json") then raw else "text".

Definition split_hosts (raw : str) : list str :=
  filter (λ h, h ≠ "") (map strip (split "," raw)).

Definition load_config : res AppConfig :=
  match env !! "CASSETTA_SETUP_TOKEN" with
  | None => exit1
  | Some setup_token_raw =>
      let storage_path := environ "CASSETTA_STORAGE_PATH" "./data" in
      let keys_file := environ "CASSETTA_KEYS_FILE"
        (path_join (rstrip "/" storage_path +:+ ".keys") ".cassetta-keys.json") in
      default_ttl <-? load_default_ttl;;
      limits <-? load_limits_config;;
      primary <-? load_jwt_key_pair "CASSETTA_JWT_KEY" "CASSETTA_JWT_KEY_FILE" true;;
      secondary <-? load_jwt_key_pair "CASSETTA_JWT_KEY_SECONDARY" "CASSETTA_JWT_KEY_SECONDARY_FILE" false;;
      public_base_url <-? load_public_base_url "CASSETTA_PUBLIC_BASE_URL";;
      match primary with
      | (Some primary_key, Some primary_source) =>
          rate <-? parse_rate_limit (environ "CASSETTA_RATE_LIMIT_BROADCAST" "10/minute");;
          targets <-? parse_positive_int (environ "CASSETTA_BROADCAST_MAX_TARGETS" "1000");;
          overlap <-? parse_positive_int (environ "CASSETTA_JWT_KEY_OVERLAP_TTL" "600");;
          Ok {| cf_setup_token := setup_token_raw;
                cf_dev_mode := bool_decide (setup_token_raw = "");
                cf_storage_path := storage_path;
                cf_keys_file := keys_file;
                cf_default_ttl := default_ttl;
                cf_allowed_path_chars := environ "CASSETTA_ALLOWED_PATH_CHARS" "a-zA-Z0-9\-_./";
                cf_mcp_allowed_hosts := split_hosts (environ "CASSETTA_MCP_ALLOWED_HOSTS" "");
                cf_jwt_primary_key := primary_key;
                cf_public_base_url := public_base_url;
                cf_jwt_secondary_key := secondary.1;
                cf_jwt_primary_key_source := primary_source;
                cf_log_format := load_log_format;
                cf_limits := limits;
                cf_rate_limit_broadcast := rate;
                cf_broadcast_max_targets := targets;
                cf_jwt_key_overlap_ttl := overlap |}
      | _ => Raise AssertionError
      end
  end.
End load.

(** ** Lemmas *)

Lemma res_bind_Ok {A B} (r : res A) (f : A → res B) b :
  res_bind r f = Ok b ↔ ∃ a, r = Ok a ∧ f a = Ok b.
Proof. destruct r; cbn; naive_solver. Qed.

Lemma parse_positive_int_Ok raw v : parse_positive_int raw = Ok v → (0 < v)%Z.
Proof. unfold parse_positive_int, exit1. repeat case_match; naive_solver lia. Qed.

Lemma parse_ttl_Ok raw d v : (0 < d)%Z → parse_ttl raw d = Ok v → (0 < v)%Z.
Proof. unfold parse_ttl, exit1. repeat case_match; naive_solver lia. Qed.

Definition cap_ok (o : option Z) : Prop := match o with Some z => (0 ≤ z)%Z | None => True end.

Lemma parse_cap_Ok raw v : parse_cap raw = Ok v → cap_ok v.
Proof. unfold parse_cap, exit1. repeat case_match; intros [= <-]; cbn; try done. lia. Qed.

Lemma env_field_Ok {A} (P : A → Prop) env var parse (d v : A) :
  P d → (∀ raw v, parse raw = Ok v → P v) → env_field env var parse d = Ok v → P v.
Proof. unfold env_field. intros ??. case_match; naive_solver. Qed.

Lemma decode_jwt_key_Ok raw k : decode_jwt_key raw = Ok k → (32 ≤ blen k)%Z.
Proof.
  unfold decode_jwt_key, exit1, MIN_HS256_KEY_BYTES.
  repeat case_match; intros; simplify_eq. lia.
Qed.

Lemma load_jwt_key_pair_Ok env rf vv fv b k src :
  load_jwt_key_pair env rf vv fv b = Ok (Some k, src) → (32 ≤ blen k)%Z.
Proof.
  unfold load_jwt_key_pair, exit1. intros H.
  repeat case_match; simplify_eq;
    apply res_bind_Ok in H as (k' & Hk & ?); simplify_eq; by eapply decode_jwt_key_Ok.
Qed.

Lemma rstrip_length c s : (String.length (rstrip c s) ≤ String.length s)%nat.
Proof.
  induction s as [|a s IH]; [done|]. cbn [rstrip String.length].
  destruct (rstrip c s); [case_decide|]; simpl in *; lia.
Qed.

Lemma rstrip_last c s t : rstrip c s ≠ t +:+ String c "".
Proof.
  intros E. pose proof (rstrip_idemp c s) as H. rewrite E, rstrip_char in H.
  pose proof (rstrip_length c t) as Hl. rewrite H, string_length_app in Hl. simpl in Hl. lia.
Qed.

(** The range constraints on a limits configuration. *)
Record limits_in_range (l : LimitsConfig) : Prop := {
  lr_caps : cap_ok (lc_per_file_max l) ∧ cap_ok (lc_per_bundle_total_max l)
    ∧ cap_ok (lc_per_bundle_file_count_max l) ∧ cap_ok (lc_max_inline_size l);
  lr_ttls : (0 < lc_upload_token_ttl l)%Z ∧ (0 < lc_download_claim_ttl l)%Z
    ∧ (0 < lc_passive_gc_min_age l)%Z ∧ (0 < lc_passive_gc_interval l)%Z;
}.

Lemma load_limits_config_Ok env l : load_limits_config env = Ok l → limits_in_range l.
Proof.
  unfold load_limits_config. intros H.
  repeat (apply res_bind_Ok in H as (? & ? & H)). injection H as <-.
  repeat match goal with
  | H : env_field _ _ parse_cap _ = Ok ?v |- _ =>
      apply (env_field_Ok cap_ok) in H; [|done|by apply parse_cap_Ok]
  | H : env_field _ _ (λ raw, parse_ttl raw _) _ = Ok ?v |- _ =>
      apply (env_field_Ok (λ z, (0 < z)%Z)) in H; [|done|intros ??; by apply parse_ttl_Ok]
  end.
  split; done.
Qed.

Lemma load_public_base_url_Ok env var url :
  load_public_base_url env var = Ok url →
  url = rstrip "/" (strip (environ env var "")) ∧
  (urlsplit (strip (environ env var ""))).1 ∈ ["http"; "https"] ∧
  (urlsplit (strip (environ env var ""))).2 ≠ "".
Proof.
  unfold load_public_base_url, exit1. case_decide; [done|].
  destruct (urlsplit _) as [scheme netloc].
  destruct (_ && _) eqn:E; [|done]. intros [= <-]. bool_to_prop.
  rewrite !elem_of_cons. naive_solver.
Qed.

Lemma parse_rate_limit_Ok raw r :
  parse_rate_limit raw = Ok r →
  ∃ count u, r = count +:+ "/" +:+ u ∧ rate_count count = true ∧ u ∈ ["second"; "minute"; "hour"].
Proof.
  unfold parse_rate_limit, exit1. destruct (split1 _ _) as [[count u]|]; [|done].
  destruct (rate_count count) eqn:Ec; [|done].
  destruct (unit_of u) as [canonical|] eqn:Eu; [|done]. intros [= <-].
  exists count, canonical. split_and!; [done..|]. unfold unit_of in Eu.
  apply fmap_Some in Eu as ([k v] & [Hin _]%find_first_Some & ->).
  cbn [snd]. unfold RATE_UNIT_NORMALISE in Hin. rewrite !elem_of_cons.
  rewrite !elem_of_cons, elem_of_nil in Hin. naive_solver.
Qed.

Lemma load_log_format_cases env : load_log_format env ∈ ["text"; "json"].
Proof.
  unfold load_log_format. rewrite !elem_of_cons. case_bool_decide; naive_solver.
Qed.

(** ** Properties *)


Definition demo_env : gmap str str :=
  {[ "CASSETTA_SETUP_TOKEN" := "secret";
     "CASSETTA_JWT_KEY" := "QUJDREVGR0hJSktMTU5PUFFSU1RVVldYWVowMTIzNDU=";
     "CASSETTA_PUBLIC_BASE_URL" := "https://cassetta.example/";
     "CASSETTA_RATE_LIMIT_BROADCAST" := "5/Min";
     "CASSETTA_MAX_INLINE_SIZE" := "" ]}.
Definition no_files (_ : str) : res str := Raise (OSError ENOENT "").
Definition config_of (r : res AppConfig) : option AppConfig :=
  match r with Ok c => Some c | Raise _ => None end.

