(* ===== verification/Claims.v ===== *)
(** * Download claims

    [claims.py] and [backends/filesystem/claim_storage.py]: the sidecar files
    [{jti}.json] and the lock files [.{digest}.lock] of one directory.  The
    directory is a map from file names to contents; a write can fail (the
    [cd_faults] oracle decides, one entry per write), which exercises the
    clean-up paths.  The second half of the file interleaves the system calls
    of concurrent [issue] calls. *)

From Stdlib Require Import Ascii String.
From stdpp Require Import pretty.
From S2P Require Import Prelude PyStr PyCodec Json DateTime Effects.
Local Open Scope string_scope.
Local Open Scope list_scope.
Local Open Scope effect_scope.

(** ** Data *)

Record ClaimRecord := {
  cr_schema_version : Z;
  cr_jti : str;
  cr_bundle_path : str;
  cr_bundle_id : str;
  cr_recipient : str;
  cr_created_at : str;
  cr_files_fetched : list str;
}.
#[export] Instance claim_eq_dec : EqDecision ClaimRecord.
Proof. solve_decision. Defined.

(** [_iso_to_epoch], in microseconds. *)
Definition iso_to_epoch (iso : str) : res Z :=
  match fromisoformat iso with
  | Some t => Ok t
  | None => Raise (ValueError PlainValueError ("Invalid isoformat string: " +:+ repr iso))
  end.

(** [asdict(claim)]. *)
Definition claim_dict (c : ClaimRecord) : dict :=
  [("schema_version", JInt (cr_schema_version c));
   ("jti", JStr (cr_jti c));
   ("bundle_path", JStr (cr_bundle_path c));
   ("bundle_id", JStr (cr_bundle_id c));
   ("recipient", JStr (cr_recipient c));
   ("created_at", JStr (cr_created_at c));
   ("files_fetched", JList (map JStr (cr_files_fetched c)))].

Definition claim_body (c : ClaimRecord) : bytes := json_dumps (JDict (claim_dict c)).

Definition field (d : dict) (k : str) : res str :=
  match dict_get k d with
  | Some j => Ok (py_str j)
  | None => Raise (KeyError k)
  end.

(** [list(data.get("files_fetched", []))]; the elements are kept by their
    [str].  A value that cannot be iterated is a [TypeError]. *)
Definition fetched_names (d : dict) : res (list str) :=
  match dict_get "files_fetched" d with
  | None => Ok []
  | Some (JList l) => Ok (map py_str l)
  | Some (JStr s) => Ok (map (λ a, String a "") (list_ascii_of_string s))
  | Some (JDict kv) => Ok kv.*1
  | Some _ => Raise (OtherError "TypeError: object is not iterable")
  end.

Definition SCHEMA_VERSION : Z := 1.

(** [version != _SCHEMA_VERSION]: [True == 1] and [1.0 == 1] in Python. *)
Definition is_version_1 (j : option json) : bool :=
  match j with
  | Some (JInt z) => bool_decide (z = SCHEMA_VERSION)
  | Some (JBool b) => b
  | Some (JFloat t) => bool_decide (t = "1.0")
  | _ => false
  end.

Definition malformed {A} (msg : str) : res A := Raise (ValueError PlainValueError msg).

(** [_parse(body)]. *)
Definition parse_claim (body : bytes) : res ClaimRecord :=
  match utf8_decode body with
  | None => malformed "'utf-8' codec can't decode bytes"
  | Some text =>
      match json_loads text with
      | None => malformed "malformed claim sidecar"
      | Some (JDict data) =>
          if negb (is_version_1 (dict_get "schema_version" data))
          then malformed "unknown claim schema_version"
          else
            match field data "jti", field data "bundle_path", field data "bundle_id",
                  field data "recipient", field data "created_at", fetched_names data with
            | Ok jti, Ok bundle_path, Ok bundle_id, Ok recipient, Ok created_at, Ok fetched =>
                Ok {| cr_schema_version := SCHEMA_VERSION; cr_jti := jti;
                      cr_bundle_path := bundle_path; cr_bundle_id := bundle_id;
                      cr_recipient := recipient; cr_created_at := created_at;
                      cr_files_fetched := fetched |}
            | Raise e, _, _, _, _, _ | Ok _, Raise e, _, _, _, _ | Ok _, Ok _, Raise e, _, _, _
            | Ok _, Ok _, Ok _, Raise e, _, _ | Ok _, Ok _, Ok _, Ok _, Raise e, _
            | Ok _, Ok _, Ok _, Ok _, Ok _, Raise e => Raise e
            end
      | Some _ => malformed "claim sidecar body is not an object"
      end
  end.

(** ** The claim directory *)

Record ClaimDir := mkClaimDir {
  cd_exists : bool;
  cd_files : gmap str bytes;
  cd_faults : list bool;
  cd_log : list event;
}.

Definition set_files (f : gmap str bytes → gmap str bytes) (d : ClaimDir) : ClaimDir :=
  {| cd_exists := cd_exists d; cd_files := f (cd_files d); cd_faults := cd_faults d; cd_log := cd_log d |}.
Definition log_event (e : event) (d : ClaimDir) : ClaimDir :=
  {| cd_exists := cd_exists d; cd_files := cd_files d; cd_faults := cd_faults d;
     cd_log := cd_log d ++ [e] |}.

Definition ensure_base : M ClaimDir unit :=
  modify (λ d, {| cd_exists := true; cd_files := cd_files d; cd_faults := cd_faults d; cd_log := cd_log d |}).

(** [os.open(name, O_WRONLY | O_CREAT | O_EXCL)]. *)
Definition open_excl (name : str) : M ClaimDir unit :=
  d <- get;;
  match cd_files d !! name with
  | Some _ => raise (OSError EEXIST "")
  | None => modify (set_files (insert name ""))
  end.

(** [os.open(name, O_WRONLY | O_CREAT | O_TRUNC)]. *)
Definition open_trunc (name : str) : M ClaimDir unit := modify (set_files (insert name "")).

(** Writing, flushing and synchronising an open file. *)
Definition write_sync (name : str) (body : bytes) : M ClaimDir unit :=
  d <- get;;
  match cd_faults d with
  | true :: rest =>
      modify (λ d, {| cd_exists := cd_exists d; cd_files := cd_files d; cd_faults := rest; cd_log := cd_log d |});;;
      raise (OSError EIO "")
  | false :: rest =>
      modify (λ d, {| cd_exists := cd_exists d; cd_files := <[name := body]> (cd_files d);
                      cd_faults := rest; cd_log := cd_log d |})
  | [] => modify (set_files (insert name body))
  end.

(** [with contextlib.suppress(FileNotFoundError): os.unlink(name)]. *)
Definition unlink_quiet (name : str) : M ClaimDir unit := modify (set_files (delete name)).

(** [os.replace(tmp, final)]. *)
Definition replace_file (tmp final : str) : M ClaimDir unit :=
  modify (set_files (λ m, match m !! tmp with
    | Some b => <[final := b]> (delete tmp m)
    | None => m
    end)).

(** ** [FilesystemClaimStorage] *)

Section storage.
(** [sha256(s.encode()).hexdigest()]. *)
Variable sha256_hex : str → str.

Definition claim_file (jti : str) : str := jti +:+ ".json".
Definition claim_tmp (jti : str) : str := jti +:+ ".json.tmp".
Definition lock_file (bundle_path : str) : str :=
  "." +:+ str_take 16 (sha256_hex bundle_path) +:+ ".lock".

(** [try: m except Exception: cleanup; raise]. *)
Definition on_error (m : M ClaimDir unit) (cleanup : M ClaimDir unit) : M ClaimDir unit :=
  catch m (λ e, Some (cleanup;;; raise e)).

Definition issue (claim : ClaimRecord) : M ClaimDir unit :=
  let lock_path := lock_file (cr_bundle_path claim) in
  let p := claim_file (cr_jti claim) in
  ensure_base;;;
  catch (open_excl lock_path) (λ e,
    if is_FileExistsError e then Some (raise (BundleClaimedError (cr_bundle_path claim))) else None);;;
  on_error (write_sync lock_path (cr_jti claim)) (unlink_quiet lock_path);;;
  catch (open_excl p) (λ e,
    if is_FileExistsError e
    then Some (unlink_quiet lock_path;;; raise (BundleClaimedError (cr_bundle_path claim)))
    else None);;;
  on_error (write_sync p (claim_body claim)) (unlink_quiet p;;; unlink_quiet lock_path).

Definition get_claim (jti : str) : M ClaimDir (option ClaimRecord) :=
  d <- get;;
  match cd_files d !! claim_file jti with
  | None => ret None
  | Some body => c <- of_res (parse_claim body);; ret (Some c)
  end.

(** [_durable_write]. *)
Definition durable_write (claim : ClaimRecord) : M ClaimDir unit :=
  let final := claim_file (cr_jti claim) in
  let tmp := claim_tmp (cr_jti claim) in
  ensure_base;;;
  open_trunc tmp;;;
  on_error (write_sync tmp (claim_body claim);;; replace_file tmp final) (unlink_quiet tmp).

Definition with_fetched (c : ClaimRecord) (l : list str) : ClaimRecord :=
  {| cr_schema_version := cr_schema_version c; cr_jti := cr_jti c;
     cr_bundle_path := cr_bundle_path c; cr_bundle_id := cr_bundle_id c;
     cr_recipient := cr_recipient c; cr_created_at := cr_created_at c; cr_files_fetched := l |}.

Definition mark_fetched (jti name : str) : M ClaimDir ClaimRecord :=
  current <- get_claim jti;;
  match current with
  | None => raise (OSError ENOENT (claim_file jti))
  | Some c =>
      if bool_decide (name ∈ cr_files_fetched c) then ret c
      else
        let updated := with_fetched c (cr_files_fetched c ++ [name]) in
        durable_write updated;;; ret updated
  end.

Definition delete_claim (jti : str) : M ClaimDir unit :=
  record <- catch (get_claim jti) (λ e, if is_ValueError e then Some (ret None) else None);;
  match record with
  | Some c => unlink_quiet (lock_file (cr_bundle_path c))
  | None => ret tt
  end;;;
  unlink_quiet (claim_file jti).

Definition is_sidecar (name : str) : bool :=
  endswith ".json" name && negb (endswith ".json.tmp" name).

(** [iter_all()], consumed to its end.  The entries come in the order of the
    map; an entry whose body is malformed is logged and skipped, any other
    exception ends the iteration. *)
Fixpoint read_entries (entries : list (str * bytes)) : M ClaimDir (list ClaimRecord) :=
  match entries with
  | [] => ret []
  | (name, body) :: rest =>
      if negb (is_sidecar name) then read_entries rest
      else
        match parse_claim body with
        | Ok c => cs <- read_entries rest;; ret (c :: cs)
        | Raise e =>
            if is_ValueError e || is_OSError e
            then modify (log_event (Log WARNING "claim_sidecar_malformed"));;; read_entries rest
            else raise e
        end
  end.

Definition iter_all : M ClaimDir (list ClaimRecord) :=
  d <- get;;
  if cd_exists d then read_entries (map_to_list (cd_files d)) else ret [].

(** [iter_active_by_bundle_path(ttl_s)] at the time [now] (microseconds). *)
Definition active_of (now ttl_s : Z) (claims : list ClaimRecord) : gmap str str :=
  foldl (λ active c,
    match iso_to_epoch (cr_created_at c) with
    | Raise _ => active
    | Ok t => if (ttl_s * 1000000 <=? now - t)%Z then active
              else <[cr_bundle_path c := cr_jti c]> active
    end) ∅ claims.

Definition iter_active_by_bundle_path (now ttl_s : Z) : M ClaimDir (gmap str str) :=
  claims <- iter_all;; ret (active_of now ttl_s claims).
End storage.

(** ** Concurrent issuers

    The system calls of [issue] as steps on the shared directory, to be
    interleaved: [issue] runs in one process, but several server processes may
    share the directory. *)

Inductive issue_pc :=
  | Idle | HoldsLock | LockWritten | HoldsSidecar | Cleaning | Issued | Refused | Faulted.
#[export] Instance issue_pc_eq_dec : EqDecision issue_pc.
Proof. solve_decision. Defined.

Section steps.
Variable sha256_hex : str → str.

Abbreviation lock_of c := (lock_file sha256_hex (cr_bundle_path c)).
Abbreviation side_of c := (claim_file (cr_jti c)).

Inductive issue_step (c : ClaimRecord) :
    gmap str bytes → issue_pc → gmap str bytes → issue_pc → Prop :=
  | step_lock m : m !! lock_of c = None →
      issue_step c m Idle (<[lock_of c := ""]> m) HoldsLock
  | step_lock_taken m b : m !! lock_of c = Some b →
      issue_step c m Idle m Refused
  | step_write_lock m :
      issue_step c m HoldsLock (<[lock_of c := cr_jti c]> m) LockWritten
  | step_write_lock_fault m :
      issue_step c m HoldsLock (delete (lock_of c) m) Faulted
  | step_sidecar m : m !! side_of c = None →
      issue_step c m LockWritten (<[side_of c := ""]> m) HoldsSidecar
  | step_sidecar_taken m b : m !! side_of c = Some b →
      issue_step c m LockWritten (delete (lock_of c) m) Refused
  | step_write_sidecar m :
      issue_step c m HoldsSidecar (<[side_of c := claim_body c]> m) Issued
  | step_write_sidecar_fault m :
      issue_step c m HoldsSidecar (delete (side_of c) m) Cleaning
  | step_clean m :
      issue_step c m Cleaning (delete (lock_of c) m) Faulted.

(** A set of issuers, each with its claim and its program counter. *)
Abbreviation system := (gmap str bytes * gmap nat (ClaimRecord * issue_pc))%type.

Inductive sys_step : system → system → Prop :=
  | sys_issue i c pc m m' pc' ps :
      ps !! i = Some (c, pc) → issue_step c m pc m' pc' →
      sys_step (m, ps) (m', <[i := (c, pc')]> ps).

(** Every issuer has yet to start. *)
Definition all_idle (ps : gmap nat (ClaimRecord * issue_pc)) : Prop :=
  ∀ i c pc, ps !! i = Some (c, pc) → pc = Idle.

Definition has_lock (pc : issue_pc) : bool :=
  match pc with
  | HoldsLock | LockWritten | HoldsSidecar | Cleaning | Issued => true
  | _ => false
  end.
Definition has_sidecar (pc : issue_pc) : bool :=
  match pc with HoldsSidecar | Issued => true | _ => false end.
End steps.

(** ** Lemmas *)

Arguments claim_body : simpl never.
Arguments claim_file : simpl never.
Arguments claim_tmp : simpl never.
Arguments lock_file : simpl never.

Lemma lock_not_claim_file sha p jti : lock_file sha p ≠ claim_file jti.
Proof. unfold lock_file, claim_file. rewrite app_str_assoc. by apply app_str_last_ne. Qed.

Lemma tmp_not_claim_file j jti : claim_tmp j ≠ claim_file jti.
Proof. by apply app_str_last_ne. Qed.

Lemma tmp_not_lock_file sha j p : claim_tmp j ≠ lock_file sha p.
Proof. unfold lock_file, claim_tmp. rewrite app_str_assoc. by apply app_str_last_ne. Qed.

Lemma claim_file_inj j j' : claim_file j = claim_file j' → j = j'.
Proof. apply app_str_inj_r. Qed.

(** *** Sidecar bodies *)

(** The records the code writes: version 1 and Unicode fields. *)
Definition claim_ok (c : ClaimRecord) : bool :=
  bool_decide (cr_schema_version c = SCHEMA_VERSION) &&
  utf8_valid (cr_jti c) && utf8_valid (cr_bundle_path c) && utf8_valid (cr_bundle_id c) &&
  utf8_valid (cr_recipient c) && utf8_valid (cr_created_at c) &&
  forallb utf8_valid (cr_files_fetched c).

Lemma claim_dict_wf c : claim_ok c = true → json_wf (JDict (claim_dict c)) = true.
Proof.
  unfold claim_ok, claim_dict. intros H. bool_to_prop.
  cbn [json_wf forallb]. apply andb_true_iff. split; [by vm_compute|].
  rewrite !andb_true_iff. split_and!; try done.
  rewrite forallb_forall in *. intros j Hj. apply in_map_iff in Hj as (x & <- & Hx). by apply H0.
Qed.

Lemma map_py_str l : map py_str (map JStr l) = l.
Proof. induction l as [|x l IH]; [done|]. simpl. by rewrite IH. Qed.

(** A written sidecar reads back. *)
Lemma parse_claim_body c : claim_ok c = true → parse_claim (claim_body c) = Ok c.
Proof.
  intros H. pose proof (claim_dict_wf c H) as Hw.
  unfold parse_claim, claim_body, utf8_decode. rewrite json_dumps_utf8, json_loads_dumps by done.
  unfold claim_ok in H. bool_to_prop. unfold claim_dict, field, fetched_names.
  dict_lookup. cbn [is_version_1 py_str]. rewrite bool_decide_true by done. cbn [negb].
  rewrite map_py_str, <- H. by destruct c.
Qed.

(** *** Equations of the directory operations *)

Lemma open_excl_eq name d :
  open_excl name d = match cd_files d !! name with
                     | Some _ => (Raise (OSError EEXIST ""), d)
                     | None => (Ok tt, set_files (insert name "") d)
                     end.
Proof. unfold open_excl, bind, get, raise, modify. by destruct (cd_files d !! name). Qed.

Lemma write_sync_cases name body d :
  (∃ d', write_sync name body d = (Ok tt, d') ∧ cd_files d' = <[name := body]> (cd_files d)
     ∧ (cd_faults d = [] → cd_faults d' = [])) ∨
  (∃ d', write_sync name body d = (Raise (OSError EIO ""), d') ∧ cd_files d' = cd_files d
     ∧ cd_faults d ≠ []).
Proof.
  unfold write_sync, bind, get, modify, raise.
  destruct (cd_faults d) as [|[] rest] eqn:E; [left|right|left]; eexists; by split_and!.
Qed.

Section storage_lemmas.
Variable sha : str → str.

Abbreviation lock_of c := (lock_file sha (cr_bundle_path c)).
Abbreviation side_of c := (claim_file (cr_jti c)).

(** [issue] on every branch. *)
Inductive issue_outcome (c : ClaimRecord) (m : gmap str bytes) :
    res unit → gmap str bytes → Prop :=
  | outcome_issued :
      m !! lock_of c = None → m !! side_of c = None →
      issue_outcome c m (Ok tt) (<[side_of c := claim_body c]> (<[lock_of c := cr_jti c]> m))
  | outcome_claimed :
      is_Some (m !! lock_of c) ∨ is_Some (m !! side_of c) →
      issue_outcome c m (Raise (BundleClaimedError (cr_bundle_path c))) m
  | outcome_fault :
      m !! lock_of c = None →
      issue_outcome c m (Raise (OSError EIO "")) m.

Lemma issue_cases c d :
  issue_outcome c (cd_files d) (issue sha c d).1 (cd_files (issue sha c d).2)
  ∧ (cd_faults d = [] → (issue sha c d).1 ≠ Raise (OSError EIO "")).
Proof.
  pose proof (lock_not_claim_file sha (cr_bundle_path c) (cr_jti c)) as Hne.
  destruct (issue sha c d) as [r d'] eqn:E. cbn [fst snd]. revert E.
  unfold issue, bind at 1, ensure_base, modify. set (d0 := mkClaimDir true _ _ _).
  change (cd_files d) with (cd_files d0). change (cd_faults d) with (cd_faults d0). clearbody d0.
  unfold bind at 1, catch at 1. rewrite open_excl_eq.
  destruct (cd_files d0 !! lock_of c) as [b|] eqn:El.
  { cbn. intros [= <- <-]. split; [|done]. apply outcome_claimed. left. by rewrite El. }
  unfold bind at 1, on_error at 1, catch at 1.
  set (d1 := set_files _ d0).
  destruct (write_sync_cases (lock_of c) (cr_jti c) d1) as [(d2 & E2 & F2 & N2)|(d2 & E2 & F2 & N2)];
    rewrite E2.
  2:{ cbn. intros [= <- <-]. cbn. rewrite F2. cbn. rewrite delete_insert_id by done.
      split; [by apply outcome_fault|done]. }
  assert (F2' : cd_files d2 = <[lock_of c := cr_jti c]> (cd_files d0)).
  { rewrite F2. apply insert_insert_eq. }
  unfold bind at 1, catch at 1. rewrite open_excl_eq, F2', lookup_insert_ne by done.
  destruct (cd_files d0 !! side_of c) as [b|] eqn:Es.
  { cbn. intros [= <- <-]. cbn. rewrite F2', delete_insert_id by done.
    split; [|done]. apply outcome_claimed. right. by rewrite Es. }
  set (d3 := set_files _ d2). unfold on_error, catch.
  destruct (write_sync_cases (side_of c) (claim_body c) d3) as [(d4 & E4 & F4 & N4)|(d4 & E4 & F4 & N4)];
    rewrite E4; cbn; intros [= <- <-]; cbn; rewrite F4; cbn; rewrite F2'.
  - rewrite insert_insert_eq. by split; [apply outcome_issued|].
  - rewrite delete_insert_id by by rewrite lookup_insert_ne.
    rewrite delete_insert_id by done. split; [by apply outcome_fault|].
    intros Hf. destruct N4. by apply N2.
Qed.

(** *** The exclusive-claim invariant *)

Lemma is_sidecar_claim_file jti : is_sidecar (claim_file jti) = true.
Proof.
  unfold is_sidecar, endswith, claim_file. rewrite str_rev_app.
  change (str_rev ".json") with "nosj.". change (str_rev ".json.tmp") with "pmt.nosj.".
  by rewrite startswith_app.
Qed.

Lemma is_sidecar_lock_file p : is_sidecar (lock_file sha p) = false.
Proof. unfold is_sidecar, endswith, lock_file. by rewrite app_str_assoc, str_rev_app. Qed.

Lemma is_sidecar_tmp jti : is_sidecar (claim_tmp jti) = false.
Proof. unfold is_sidecar, endswith, claim_tmp. by rewrite str_rev_app. Qed.

(** Every well-formed sidecar is named by its record and its bundle is locked
    in its name. *)
Definition exclusive (m : gmap str bytes) : Prop :=
  ∀ name body c, m !! name = Some body → is_sidecar name = true → parse_claim body = Ok c →
    name = side_of c ∧ m !! lock_of c = Some (cr_jti c).

Lemma exclusive_unique m n1 n2 b1 b2 c1 c2 :
  exclusive m → m !! n1 = Some b1 → m !! n2 = Some b2 →
  is_sidecar n1 = true → is_sidecar n2 = true →
  parse_claim b1 = Ok c1 → parse_claim b2 = Ok c2 →
  cr_bundle_path c1 = cr_bundle_path c2 → n1 = n2.
Proof.
  intros He H1 H2 S1 S2 P1 P2 Hb.
  destruct (He _ _ _ H1 S1 P1) as [-> L1]. destruct (He _ _ _ H2 S2 P2) as [-> L2].
  rewrite Hb in L1. congruence.
Qed.

Lemma exclusive_empty : exclusive ∅.
Proof. intros name body c H. by rewrite lookup_empty in H. Qed.

Lemma exclusive_issued c m :
  claim_ok c = true → exclusive m → m !! lock_of c = None → m !! side_of c = None →
  exclusive (<[side_of c := claim_body c]> (<[lock_of c := cr_jti c]> m)).
Proof.
  intros Hok He Hl Hs name body c' Hn Hsc Hp.
  pose proof (lock_not_claim_file sha (cr_bundle_path c) (cr_jti c)) as Hne.
  pose proof (lock_not_claim_file sha (cr_bundle_path c') (cr_jti c)) as Hne'.
  destruct (decide (name = side_of c)) as [->|Hname].
  - rewrite lookup_insert_eq in Hn. injection Hn as <-.
    rewrite parse_claim_body in Hp by done. injection Hp as <-. split; [done|].
    by rewrite lookup_insert_ne, lookup_insert_eq.
  - rewrite lookup_insert_ne in Hn by done.
    destruct (decide (name = lock_of c)) as [->|Hnl]; [by rewrite is_sidecar_lock_file in Hsc|].
    rewrite lookup_insert_ne in Hn by done.
    destruct (He _ _ _ Hn Hsc Hp) as [-> Hlc]. split; [done|].
    rewrite !lookup_insert_ne; [done|congruence|done].
Qed.

Lemma exclusive_delete_tmp jti m : exclusive m → exclusive (delete (claim_tmp jti) m).
Proof.
  intros He name body c [Hne Hn]%lookup_delete_Some Hsc Hp.
  destruct (He _ _ _ Hn Hsc Hp) as [-> Hl]. split; [done|].
  rewrite lookup_delete_ne; [done|]. apply tmp_not_lock_file.
Qed.

(** Rewriting a record in place, with the same lock. *)
Lemma exclusive_update c c' m :
  claim_ok c' = true → exclusive m → m !! lock_of c = Some (cr_jti c) →
  cr_jti c' = cr_jti c → cr_bundle_path c' = cr_bundle_path c →
  exclusive (<[side_of c' := claim_body c']> m).
Proof.
  intros Hok He Hl Hj Hb name body c0 Hn Hsc Hp.
  pose proof (lock_not_claim_file sha (cr_bundle_path c0) (cr_jti c')) as Hne.
  rewrite lookup_insert_ne by done.
  destruct (decide (name = side_of c')) as [->|Hname].
  - rewrite lookup_insert_eq in Hn. injection Hn as <-.
    rewrite parse_claim_body in Hp by done. injection Hp as <-. by rewrite Hb, Hj.
  - rewrite lookup_insert_ne in Hn by done. by eapply He.
Qed.

Lemma exclusive_deleted jti body c m :
  exclusive m → m !! claim_file jti = Some body → parse_claim body = Ok c →
  exclusive (delete (claim_file jti) (delete (lock_of c) m)).
Proof.
  intros He Hm Hp name body' c' [Hn1 [Hn2 Hn]%lookup_delete_Some]%lookup_delete_Some Hsc Hp'.
  destruct (He _ _ _ Hm (is_sidecar_claim_file jti) Hp) as [Hj Hl].
  destruct (He _ _ _ Hn Hsc Hp') as [-> Hl']. split; [done|].
  rewrite !lookup_delete_ne; [done| |].
  - intros E. rewrite E, Hl' in Hl. injection Hl as Hl. congruence.
  - symmetry. apply lock_not_claim_file.
Qed.

Lemma exclusive_delete_malformed jti m :
  exclusive m →
  (∀ body, m !! claim_file jti = Some body → ∀ c, parse_claim body ≠ Ok c) →
  exclusive (delete (claim_file jti) m).
Proof.
  intros He Hbad name body c [Hne Hn]%lookup_delete_Some Hsc Hp.
  destruct (He _ _ _ Hn Hsc Hp) as [-> Hl]. split; [done|].
  rewrite lookup_delete_ne; [done|]. symmetry. apply lock_not_claim_file.
Qed.

(** *** The operations on a directory *)

Lemma get_claim_eq jti d :
  get_claim jti d =
    (match cd_files d !! claim_file jti with
     | None => Ok None
     | Some body => match parse_claim body with Ok c => Ok (Some c) | Raise e => Raise e end
     end, d).
Proof.
  unfold get_claim, bind, get, of_res, ret. destruct (cd_files d !! _) as [b|]; [|done].
  by destruct (parse_claim b).
Qed.

Lemma durable_write_cases c d r d' :
  durable_write c d = (r, d') →
  (r = Ok tt
     ∧ cd_files d' = <[side_of c := claim_body c]> (delete (claim_tmp (cr_jti c)) (cd_files d))) ∨
  (r = Raise (OSError EIO "")
     ∧ cd_files d' = delete (claim_tmp (cr_jti c)) (cd_files d) ∧ cd_faults d ≠ []).
Proof.
  unfold durable_write, bind at 1, ensure_base, modify.
  set (d0 := mkClaimDir true _ _ _). unfold bind at 1, open_trunc, modify.
  unfold on_error, catch, bind at 1.
  set (d1 := set_files _ d0).
  destruct (write_sync_cases (claim_tmp (cr_jti c)) (claim_body c) d1)
    as [(d2 & -> & F & _)|(d2 & -> & F & N)]; cbn; intros [= <- <-]; [left|right]; cbn; rewrite F; cbn.
  - by rewrite lookup_insert_eq, insert_insert_eq, delete_insert_eq.
  - by rewrite delete_insert_eq.
Qed.

(** [mark_fetched] on every branch. *)
Lemma mark_fetched_cases jti name d :
  let r := mark_fetched jti name d in
  match cd_files d !! claim_file jti with
  | None => r = (Raise (OSError ENOENT (claim_file jti)), d)
  | Some body =>
      match parse_claim body with
      | Raise e => r = (Raise e, d)
      | Ok c =>
          let c' := with_fetched c (cr_files_fetched c ++ [name]) in
          if bool_decide (name ∈ cr_files_fetched c) then r = (Ok c, d)
          else
            (r.1 = Ok c' ∧ cd_files r.2
               = <[side_of c' := claim_body c']> (delete (claim_tmp (cr_jti c)) (cd_files d))) ∨
            (r.1 = Raise (OSError EIO "") ∧ cd_files r.2 = delete (claim_tmp (cr_jti c)) (cd_files d)
               ∧ cd_faults d ≠ [])
      end
  end.
Proof.
  cbn zeta. destruct (mark_fetched jti name d) as [r d1] eqn:Er. revert Er.
  unfold mark_fetched, bind at 1. rewrite get_claim_eq.
  destruct (cd_files d !! claim_file jti) as [body|]; [|by intros [= <- <-]].
  destruct (parse_claim body) as [c|e]; [|by intros [= <- <-]].
  case_bool_decide; [by intros [= <- <-]|]. unfold bind.
  destruct (durable_write _ d) as [[[]|e] d'] eqn:E; apply durable_write_cases in E;
    intros [= <- <-]; cbn [fst snd]; naive_solver.
Qed.

(** [delete_claim] on every branch. *)
Lemma delete_claim_cases jti d :
  let r := delete_claim sha jti d in
  match cd_files d !! claim_file jti with
  | None => r.1 = Ok tt ∧ cd_files r.2 = cd_files d
  | Some body =>
      match parse_claim body with
      | Ok c => r.1 = Ok tt ∧ cd_files r.2 = delete (claim_file jti) (delete (lock_of c) (cd_files d))
      | Raise e =>
          if is_ValueError e then r.1 = Ok tt ∧ cd_files r.2 = delete (claim_file jti) (cd_files d)
          else r = (Raise e, d)
      end
  end.
Proof.
  cbn zeta. destruct (delete_claim sha jti d) as [r d1] eqn:Er. revert Er.
  unfold delete_claim, bind at 1, catch. rewrite get_claim_eq.
  destruct (cd_files d !! claim_file jti) as [body|] eqn:E.
  - destruct (parse_claim body) as [c|e]; [by intros [= <- <-]|].
    by destruct (is_ValueError e); intros [= <- <-].
  - intros [= <- <-]. cbn. split; [done|]. by apply delete_id.
Qed.

(** *** Every operation keeps the invariant, faults included *)

Lemma issue_exclusive c d :
  claim_ok c = true → exclusive (cd_files d) → exclusive (cd_files (issue sha c d).2).
Proof.
  intros Hok He. destruct (issue_cases c d) as [H _].
  destruct H; [by apply exclusive_issued|done|done].
Qed.

Lemma mark_fetched_exclusive jti name d :
  utf8_valid name = true →
  (∀ body c, cd_files d !! claim_file jti = Some body → parse_claim body = Ok c → claim_ok c = true) →
  exclusive (cd_files d) → exclusive (cd_files (mark_fetched jti name d).2).
Proof.
  intros Hname Hok He. pose proof (mark_fetched_cases jti name d) as H. cbn zeta in H.
  destruct (cd_files d !! claim_file jti) as [body|] eqn:E; [|by rewrite H].
  destruct (parse_claim body) as [c|e] eqn:Ep; [|by rewrite H].
  case_bool_decide; [by rewrite H|].
  specialize (Hok _ _ eq_refl Ep).
  destruct H as [(_ & ->)|(_ & -> & _)]; [|by apply exclusive_delete_tmp].
  destruct (He _ _ _ E (is_sidecar_claim_file jti) Ep) as [Hj Hl].
  apply (exclusive_update c); [|by apply exclusive_delete_tmp| |done|done].
  - unfold claim_ok in *. cbn. bool_to_prop. repeat (apply andb_true_iff; split); try done.
    + by apply bool_decide_eq_true.
    + rewrite forallb_app. cbn. by rewrite Hname, andb_true_r.
  - rewrite lookup_delete_ne; [done|]. apply tmp_not_lock_file.
Qed.

Lemma delete_claim_exclusive jti d :
  exclusive (cd_files d) → exclusive (cd_files (delete_claim sha jti d).2).
Proof.
  intros He. pose proof (delete_claim_cases jti d) as H. cbn zeta in H.
  destruct (cd_files d !! claim_file jti) as [body|] eqn:E; [|by destruct H as [_ ->]].
  destruct (parse_claim body) as [c|e] eqn:Ep.
  - destruct H as [_ ->]. by eapply exclusive_deleted.
  - destruct (is_ValueError e); [|by rewrite H]. destruct H as [_ ->].
    apply exclusive_delete_malformed; [done|]. intros b Hb c. congruence.
Qed.
End storage_lemmas.

(** ** Concurrency *)

Section concurrency.
Variable sha : str → str.

Abbreviation lock_of c := (lock_file sha (cr_bundle_path c)).
Abbreviation side_of c := (claim_file (cr_jti c)).

(** The whole call is a sequence of steps. *)
Definition call_step (c : ClaimRecord) (x y : gmap str bytes * issue_pc) : Prop :=
  issue_step sha c x.1 x.2 y.1 y.2.

Lemma call_cons c m pc m' pc' z :
  issue_step sha c m pc m' pc' → rtc (call_step c) (m', pc') z → rtc (call_step c) (m, pc) z.
Proof. intros Hs Hz. by apply (rtc_l _ _ (m', pc')). Qed.

Lemma issue_is_steps c d :
  ∃ pc, rtc (call_step c) (cd_files d, Idle) (cd_files (issue sha c d).2, pc)
    ∧ ((issue sha c d).1 = Ok tt ↔ pc = Issued).
Proof.
  pose proof (lock_not_claim_file sha (cr_bundle_path c) (cr_jti c)) as Hne.
  destruct (issue_cases sha c d) as [H _].
  assert (Hlock : ∀ z, cd_files d !! lock_of c = None →
    rtc (call_step c) (<[lock_of c := cr_jti c]> (cd_files d), LockWritten) z →
    rtc (call_step c) (cd_files d, Idle) z).
  { intros z Hl Hz. eapply call_cons; [by apply step_lock|].
    eapply call_cons; [apply step_write_lock|]. by rewrite insert_insert_eq. }
  destruct H as [Hl Hs|Hx|Hl].
  - exists Issued. split; [|done]. apply Hlock; [done|].
    eapply call_cons; [apply step_sidecar; by rewrite lookup_insert_ne|].
    eapply call_cons; [apply step_write_sidecar|]. rewrite insert_insert_eq. apply rtc_refl.
  - exists Refused. split; [|done]. destruct (cd_files d !! lock_of c) as [b|] eqn:El.
    + eapply call_cons; [by eapply step_lock_taken|]. apply rtc_refl.
    + destruct Hx as [[? ?]|[b Hb]]; [done|]. apply Hlock; [done|].
      eapply call_cons; [eapply step_sidecar_taken; by rewrite lookup_insert_ne|].
      rewrite delete_insert_id by done. apply rtc_refl.
  - exists Faulted. split; [|done].
    eapply call_cons; [by apply step_lock|]. eapply call_cons; [apply step_write_lock_fault|].
    rewrite delete_insert_id by done. apply rtc_refl.
Qed.

(** The holders of locks exclude one another, as do those of sidecars, and an
    issued sidecar holds its record. *)
Record sys_inv (s : gmap str bytes * gmap nat (ClaimRecord * issue_pc)) : Prop := {
  inv_lock : ∀ i c pc, s.2 !! i = Some (c, pc) → has_lock pc = true → is_Some (s.1 !! lock_of c);
  inv_excl : ∀ i j ci cj pi pj, s.2 !! i = Some (ci, pi) → s.2 !! j = Some (cj, pj) →
    has_lock pi = true → has_lock pj = true → lock_of ci = lock_of cj → i = j;
  inv_side : ∀ i c pc, s.2 !! i = Some (c, pc) → has_sidecar pc = true →
    ∃ b, s.1 !! side_of c = Some b ∧ (pc = Issued → b = claim_body c);
  inv_side_excl : ∀ i j ci cj pi pj, s.2 !! i = Some (ci, pi) → s.2 !! j = Some (cj, pj) →
    has_sidecar pi = true → has_sidecar pj = true → side_of ci = side_of cj → i = j;
}.

Lemma sys_inv_init m ps : all_idle ps → sys_inv (m, ps).
Proof.
  intros Hi. split; cbn; intros;
    repeat match goal with H : ps !! _ = Some _ |- _ => apply Hi in H end; by subst.
Qed.

Lemma is_Some_insert k l (v : bytes) (m : gmap str bytes) :
  is_Some (m !! l) → is_Some (<[k := v]> m !! l).
Proof. rewrite lookup_insert_is_Some. destruct (decide (k = l)); naive_solver. Qed.

(** A step keeps the lock of another holder. *)
Lemma step_keeps_lock c m pc m' pc' p :
  issue_step sha c m pc m' pc' → is_Some (m !! lock_file sha p) →
  (has_lock pc = true → lock_file sha p ≠ lock_of c) → is_Some (m' !! lock_file sha p).
Proof.
  intros Hs Hm Hne. pose proof (lock_not_claim_file sha p (cr_jti c)) as Hside.
  destruct Hs; cbn in Hne; try done; try (by apply is_Some_insert);
    rewrite lookup_delete_ne; [done|..]; try done; by apply not_eq_sym, Hne.
Qed.

(** A step keeps the sidecar of another holder. *)
Lemma step_keeps_side c m pc m' pc' j b :
  issue_step sha c m pc m' pc' → m !! claim_file j = Some b →
  (has_sidecar pc = true → claim_file j ≠ side_of c) → m' !! claim_file j = Some b.
Proof.
  intros Hs Hm Hne. pose proof (lock_not_claim_file sha (cr_bundle_path c) j) as Hl.
  destruct Hs as [| | | |m Hnone| | | |]; cbn in Hne; try done;
    try (rewrite lookup_insert_ne by done; done); try (rewrite lookup_delete_ne by done; done).
  - rewrite lookup_insert_ne; [done|]. intros E. congruence.
  - rewrite lookup_insert_ne; [done|]. by apply not_eq_sym, Hne.
  - rewrite lookup_delete_ne; [done|]. by apply not_eq_sym, Hne.
Qed.

(** What the issuer that moves holds afterwards. *)
Lemma step_own c m pc m' pc' :
  issue_step sha c m pc m' pc' →
  (has_lock pc = true → is_Some (m !! lock_of c)) →
  (has_lock pc' = true → is_Some (m' !! lock_of c) ∧ (has_lock pc = true ∨ m !! lock_of c = None)) ∧
  (has_sidecar pc' = true →
    (∃ b, m' !! side_of c = Some b ∧ (pc' = Issued → b = claim_body c)) ∧
    (has_sidecar pc = true ∨ m !! side_of c = None)).
Proof.
  intros Hs Hl. pose proof (lock_not_claim_file sha (cr_bundle_path c) (cr_jti c)) as Hne.
  destruct Hs; cbn in *; (split; [intros Hp; try discriminate Hp|intros Hp; try discriminate Hp]);
    (split; [|auto]);
    try (rewrite lookup_insert_eq; by eexists);
    try (apply is_Some_insert; by apply Hl);
    try (rewrite lookup_delete_ne by done; by apply Hl).
  all: eexists; rewrite lookup_insert_eq; by split.
Qed.

Lemma sys_inv_step s s' : sys_inv s → sys_step sha s s' → sys_inv s'.
Proof.
  intros [I1 I2 I3 I4] Hs. destruct Hs as [i c pc m m' pc' ps Hi Hs]; cbn in *.
  destruct (step_own _ _ _ _ _ Hs (I1 _ _ _ Hi)) as [Hown Hownside].
  assert (Hother : ∀ j cj pj, j ≠ i → ps !! j = Some (cj, pj) → has_lock pj = true →
    has_lock pc' = true → lock_of cj ≠ lock_of c).
  { intros j cj pj Hj Hpj Hl Hl' E. destruct (Hown Hl') as [_ [Hpc|Hnone]].
    - apply Hj. by eapply I2.
    - destruct (I1 _ _ _ Hpj Hl) as [? H]. congruence. }
  assert (Hotherside : ∀ j cj pj, j ≠ i → ps !! j = Some (cj, pj) → has_sidecar pj = true →
    has_sidecar pc' = true → side_of cj ≠ side_of c).
  { intros j cj pj Hj Hpj Hl Hl' E. destruct (Hownside Hl') as [_ [Hpc|Hnone]].
    - apply Hj. by eapply I4.
    - destruct (I3 _ _ _ Hpj Hl) as (? & H & _). congruence. }
  split; cbn.
  - intros j cj pj [[<- [= <- <-]]|[Hj Hpj]]%lookup_insert_Some Hl; [by apply Hown|].
    eapply step_keeps_lock; [done|by eapply I1|]. intros Hpc E. apply Hj. by eapply I2.
  - intros j k cj ck pj pk [[<- [= <- <-]]|[Hj Hpj]]%lookup_insert_Some
      [[<- [= <- <-]]|[Hk Hpk]]%lookup_insert_Some Hlj Hlk E; [done|..|by eapply I2].
    + by destruct (Hother k ck pk).
    + by destruct (Hother j cj pj).
  - intros j cj pj [[<- [= <- <-]]|[Hj Hpj]]%lookup_insert_Some Hl; [by apply Hownside|].
    destruct (I3 _ _ _ Hpj Hl) as (b & Hb & Hbody). exists b. split; [|done].
    eapply step_keeps_side; [done|done|]. intros Hpc E. apply Hj. by eapply I4.
  - intros j k cj ck pj pk [[<- [= <- <-]]|[Hj Hpj]]%lookup_insert_Some
      [[<- [= <- <-]]|[Hk Hpk]]%lookup_insert_Some Hlj Hlk E; [done|..|by eapply I4].
    + by destruct (Hotherside k ck pk).
    + by destruct (Hotherside j cj pj).
Qed.

Lemma sys_inv_reachable s s' : sys_inv s → rtc (sys_step sha) s s' → sys_inv s'.
Proof. induction 2; [done|]. eauto using sys_inv_step. Qed.
End concurrency.

(** ** Sequences of operations *)

Inductive claim_op := OpIssue (c : ClaimRecord) | OpMark (jti name : str) | OpDelete (jti : str).

Definition op_ok (o : claim_op) : bool :=
  match o with OpIssue c => claim_ok c | OpMark _ name => utf8_valid name | OpDelete _ => true end.

(** The directory after an operation, whatever its outcome. *)
Definition run_op (sha : str → str) (d : ClaimDir) (o : claim_op) : ClaimDir :=
  match o with
  | OpIssue c => (issue sha c d).2
  | OpMark jti name => (mark_fetched jti name d).2
  | OpDelete jti => (delete_claim sha jti d).2
  end.

Definition sidecars_ok (sha : str → str) (m : gmap str bytes) : Prop :=
  exclusive sha m ∧
  ∀ name body c, m !! name = Some body → is_sidecar name = true → parse_claim body = Ok c →
    claim_ok c = true.

Lemma with_fetched_ok c name :
  claim_ok c = true → utf8_valid name = true →
  claim_ok (with_fetched c (cr_files_fetched c ++ [name])) = true.
Proof.
  unfold claim_ok. cbn. rewrite !andb_true_iff, forallb_app. cbn. intros H ->.
  by rewrite andb_true_r.
Qed.

Lemma run_op_ok sha d o :
  op_ok o = true → sidecars_ok sha (cd_files d) → sidecars_ok sha (cd_files (run_op sha d o)).
Proof.
  intros Ho [He Hall]. split.
  - destruct o as [c|jti name|jti]; cbn [run_op].
    + by apply issue_exclusive.
    + apply mark_fetched_exclusive; [done| |done]. intros body c Hb Hp.
      by apply (Hall _ _ _ Hb (is_sidecar_claim_file jti) Hp).
    + by apply delete_claim_exclusive.
  - intros n b c' Hn Hsc Hp. destruct o as [c|jti name|jti]; cbn [run_op] in Hn; cbn [op_ok] in Ho.
    + destruct (issue_cases sha c d) as [H _].
      inversion H as [Hl Hs Hr Hm|Hx Hr Hm|Hl Hr Hm]; rewrite <- Hm in Hn; try by apply (Hall _ _ _ Hn Hsc Hp).
      apply lookup_insert_Some in Hn as [[<- <-]|[_ Hn]].
      { rewrite parse_claim_body in Hp by done. congruence. }
      apply lookup_insert_Some in Hn as [[<- <-]|[_ Hn]]; [by rewrite is_sidecar_lock_file in Hsc|].
      by apply (Hall _ _ _ Hn Hsc Hp).
    + pose proof (mark_fetched_cases sha jti name d) as H. cbn zeta in H.
      destruct (cd_files d !! claim_file jti) as [body|] eqn:E; [|rewrite H in Hn; by apply (Hall _ _ _ Hn Hsc Hp)].
      destruct (parse_claim body) as [c|e] eqn:Ep; [|rewrite H in Hn; by apply (Hall _ _ _ Hn Hsc Hp)].
      case_bool_decide; [rewrite H in Hn; by apply (Hall _ _ _ Hn Hsc Hp)|].
      pose proof (Hall _ _ _ E (is_sidecar_claim_file jti) Ep) as Hc.
      destruct H as [(_ & H)|(_ & H & _)]; rewrite H in Hn.
      * apply lookup_insert_Some in Hn as [[<- <-]|[_ Hn]].
        { rewrite parse_claim_body in Hp by by apply with_fetched_ok.
          injection Hp as <-. by apply with_fetched_ok. }
        apply lookup_delete_Some in Hn as [_ Hn]. by apply (Hall _ _ _ Hn Hsc Hp).
      * apply lookup_delete_Some in Hn as [_ Hn]. by apply (Hall _ _ _ Hn Hsc Hp).
    + pose proof (delete_claim_cases sha jti d) as H. cbn zeta in H.
      assert (Hsub : ∀ x, cd_files (delete_claim sha jti d).2 !! n = Some x → cd_files d !! n = Some x).
      { intros x. destruct (cd_files d !! claim_file jti) as [body|]; [|by destruct H as [_ ->]].
        destruct (parse_claim body); [|destruct (is_ValueError e); [|by rewrite H]];
          destruct H as [_ ->]; rewrite !lookup_delete_Some; tauto. }
      apply Hsub in Hn. by apply (Hall _ _ _ Hn Hsc Hp).
Qed.

Lemma run_ops_ok sha d ops :
  forallb op_ok ops = true → sidecars_ok sha (cd_files d) →
  sidecars_ok sha (cd_files (foldl (run_op sha) d ops)).
Proof.
  revert d. induction ops as [|o ops IH]; intros d Ho Hd; [done|].
  cbn in Ho. apply andb_true_iff in Ho as [Ho Hos]. cbn. apply IH; [done|]. by apply run_op_ok.
Qed.

(** An empty directory, with the given write faults to come. *)
Definition fresh_dir (faults : list bool) : ClaimDir :=
  {| cd_exists := false; cd_files := ∅; cd_faults := faults; cd_log := [] |}.

(** ** Properties *)


Definition demo_claim (jti p : str) : ClaimRecord :=
  {| cr_schema_version := 1; cr_jti := jti; cr_bundle_path := p; cr_bundle_id := "b";
     cr_recipient := "bob"; cr_created_at := "2026-01-01T00:00:00+00:00"; cr_files_fetched := [] |}.


(** C16: at most one claim per bundle: after any sequence of issues, fetch marks
    and deletions on an empty directory, with any writes failing, two sidecars
    for the same bundle path are the same file, and every sidecar is named by
    its record's jti and holds the lock of its bundle. *)
Theorem claims_exclusive sha faults ops n1 n2 b1 b2 c1 c2 :
  forallb op_ok ops = true →
  let m := cd_files (foldl (run_op sha) (fresh_dir faults) ops) in
  m !! n1 = Some b1 → m !! n2 = Some b2 → is_sidecar n1 = true → is_sidecar n2 = true →
  parse_claim b1 = Ok c1 → parse_claim b2 = Ok c2 →
  (n1 = claim_file (cr_jti c1) ∧ m !! lock_file sha (cr_bundle_path c1) = Some (cr_jti c1)) ∧
  (cr_bundle_path c1 = cr_bundle_path c2 → n1 = n2).
Proof.
  intros Ho m H1 H2 S1 S2 P1 P2.
  destruct (run_ops_ok sha (fresh_dir faults) ops Ho) as [He _].
  { split; [apply exclusive_empty|]. intros n b c H. cbn in H. by rewrite lookup_empty in H. }
  split; [by eapply He|]. intros Hb. by eapply exclusive_unique.
Qed.

Lemma claims_exclusive_witness :
  let ops := [OpIssue (demo_claim "j1" "inbox/bob/m"); OpMark "j1" "a.txt";
              OpIssue (demo_claim "j2" "inbox/bob/m")] in
  let m := cd_files (foldl (run_op (λ s, s)) (fresh_dir [false; false; false]) ops) in
  m !! lock_file (λ s, s) "inbox/bob/m" = Some "j1".
Proof.
  set (ops := [_; _; _]). cbn zeta.
  pose (c := with_fetched (demo_claim "j1" "inbox/bob/m") ["a.txt"]).
  refine (proj2 (proj1 (claims_exclusive (λ s, s) [false; false; false] ops
    "j1.json" "j1.json" (claim_body c) (claim_body c) c c _ _ _ _ _ _ _))).
  all: vm_compute; reflexivity.
Defined.

(** C29: a race between any number of server processes has at most one winner:
    whatever the directory holds, however the system calls of concurrent
    [issue] calls interleave, and whatever writes fail, two issuers that have
    both succeeded claimed different bundle paths, and every winner's sidecar
    holds its record. *)
Theorem concurrent_issue_single_winner sha m ps m' ps' :
  all_idle ps → rtc (sys_step sha) (m, ps) (m', ps') →
  (∀ i j ci cj, ps' !! i = Some (ci, Issued) → ps' !! j = Some (cj, Issued) →
     cr_bundle_path ci = cr_bundle_path cj → i = j) ∧
  (∀ i c, ps' !! i = Some (c, Issued) → m' !! claim_file (cr_jti c) = Some (claim_body c)).
Proof.
  intros Hi Hr. destruct (sys_inv_reachable sha _ _ (sys_inv_init sha m ps Hi) Hr) as [I1 I2 I3 I4].
  cbn in *. split.
  - intros i j ci cj Hci Hcj Hb. eapply I2; [done..|]. by rewrite Hb.
  - intros i c Hc. destruct (I3 _ _ _ Hc eq_refl) as (b & Hb & Hbody). by rewrite Hb, Hbody.
Qed.

Lemma concurrent_issue_single_winner_witness :
  let c1 := demo_claim "j1" "p" in let c2 := demo_claim "j2" "p" in
  let lock := lock_file (λ s, s) "p" in
  let m' : gmap str bytes := <[claim_file "j1" := claim_body c1]> (<[claim_file "j1" := ""]>
              (<[lock := "j1"]> (<[lock := ""]> ∅))) in
  m' !! claim_file "j1" = Some (claim_body c1).
Proof.
  cbn zeta. set (c1 := demo_claim "j1" "p"). set (c2 := demo_claim "j2" "p").
  pose (ps := {[0 := (c1, Idle); 1 := (c2, Idle)]} : gmap nat (ClaimRecord * issue_pc)).
  pose (ps' := <[0 := (c1, Issued)]> (<[0 := (c1, HoldsSidecar)]> (<[1 := (c2, Refused)]>
    (<[0 := (c1, LockWritten)]> (<[0 := (c1, HoldsLock)]> ps))))).
  refine (proj2 (concurrent_issue_single_winner (λ s, s) ∅ ps _ ps' _ _) 0 c1 _).
  - intros i c pc H. apply lookup_insert_Some in H as [[_ H]|[_ H]]; [congruence|].
    apply lookup_singleton_Some in H as [_ H]. congruence.
  - eapply rtc_l; [eapply sys_issue with (i := 0); [reflexivity|apply step_lock; reflexivity]|].
    eapply rtc_l; [eapply sys_issue with (i := 0); [reflexivity|apply step_write_lock]|].
    eapply rtc_l; [eapply sys_issue with (i := 1); [reflexivity|eapply step_lock_taken; reflexivity]|].
    eapply rtc_l; [eapply sys_issue with (i := 0); [reflexivity|apply step_sidecar; reflexivity]|].
    eapply rtc_l; [eapply sys_issue with (i := 0); [reflexivity|apply step_write_sidecar]|].
    apply rtc_refl.
  - reflexivity.
Defined.

(** Deleting a claim frees its bundle: under the exclusive-claim invariant,
    deleting a readable claim succeeds, the claim is gone, a second deletion
    changes nothing, and issuing a new claim for the same bundle succeeds. *)
Theorem delete_claim_frees_bundle sha jti c c' d :
  exclusive sha (cd_files d) → get_claim jti d = (Ok (Some c), d) →
  cr_bundle_path c' = cr_bundle_path c → cd_faults d = [] →
  cd_files d !! claim_file (cr_jti c') = None ∨ cr_jti c' = jti →
  ∃ d', delete_claim sha jti d = (Ok tt, d') ∧ get_claim jti d' = (Ok None, d') ∧
    cd_files (delete_claim sha jti d').2 = cd_files d' ∧ (issue sha c' d').1 = Ok tt.
Proof.
  intros He Hg Hb Hf Hj. rewrite get_claim_eq in Hg.
  destruct (cd_files d !! claim_file jti) as [body|] eqn:E; [|done].
  destruct (parse_claim body) as [c0|e] eqn:Ep; [|done]. injection Hg as ->.
  pose proof (delete_claim_cases sha jti d) as H. cbn zeta in H. rewrite E, Ep in H.
  assert (Hfaults : cd_faults (delete_claim sha jti d).2 = []).
  { unfold delete_claim, bind at 1, catch. rewrite get_claim_eq, E, Ep. done. }
  destruct (delete_claim sha jti d) as [r d'] eqn:Ed. cbn [fst snd] in *. destruct H as [-> Hd'].
  exists d'. split; [done|].
  assert (Hnone : cd_files d' !! claim_file jti = None) by (rewrite Hd'; apply lookup_delete_eq).
  split; [by rewrite get_claim_eq, Hnone|]. split.
  { pose proof (delete_claim_cases sha jti d') as H2. cbn zeta in H2. rewrite Hnone in H2. by destruct H2. }
  destruct (issue_cases sha c' d') as [Hi Hif]. specialize (Hif Hfaults).
  pose proof (lock_not_claim_file sha (cr_bundle_path c) jti) as Hne.
  pose proof (lock_not_claim_file sha (cr_bundle_path c) (cr_jti c')) as Hne2.
  assert (Hl : cd_files d' !! lock_file sha (cr_bundle_path c') = None).
  { rewrite Hb, Hd'. by rewrite lookup_delete_ne, lookup_delete_eq. }
  assert (Hs : cd_files d' !! claim_file (cr_jti c') = None).
  { destruct Hj as [Hj| ->]; [|done]. rewrite Hd'. by rewrite !lookup_delete_None; auto. }
  remember (issue sha c' d').1 as r eqn:Hr. remember (cd_files (issue sha c' d').2) as m' eqn:Hm.
  destruct Hi as [| Hx |]; [done| |done].
  rewrite Hl, Hs in Hx. by destruct Hx as [[]|[]].
Qed.

Lemma delete_claim_frees_bundle_witness :
  let d := (issue (λ s, s) (demo_claim "j1" "p") (fresh_dir [])).2 in
  ∃ d', delete_claim (λ s, s) "j1" d = (Ok tt, d') ∧ (issue (λ s, s) (demo_claim "j2" "p") d').1 = Ok tt.
Proof.
  cbn zeta. set (d := (issue (λ s, s) (demo_claim "j1" "p") (fresh_dir [])).2).
  destruct (delete_claim_frees_bundle (λ s, s) "j1" (demo_claim "j1" "p") (demo_claim "j2" "p") d)
    as (d' & H1 & _ & _ & H2).
  - apply issue_exclusive; [vm_compute; reflexivity|]. apply exclusive_empty.
  - vm_compute. reflexivity.
  - reflexivity.
  - vm_compute. reflexivity.
  - left. vm_compute. reflexivity.
  - exists d'. split; [exact H1|exact H2].
Defined.

(** One sidecar that lacks a field stops every sweep and listing: its
    [KeyError] is neither of the exceptions [iter_all] skips, although another
    sidecar of the directory is well formed. *)
Theorem missing_field_stops_iteration :
  let good := claim_body (demo_claim "j1" "p") in
  let bad := json_dumps (JDict [("schema_version", JInt 1)]) in
  let d := {| cd_exists := true; cd_files := {["j1.json" := good; "j0.json" := bad]};
              cd_faults := []; cd_log := [] |} in
  (iter_all d).1 = Raise (KeyError "jti") ∧
  parse_claim good = Ok (demo_claim "j1" "p") ∧
  (delete_claim (λ s, s) "j0" d).1 = Raise (KeyError "jti").
Proof. split_and!; vm_compute; reflexivity. Qed.
