(* ===== verification/KeyStore.v ===== *)
(** * The API key store

    [auth/models.py], [protocols/keystore.py] and
    [backends/filesystem/keystore.py]: the records in memory, the JSON document
    in the keys file and the operations on both.  The file is kept as the
    document it holds (its indentation is not modelled); saving can fail, as
    the oracle [ks_faults] decides. *)

From Stdlib Require Import Ascii String.
From S2P Require Import Prelude PyStr PyCodec Json DateTime Effects.
Local Open Scope string_scope.
Local Open Scope list_scope.
Local Open Scope effect_scope.

(** ** Data, [auth/models.py] *)

Definition KEY_PREFIX : str := "cst_".
Definition KEY_PREFIX_LEN : nat := 8.

Record KeyRecord := {
  kr_label : str;
  kr_key_hash : str;
  kr_key_prefix : str;
  kr_created_at : str;
  kr_is_active : bool;
}.
#[export] Instance key_record_eq_dec : EqDecision KeyRecord.
Proof. solve_decision. Defined.

(** [created_at] is an instant in microseconds. *)
Record KeyInfo := {
  ki_label : str;
  ki_key_prefix : str;
  ki_created_at : Z;
  ki_is_active : bool;
}.

(** ** The store *)

Record KeyStore := mkKeyStore {
  ks_keys : list KeyRecord;
  ks_setup_done : bool;
  ks_disk : option json;
  ks_faults : list bool;
  ks_next : nat;
  ks_now : Z;
  ks_log : list event;
}.

Definition set_keys (f : list KeyRecord → list KeyRecord) (s : KeyStore) : KeyStore :=
  mkKeyStore (f (ks_keys s)) (ks_setup_done s) (ks_disk s) (ks_faults s) (ks_next s) (ks_now s) (ks_log s).
Definition set_setup_done (b : bool) (s : KeyStore) : KeyStore :=
  mkKeyStore (ks_keys s) b (ks_disk s) (ks_faults s) (ks_next s) (ks_now s) (ks_log s).
Definition ks_log_event (name : str) (s : KeyStore) : KeyStore :=
  mkKeyStore (ks_keys s) (ks_setup_done s) (ks_disk s) (ks_faults s) (ks_next s) (ks_now s)
    (ks_log s ++ [Log INFO name]).

(** [asdict(k)]. *)
Definition record_json (k : KeyRecord) : json :=
  JDict [("label", JStr (kr_label k)); ("key_hash", JStr (kr_key_hash k));
         ("key_prefix", JStr (kr_key_prefix k)); ("created_at", JStr (kr_created_at k));
         ("is_active", JBool (kr_is_active k))].

Definition store_json (setup_done : bool) (keys : list KeyRecord) : json :=
  JDict [("setup_done", JBool setup_done); ("keys", JList (map record_json keys))].

(** [KeyRecord( **k )]: the four required fields, [is_active] optional, no
    other.  Values of another type than the field's are an error here. *)
Definition type_error {A} : res A := Raise (OtherError "TypeError").

Definition record_of_json (j : json) : res KeyRecord :=
  match j with
  | JDict d =>
      if forallb (λ kv : str * json, bool_decide (kv.1 ∈
           ["label"; "key_hash"; "key_prefix"; "created_at"; "is_active"])) d
      then
        match dict_get "label" d, dict_get "key_hash" d, dict_get "key_prefix" d,
              dict_get "created_at" d, dict_get "is_active" d with
        | Some (JStr l), Some (JStr h), Some (JStr p), Some (JStr c), None =>
            Ok {| kr_label := l; kr_key_hash := h; kr_key_prefix := p; kr_created_at := c;
                  kr_is_active := true |}
        | Some (JStr l), Some (JStr h), Some (JStr p), Some (JStr c), Some (JBool a) =>
            Ok {| kr_label := l; kr_key_hash := h; kr_key_prefix := p; kr_created_at := c;
                  kr_is_active := a |}
        | _, _, _, _, _ => type_error
        end
      else type_error
  | _ => type_error
  end.

Fixpoint records_of_json (l : list json) : res (list KeyRecord) :=
  match l with
  | [] => Ok []
  | j :: l' =>
      match record_of_json j with
      | Raise e => Raise e
      | Ok k => match records_of_json l' with Raise e => Raise e | Ok ks => Ok (k :: ks) end
      end
  end.

(** [_load]: [None] is an absent file. *)
Definition load (disk : option json) : res (list KeyRecord * bool) :=
  match disk with
  | None => Ok ([], false)
  | Some (JDict data) =>
      let keys := match dict_get "keys" data with Some (JList l) => Some l | None => Some [] | _ => None end in
      let setup_done := match dict_get "setup_done" data with
                        | Some (JBool b) => Some b | None => Some false | _ => None end in
      match keys, setup_done with
      | Some l, Some b =>
          match records_of_json l with Ok ks => Ok (ks, b) | Raise e => Raise e end
      | _, _ => type_error
      end
  | Some _ => Raise (OtherError "AttributeError")
  end.

(** [_save]. *)
Definition save : M KeyStore unit :=
  s <- get;;
  let doc := store_json (ks_setup_done s) (ks_keys s) in
  match ks_faults s with
  | true :: rest =>
      modify (λ s, mkKeyStore (ks_keys s) (ks_setup_done s) (ks_disk s) rest (ks_next s) (ks_now s) (ks_log s));;;
      raise (OSError EIO "")
  | _ =>
      modify (λ s, mkKeyStore (ks_keys s) (ks_setup_done s) (Some doc) (tl (ks_faults s))
                     (ks_next s) (ks_now s) (ks_log s))
  end.

(** [k.label == label and k.is_active]. *)
Definition active_label (label : str) (k : KeyRecord) : bool :=
  bool_decide (kr_label k = label) && kr_is_active k.

Definition deactivate (k : KeyRecord) : KeyRecord :=
  {| kr_label := kr_label k; kr_key_hash := kr_key_hash k; kr_key_prefix := kr_key_prefix k;
     kr_created_at := kr_created_at k; kr_is_active := false |}.

(** The loop of [revoke_key] and [rotate_key]: the first active record of the
    label becomes inactive; [None] when there is none. *)
Fixpoint deactivate_first (label : str) (keys : list KeyRecord) : option (list KeyRecord) :=
  match keys with
  | [] => None
  | k :: ks =>
      if active_label label k then Some (deactivate k :: ks)
      else ks' ← deactivate_first label ks; Some (k :: ks')
  end.

Section operations.
(** [sha256(s.encode()).hexdigest()] and the results of
    [secrets.token_urlsafe(32)]. *)
Variable sha256_hex : str → str.
Variable token_urlsafe : nat → str.

Definition hash_key (raw_key : str) : str := sha256_hex raw_key.
Definition raw_key_at (n : nat) : str := KEY_PREFIX +:+ token_urlsafe n.

Definition generate_key : M KeyStore str :=
  s <- get;;
  modify (λ s, mkKeyStore (ks_keys s) (ks_setup_done s) (ks_disk s) (ks_faults s)
                 (S (ks_next s)) (ks_now s) (ks_log s));;;
  ret (raw_key_at (ks_next s)).

Definition key_head (raw_key : str) : str :=
  str_take (String.length KEY_PREFIX + KEY_PREFIX_LEN) raw_key.

Definition create_key (label : str) : M KeyStore (str * KeyInfo) :=
  s <- get;;
  if existsb (active_label label) (ks_keys s)
  then raise (ValueError PlainValueError ("Key with label '" +:+ label +:+ "' already exists"))
  else
    raw_key <- generate_key;;
    let now := ks_now s in
    let record := {| kr_label := label; kr_key_hash := hash_key raw_key;
                     kr_key_prefix := key_head raw_key; kr_created_at := isoformat now;
                     kr_is_active := true |} in
    modify (set_keys (λ keys, keys ++ [record]));;;
    save;;;
    modify (ks_log_event "key.created");;;
    ret (raw_key, {| ki_label := label; ki_key_prefix := kr_key_prefix record;
                     ki_created_at := now; ki_is_active := true |}).

Definition setup (label : str) : M KeyStore (str * KeyInfo) :=
  s <- get;;
  if ks_setup_done s then raise (ValueError PlainValueError "Setup already completed")
  else
    modify (set_setup_done true);;;
    r <- create_key label;;
    modify (ks_log_event "key.setup");;;
    ret r.

(** The [KeyInfo] of a record; [fromisoformat] can fail. *)
Definition info_of (k : KeyRecord) : res KeyInfo :=
  match fromisoformat (kr_created_at k) with
  | None => Raise (ValueError PlainValueError "Invalid isoformat string")
  | Some t => Ok {| ki_label := kr_label k; ki_key_prefix := kr_key_prefix k;
                    ki_created_at := t; ki_is_active := kr_is_active k |}
  end.

Definition validate (raw_key : str) : M KeyStore (option KeyInfo) :=
  let key_hash := hash_key raw_key in
  s <- get;;
  match find_first (λ k, bool_decide (kr_key_hash k = key_hash) && kr_is_active k) (ks_keys s) with
  | Some k => i <- of_res (info_of k);; ret (Some i)
  | None => modify (ks_log_event "key.validate.failed");;; ret None
  end.

Definition list_keys : M KeyStore (list KeyInfo) :=
  s <- get;; map_m (λ k, of_res (info_of k)) (ks_keys s).

Definition no_active_key {A} (label : str) : M KeyStore A :=
  raise (KeyError ("Active key with label '" +:+ label +:+ "' not found")).

Definition revoke_key (label : str) : M KeyStore unit :=
  s <- get;;
  match deactivate_first label (ks_keys s) with
  | None => no_active_key label
  | Some keys =>
      modify (set_keys (λ _, keys));;;
      save;;;
      modify (ks_log_event "key.revoked")
  end.

Definition rotate_key (label : str) : M KeyStore (str * KeyInfo) :=
  s <- get;;
  match deactivate_first label (ks_keys s) with
  | None => no_active_key label
  | Some keys =>
      modify (set_keys (λ _, keys));;;
      r <- create_key label;;
      modify (ks_log_event "key.rotated");;;
      ret r
  end.
End operations.

(** ** Lemmas *)

Arguments isoformat : simpl never.
Arguments fromisoformat : simpl never.

(** At most one active record per label. *)
Definition unique_active (keys : list KeyRecord) : Prop :=
  ∀ i j k1 k2, keys !! i = Some k1 → keys !! j = Some k2 →
    kr_is_active k1 = true → kr_is_active k2 = true → kr_label k1 = kr_label k2 → i = j.

Lemma active_label_true label k :
  active_label label k = true ↔ kr_label k = label ∧ kr_is_active k = true.
Proof. unfold active_label. rewrite andb_true_iff, bool_decide_eq_true. done. Qed.

Lemma no_active_existsb label keys :
  existsb (active_label label) keys = false ↔
  ∀ k, k ∈ keys → kr_label k = label → kr_is_active k = false.
Proof.
  split.
  - intros H k Hk Hl. destruct (kr_is_active k) eqn:E; [|done].
    assert (Ht : existsb (active_label label) keys = true); [|congruence].
    apply existsb_exists. exists k. split; [by apply list_elem_of_In|]. by apply active_label_true.
  - intros H. apply not_true_iff_false. intros (k & Hk & Ha)%existsb_exists.
    apply active_label_true in Ha as [Hl Ha]. apply list_elem_of_In in Hk.
    rewrite (H k Hk Hl) in Ha. done.
Qed.

Lemma unique_active_snoc keys k :
  unique_active keys → existsb (active_label (kr_label k)) keys = false →
  unique_active (keys ++ [k]).
Proof.
  intros Hu He i j k1 k2 Hi Hj A1 A2 Hl. rewrite no_active_existsb in He.
  apply lookup_app_Some in Hi as [Hi|[Hi1 Hi]], Hj as [Hj|[Hj1 Hj]].
  - by eapply Hu.
  - apply list_lookup_singleton_Some in Hj as [_ <-].
    rewrite (He k1) in A1; [done|by eapply list_elem_of_lookup_2|done].
  - apply list_lookup_singleton_Some in Hi as [_ <-].
    rewrite (He k2) in A2; [done|by eapply list_elem_of_lookup_2|done].
  - apply list_lookup_singleton_Some in Hi as [Hi _], Hj as [Hj _]. lia.
Qed.

(** The record that a deactivation changes. *)
Lemma deactivate_first_spec label keys keys' :
  deactivate_first label keys = Some keys' →
  ∃ i k, keys !! i = Some k ∧ kr_label k = label ∧ kr_is_active k = true ∧
    keys' = <[i := deactivate k]> keys.
Proof.
  revert keys'. induction keys as [|k keys IH]; intros keys'; [done|]. cbn.
  destruct (active_label label k) eqn:E.
  - intros [= <-]. apply active_label_true in E as [? ?]. by exists 0, k.
  - destruct (deactivate_first label keys) as [ks|]; [|done]. intros [= <-].
    destruct (IH ks eq_refl) as (i & k' & ? & ? & ? & ->). by exists (S i), k'.
Qed.

Lemma deactivate_first_None label keys :
  deactivate_first label keys = None ↔ existsb (active_label label) keys = false.
Proof.
  induction keys as [|k keys IH]; [done|]. cbn.
  destruct (active_label label k); [done|]. cbn. rewrite <- IH.
  by destruct (deactivate_first label keys).
Qed.

Lemma unique_active_deactivate keys i k :
  unique_active keys → keys !! i = Some k → unique_active (<[i := deactivate k]> keys).
Proof.
  intros Hu Hi a b k1 k2 Ha Hb A1 A2 Hl.
  apply list_lookup_insert_Some in Ha as [(? & <- & _)|[_ Ha]]; [done|].
  apply list_lookup_insert_Some in Hb as [(? & <- & _)|[_ Hb]]; [done|].
  by eapply Hu.
Qed.

(** After a deactivation no record of the label is active. *)
Lemma deactivated_inactive label keys keys' :
  unique_active keys → deactivate_first label keys = Some keys' →
  existsb (active_label label) keys' = false.
Proof.
  intros Hu H. destruct (deactivate_first_spec _ _ _ H) as (i & k & Hi & Hl & Ha & ->).
  apply no_active_existsb. intros k' [j Hj]%list_elem_of_lookup_1 Hl'.
  apply list_lookup_insert_Some in Hj as [(_ & <- & _)|[Hne Hj]]; [done|].
  destruct (kr_is_active k') eqn:E; [|done]. exfalso. apply Hne. eapply Hu; try done. congruence.
Qed.

(** *** Equations *)

Lemma records_of_json_map keys : records_of_json (map record_json keys) = Ok keys.
Proof.
  induction keys as [|k keys IH]; [done|]. cbn [map records_of_json]. rewrite IH.
  unfold record_json, record_of_json. rewrite (proj2 (forallb_forall _ _)).
  - dict_lookup. by destruct k.
  - intros [k' v] Hin. cbn [fst]. apply bool_decide_eq_true.
    apply list_elem_of_In, (list_elem_of_fmap_2 fst) in Hin. exact Hin.
Qed.

(** [_load] inverts [_save]. *)
Lemma load_store_json setup_done keys : load (Some (store_json setup_done keys)) = Ok (keys, setup_done).
Proof. unfold load, store_json. dict_lookup. by rewrite records_of_json_map. Qed.

(** What saving does: the disk mirrors the memory, or a fault is reported. *)
Lemma save_cases s :
  (∃ s', save s = (Ok tt, s') ∧ ks_keys s' = ks_keys s ∧ ks_setup_done s' = ks_setup_done s ∧
     ks_disk s' = Some (store_json (ks_setup_done s) (ks_keys s)) ∧ ks_now s' = ks_now s ∧
     ks_next s' = ks_next s) ∨
  (∃ s', save s = (Raise (OSError EIO ""), s') ∧ ks_keys s' = ks_keys s ∧
     ks_setup_done s' = ks_setup_done s ∧ ks_disk s' = ks_disk s ∧ ks_faults s ≠ [] ∧
     ks_next s' = ks_next s).
Proof.
  unfold save, bind, get, modify, raise.
  destruct (ks_faults s) as [|[] rest] eqn:E; [left|right|left]; eexists; split_and!;
    try done; cbn; by rewrite E.
Qed.

Section key_lemmas.
Variables (sha : str → str) (token : nat → str).

(** The record [create_key] adds. *)
Definition new_record (label : str) (s : KeyStore) : KeyRecord :=
  {| kr_label := label; kr_key_hash := sha (raw_key_at token (ks_next s));
     kr_key_prefix := key_head (raw_key_at token (ks_next s));
     kr_created_at := isoformat (ks_now s); kr_is_active := true |}.
Definition new_info (label : str) (s : KeyStore) : KeyInfo :=
  {| ki_label := label; ki_key_prefix := key_head (raw_key_at token (ks_next s));
     ki_created_at := ks_now s; ki_is_active := true |}.

(** [create_key] on every branch. *)
Lemma create_key_cases label s r s' :
  create_key sha token label s = (r, s') →
  if existsb (active_label label) (ks_keys s)
  then r = Raise (ValueError PlainValueError ("Key with label '" +:+ label +:+ "' already exists")) ∧ s' = s
  else
    ks_keys s' = ks_keys s ++ [new_record label s] ∧ ks_setup_done s' = ks_setup_done s ∧
    ks_next s' = S (ks_next s) ∧
    ((r = Ok (raw_key_at token (ks_next s), new_info label s) ∧
      ks_disk s' = Some (store_json (ks_setup_done s') (ks_keys s')) ∧ ks_now s' = ks_now s) ∨
     (r = Raise (OSError EIO "") ∧ ks_disk s' = ks_disk s ∧ ks_faults s ≠ [])).
Proof.
  unfold create_key, bind at 1, get.
  destruct (existsb (active_label label) (ks_keys s)); [by intros [= <- <-]|].
  unfold bind at 1, generate_key, bind at 1, get, bind at 1, modify, ret at 1.
  set (s1 := mkKeyStore _ _ _ _ _ _ _). unfold bind at 1, modify.
  set (s2 := set_keys _ s1). unfold bind at 1.
  destruct (save_cases s2) as [(s3 & -> & K & D & Dk & T & N)|(s3 & -> & K & D & Dk & F & N)].
  - unfold bind, modify, ret. intros [= <- <-]. cbn. rewrite K, D, Dk, N, T.
    split_and!; [done..|]. left. done.
  - intros [= <- <-]. rewrite K, D, Dk, N. split_and!; [done..|]. by right.
Qed.

(** [revoke_key] and [rotate_key] on every branch. *)
Lemma revoke_key_cases label s r s' :
  revoke_key label s = (r, s') →
  match deactivate_first label (ks_keys s) with
  | None => r = Raise (KeyError ("Active key with label '" +:+ label +:+ "' not found")) ∧ s' = s
  | Some keys =>
      ks_keys s' = keys ∧ ks_setup_done s' = ks_setup_done s ∧ ks_next s' = ks_next s ∧
      ((r = Ok tt ∧ ks_disk s' = Some (store_json (ks_setup_done s') keys) ∧ ks_now s' = ks_now s) ∨
       (r = Raise (OSError EIO "") ∧ ks_disk s' = ks_disk s ∧ ks_faults s ≠ []))
  end.
Proof.
  unfold revoke_key, bind at 1, get. destruct (deactivate_first label (ks_keys s)) as [keys|];
    [|by intros [= <- <-]].
  unfold bind at 1, modify. set (s1 := set_keys _ s). unfold bind at 1.
  destruct (save_cases s1) as [(s3 & -> & K & D & Dk & T & N)|(s3 & -> & K & D & Dk & F & N)];
    intros [= <- <-]; cbn; rewrite K, D, Dk, N; (split_and!; [done..|]); [left|right]; [|done].
  by rewrite T.
Qed.

Lemma rotate_key_cases label s r s' :
  unique_active (ks_keys s) →
  rotate_key sha token label s = (r, s') →
  match deactivate_first label (ks_keys s) with
  | None => r = Raise (KeyError ("Active key with label '" +:+ label +:+ "' not found")) ∧ s' = s
  | Some keys =>
      ks_keys s' = keys ++ [new_record label s] ∧ ks_setup_done s' = ks_setup_done s ∧
      ks_next s' = S (ks_next s) ∧
      ((r = Ok (raw_key_at token (ks_next s), new_info label s) ∧
        ks_disk s' = Some (store_json (ks_setup_done s') (ks_keys s')) ∧ ks_now s' = ks_now s) ∨
       (r = Raise (OSError EIO "") ∧ ks_disk s' = ks_disk s ∧ ks_faults s ≠ []))
  end.
Proof.
  intros Hu. unfold rotate_key, bind at 1, get.
  destruct (deactivate_first label (ks_keys s)) as [keys|] eqn:Ed; [|by intros [= <- <-]].
  unfold bind at 1, modify. set (s1 := set_keys _ s). unfold bind at 1.
  destruct (create_key sha token label s1) as [r1 s2] eqn:Ec.
  apply create_key_cases in Ec. cbn [set_keys ks_keys s1] in Ec.
  rewrite (deactivated_inactive label (ks_keys s) keys Hu Ed) in Ec.
  destruct Ec as (K & D & N & [(-> & Dk & T)|(-> & Dk & F)]).
  - unfold bind, modify, ret. intros [= <- <-]. cbn. split_and!; [done..|]. by left.
  - intros [= <- <-]. split_and!; [done..|]. by right.
Qed.

(** *** Validation *)

Lemma info_of_new label s :
  representable (ks_now s) → info_of (new_record label s) = Ok (new_info label s).
Proof. intros H. unfold info_of, new_record. cbn [kr_created_at]. by rewrite fromisoformat_isoformat. Qed.

(** No active record has the hash: the key is refused. *)
Lemma validate_None raw s :
  (∀ k, k ∈ ks_keys s → kr_key_hash k = sha raw → kr_is_active k = false) →
  (validate sha raw s).1 = Ok None ∧ ks_keys (validate sha raw s).2 = ks_keys s.
Proof.
  intros H. unfold validate, bind, get.
  rewrite (proj2 (find_first_None _ _)); [done|].
  intros k Hk. destruct (bool_decide (kr_key_hash k = hash_key sha raw)) eqn:E; [|done].
  bool_to_prop. by apply H.
Qed.

Lemma validate_Some raw s k i :
  k ∈ ks_keys s → kr_key_hash k = sha raw → kr_is_active k = true → info_of k = Ok i →
  (∀ k', k' ∈ ks_keys s → kr_key_hash k' = sha raw → kr_is_active k' = true → k' = k) →
  validate sha raw s = (Ok (Some i), s).
Proof.
  intros Hk Hh Ha Hi Hu. unfold validate, bind, get.
  destruct (find_first _ (ks_keys s)) as [k'|] eqn:E.
  - apply find_first_Some in E as [Hk' [E1 E2]%andb_true_iff]. bool_to_prop.
    rewrite (Hu k' Hk' E1 E2). unfold of_res, ret. by rewrite Hi.
  - rewrite find_first_None in E. specialize (E k Hk). rewrite Ha, andb_true_r in E.
    bool_to_prop. done.
Qed.
End key_lemmas.

(** ** The store invariant *)

Section invariant.
Variables (sha : str → str) (token : nat → str).

Abbreviation hash_at n := (sha (raw_key_at token n)).

(** No two keys the generator returns collide. *)
Definition collision_free : Prop := ∀ m n, hash_at m = hash_at n → m = n.

Record store_ok (s : KeyStore) : Prop := {
  ok_unique : unique_active (ks_keys s);
  ok_hashes : NoDup (map kr_key_hash (ks_keys s));
  ok_generated : ∀ k, k ∈ ks_keys s → ∃ n, n < ks_next s ∧ kr_key_hash k = hash_at n;
}.

Lemma store_ok_ext s s' :
  ks_keys s' = ks_keys s → ks_next s' = ks_next s → store_ok s → store_ok s'.
Proof. intros E1 E2 [H1 H2 H3]. split; rewrite E1; rewrite ?E2; done. Qed.

Lemma map_deactivate_hash keys i k :
  keys !! i = Some k → map kr_key_hash (<[i := deactivate k]> keys) = map kr_key_hash keys.
Proof.
  intros Hi. apply list_eq. intros j. rewrite !list_lookup_fmap.
  destruct (decide (i = j)) as [<-|Hne].
  - rewrite list_lookup_insert_eq by by eapply lookup_lt_Some. by rewrite Hi.
  - by rewrite list_lookup_insert_ne.
Qed.

Lemma store_ok_deactivated label s keys s' :
  store_ok s → deactivate_first label (ks_keys s) = Some keys →
  ks_keys s' = keys → ks_next s' = ks_next s → store_ok s'.
Proof.
  intros [H1 H2 H3] Hd K N.
  destruct (deactivate_first_spec _ _ _ Hd) as (i & k & Hi & Hl & Ha & ->). split; rewrite K.
  - by apply unique_active_deactivate.
  - by rewrite map_deactivate_hash.
  - intros k' [j Hj]%list_elem_of_lookup_1. rewrite N.
    apply list_lookup_insert_Some in Hj as [(_ & <- & _)|[_ Hj]].
    + apply (H3 k). by eapply list_elem_of_lookup_2.
    + apply H3. by eapply list_elem_of_lookup_2.
Qed.

Lemma store_ok_created label s keys s' :
  collision_free → store_ok s → unique_active keys →
  map kr_key_hash keys = map kr_key_hash (ks_keys s) →
  existsb (active_label label) keys = false →
  ks_keys s' = keys ++ [new_record sha token label s] → ks_next s' = S (ks_next s) → store_ok s'.
Proof.
  intros Hcf [H1 H2 H3] Hu Hmap He K N. split; rewrite K.
  - by apply unique_active_snoc.
  - rewrite map_app. apply NoDup_app. rewrite Hmap. split_and!; [done| |apply NoDup_singleton].
    intros h Hh Hn. apply list_elem_of_singleton in Hn. subst h.
    apply list_elem_of_fmap in Hh as (k & Hk & Hin). destruct (H3 k Hin) as (n & Hn & Hkn).
    rewrite Hkn in Hk. apply Hcf in Hk. lia.
  - intros k [Hk|Hk]%elem_of_app; rewrite N.
    + assert (Hin : kr_key_hash k ∈ map kr_key_hash (ks_keys s)).
      { rewrite <- Hmap. apply list_elem_of_fmap. by exists k. }
      apply list_elem_of_fmap in Hin as (k' & Hkk & Hin'). destruct (H3 k' Hin') as (n & Hn & Hkn).
      exists n. rewrite Hkk. split; [lia|done].
    + apply list_elem_of_singleton in Hk as ->. exists (ks_next s). split; [lia|done].
Qed.

Lemma create_key_store_ok label s :
  collision_free → store_ok s → store_ok (create_key sha token label s).2.
Proof.
  intros Hcf Hok. destruct (create_key sha token label s) as [r s'] eqn:E. cbn.
  apply create_key_cases in E. destruct (existsb _ _) eqn:Ee; [by destruct E as [_ ->]|].
  destruct E as (K & _ & N & _). eapply store_ok_created; [done|done|apply Hok|done|done|done|done].
Qed.

Lemma setup_store_ok label s :
  collision_free → store_ok s → store_ok (setup sha token label s).2.
Proof.
  intros Hcf Hok. unfold setup, bind, get, modify. destruct (ks_setup_done s); [done|].
  assert (Hok' : store_ok (set_setup_done true s)) by (by eapply store_ok_ext; [..|exact Hok]).
  pose proof (create_key_store_ok label _ Hcf Hok') as H.
  destruct (create_key sha token label (set_setup_done true s)) as [[r|e] s']; [|done].
  by eapply store_ok_ext; [..|exact H].
Qed.

Lemma revoke_key_store_ok label s : store_ok s → store_ok (revoke_key label s).2.
Proof.
  intros Hok. destruct (revoke_key label s) as [r s'] eqn:E. cbn. apply revoke_key_cases in E.
  destruct (deactivate_first label (ks_keys s)) as [keys|] eqn:Ed; [|by destruct E as [_ ->]].
  destruct E as (K & _ & N & _). by eapply store_ok_deactivated.
Qed.

Lemma rotate_key_store_ok label s :
  collision_free → store_ok s → store_ok (rotate_key sha token label s).2.
Proof.
  intros Hcf Hok. destruct (rotate_key sha token label s) as [r s'] eqn:E. cbn.
  apply rotate_key_cases in E; [|apply Hok].
  destruct (deactivate_first label (ks_keys s)) as [keys|] eqn:Ed; [|by destruct E as [_ ->]].
  destruct E as (K & _ & N & _).
  pose proof (deactivated_inactive _ _ _ (ok_unique _ Hok) Ed) as He.
  destruct (deactivate_first_spec _ _ _ Ed) as (i & k & Hi & Hl & Ha & ->).
  eapply store_ok_created; [done|done| | |exact He|done|done].
  - apply unique_active_deactivate; [apply Hok|done].
  - by apply map_deactivate_hash.
Qed.
End invariant.

(** ** Sequences of operations *)

Inductive key_op := KSetup (label : str) | KCreate (label : str) | KRevoke (label : str) | KRotate (label : str).

Definition run_key_op (sha : str → str) (token : nat → str) (o : key_op) (s : KeyStore)
    : res unit * KeyStore :=
  let void {A} (r : res A * KeyStore) : res unit * KeyStore :=
    match r with (Ok _, s') => (Ok tt, s') | (Raise e, s') => (Raise e, s') end in
  match o with
  | KSetup l => void (setup sha token l s)
  | KCreate l => void (create_key sha token l s)
  | KRevoke l => revoke_key l s
  | KRotate l => void (rotate_key sha token l s)
  end.

Lemma run_key_op_ok sha token o s :
  collision_free sha token → store_ok sha token s → store_ok sha token (run_key_op sha token o s).2.
Proof.
  intros Hcf Hok. destruct o as [l|l|l|l]; cbn [run_key_op].
  - pose proof (setup_store_ok sha token l s Hcf Hok). by destruct (setup sha token l s) as [[] ?].
  - pose proof (create_key_store_ok sha token l s Hcf Hok). by destruct (create_key sha token l s) as [[] ?].
  - by apply revoke_key_store_ok.
  - pose proof (rotate_key_store_ok sha token l s Hcf Hok). by destruct (rotate_key sha token l s) as [[] ?].
Qed.

(** A successful operation leaves on disk what is in memory. *)
Lemma run_key_op_saved sha token o s s' :
  unique_active (ks_keys s) →
  run_key_op sha token o s = (Ok tt, s') → load (ks_disk s') = Ok (ks_keys s', ks_setup_done s').
Proof.
  intros Hu. assert (Hcreate : ∀ l s0 r s1, create_key sha token l s0 = (Ok r, s1) →
    load (ks_disk s1) = Ok (ks_keys s1, ks_setup_done s1)).
  { intros l s0 r s1 E%create_key_cases. destruct (existsb _ _); [by destruct E|].
    destruct E as (_ & _ & _ & [(_ & -> & _)|[]]); [apply load_store_json|done]. }
  destruct o as [l|l|l|l]; cbn [run_key_op].
  - unfold setup, bind, get, modify, ret. destruct (ks_setup_done s); [done|].
    destruct (create_key _ _ _ _) as [[r|] s1] eqn:E; [|done]. intros [= <-]. cbn. by eapply Hcreate.
  - destruct (create_key _ _ _ _) as [[r|] s1] eqn:E; [|done]. intros [= <-]. by eapply Hcreate.
  - intros E%revoke_key_cases. destruct (deactivate_first l (ks_keys s)) as [keys|]; [|by destruct E].
    destruct E as (K & _ & _ & [(_ & -> & _)|[]]); [|done]. rewrite load_store_json. by rewrite K.
  - destruct (rotate_key _ _ _ _) as [[r|] s1] eqn:E; [|done]. intros [= <-].
    apply rotate_key_cases in E; [|done].
    destruct (deactivate_first l (ks_keys s)) as [keys|]; [|by destruct E].
    destruct E as (_ & _ & _ & [(_ & -> & _)|[]]); [apply load_store_json|done].
Qed.

(** The store of a fresh installation. *)
Definition fresh_store (faults : list bool) (now : Z) : KeyStore :=
  mkKeyStore [] false None faults 0 now [].

Lemma fresh_store_ok sha token faults now : store_ok sha token (fresh_store faults now).
Proof.
  split; cbn; [|constructor|].
  - intros i j k1 k2 H. by rewrite lookup_nil in H.
  - intros k Hk. by apply not_elem_of_nil in Hk.
Qed.

(** Records with distinct hashes are determined by their hash. *)
Lemma same_hash keys k k' :
  NoDup (map kr_key_hash keys) → k ∈ keys → k' ∈ keys → kr_key_hash k = kr_key_hash k' → k = k'.
Proof.
  intros Hnd [i Hi]%list_elem_of_lookup_1 [j Hj]%list_elem_of_lookup_1 Hh.
  assert (i = j); [|congruence].
  eapply (NoDup_lookup (map kr_key_hash keys)); [done|..];
    rewrite list_lookup_fmap; [by rewrite Hi|rewrite Hj; cbn; by rewrite Hh].
Qed.

Lemma find_first_app {A} (p : A → bool) l k :
  find_first p (l ++ k) = match find_first p l with Some x => Some x | None => find_first p k end.
Proof. induction l as [|x l IH]; [done|]. cbn. by destruct (p x). Qed.

(** A validated key belongs to an active record of the reported label. *)
Lemma validate_inv sha raw s i :
  (validate sha raw s).1 = Ok (Some i) →
  ∃ k, k ∈ ks_keys s ∧ kr_key_hash k = sha raw ∧ kr_is_active k = true ∧
    kr_label k = ki_label i ∧ info_of k = Ok i.
Proof.
  unfold validate, bind, get. destruct (find_first _ (ks_keys s)) as [k|] eqn:E; [|done].
  apply find_first_Some in E as [Hk [Hh Ha]%andb_true_iff]. bool_to_prop.
  unfold of_res, ret. destruct (info_of k) as [i'|] eqn:Ei; [|done]. intros [= ->].
  exists k. split_and!; [done..| |done]. unfold info_of in Ei.
  destruct (fromisoformat _); [|done]. by injection Ei as <-.
Qed.

(** ** Properties *)

(** C20: whatever sequence of setups, creations, revocations and rotations runs
    on a fresh store, with any saves failing, no label ever has two active
    keys, and after an operation that succeeds the file on disk loads back to
    exactly the keys and the setup flag in memory. *)
Theorem key_store_invariant sha token faults now ops o :
  collision_free sha token →
  let s := foldl (λ s o, (run_key_op sha token o s).2) (fresh_store faults now) ops in
  unique_active (ks_keys s) ∧
  (∀ s', run_key_op sha token o s = (Ok tt, s') →
     unique_active (ks_keys s') ∧ load (ks_disk s') = Ok (ks_keys s', ks_setup_done s')).
Proof.
  intros Hcf s. assert (Hok : store_ok sha token s).
  { subst s. pose proof (fresh_store_ok sha token faults now) as Hf. revert Hf.
    generalize (fresh_store faults now). induction ops as [|o' ops IH]; intros s Hs; [done|].
    cbn. apply IH. by apply run_key_op_ok. }
  split; [apply Hok|]. intros s' E. split.
  - pose proof (run_key_op_ok sha token o s Hcf Hok) as H. rewrite E in H. apply H.
  - eapply run_key_op_saved; [apply Hok|done].
Qed.

Definition demo_token (n : nat) : str := pretty.pretty n.
Lemma demo_collision_free : collision_free (λ s, s) demo_token.
Proof. intros m n H. apply app_str_inj in H. by apply pretty.pretty_nat_inj in H. Qed.

Lemma key_store_invariant_witness :
  unique_active (ks_keys (foldl (λ s o, (run_key_op (λ s, s) demo_token o s).2)
    (fresh_store [false; true; false] 0) [KSetup "h:p"; KRotate "h:p"; KCreate "h:q"])).
Proof.
  refine (proj1 (key_store_invariant (λ s, s) demo_token [false; true; false] 0
    [KSetup "h:p"; KRotate "h:p"; KCreate "h:q"] (KRevoke "h:q") _)).
  exact demo_collision_free.
Defined.

(** A created key authenticates: the raw key that [create_key] returns
    validates to the returned info, and every key that validated before still
    does, with the same info. *)
Theorem create_key_validates sha token label s raw info s' :
  collision_free sha token → store_ok sha token s → representable (ks_now s) →
  create_key sha token label s = (Ok (raw, info), s') →
  ki_label info = label ∧ validate sha raw s' = (Ok (Some info), s') ∧
  ∀ old i, (validate sha old s).1 = Ok (Some i) → (validate sha old s').1 = Ok (Some i).
Proof.
  intros Hcf Hok Hnow E. pose proof (create_key_store_ok sha token label s Hcf Hok) as Hok'.
  rewrite E in Hok'. cbn in Hok'. apply create_key_cases in E.
  destruct (existsb _ _); [by destruct E|].
  destruct E as (K & _ & _ & [([= -> ->] & _)|[]]); [|done].
  assert (Hin : new_record sha token label s ∈ ks_keys s') by (rewrite K; set_solver).
  split_and!; [done| |].
  - apply (validate_Some _ _ _ (new_record sha token label s)); [done|done|done|by apply info_of_new|].
    intros k' Hk' Hh _. eapply same_hash; [apply Hok'|done|done|done].
  - intros old i. unfold validate, bind, get. rewrite K, find_first_app.
    destruct (find_first _ (ks_keys s)) as [k|]; [|by intros [=]].
    unfold of_res, ret. by destruct (info_of k).
Qed.

Lemma create_key_validates_witness :
  let s := fresh_store [] 0 in
  let r := create_key (λ s, s) demo_token "h:p" s in
  validate (λ s, s) "cst_0" r.2
  = (Ok (Some (new_info demo_token "h:p" s)), r.2).
Proof.
  refine (proj1 (proj2 (create_key_validates (λ s, s) demo_token "h:p" (fresh_store [] 0) "cst_0"
    (new_info demo_token "h:p" (fresh_store [] 0))
    (create_key (λ s, s) demo_token "h:p" (fresh_store [] 0)).2 _ _ _ _))).
  - exact demo_collision_free.
  - apply fresh_store_ok.
  - split; vm_compute; discriminate || reflexivity.
  - vm_compute. reflexivity.
Defined.

(** A rotation replaces the key: the new raw key validates to the label, it
    is the only key that does, and the verdict on the keys of the other labels
    does not change. *)
Theorem rotate_key_replaces sha token label s raw info s' :
  collision_free sha token → store_ok sha token s → representable (ks_now s) →
  rotate_key sha token label s = (Ok (raw, info), s') →
  ki_label info = label ∧ validate sha raw s' = (Ok (Some info), s') ∧
  (∀ old i, (validate sha old s').1 = Ok (Some i) → ki_label i = label → sha old = sha raw) ∧
  (∀ old i, (validate sha old s).1 = Ok (Some i) → ki_label i ≠ label →
     (validate sha old s').1 = Ok (Some i)).
Proof.
  intros Hcf Hok Hnow E. pose proof (rotate_key_store_ok sha token label s Hcf Hok) as Hok'.
  rewrite E in Hok'. cbn in Hok'. apply rotate_key_cases in E; [|apply Hok].
  destruct (deactivate_first label (ks_keys s)) as [keys|] eqn:Ed; [|by destruct E].
  destruct E as (K & _ & _ & [([= -> ->] & _)|[]]); [|done].
  pose proof (deactivated_inactive _ _ _ (ok_unique _ _ _ Hok) Ed) as Hinact.
  assert (Hin : new_record sha token label s ∈ ks_keys s') by (rewrite K; set_solver).
  split_and!; [done| | |].
  - apply (validate_Some _ _ _ (new_record sha token label s)); [done|done|done|by apply info_of_new|].
    intros k' Hk' Hh _. eapply same_hash; [apply Hok'|done|done|done].
  - intros old i (k & Hk & Hh & Ha & Hl & _)%validate_inv Hil. rewrite K in Hk.
    apply elem_of_app in Hk as [Hk|Hk%list_elem_of_singleton]; [|by subst k].
    rewrite no_active_existsb in Hinact. rewrite (Hinact k) in Ha; [done|done|congruence].
  - intros old i (k & Hk & Hh & Ha & Hl & Hi)%validate_inv Hil.
    destruct (deactivate_first_spec _ _ _ Ed) as (j & kj & Hj & Hlj & _ & ->).
    assert (Hk' : k ∈ ks_keys s').
    { rewrite K. apply elem_of_app. left. apply list_elem_of_lookup_1 in Hk as [n Hn].
      apply (list_elem_of_lookup_2 _ n). rewrite list_lookup_insert_ne; [done|].
      intros ->. congruence. }
    rewrite (validate_Some sha old s' k i); [done..|].
    intros k' Hk2 Hh2 _. eapply same_hash; [apply Hok'|done|done|congruence].
Qed.

Definition demo_store : KeyStore := (create_key (λ s, s) demo_token "h:p" (fresh_store [] 0)).2.

Lemma rotate_key_replaces_witness :
  let r := rotate_key (λ s, s) demo_token "h:p" demo_store in
  validate (λ s, s) "cst_1" r.2 = (Ok (Some (new_info demo_token "h:p" demo_store)), r.2).
Proof.
  refine (proj1 (proj2 (rotate_key_replaces (λ s, s) demo_token "h:p" demo_store "cst_1"
    (new_info demo_token "h:p" demo_store) (rotate_key (λ s, s) demo_token "h:p" demo_store).2 _ _ _ _))).
  - exact demo_collision_free.
  - apply create_key_store_ok; [exact demo_collision_free|apply fresh_store_ok].
  - split; vm_compute; discriminate || reflexivity.
  - vm_compute. reflexivity.
Defined.

(** A save that fails during setup or rotation locks the operator out of the
    running server: after a failed setup no key exists and a second setup is
    refused; after a failed rotation the old key is dead in memory and the new
    one was never handed out. *)
Theorem failed_save_locks_out :
  let s1 := (setup (λ s, s) demo_token "h:p" (fresh_store [true] 0)).2 in
  (setup (λ s, s) demo_token "h:p" s1).1 = Raise (ValueError PlainValueError "Setup already completed") ∧
  ks_disk s1 = None ∧
  let s2 := (setup (λ s, s) demo_token "h:p" (fresh_store [false; true] 0)).2 in
  let r := rotate_key (λ s, s) demo_token "h:p" s2 in
  (validate (λ s, s) "cst_0" s2).1 ≠ Ok None ∧
  r.1 = Raise (OSError EIO "") ∧ (validate (λ s, s) "cst_0" r.2).1 = Ok None.
Proof. cbv zeta. split_and!; vm_compute; reflexivity || discriminate. Qed.
