(* ===== verification/Jwt.v ===== *)
(** * Tokens and key rotation

    [auth/jwt_tokens.py] and [auth/jwt_hot_reload.py].  The [pyjwt] library is
    the interface [PyJwt], with its documented behaviour as the laws
    [PyJwtLaws]; an instance at the end of the file shows that the laws can be
    met.  Times given to the library are seconds since the epoch; monotonic
    times are microseconds. *)

From Stdlib Require Import Ascii String.
From S2P Require Import Prelude PyStr PyCodec Json DateTime Effects Limits.
Local Open Scope string_scope.
Local Open Scope list_scope.

(** ** The [pyjwt] interface *)

Inductive decode_result :=
  | Decoded (payload : dict)
  | InvalidSignatureError
  | ExpiredSignatureError
  | ImmatureSignatureError
  | MissingRequiredClaimError (claim : str)
  | InvalidTokenError (msg : str).

Definition REQUIRED_CLAIMS : list str := ["exp"; "nbf"; "iat"; "jti"].

Class PyJwt := {
  (** [jwt.encode(payload, key, algorithm="HS256")]. *)
  jwt_encode : dict → bytes → str;
  (** [jwt.decode(token, key, algorithms=["HS256"], options={"require": ...})]
      at a time. *)
  jwt_decode : str → bytes → Z → decode_result;
  (** [jwt.decode(token, options={"verify_signature": False})]. *)
  jwt_unverified : str → option dict;
}.

(** The time checks on a payload whose signature is good. *)
Definition claim_int (k : str) (p : dict) : option Z :=
  match dict_get k p with Some (JInt z) => Some z | _ => None end.

Definition valid_payload (p : dict) : bool :=
  json_wf (JDict p) &&
  match claim_int "exp" p, claim_int "nbf" p, claim_int "iat" p, dict_get "jti" p with
  | Some _, Some _, Some _, Some (JStr _) => true
  | _, _, _, _ => false
  end.

Definition timed_result (p : dict) (now : Z) : decode_result :=
  match claim_int "exp" p, claim_int "nbf" p, claim_int "iat" p with
  | Some exp, Some nbf, Some iat =>
      if (now <? iat)%Z then ImmatureSignatureError
      else if (now <? nbf)%Z then ImmatureSignatureError
      else if (exp <=? now)%Z then ExpiredSignatureError
      else Decoded p
  | _, _, _ => InvalidTokenError ""
  end.

(** A token verifies exactly under the key it was signed with, and then its
    times decide.  The second law idealises HMAC: a signature made with one key
    is never the signature of another key. *)
Class PyJwtLaws `{PyJwt} := {
  decode_encode p k now :
    valid_payload p = true → jwt_decode (jwt_encode p k) k now = timed_result p now;
  decode_other_key p k k' now :
    valid_payload p = true → k ≠ k' → jwt_decode (jwt_encode p k) k' now = InvalidSignatureError;
  unverified_encode p k :
    valid_payload p = true → jwt_unverified (jwt_encode p k) = Some p;
}.

(** ** [auth/jwt_tokens.py] *)

Section tokens.
Context `{PyJwt}.

(** [sign(claims, key=key)]; [fresh_jti] is the result of [uuid.uuid4()]. *)
Definition sign (fresh_jti : str) (claims : dict) (key : bytes) : str :=
  let payload :=
    match dict_get "jti" claims with
    | Some j => if py_truthy j then claims else dict_set "jti" (JStr fresh_jti) claims
    | None => dict_set "jti" (JStr fresh_jti) claims
    end in
  jwt_encode payload key.

(** The [except] clauses of [verify]. *)
Definition token_error_of (r : decode_result) : res dict :=
  match r with
  | Decoded p => Ok p
  | InvalidSignatureError => Raise (TokenError TokenInvalidSignature)
  | ExpiredSignatureError => Raise (TokenError TokenExpired)
  | ImmatureSignatureError => Raise (TokenError TokenNotYetValid)
  | MissingRequiredClaimError c => Raise (TokenError (TokenMissingClaim c))
  | InvalidTokenError _ => Raise (TokenError TokenDecodeError)
  end.

(** [verify(token, primary=..., secondary=...)] with the revocation hook. *)
Definition verify (revocation_check : str → res unit) (now : Z) (token : str)
    (primary : bytes) (secondary : option bytes) : res dict :=
  let decoded :=
    match jwt_decode token primary now with
    | InvalidSignatureError =>
        match secondary with
        | None => Raise (TokenError TokenInvalidSignature)
        | Some k => token_error_of (jwt_decode token k now)
        end
    | r => token_error_of r
    end in
  match decoded with
  | Raise e => Raise e
  | Ok d =>
      match revocation_check (get_or_empty "jti" d) with
      | Raise e => Raise e
      | Ok _ => Ok d
      end
  end.

(** [_noop_revocation_check]. *)
Definition noop_revocation_check (_ : str) : res unit := Ok tt.

(** [_extract_jti] of [downloads.py]. *)
Definition extract_jti (token : str) : str :=
  match jwt_unverified token with Some d => get_or_empty "jti" d | None => "" end.
End tokens.

(** ** [auth/jwt_hot_reload.py] *)

Record JWTKeySlots := {
  primary : bytes;
  secondary : option bytes;
  last_rotation_ts : option Z;
  overlap_ttl_seconds : Z;
}.

Definition MIN_HS256_KEY_BYTES : Z := 32.

(** [_resolve_secondary] at a monotonic time: the active secondary, and the
    slots with an expired one dropped. *)
Definition resolve_secondary (monotonic : Z) (slots : JWTKeySlots) : option bytes * JWTKeySlots :=
  match last_rotation_ts slots with
  | None => (secondary slots, slots)
  | Some last =>
      if (overlap_ttl_seconds slots * 1000000 <=? monotonic - last)%Z
      then (None, {| primary := primary slots; secondary := None;
                     last_rotation_ts := last_rotation_ts slots;
                     overlap_ttl_seconds := overlap_ttl_seconds slots |})
      else (secondary slots, slots)
  end.

(** [_is_single_worker]: the three variables, each absent, an integer or not
    one ([None]). *)
Fixpoint is_single_worker (vars : list (option (option Z))) : bool :=
  match vars with
  | [] => true
  | Some (Some n) :: _ => (n =? 1)%Z
  | Some None :: rest | None :: rest => is_single_worker rest
  end.

(** [_validate_overlap_ttl]. *)
Definition validate_overlap_ttl (overlap : Z) (limits : LimitsConfig) : list event :=
  let min_required := Z.max (lc_download_claim_ttl limits) (lc_upload_token_ttl limits) in
  if (overlap <? min_required)%Z then [Log WARNING "config_validation_warning"] else [].

(** [_decode_key_material]. *)
Definition decode_key_material (raw : bytes) : option bytes :=
  let stripped := strip raw in
  if decide (stripped = "") then None
  else match b64decode stripped with
       | None => None
       | Some decoded => if (blen decoded <? MIN_HS256_KEY_BYTES)%Z then None else Some decoded
       end.

(** The outcome of reading the key file. *)
Inductive FileRead := ReadOk (raw : bytes) | ReadMissing | ReadPermission | ReadError.

(** [_handle_rotation]: [file_path] is [CASSETTA_JWT_KEY_FILE], [read] the
    outcome of reading it. *)
Definition handle_rotation (config_overlap : Z) (file_path : str) (read : FileRead)
    (monotonic : Z) (slots : JWTKeySlots) : JWTKeySlots * list event :=
  let failed := (slots, [Log ERROR "jwt.key_rotation_failed"]) in
  if decide (strip file_path = "") then failed
  else match read with
  | ReadMissing | ReadPermission | ReadError => failed
  | ReadOk raw =>
      match decode_key_material raw with
      | None => failed
      | Some new_key =>
          if decide (new_key = primary slots) then (slots, [])
          else ({| primary := new_key; secondary := Some (primary slots);
                   last_rotation_ts := Some monotonic; overlap_ttl_seconds := config_overlap |},
                [Log INFO "jwt.key_rotated"])
      end
  end.

(** [init_jwt_key_slots]. *)
Definition init_jwt_key_slots (config_primary : bytes) (config_secondary : option bytes)
    (config_overlap : Z) : JWTKeySlots :=
  {| primary := config_primary; secondary := config_secondary;
     last_rotation_ts := None; overlap_ttl_seconds := config_overlap |}.

(** [init_jwt_hot_reload]: whether the SIGHUP handler is installed, and the
    events. *)
Definition init_jwt_hot_reload (overlap : Z) (limits : LimitsConfig)
    (vars : list (option (option Z))) (handler_available : bool) : bool * list event :=
  let warnings := validate_overlap_ttl overlap limits in
  if is_single_worker vars && handler_available then (true, warnings)
  else (false, warnings ++ [Log INFO "jwt.hot_reload_disabled"]).

(** Verification by the running server: the slots' primary and their active
    secondary. *)
Definition verify_with_slots `{PyJwt} (revocation_check : str → res unit) (now monotonic : Z)
    (slots : JWTKeySlots) (token : str) : res dict * JWTKeySlots :=
  let '(secondary, slots') := resolve_secondary monotonic slots in
  (verify revocation_check now token (primary slots) secondary, slots').

(** ** Lemmas *)

(** The payload [sign] encodes. *)
Definition signed_payload (fresh_jti : str) (claims : dict) : dict :=
  match dict_get "jti" claims with
  | Some j => if py_truthy j then claims else dict_set "jti" (JStr fresh_jti) claims
  | None => dict_set "jti" (JStr fresh_jti) claims
  end.

(** The claims the code signs: integers for the times, Unicode text, no
    [jti]. *)
Definition unsigned_ok (claims : dict) : bool :=
  json_wf (JDict claims) &&
  match claim_int "exp" claims, claim_int "nbf" claims, claim_int "iat" claims, dict_get "jti" claims with
  | Some _, Some _, Some _, None => true
  | _, _, _, _ => false
  end.

Lemma signed_payload_valid jti claims :
  unsigned_ok claims = true → utf8_valid jti = true →
  signed_payload jti claims = dict_set "jti" (JStr jti) claims ∧
  valid_payload (signed_payload jti claims) = true.
Proof.
  unfold unsigned_ok, signed_payload, valid_payload. intros [Hw Hc]%andb_true_iff Hj.
  unfold claim_int in *.
  destruct (dict_get "exp" claims) as [[]|] eqn:Ee; try done.
  destruct (dict_get "nbf" claims) as [[]|] eqn:En; try done.
  destruct (dict_get "iat" claims) as [[]|] eqn:Ei; try done.
  destruct (dict_get "jti" claims) as [j|]; [done|].
  split; [done|]. rewrite !dict_get_set.
  rewrite !(decide_False (P := _ = "jti")), decide_True by done.
  rewrite Ee, En, Ei. apply andb_true_iff. split; [|done]. by apply dict_set_wf.
Qed.

(** ** A concrete instance of the interface

    A token that carries its payload and its key; it shows that the laws are
    consistent and serves as the library of the witnesses. *)

Definition key_json (k : bytes) : json :=
  JList (map (λ a, JInt (Z.of_N (N_of_ascii a))) (list_ascii_of_string k)).

Definition toy_encode (p : dict) (k : bytes) : str := json_dumps (JList [JDict p; key_json k]).
Definition toy_decode (token : str) (k : bytes) (now : Z) : decode_result :=
  match json_loads token with
  | Some (JList [JDict p; JList l]) =>
      if bool_decide (map (λ j, match j with JInt z => z | _ => 0%Z end) l
           = map (λ a, Z.of_N (N_of_ascii a)) (list_ascii_of_string k))
      then timed_result p now else InvalidSignatureError
  | _ => InvalidTokenError ""
  end.
Definition toy_unverified (token : str) : option dict :=
  match json_loads token with Some (JList [JDict p; _]) => Some p | _ => None end.

Definition ToyJwt : PyJwt :=
  {| jwt_encode := toy_encode; jwt_decode := toy_decode; jwt_unverified := toy_unverified |}.

Lemma toy_wf p k : valid_payload p = true → json_wf (JList [JDict p; key_json k]) = true.
Proof.
  unfold valid_payload. intros [Hw _]%andb_true_iff. cbn [json_wf forallb].
  apply andb_true_iff. split; [exact Hw|]. apply andb_true_iff. split; [|done].
  apply forallb_forall. intros j (a & <- & _)%in_map_iff. done.
Qed.

Lemma toy_key_values k :
  map (λ j, match j with JInt z => z | _ => 0%Z end)
    (map (λ a, JInt (Z.of_N (N_of_ascii a))) (list_ascii_of_string k))
  = map (λ a, Z.of_N (N_of_ascii a)) (list_ascii_of_string k).
Proof. by rewrite map_map. Qed.

Lemma toy_key_inj k k' :
  map (λ a, Z.of_N (N_of_ascii a)) (list_ascii_of_string k)
  = map (λ a, Z.of_N (N_of_ascii a)) (list_ascii_of_string k') → k = k'.
Proof.
  intros H. apply list_ascii_inj. revert H. generalize (list_ascii_of_string k').
  induction (list_ascii_of_string k) as [|a l IH]; intros [|b l']; cbn; try done.
  intros [= Ha Hl]. f_equal; [|by apply IH].
  apply N2Z.inj in Ha. rewrite <- (ascii_N_embedding a), <- (ascii_N_embedding b). by rewrite Ha.
Qed.

#[export] Instance ToyJwt_laws : @PyJwtLaws ToyJwt.
Proof.
  split; cbn [ToyJwt jwt_encode jwt_decode jwt_unverified];
    unfold toy_encode, toy_decode, toy_unverified, key_json.
  - intros p k now Hp. rewrite json_loads_dumps by by apply toy_wf. cbv iota beta.
    rewrite toy_key_values. by rewrite bool_decide_true.
  - intros p k k' now Hp Hk. rewrite json_loads_dumps by by apply toy_wf. cbv iota beta.
    rewrite toy_key_values. rewrite bool_decide_false; [done|]. by intros ?%toy_key_inj.
  - intros p k Hp. by rewrite json_loads_dumps by by apply toy_wf.
Qed.

(** ** Properties *)

Section properties.
Context `{PyJwtLaws}.

Lemma timed_result_verdict p now : timed_result p now ≠ InvalidSignatureError.
Proof. unfold timed_result. by repeat case_match. Qed.

Lemma verify_signed rc jti claims k now p s :
  unsigned_ok claims = true → utf8_valid jti = true →
  verify rc now (sign jti claims k) p s =
    if decide (k = p ∨ s = Some k) then
      match token_error_of (timed_result (dict_set "jti" (JStr jti) claims) now) with
      | Raise e => Raise e
      | Ok d => match rc (get_or_empty "jti" d) with Raise e => Raise e | Ok _ => Ok d end
      end
    else Raise (TokenError TokenInvalidSignature).
Proof.
  intros Hc Hj. destruct (signed_payload_valid jti claims Hc Hj) as [E Hv].
  unfold verify, sign. fold (signed_payload jti claims). rewrite <- E.
  destruct (decide (k = p)) as [->|Hkp].
  - rewrite decode_encode, decide_True by (done || by left).
    pose proof (timed_result_verdict (signed_payload jti claims) now) as Ht.
    by destruct (timed_result (signed_payload jti claims) now).
  - rewrite decode_other_key by done. destruct s as [s|].
    + destruct (decide (k = s)) as [->|Hks].
      * rewrite decode_encode, decide_True by (done || by right). done.
      * rewrite decode_other_key, decide_False by (done || naive_solver). done.
    + rewrite decide_False by naive_solver. done.
Qed.

(** What a rotation to a new key leaves of the slots. *)
Lemma resolve_after_rotation overlap path raw new m0 m slots :
  strip path ≠ "" → decode_key_material raw = Some new → new ≠ primary slots →
  let slots' := (handle_rotation overlap path (ReadOk raw) m0 slots).1 in
  primary slots' = new ∧
  (resolve_secondary m slots').1 =
    if decide (m - m0 < overlap * 1000000)%Z then Some (primary slots) else None.
Proof.
  intros Hp Hk Hne. unfold handle_rotation, resolve_secondary. rewrite decide_False by done.
  rewrite Hk, decide_False by done. cbn. split; [done|].
  destruct (Z.leb_spec (overlap * 1000000) (m - m0)).
  - by rewrite decide_False by lia.
  - by rewrite decide_True by lia.
Qed.

Lemma verify_with_slots_eq rc now m slots token :
  (verify_with_slots rc now m slots token).1
  = verify rc now token (primary slots) (resolve_secondary m slots).1.
Proof.
  unfold verify_with_slots. destruct (resolve_secondary m slots) as [sec ?] eqn:E. done.
Qed.


(** Rotation keeps old tokens alive for exactly the overlap: after a SIGHUP
    rotation from [old] to a different valid key at the monotonic time [m0], a
    token signed under [old] has the verdict of its times until [overlap]
    seconds have passed and an invalid signature from then on; a token signed
    under the new key has the verdict of its times throughout; a token signed
    under any other key, an earlier secondary included, is refused. *)
Theorem rotation_overlap jti claims k overlap path raw new m0 m now slots :
  unsigned_ok claims = true → utf8_valid jti = true →
  strip path ≠ "" → decode_key_material raw = Some new → new ≠ primary slots →
  let slots' := (handle_rotation overlap path (ReadOk raw) m0 slots).1 in
  (verify_with_slots noop_revocation_check now m slots' (sign jti claims k)).1 =
    if decide (k = new ∨ (k = primary slots ∧ m - m0 < overlap * 1000000)%Z)
    then verify noop_revocation_check now (sign jti claims k) k None
    else Raise (TokenError TokenInvalidSignature).
Proof.
  intros Hc Hj Hp Hk Hne. cbv zeta. rewrite verify_with_slots_eq.
  destruct (resolve_after_rotation overlap path raw new m0 m slots Hp Hk Hne) as [-> ->].
  rewrite !verify_signed by done. rewrite (decide_True (P := k = k ∨ _)) by by left.
  repeat case_decide; try done; exfalso; naive_solver lia.
Qed.

(** The start-up check of the overlap is the right one: when
    [_validate_overlap_ttl] gives no warning, a token issued under the current
    primary before a rotation, with one of the two configured lifetimes, is
    accepted with its claims as long as it is alive: the overlap never cuts it
    short.  [rot] and [now] are the wall-clock seconds of the rotation and the
    verification, [m0] and [m] the monotonic readings. *)
Theorem silent_overlap_is_safe jti claims overlap limits path raw new slots t ttl rot m0 now m :
  unsigned_ok claims = true → utf8_valid jti = true →
  claim_int "iat" claims = Some t → claim_int "nbf" claims = Some t →
  claim_int "exp" claims = Some (t + ttl)%Z →
  strip path ≠ "" → decode_key_material raw = Some new → new ≠ primary slots →
  validate_overlap_ttl overlap limits = [] →
  ttl = lc_download_claim_ttl limits ∨ ttl = lc_upload_token_ttl limits →
  (t ≤ rot)%Z → (t ≤ now < t + ttl)%Z → (m - m0 < (now + 1 - rot) * 1000000)%Z →
  let slots' := (handle_rotation overlap path (ReadOk raw) m0 slots).1 in
  (verify_with_slots noop_revocation_check now m slots' (sign jti claims (primary slots))).1
  = Ok (dict_set "jti" (JStr jti) claims).
Proof.
  intros Hc Hj Hi Hn He Hp Hk Hne Hv Httl Hrot Hnow Hm. cbv zeta.
  assert (ttl ≤ overlap)%Z as Hle.
  { unfold validate_overlap_ttl in Hv. destruct (Z.ltb_spec overlap
      (Z.max (lc_download_claim_ttl limits) (lc_upload_token_ttl limits))); [done|].
    destruct Httl as [->| ->]; lia. }
  rewrite verify_with_slots_eq.
  destruct (resolve_after_rotation overlap path raw new m0 m slots Hp Hk Hne) as [-> ->].
  rewrite (decide_True (P := (m - m0 < _)%Z)) by lia.
  rewrite verify_signed by done. rewrite decide_True by by right.
  unfold timed_result, claim_int in *. rewrite !dict_get_set, !decide_False by done.
  rewrite Hi, Hn, He. destruct (Z.ltb_spec now t); [lia|].
  destruct (Z.leb_spec (t + ttl) now); [lia|]. done.
Qed.

(** A rotation that cannot be carried out changes nothing and says so: with
    no path, an unreadable file, or contents that are not base64 of at least 32
    bytes, the slots are untouched and exactly one error is logged; reloading
    the key in use is silent and untouched as well, so the overlap of an
    earlier rotation is neither restarted nor lost; in every other case the new
    key is the primary, the old one the secondary, and the overlap restarts. *)
Theorem rotation_outcomes overlap path read m slots :
  let '(slots', events) := handle_rotation overlap path read m slots in
  match read with
  | ReadOk raw =>
      match decode_key_material raw with
      | Some new =>
          if decide (strip path = "")
          then slots' = slots ∧ events = [Log ERROR "jwt.key_rotation_failed"]
          else if decide (new = primary slots) then slots' = slots ∧ events = []
          else primary slots' = new ∧ (32 ≤ blen new)%Z ∧ b64decode (strip raw) = Some new ∧
               secondary slots' = Some (primary slots) ∧ last_rotation_ts slots' = Some m ∧
               events = [Log INFO "jwt.key_rotated"]
      | None => slots' = slots ∧ events = [Log ERROR "jwt.key_rotation_failed"]
      end
  | _ => slots' = slots ∧ events = [Log ERROR "jwt.key_rotation_failed"]
  end.
Proof.
  unfold handle_rotation. case_decide as Hp.
  { destruct read; try done. by destruct (decode_key_material raw). }
  destruct read as [raw| | |]; try done.
  destruct (decode_key_material raw) as [new|] eqn:E; [|done].
  case_decide; [done|]. split; [done|]. revert E. unfold decode_key_material.
  case_decide; [done|]. destruct (b64decode (strip raw)) as [d|]; [|done].
  destruct (Z.ltb_spec (blen d) MIN_HS256_KEY_BYTES) as [|Hl]; [done|].
  intros [= ->]. unfold MIN_HS256_KEY_BYTES in Hl. by split_and!.
Qed.
End properties.

(** ** Witnesses *)

Definition demo_claims (t ttl : Z) : dict :=
  [("sub", JStr "spoke"); ("iat", JInt t); ("nbf", JInt t); ("exp", JInt (t + ttl))].
Definition demo_slots : JWTKeySlots := init_jwt_key_slots "old-key" None 60.
Definition demo_key_file : bytes := "QUJDREVGR0hJSktMTU5PUFFSU1RVVldYWVowMTIzNDU=".
Definition demo_new_key : bytes := "ABCDEFGHIJKLMNOPQRSTUVWXYZ012345".

Lemma demo_key_material : decode_key_material demo_key_file = Some demo_new_key.
Proof. vm_compute. done. Qed.


Lemma rotation_overlap_witness :
  (@verify_with_slots ToyJwt noop_revocation_check 130 70000000
     (handle_rotation 60 "/key" (ReadOk demo_key_file) 10000000 demo_slots).1
     (@sign ToyJwt "j" (demo_claims 100 60) "old-key")).1
  = Raise (TokenError TokenInvalidSignature).
Proof.
  refine (eq_trans (@rotation_overlap ToyJwt ToyJwt_laws "j" (demo_claims 100 60) "old-key" 60 "/key"
    demo_key_file demo_new_key 10000000 70000000 130 demo_slots _ _ _ demo_key_material _) _);
    try reflexivity; by intros [=].
Defined.

Lemma silent_overlap_is_safe_witness :
  (@verify_with_slots ToyJwt noop_revocation_check 399 309000000
     (handle_rotation 300 "/key" (ReadOk demo_key_file) 10000000 demo_slots).1
     (@sign ToyJwt "j" (demo_claims 100 300) "old-key")).1
  = Ok (dict_set "jti" (JStr "j") (demo_claims 100 300)).
Proof.
  refine (@silent_overlap_is_safe ToyJwt ToyJwt_laws "j" (demo_claims 100 300) 300
    default_limits_config "/key" demo_key_file demo_new_key demo_slots 100 300 100 10000000 399 309000000
    _ _ _ _ _ _ demo_key_material _ _ _ _ _ _); try reflexivity; try lia; try by intros [=].
  all: by left.
Defined.
