(* ===== verification/FsModel.v ===== *)
(** * The file system

    A POSIX file tree without symbolic links, as [pathlib], [os] and [shutil]
    present it to [backends/filesystem/]: absolute paths are lists of
    components, a tree maps the existing paths to files and directories, and
    the modification time of a directory is the time an entry was last created
    in it or removed from it.  Each operation is the system call sequence of
    the library function it models, errors included. *)

From Stdlib Require Import Ascii String.
From S2P Require Import Prelude PyStr Effects.
Local Open Scope string_scope.
Local Open Scope list_scope.
Local Open Scope effect_scope.

Abbreviation path := (list string).

Inductive node := NFile (data : bytes) | NDir.
#[export] Instance node_eq_dec : EqDecision node.
Proof. solve_decision. Defined.

(** Times are microseconds since the epoch. *)
Record Fs := mkFs {
  nodes : gmap path node;
  mtimes : gmap path Z;
  fs_clock : Z;
}.

(** ** [pathlib] *)

(** The components of a path string: [pathlib] drops empty components and
    ["."], and keeps [".."]. *)
Definition parse_path (s : str) : path :=
  filter (λ c, c ≠ "" ∧ c ≠ ".") (split "/" s).

(** [base / s]: an absolute [s] replaces the base. *)
Definition joinpath (base : path) (s : str) : path :=
  if startswith "/" s then parse_path s else base ++ parse_path s.

(** [p.parent]. *)
Definition parent (p : path) : path := List.removelast p.

(** [p.as_posix()] of a relative path. *)
Definition as_posix (p : path) : str := match p with [] => "." | _ => join "/" p end.

(** Path resolution by the kernel: [..] leaves an existing directory. *)
Fixpoint namei (fs : Fs) (acc : path) (comps : path) : option path :=
  match comps with
  | [] => Some acc
  | c :: rest =>
      if decide (c = "..") then
        match nodes fs !! acc with
        | Some NDir => namei fs (parent acc) rest
        | _ => None
        end
      else namei fs (acc ++ [c]) rest
  end.

Definition node_at (fs : Fs) (p : path) : option node :=
  q ← namei fs [] p; nodes fs !! q.

Definition is_dir (fs : Fs) (p : path) : bool :=
  match node_at fs p with Some NDir => true | _ => false end.
Definition is_file (fs : Fs) (p : path) : bool :=
  match node_at fs p with Some (NFile _) => true | _ => false end.

(** ** Tree updates *)

Definition touch (p : path) (fs : Fs) : Fs :=
  {| nodes := nodes fs; mtimes := <[p := fs_clock fs]> (mtimes fs); fs_clock := fs_clock fs |}.

Definition set_node (p : path) (n : node) (fs : Fs) : Fs :=
  {| nodes := <[p := n]> (nodes fs); mtimes := mtimes fs; fs_clock := fs_clock fs |}.

(** A new entry: the directory it appears in and the entry itself are touched. *)
Definition create_node (p : path) (n : node) (fs : Fs) : Fs :=
  touch (parent p) (touch p (set_node p n fs)).

Definition remove_tree (p : path) (fs : Fs) : Fs :=
  touch (parent p)
    {| nodes := filter (λ kv, ¬ p `prefix_of` kv.1) (nodes fs);
       mtimes := mtimes fs; fs_clock := fs_clock fs |}.

Definition mtime (fs : Fs) (p : path) : Z := default 0%Z (mtimes fs !! p).

(** The names in a directory, and those of its files and subdirectories. *)
Definition child_name (p : path) (q : path) : option string :=
  if decide (q ≠ [] ∧ parent q = p) then last q else None.

Definition child_names (fs : Fs) (p : path) : list string :=
  omap (λ kv, child_name p kv.1) (map_to_list (nodes fs)).
Definition child_dirs (fs : Fs) (p : path) : list string :=
  filter (λ n, nodes fs !! (p ++ [n]) = Some NDir) (child_names fs p).
Definition child_files (fs : Fs) (p : path) : list string :=
  filter (λ n, nodes fs !! (p ++ [n]) ≠ Some NDir) (child_names fs p).

(** ** System calls *)

Definition os_error {A} (e : errno) : M Fs A := raise (OSError e "").

Definition lookup_path (p : path) : M Fs path :=
  fs <- get;; match namei fs [] p with Some q => ret q | None => os_error ENOENT end.

(** Creating an entry needs its parent directory. *)
Definition create (p : path) (n : node) : M Fs unit :=
  fs <- get;;
  match nodes fs !! parent p with
  | Some NDir => modify (create_node p n)
  | Some (NFile _) => os_error ENOTDIR
  | None => os_error ENOENT
  end.

(** [p.mkdir(exist_ok=False)]. *)
Definition mkdir (p : path) : M Fs unit :=
  q <- lookup_path p;;
  fs <- get;;
  match nodes fs !! q with
  | Some _ => os_error EEXIST
  | None => create q NDir
  end.

(** [p.mkdir(parents=False, exist_ok=True)]. *)
Definition mkdir_exist_ok (p : path) : M Fs unit :=
  catch (mkdir p) (λ e,
    if is_OSError e && negb (is_FileNotFoundError e)
    then Some (fs <- get;; if is_dir fs p then ret tt else raise e)
    else None).

(** [p.mkdir(parents=True, exist_ok=True)]: on a missing parent, create the
    parents and retry; the number of parents of [p] bounds the recursion. *)
Fixpoint mkdir_parents_go (fuel : nat) (p : path) : M Fs unit :=
  catch (mkdir p) (λ e,
    if is_FileNotFoundError e then
      match fuel with
      | 0 => None
      | S fuel' => Some (mkdir_parents_go fuel' (parent p);;; mkdir_exist_ok p)
      end
    else if is_OSError e
    then Some (fs <- get;; if is_dir fs p then ret tt else raise e)
    else None).
Definition mkdir_parents (p : path) : M Fs unit := mkdir_parents_go (length p) p.

(** [p.open("wb")], writing [data] and closing. *)
Definition write_bytes (p : path) (data : bytes) : M Fs unit :=
  q <- lookup_path p;;
  fs <- get;;
  match nodes fs !! q with
  | Some NDir => os_error EISDIR
  | Some (NFile _) => modify (set_node q (NFile data))
  | None => create q (NFile data)
  end.

(** [dst.write(data)] on the file that [p] was opened as. *)
Definition append_bytes (p : path) (data : bytes) : M Fs unit :=
  q <- lookup_path p;;
  fs <- get;;
  match nodes fs !! q with
  | Some (NFile old) => modify (set_node q (NFile (old +:+ data)))
  | Some NDir => os_error EISDIR
  | None => os_error ENOENT
  end.

(** [p.read_bytes()]. *)
Definition read_bytes (p : path) : M Fs bytes :=
  q <- lookup_path p;;
  fs <- get;;
  match nodes fs !! q with
  | Some (NFile data) => ret data
  | Some NDir => os_error EISDIR
  | None => os_error ENOENT
  end.

(** [p.unlink()]. *)
Definition unlink (p : path) : M Fs unit :=
  q <- lookup_path p;;
  fs <- get;;
  match nodes fs !! q with
  | Some (NFile _) => modify (remove_tree q)
  | Some NDir => os_error EISDIR
  | None => os_error ENOENT
  end.

(** [shutil.rmtree(p)]. *)
Definition rmtree (p : path) : M Fs unit :=
  q <- lookup_path p;;
  fs <- get;;
  match nodes fs !! q with
  | Some NDir => modify (remove_tree q)
  | Some (NFile _) => os_error ENOTDIR
  | None => os_error ENOENT
  end.

(** [os.rename(src, dst)] of a file. *)
Definition rename (src dst : path) : M Fs unit :=
  q <- lookup_path src;;
  r <- lookup_path dst;;
  fs <- get;;
  match nodes fs !! q with
  | Some (NFile data) =>
      match nodes fs !! r with
      | Some NDir => os_error EISDIR
      | _ => modify (λ fs, touch (parent r) (set_node r (NFile data) (remove_tree q fs)))
      end
  | Some NDir => os_error EIO
  | None => os_error ENOENT
  end.

(** ** Well-formed trees *)

Definition fs_wf (fs : Fs) : Prop :=
  nodes fs !! [] = Some NDir ∧
  ∀ p c n, nodes fs !! (p ++ [c]) = Some n → nodes fs !! p = Some NDir.

(** [q] is at or below [p]. *)
Abbreviation under p q := (p `prefix_of` q).

(** No component is [..]. *)
Definition lexical (p : path) : Prop := ".." ∉ p.

Section lemmas.
Implicit Types (fs : Fs) (p q r : path).

Lemma parent_snoc p c : parent (p ++ [c]) = p.
Proof. apply List.removelast_last. Qed.

Lemma parent_cases p : p = [] ∨ ∃ q c, p = q ++ [c] ∧ parent p = q.
Proof.
  destruct p as [|x p _] using rev_ind; [by left|]. right.
  exists p, x. by rewrite parent_snoc.
Qed.

Lemma prefix_snoc_inv p q c : under p (q ++ [c]) → p = q ++ [c] ∨ under p q.
Proof.
  intros [k Hk]. destruct k as [|x k _] using rev_ind.
  - left. by rewrite app_nil_r in Hk.
  - right. rewrite app_assoc in Hk. apply app_inj_tail in Hk as [-> _]. by exists k.
Qed.

Lemma not_under_snoc p c : ¬ under (p ++ [c]) p.
Proof. intros [k Hk]. apply (f_equal length) in Hk. rewrite !length_app in Hk. simpl in Hk. lia. Qed.

Lemma under_parent p q : under p (parent q) → under p q.
Proof.
  destruct (parent_cases q) as [->|(r & c & -> & Hr)]; [done|]. rewrite Hr.
  intros [k ->]. exists (k ++ [c]). by rewrite app_assoc.
Qed.

Lemma fs_wf_parent fs p n :
  fs_wf fs → nodes fs !! p = Some n → nodes fs !! parent p = Some NDir.
Proof.
  intros [Hr Hp] H. destruct (parent_cases p) as [->|(q & c & -> & ->)]; [done|].
  by eapply Hp.
Qed.

(** Every strict prefix of an existing path is a directory. *)
Lemma fs_wf_prefix fs p k n :
  fs_wf fs → nodes fs !! (p ++ k) = Some n → k ≠ [] → nodes fs !! p = Some NDir.
Proof.
  intros Hwf. revert n. induction k as [|c k IH] using rev_ind; [done|].
  intros n Hn _. rewrite app_assoc in Hn. apply Hwf in Hn.
  destruct (decide (k = [])) as [->|Hk]; [by rewrite app_nil_r in Hn|]. by eapply IH.
Qed.

(** A file has nothing below it. *)
Lemma fs_wf_file fs p d k :
  fs_wf fs → nodes fs !! p = Some (NFile d) → k ≠ [] → nodes fs !! (p ++ k) = None.
Proof.
  intros Hwf Hp Hk. destruct (nodes fs !! (p ++ k)) eqn:E; [|done].
  eapply fs_wf_prefix in E; [|done..]. congruence.
Qed.

Lemma fs_wf_absent fs p q :
  fs_wf fs → nodes fs !! p = None → under p q → nodes fs !! q = None.
Proof.
  intros Hwf Hp [k ->]. destruct (decide (k = [])) as [->|Hk]; [by rewrite app_nil_r|].
  destruct (nodes fs !! (p ++ k)) eqn:E; [|done].
  eapply fs_wf_prefix in E; [|done..]. congruence.
Qed.

(** *** Resolution of lexical paths *)

Lemma namei_lexical fs acc p : lexical p → namei fs acc p = Some (acc ++ p).
Proof.
  revert acc. induction p as [|c p IH]; intros acc Hp; simpl; [by rewrite app_nil_r|].
  apply not_elem_of_cons in Hp as [Hc Hp]. rewrite decide_False by done.
  rewrite IH by done. by rewrite <- app_assoc.
Qed.

Lemma node_at_lexical fs p : lexical p → node_at fs p = nodes fs !! p.
Proof. intros Hp. unfold node_at. by rewrite namei_lexical. Qed.

Lemma is_dir_lexical fs p : lexical p → is_dir fs p = true ↔ nodes fs !! p = Some NDir.
Proof. intros Hp. unfold is_dir. rewrite node_at_lexical by done. destruct (_ !! _) as [[]|]; naive_solver. Qed.

Lemma is_file_lexical fs p :
  lexical p → is_file fs p = true ↔ ∃ d, nodes fs !! p = Some (NFile d).
Proof. intros Hp. unfold is_file. rewrite node_at_lexical by done. destruct (_ !! _) as [[]|]; naive_solver. Qed.

Lemma lexical_app p q : lexical (p ++ q) ↔ lexical p ∧ lexical q.
Proof. unfold lexical. rewrite elem_of_app. tauto. Qed.

Lemma lexical_parent p : lexical p → lexical (parent p).
Proof.
  destruct (parent_cases p) as [->|(q & c & -> & ->)]; [done|].
  rewrite lexical_app. tauto.
Qed.

Lemma parse_path_lexical s : ".." ∉ split "/" s → lexical (parse_path s).
Proof. unfold lexical, parse_path. rewrite list_elem_of_filter. tauto. Qed.

Lemma lookup_path_lexical p fs : lexical p → lookup_path p fs = (Ok p, fs).
Proof. intros Hp. unfold lookup_path, bind, get. by rewrite namei_lexical. Qed.

(** *** What the updates change *)

Lemma nodes_touch p fs : nodes (touch p fs) = nodes fs.
Proof. done. Qed.

Lemma nodes_create_node p n fs : nodes (create_node p n fs) = <[p := n]> (nodes fs).
Proof. done. Qed.

Lemma nodes_remove_tree p fs q :
  nodes (remove_tree p fs) !! q = if decide (under p q) then None else nodes fs !! q.
Proof.
  unfold remove_tree; simpl. rewrite map_lookup_filter.
  destruct (nodes fs !! q) as [n|]; simpl; repeat case_decide; simpl;
    repeat case_guard; naive_solver.
Qed.

Lemma fs_wf_insert p n fs :
  fs_wf fs → p ≠ [] → nodes fs !! parent p = Some NDir →
  (n = NDir ∨ ∀ c, nodes fs !! (p ++ [c]) = None) →
  (∀ m, nodes fs !! p = Some m → m = NDir → n = NDir) →
  fs_wf (set_node p n fs).
Proof.
  intros [Hr Hp] Hne Hpar Hn Hkeep. split; simpl.
  - by rewrite lookup_insert_ne.
  - intros q c m. rewrite !lookup_insert. case_decide as E.
    + intros _. subst. rewrite parent_snoc in Hpar.
      destruct (decide (q ++ [c] = q)) as [E'|]; [|done].
      apply (f_equal length) in E'. rewrite length_app in E'. simpl in E'. lia.
    + intros Hm. pose proof (Hp _ _ _ Hm) as Hq. case_decide as E2; [subst|done].
      destruct Hn as [->|Hn]; [done|]. by rewrite Hn in Hm.
Qed.

Lemma fs_wf_ext fs fs' : nodes fs' = nodes fs → fs_wf fs → fs_wf fs'.
Proof. unfold fs_wf. by intros ->. Qed.

Lemma fs_wf_create_node p n fs :
  fs_wf fs → p ≠ [] → nodes fs !! parent p = Some NDir → nodes fs !! p = None →
  fs_wf (create_node p n fs).
Proof.
  intros Hwf Hne Hpar Hp. apply (fs_wf_ext (set_node p n fs)); [done|].
  apply fs_wf_insert; [done..| |].
  - right. intros c. eapply fs_wf_absent; [done|exact Hp|]. by exists [c].
  - by rewrite Hp.
Qed.

Lemma fs_wf_set_file p d d' fs :
  fs_wf fs → nodes fs !! p = Some (NFile d) → fs_wf (set_node p (NFile d') fs).
Proof.
  intros Hwf Hp. apply fs_wf_insert; [done| |by eapply fs_wf_parent| |].
  - intros ->. by rewrite (proj1 Hwf) in Hp.
  - right. intros c. by eapply fs_wf_file.
  - intros m Hm. congruence.
Qed.

Lemma fs_wf_remove_tree p fs : fs_wf fs → p ≠ [] → fs_wf (remove_tree p fs).
Proof.
  intros [Hr Hp] Hne. split.
  - rewrite nodes_remove_tree. rewrite decide_False; [done|]. intros [k Hk]. by destruct p.
  - intros q c n. rewrite !nodes_remove_tree. case_decide as E; [done|]. intros Hn.
    rewrite decide_False; [by eapply Hp|]. intros Hq. apply E.
    etrans; [exact Hq|]. by exists [c].
Qed.
End lemmas.

(** ** The system calls on lexical paths *)

Section syscalls.
Implicit Types (fs : Fs) (p q r : path).

(** [fs'] adds the directories of [p] that [fs] lacks, and nothing else. *)
Definition dirs_added (p : path) (fs fs' : Fs) : Prop :=
  ∀ q, nodes fs' !! q =
    match nodes fs !! q with
    | Some n => Some n
    | None => if decide (under q p) then Some NDir else None
    end.

(** No prefix of [p] is a file. *)
Definition no_file_above (fs : Fs) (p : path) : Prop :=
  ∀ q d, under q p → nodes fs !! q ≠ Some (NFile d).

Lemma mkdir_lexical p fs :
  lexical p →
  mkdir p fs =
    match nodes fs !! p, nodes fs !! parent p with
    | Some _, _ => (Raise (OSError EEXIST ""), fs)
    | None, Some NDir => (Ok tt, create_node p NDir fs)
    | None, Some (NFile _) => (Raise (OSError ENOTDIR ""), fs)
    | None, None => (Raise (OSError ENOENT ""), fs)
    end.
Proof.
  intros Hp. unfold mkdir, bind at 1. rewrite lookup_path_lexical by done.
  unfold bind, get, create, os_error, raise.
  destruct (nodes fs !! p); [done|].
  unfold bind, get, modify. by destruct (nodes fs !! parent p) as [[]|].
Qed.

Lemma mkdir_exist_ok_lexical p fs :
  lexical p →
  mkdir_exist_ok p fs =
    match nodes fs !! p, nodes fs !! parent p with
    | Some NDir, _ => (Ok tt, fs)
    | Some (NFile _), _ => (Raise (OSError EEXIST ""), fs)
    | None, Some NDir => (Ok tt, create_node p NDir fs)
    | None, Some (NFile _) => (Raise (OSError ENOTDIR ""), fs)
    | None, None => (Raise (OSError ENOENT ""), fs)
    end.
Proof.
  intros Hp. unfold mkdir_exist_ok, catch. rewrite mkdir_lexical by done.
  pose proof (node_at_lexical fs p Hp) as Hn.
  destruct (nodes fs !! p) as [n|] eqn:E;
    [|destruct (nodes fs !! parent p) as [[]|]]; simpl; try done;
    unfold bind, get, ret, raise, is_dir; rewrite Hn; solve_case.
Qed.

Lemma dirs_added_refl p fs :
  fs_wf fs → nodes fs !! p = Some NDir → dirs_added p fs fs.
Proof.
  intros Hwf Hp q. destruct (nodes fs !! q) eqn:E; [done|].
  rewrite decide_False; [done|]. intros Hq.
  destruct Hq as [k ->]. destruct (decide (k = [])) as [->|Hk].
  - by rewrite app_nil_r, E in Hp.
  - eapply fs_wf_prefix in Hp; [|done..]. congruence.
Qed.

Lemma dirs_added_create p q c fs fs' :
  p = q ++ [c] → dirs_added q fs fs' → nodes fs !! p = None →
  dirs_added p fs (create_node p NDir fs').
Proof.
  intros -> Hq Hp r. rewrite nodes_create_node, lookup_insert. case_decide as E.
  - subst r. rewrite Hp. by rewrite decide_True.
  - rewrite Hq. destruct (nodes fs !! r); [done|].
    repeat case_decide; try done.
    + exfalso. apply H0. etrans; [done|]. by exists [c].
    + exfalso. apply prefix_snoc_inv in H0 as [->|]; done.
Qed.

Lemma mkdir_parents_go_spec fuel p fs :
  fs_wf fs → lexical p → (length p ≤ fuel)%nat → no_file_above fs p →
  ∃ fs', mkdir_parents_go fuel p fs = (Ok tt, fs') ∧ fs_wf fs' ∧ dirs_added p fs fs'.
Proof.
  revert p fs. induction fuel as [|fuel IH]; intros p fs Hwf Hp Hlen Hfile.
  { destruct p; [|simpl in Hlen; lia]. exists fs. split_and!; [|done|].
    - unfold mkdir_parents_go, catch. rewrite mkdir_lexical by done.
      rewrite (proj1 Hwf). unfold bind, get, is_dir, node_at. simpl.
      by rewrite (proj1 Hwf).
    - apply dirs_added_refl; [done|apply Hwf]. }
  cbn [mkdir_parents_go]. unfold catch at 1. rewrite mkdir_lexical by done.
  destruct (nodes fs !! p) as [n|] eqn:Ep.
  { destruct n as [d|]; [by destruct (Hfile p d)|].
    cbn [is_FileNotFoundError is_OSError]. unfold bind, get, is_dir, ret. rewrite node_at_lexical, Ep by done.
    exists fs. split_and!; [done..|]. by apply dirs_added_refl. }
  destruct (parent_cases p) as [->|(q & c & -> & Hq)].
  { destruct Hwf as [Hr _]. congruence. }
  rewrite Hq.
  assert (Hqf : no_file_above fs q).
  { intros r d Hr. apply Hfile. etrans; [done|]. by exists [c]. }
  destruct (nodes fs !! q) as [[d|]|] eqn:Eq.
  - by destruct (Hqf q d).
  - eexists; split_and!; [done| |].
    + apply fs_wf_create_node; [done|by destruct q|by rewrite Hq|done].
    + eapply dirs_added_create; [done|by apply dirs_added_refl|done].
  - simpl. rewrite length_app in Hlen. simpl in Hlen.
    apply lexical_app in Hp as [Hq' Hc].
    destruct (IH q fs) as (fs' & E & Hwf' & Hadd); [done|done|lia|done|].
    unfold bind. rewrite E.
    rewrite mkdir_exist_ok_lexical by (apply lexical_app; done).
    assert (E1 : nodes fs' !! (q ++ [c]) = None).
    { rewrite Hadd, Ep, decide_False; [done|]. apply not_under_snoc. }
    assert (E2 : nodes fs' !! q = Some NDir).
    { rewrite Hadd, Eq, decide_True; done. }
    rewrite E1, Hq, E2. eexists; split_and!; [done| |].
    + apply fs_wf_create_node; [done|by destruct q|by rewrite Hq|done].
    + eapply dirs_added_create; [done|done|done].
Qed.

(** [mkdir(parents=True, exist_ok=True)] succeeds where no prefix is a file,
    and adds the missing directories. *)
Lemma mkdir_parents_spec p fs :
  fs_wf fs → lexical p → no_file_above fs p →
  ∃ fs', mkdir_parents p fs = (Ok tt, fs') ∧ fs_wf fs' ∧ dirs_added p fs fs'.
Proof. intros. by apply mkdir_parents_go_spec. Qed.

Lemma write_bytes_lexical p data fs :
  lexical p →
  write_bytes p data fs =
    match nodes fs !! p, nodes fs !! parent p with
    | Some NDir, _ => (Raise (OSError EISDIR ""), fs)
    | Some (NFile _), _ => (Ok tt, set_node p (NFile data) fs)
    | None, Some NDir => (Ok tt, create_node p (NFile data) fs)
    | None, Some (NFile _) => (Raise (OSError ENOTDIR ""), fs)
    | None, None => (Raise (OSError ENOENT ""), fs)
    end.
Proof.
  intros Hp. unfold write_bytes, bind at 1. rewrite lookup_path_lexical by done.
  unfold bind, get, create, os_error, raise.
  destruct (nodes fs !! p) as [[]|]; [done..|].
  unfold bind, get, modify. by destruct (nodes fs !! parent p) as [[]|].
Qed.

Lemma append_bytes_lexical p data old fs :
  lexical p → nodes fs !! p = Some (NFile old) →
  append_bytes p data fs = (Ok tt, set_node p (NFile (old +:+ data)) fs).
Proof.
  intros Hp Hold. unfold append_bytes, bind at 1. rewrite lookup_path_lexical by done.
  unfold bind, get, modify. by rewrite Hold.
Qed.

Lemma read_bytes_lexical p data fs :
  lexical p → nodes fs !! p = Some (NFile data) → read_bytes p fs = (Ok data, fs).
Proof.
  intros Hp Hd. unfold read_bytes, bind at 1. rewrite lookup_path_lexical by done.
  unfold bind, get, ret. by rewrite Hd.
Qed.

Lemma rename_lexical p r data fs :
  lexical p → lexical r → nodes fs !! p = Some (NFile data) → nodes fs !! r ≠ Some NDir →
  rename p r fs
  = (Ok tt, touch (parent r) (set_node r (NFile data) (remove_tree p fs))).
Proof.
  intros Hp Hr Hd Hn. unfold rename, bind at 1. rewrite lookup_path_lexical by done.
  unfold bind at 1. rewrite lookup_path_lexical by done.
  unfold bind, get, modify. rewrite Hd.
  by destruct (nodes fs !! r) as [[]|].
Qed.

Lemma rmtree_lexical p fs :
  lexical p → nodes fs !! p = Some NDir → rmtree p fs = (Ok tt, remove_tree p fs).
Proof.
  intros Hp Hd. unfold rmtree, bind at 1. rewrite lookup_path_lexical by done.
  unfold bind, get, modify. by rewrite Hd.
Qed.

Lemma unlink_lexical p data fs :
  lexical p → nodes fs !! p = Some (NFile data) → unlink p fs = (Ok tt, remove_tree p fs).
Proof.
  intros Hp Hd. unfold unlink, bind at 1. rewrite lookup_path_lexical by done.
  unfold bind, get, modify. by rewrite Hd.
Qed.
End syscalls.

Section frames.
Implicit Types (fs : Fs) (p q r : path).

(** Whatever its outcome, [mkdir(parents=True)] keeps what exists and only
    adds prefixes of its argument. *)
Definition grows_to (p : path) (fs fs' : Fs) : Prop :=
  (∀ q n, nodes fs !! q = Some n → nodes fs' !! q = Some n) ∧
  (∀ q, ¬ under q p → nodes fs' !! q = nodes fs !! q).

Lemma grows_refl p fs : grows_to p fs fs.
Proof. done. Qed.
Lemma grows_trans p fs1 fs2 fs3 : grows_to p fs1 fs2 → grows_to p fs2 fs3 → grows_to p fs1 fs3.
Proof. intros [H1 H2] [H3 H4]. split; [auto|]. intros q Hq. by rewrite H4, H2. Qed.
Lemma grows_parent p fs fs' : grows_to (parent p) fs fs' → grows_to p fs fs'.
Proof. intros [H1 H2]. split; [done|]. intros q Hq. apply H2. intros Hu. by apply Hq, under_parent. Qed.
Lemma grows_create p n fs : nodes fs !! p = None → grows_to p fs (create_node p n fs).
Proof.
  intros Hp. split; intros q; rewrite nodes_create_node.
  - intros m Hq. rewrite lookup_insert_ne; [done|]. intros ->. congruence.
  - intros Hq. rewrite lookup_insert_ne; [done|]. intros ->. by apply Hq.
Qed.

Lemma mkdir_frame p fs : lexical p → grows_to p fs (mkdir p fs).2.
Proof.
  intros Hp. rewrite mkdir_lexical by done.
  destruct (nodes fs !! p) eqn:E; [done|]. destruct (nodes fs !! parent p) as [[]|]; try done.
  by apply grows_create.
Qed.

Lemma mkdir_exist_ok_frame p fs : lexical p → grows_to p fs (mkdir_exist_ok p fs).2.
Proof.
  intros Hp. rewrite mkdir_exist_ok_lexical by done.
  destruct (nodes fs !! p) as [[]|] eqn:E; try done.
  destruct (nodes fs !! parent p) as [[]|]; try done. by apply grows_create.
Qed.

Lemma mkdir_parents_go_frame fuel p fs :
  lexical p → grows_to p fs (mkdir_parents_go fuel p fs).2.
Proof.
  revert p fs. induction fuel as [|fuel IH]; intros p fs Hp; cbn [mkdir_parents_go];
    unfold catch; pose proof (mkdir_frame p fs Hp) as Hm;
    destruct (mkdir p fs) as [[a|e] fs1]; try done; cbn [snd] in Hm.
  - destruct (is_FileNotFoundError e); [done|]. destruct (is_OSError e); [|done].
    unfold bind, get. by destruct (is_dir _ _).
  - destruct (is_FileNotFoundError e).
    + unfold bind. pose proof (IH (parent p) fs1 (lexical_parent p Hp)) as H1.
      destruct (mkdir_parents_go fuel (parent p) fs1) as [[a|e'] fs2]; cbn [snd] in *.
      * eapply grows_trans; [done|]. eapply grows_trans; [by apply grows_parent|].
        by apply mkdir_exist_ok_frame.
      * eapply grows_trans; [done|]. by apply grows_parent.
    + destruct (is_OSError e); [|done]. unfold bind, get. by destruct (is_dir _ _).
Qed.

Lemma mkdir_parents_frame p fs : lexical p → grows_to p fs (mkdir_parents p fs).2.
Proof. apply mkdir_parents_go_frame. Qed.

(** *** Directory listings *)

Lemma elem_of_child_names fs p c : c ∈ child_names fs p ↔ is_Some (nodes fs !! (p ++ [c])).
Proof.
  unfold child_names. rewrite list_elem_of_omap. split.
  - intros ([q n] & Hq & E). apply elem_of_map_to_list in Hq. unfold child_name in E. cbn in E.
    case_decide as Hd; [|done]. destruct Hd as [Hne Hpar].
    destruct (exists_last Hne) as (k & d & ->). rewrite parent_snoc in Hpar. subst.
    rewrite last_snoc in E. injection E as ->. by eexists.
  - intros [n Hn]. exists (p ++ [c], n). split; [by apply elem_of_map_to_list|].
    unfold child_name. cbn. rewrite decide_True.
    + apply last_snoc.
    + split; [by destruct p|apply parent_snoc].
Qed.

Lemma elem_of_child_dirs fs p c : c ∈ child_dirs fs p ↔ nodes fs !! (p ++ [c]) = Some NDir.
Proof.
  unfold child_dirs. rewrite list_elem_of_filter, elem_of_child_names.
  split; [by intros []|]. intros H. by rewrite H.
Qed.

Lemma elem_of_child_files fs p c :
  c ∈ child_files fs p ↔ ∃ d, nodes fs !! (p ++ [c]) = Some (NFile d).
Proof.
  unfold child_files. rewrite list_elem_of_filter, elem_of_child_names. split.
  - intros [H [[d|] Hn]]; [by eexists|done].
  - intros [d Hd]. rewrite Hd. done.
Qed.

Lemma fs_wf_depth fs q n :
  nodes fs !! q = Some n →
  (length q ≤ list_max (map (λ kn, length kn.1) (map_to_list (nodes fs))))%nat.
Proof.
  intros Hq%elem_of_map_to_list. apply (list_elem_of_fmap_2 (λ kn, length kn.1)) in Hq.
  cbn in Hq. pose proof (proj1 (List.list_max_le _ _) (Nat.le_refl
    (list_max (map (λ kn : path * node, length kn.1) (map_to_list (nodes fs)))))) as H.
  rewrite Forall_forall in H. by apply H.
Qed.
End frames.

(** Well-formedness of a concrete tree, by computation. *)
Definition fs_wfb (fs : Fs) : bool :=
  bool_decide (nodes fs !! [] = Some NDir) &&
  forallb (λ kn, bool_decide (nodes fs !! parent kn.1 = Some NDir)) (map_to_list (nodes fs)).

Lemma fs_wfb_sound fs : fs_wfb fs = true → fs_wf fs.
Proof.
  unfold fs_wfb. intros [Hr Hall]%andb_true_iff. bool_to_prop. split; [done|].
  intros p c n Hn%elem_of_map_to_list. rewrite forallb_forall in Hall.
  apply list_elem_of_In in Hn. specialize (Hall _ Hn). cbn [fst] in Hall. bool_to_prop.
  by rewrite parent_snoc in Hall.
Qed.
