(* ===== verification/Storage.v ===== *)
(** * The filesystem storage backend

    [backends/filesystem/storage.py] (bundles and files; leases are in
    [Leases]) and the data types of [protocols/storage.py].  Every operation
    is the sequence of file-system calls of the method, on the tree of
    [FsModel].  Directory enumerations are in the tree's own order, which the
    theorems do not rely on; synchronisation calls ([fsync]) have no effect
    on the tree.  A file is opened and read in one step. *)

From Stdlib Require Import Ascii String.
From stdpp Require Import pretty.
From S2P Require Import Prelude PyStr PyCodec Json Effects Paths FsModel.
Local Open Scope string_scope.
Local Open Scope list_scope.
Local Open Scope effect_scope.

(** [BundleRef] of [protocols/storage.py]. *)
Record BundleRef := { br_path : str; br_has_meta : bool; br_mtime : Z }.

Definition DATA_PREFIX : str := "data/".
Definition BUNDLE_MANIFEST : str := "meta.json".
Definition BUNDLE_MANIFEST_TMP : str := ".meta.json.tmp".
Definition COPY_CHUNK : nat := 64 * 1024.

Definition not_found {A} (msg : str) : M Fs A := raise (OSError ENOENT msg).
Definition value_error {A St} (msg : str) : M St A := raise (ValueError PlainValueError msg).

(** ** Reading from a stream

    A [BinaryIO] is the sequence of results of its [read] calls. *)

Abbreviation Source := (list (res bytes)).

(** An in-memory stream of [data], read in pieces of [n] bytes. *)
Fixpoint chunks (fuel n : nat) (data : bytes) : list (res bytes) :=
  match fuel, data with
  | S fuel, String _ _ => Ok (str_take n data) :: chunks fuel n (str_drop n data)
  | _, _ => []
  end.
Definition bytes_io (data : bytes) : Source := chunks (String.length data) COPY_CHUNK data.

(** ** Classifying directories *)

(** [_looks_like_bundle_dir]. *)
Definition looks_like_bundle_dir (fs : Fs) (candidate : path) : bool :=
  if negb (is_dir fs candidate) then false
  else if is_file fs (candidate ++ [BUNDLE_MANIFEST]) then true
  else match namei fs [] candidate with
       | Some q => bool_decide (child_dirs fs q = []) && negb (bool_decide (child_files fs q = []))
       | None => false
       end.

(** [root.rglob("*")]: everything below [root]. *)
Definition rglob (fs : Fs) (root : path) : list path :=
  match namei fs [] root with
  | Some real =>
      map (λ q, root ++ drop (length real) q)
        (filter (λ q, real `prefix_of` q ∧ q ≠ real) (map_to_list (nodes fs)).*1)
  | None => []
  end.

(** [_find_descendant_bundle]. *)
Definition find_descendant_bundle (fs : Fs) (root : path) : option path :=
  match find_first (λ entry,
      (is_dir fs entry && looks_like_bundle_dir fs entry)
      || (is_file fs entry && negb (bool_decide (parent entry = root)))) (rglob fs root) with
  | Some entry => if is_dir fs entry then Some entry else Some (parent entry)
  | None => None
  end.

(** [_collision_kind]. *)
Definition collision_kind (fs : Fs) (bundle_dir : path) : conflict_kind :=
  match namei fs [] bundle_dir with
  | Some q => if is_dir fs bundle_dir && negb (bool_decide (child_names fs q = []))
              then shadow_parent else shadow_child
  | None => shadow_child
  end.

(** [p.relative_to(base)]. *)
Definition relative_to (p base : path) : option path :=
  if decide (base `prefix_of` p) then Some (drop (length base) p) else None.

(** ** The write handle of a bundle, [FilesystemBundleWriter] *)

Record Writer := {
  w_dir : path;
  w_written : gmap str Z;
  w_committed : bool;
}.

(** The copy loop of [write_file]. *)
Fixpoint copy_chunks (target : path) (source : Source) (written : Z) : M Fs Z :=
  match source with
  | [] => ret written
  | Raise e :: _ => raise e
  | Ok chunk :: source' =>
      if decide (chunk = "") then ret written
      else append_bytes target chunk;;; copy_chunks target source' (written + blen chunk)
  end.

Definition write_file (w : Writer) (name : str) (source : Source) : M Fs (Writer * Z) :=
  if decide (name = "") then value_error "Bundle file name must not be empty"
  else if decide (is_Some (w_written w !! name))
  then value_error ("Duplicate file name in bundle: " +:+ name)
  else
    let target := joinpath (w_dir w) name in
    mkdir_parents (parent target);;;
    write_bytes target "";;;
    written <- copy_chunks target source 0;;
    ret ({| w_dir := w_dir w; w_written := <[name := written]> (w_written w);
            w_committed := w_committed w |}, written).

(** An entry of [meta["files"]]: its name and its size. *)
Definition entry_name (entry : json) : option str :=
  match entry with
  | JDict d => match dict_get "name" d with Some (JStr n) => Some n | _ => None end
  | _ => None
  end.
Definition entry_size (entry : json) : option Z :=
  match entry with
  | JDict d => match dict_get "size" d with
               | Some (JInt z) => Some z
               | Some (JBool b) => Some (if b then 1 else 0)%Z
               | _ => None
               end
  | _ => None
  end.

Fixpoint check_sizes (written : gmap str Z) (entries : list (str * option Z)) : res unit :=
  match entries with
  | [] => Ok tt
  | (n, declared_size) :: entries' =>
      match declared_size with
      | None => Raise (ValueError PlainValueError "files[].size must be an integer")
      | Some z =>
          let actual := default 0%Z (written !! n) in
          if decide (z = actual) then check_sizes written entries'
          else Raise (ValueError PlainValueError ("Bundle size mismatch for " +:+ n
                 +:+ ": declared=" +:+ pretty z +:+ ", actual=" +:+ pretty actual))
      end
  end.

Definition repr_list (l : list str) : str := "[" +:+ join_str ", " (map repr l) +:+ "]".

(** The checks of [commit].  A file name that is not a string is equal to no
    written name, so it ends in the set mismatch. *)
Definition commit_checks (written : gmap str Z) (meta : dict) : res unit :=
  match dict_get "files" meta with
  | Some (JList (f :: fs)) =>
      match mapM entry_name (f :: fs) with
      | None => Raise (ValueError PlainValueError "Bundle file set mismatch")
      | Some declared_names =>
          if negb (bool_decide (NoDup declared_names))
          then Raise (ValueError PlainValueError "Duplicate file names in bundle")
          else
            let declared : gset str := list_to_set declared_names in
            let missing := elements (declared ∖ dom written) in
            let extra := elements (dom written ∖ declared) in
            if negb (bool_decide (dom written = declared))
            then Raise (ValueError PlainValueError ("Bundle file set mismatch (missing="
                   +:+ repr_list (sorted missing) +:+ ", extra=" +:+ repr_list (sorted extra) +:+ ")"))
            else check_sizes written (zip declared_names (map entry_size (f :: fs)))
      end
  | _ => Raise (ValueError PlainValueError "Bundle must contain at least one file")
  end.

Definition commit (w : Writer) (meta : dict) : M Fs Writer :=
  of_res (commit_checks (w_written w) meta);;;
  let tmp_path := w_dir w ++ [BUNDLE_MANIFEST_TMP] in
  let final_path := w_dir w ++ [BUNDLE_MANIFEST] in
  write_bytes tmp_path (json_dumps (JDict meta));;;
  rename tmp_path final_path;;;
  ret {| w_dir := w_dir w; w_written := w_written w; w_committed := true |}.

(** [shutil.rmtree(..., ignore_errors=True)] unless committed. *)
Definition abort (w : Writer) : M Fs unit :=
  if w_committed w then ret tt
  else catch (rmtree (w_dir w)) (λ _, Some (ret tt)).

(** ** [FilesystemBackend] *)

Section backend.
(** [self._root]. *)
Variable root : path.

Definition data_root : path := joinpath root DATA_PREFIX.
Definition resolve (key : str) : path := joinpath data_root key.

(** *** Files *)

Definition put (key : str) (data : bytes) : M Fs unit :=
  let p := resolve key in
  mkdir_parents (parent p);;; write_bytes p data.

Definition file_or_404 (key : str) : M Fs path :=
  let p := resolve key in
  fs <- get;;
  if is_file fs p then ret p else not_found ("File not found: " +:+ key).

Definition get_file (key : str) : M Fs bytes :=
  p <- file_or_404 key;; read_bytes p.
Definition delete (key : str) : M Fs unit :=
  p <- file_or_404 key;; unlink p.
Definition exists_ (key : str) (fs : Fs) : bool := is_file fs (resolve key).
Definition get_creation_time (key : str) : M Fs Z :=
  p <- file_or_404 key;; q <- lookup_path p;; fs <- get;; ret (mtime fs q).
Definition get_size (key : str) : M Fs Z :=
  data <- get_file key;; ret (blen data).

(** [list(prefix)]: the files [os.walk] finds, by their relative path. *)
Definition files_under (fs : Fs) (base : path) : list path :=
  omap (λ kn : path * node, match kn.2 with
    | NFile _ => relative_to kn.1 base
    | NDir => None
    end) (map_to_list (nodes fs)).

Definition list_ (prefix : str) (fs : Fs) : list str :=
  match namei fs [] data_root with
  | Some base =>
      if is_dir fs data_root then
        sorted (filter (λ r, prefix = "" ∨ startswith prefix r = true)
                  (map as_posix (files_under fs base)))
      else []
  | None => []
  end.

(** *** Bundles *)

(** The ancestor loop of [_check_bundle_path_collision]. *)
Fixpoint check_ancestors (fuel : nat) (fs : Fs) (namespace_root ancestor : path) : res unit :=
  if decide (ancestor = namespace_root) then Ok tt
  else if decide (ancestor = data_root) then Ok tt
  else if is_dir fs ancestor && looks_like_bundle_dir fs ancestor
  then Raise (BundlePathConflictError
         (as_posix (drop (length data_root) ancestor)) shadow_child)
  else match fuel with
       | 0 => Ok tt
       | S fuel => check_ancestors fuel fs namespace_root (parent ancestor)
       end.

Definition namespace_depth (rel_parts : path) : nat :=
  match rel_parts with
  | p :: _ => if decide (p = "inbox") then 2 else 1
  | [] => 0
  end.

Definition check_bundle_path_collision (bundle_dir : path) (fs : Fs) : res unit :=
  match relative_to bundle_dir data_root with
  | None => Ok tt
  | Some rel_parts =>
      if decide (rel_parts = []) then Ok tt
      else if decide (length rel_parts <= namespace_depth rel_parts)%nat then Ok tt
      else
        let namespace_root := data_root ++ take (namespace_depth rel_parts) rel_parts in
        match check_ancestors (length rel_parts) fs namespace_root (parent bundle_dir) with
        | Raise e => Raise e
        | Ok _ =>
            if is_dir fs bundle_dir then
              match find_descendant_bundle fs bundle_dir with
              | Some descendant =>
                  Raise (BundlePathConflictError
                    (as_posix (drop (length data_root) descendant)) shadow_parent)
              | None => Ok tt
              end
            else Ok tt
        end
  end.

Definition open_bundle_write (p : str) : M Fs Writer :=
  let bundle_dir := resolve p in
  fs <- get;;
  of_res (check_bundle_path_collision bundle_dir fs);;;
  mkdir_parents (parent bundle_dir);;;
  catch (mkdir bundle_dir) (λ e,
    if is_FileExistsError e then
      Some (fs <- get;; raise (BundlePathConflictError p (collision_kind fs bundle_dir)))
    else None);;;
  ret {| w_dir := bundle_dir; w_written := ∅; w_committed := false |}.

Definition read_bundle_meta (p : str) : M Fs dict :=
  let meta_path := resolve p ++ [BUNDLE_MANIFEST] in
  fs <- get;;
  if is_file fs meta_path then
    body <- read_bytes meta_path;;
    match utf8_decode body with
    | None => value_error "'utf-8' codec can't decode bytes"
    | Some text =>
        match json_loads text with
        | Some (JDict meta) => ret meta
        | Some _ => not_found ("Bundle meta invalid: " +:+ p)
        | None => not_found ("Bundle meta unreadable: " +:+ p)
        end
    end
  else not_found ("Bundle not found: " +:+ p).

Definition open_bundle_file_read (p name : str) : M Fs bytes :=
  let bundle_dir := resolve p in
  fs <- get;;
  if is_file fs (bundle_dir ++ [BUNDLE_MANIFEST]) then
    let inner := joinpath bundle_dir name in
    if is_file fs inner then read_bytes inner
    else not_found ("File not found: " +:+ p +:+ "/" +:+ name)
  else not_found ("Bundle not found: " +:+ p).

(** The body of the [os.walk] loop of [list_bundles] at the directory [k]
    below the prefix root [base], whose resolved path is [real]: what it
    appends, and whether the walk goes on below. *)
Definition visit (fs : Fs) (include_orphans : bool) (base real k : path)
    : list BundleRef * bool :=
  if decide (k = []) then ([], true)
  else
    let files := child_files fs (real ++ k) in
    let rel := as_posix (drop (length data_root) (base ++ k)) in
    let ref has_meta :=
      {| br_path := rel; br_has_meta := has_meta; br_mtime := mtime fs (real ++ k) |} in
    if bool_decide (BUNDLE_MANIFEST ∈ files) then ([ref true], false)
    else if existsb (λ f, negb (bool_decide (f = BUNDLE_MANIFEST))) files
    then (if include_orphans then [ref false] else [], false)
    else ([], true).

Fixpoint walk_bundles (fuel : nat) (fs : Fs) (include_orphans : bool) (base real k : path)
    : list BundleRef :=
  match fuel with
  | 0 => []
  | S fuel =>
      let '(refs, descend) := visit fs include_orphans base real k in
      refs ++
      (if descend
       then concat (map (λ d, walk_bundles fuel fs include_orphans base real (k ++ [d]))
                      (child_dirs fs (real ++ k)))
       else [])
  end.

Definition ref_le (a b : BundleRef) : Prop := String.le (br_path a) (br_path b).
#[export] Instance ref_le_dec : RelDecision ref_le.
Proof. intros a b. unfold ref_le. apply _. Defined.

(** Deeper than every path of the tree. *)
Definition walk_fuel (fs : Fs) : nat :=
  S (list_max (map (λ kn, length kn.1) (map_to_list (nodes fs)))).

(** The references, and a [bundles.stray_entry] warning for every file in
    the prefix root.  A prefix outside the data directory has no relative
    path, which [relative_to] reports by [ValueError]. *)
Definition list_bundles (prefix : str) (include_orphans : bool) (fs : Fs)
    : res (list BundleRef) * list event :=
  let base := resolve prefix in
  match namei fs [] base with
  | None => (Ok [], [])
  | Some real =>
      if is_dir fs base then
        if decide (data_root `prefix_of` base) then
          (Ok (merge_sort ref_le (walk_bundles (walk_fuel fs) fs include_orphans base real [])),
           map (λ _, Log WARNING "bundles.stray_entry") (child_files fs real))
        else if decide (child_names fs real = []) then (Ok [], [])
        else (Raise (ValueError PlainValueError "is not in the subpath of"), [])
      else (Ok [], [])
  end.

Definition delete_bundle (p : str) : M Fs unit :=
  let bundle_dir := resolve p in
  fs <- get;;
  if is_dir fs bundle_dir then rmtree bundle_dir
  else not_found ("Bundle not found: " +:+ p).
End backend.

(** ** Lemmas: paths *)

Arguments str_take : simpl never.
Arguments str_drop : simpl never.

(** A key that stays inside the data directory: relative, without [..], and
    not empty. *)
Definition key_ok (p : str) : Prop :=
  startswith "/" p = false ∧ lexical (parse_path p) ∧ parse_path p ≠ [].

Lemma resolve_key root p :
  key_ok p → resolve root p = root ++ "data" :: parse_path p.
Proof.
  intros (Hr & _). unfold resolve, joinpath at 1. rewrite Hr.
  unfold data_root. change (joinpath root DATA_PREFIX) with (root ++ ["data"]).
  by rewrite <- app_assoc.
Qed.

Lemma resolve_lexical root p : lexical root → key_ok p → lexical (resolve root p).
Proof.
  intros Hroot Hp. rewrite resolve_key by done. apply lexical_app. split; [done|].
  apply not_elem_of_cons. split; [done|apply Hp].
Qed.

Lemma joinpath_relative d s : startswith "/" s = false → joinpath d s = d ++ parse_path s.
Proof. unfold joinpath. by intros ->. Qed.

(** ** Lemmas: streams *)

Lemma str_take_drop n s : str_take n s +:+ str_drop n s = s.
Proof.
  revert s. induction n as [|n IH]; intros [|a s]; [done..|].
  unfold str_take, str_drop; fold str_take str_drop. by rewrite app_cons, IH.
Qed.

Lemma str_drop_length n a s : (0 < n)%nat → (String.length (str_drop n (String a s)) ≤ String.length s)%nat.
Proof.
  revert a s. induction n as [|n IH]; intros a s Hn; [lia|].
  unfold str_drop; fold str_drop. destruct n; [done|]. destruct s as [|b s]; [done|].
  etrans; [apply IH; lia|]. simpl. lia.
Qed.

Lemma chunks_spec n fuel data :
  (0 < n)%nat → (String.length data ≤ fuel)%nat →
  ∃ cs, chunks fuel n data = map Ok cs ∧ Forall (λ c, c ≠ "") cs ∧ foldr String.append "" cs = data.
Proof.
  intros Hn. revert data. induction fuel as [|fuel IH]; intros [|a s] Hl;
    try (by exists []); [simpl in Hl; lia|].
  cbn [chunks]. destruct (IH (str_drop n (String a s))) as (cs & E & Hne & Hc).
  { pose proof (str_drop_length n a s Hn). simpl in Hl. lia. }
  exists (str_take n (String a s) :: cs). split_and!.
  - cbn [map]. by rewrite E.
  - constructor; [|done]. by destruct n; [lia|].
  - cbn [foldr]. rewrite Hc. apply str_take_drop.
Qed.

Lemma copy_chunks_spec target cs old written fs :
  lexical target → nodes fs !! target = Some (NFile old) → Forall (λ c, c ≠ "") cs →
  ∃ fs', copy_chunks target (map Ok cs) written fs
           = (Ok (written + blen (foldr String.append "" cs))%Z, fs')
    ∧ nodes fs' = <[target := NFile (old +:+ foldr String.append "" cs)]> (nodes fs).
Proof.
  intros Ht. revert old written fs. induction cs as [|c cs IH]; intros old written fs Hold Hne.
  { exists fs. cbn [map copy_chunks foldr]. rewrite app_empty_r, Z.add_0_r.
    split; [done|]. by rewrite insert_id. }
  apply Forall_cons in Hne as [Hc Hne]. cbn [map copy_chunks].
  rewrite decide_False by done. unfold bind. rewrite (append_bytes_lexical _ _ old) by done.
  destruct (IH (old +:+ c) (written + blen c)%Z (set_node target (NFile (old +:+ c)) fs))
    as (fs' & E & Hn); [by apply lookup_insert_eq|done|].
  exists fs'. rewrite E. cbn [foldr]. split.
  - do 2 f_equal. unfold blen. rewrite string_length_app. lia.
  - rewrite Hn. simpl. rewrite insert_insert_eq. by rewrite app_str_assoc.
Qed.

Lemma copy_bytes_io target data fs :
  lexical target → nodes fs !! target = Some (NFile "") →
  ∃ fs', copy_chunks target (bytes_io data) 0 fs = (Ok (blen data), fs')
    ∧ nodes fs' = <[target := NFile data]> (nodes fs).
Proof.
  intros Ht Hf. unfold bytes_io.
  destruct (chunks_spec COPY_CHUNK (String.length data) data) as (cs & -> & Hne & Hc).
  { unfold COPY_CHUNK. lia. } { done. }
  destruct (copy_chunks_spec target cs "" 0 fs Ht Hf Hne) as (fs' & E & Hn).
  exists fs'. rewrite E, Hn, Hc. by rewrite app_empty_l.
Qed.

(** ** Lemmas: writing the files of a bundle *)

(** The names a bundle can hold: relative paths without [..] whose resolved
    forms neither coincide nor lie below one another, none of them in the
    place of the manifest or of its temporary. *)
Definition name_ok (n : str) : Prop :=
  key_ok n ∧ ∀ c k, parse_path n = c :: k → c ≠ BUNDLE_MANIFEST ∧ c ≠ BUNDLE_MANIFEST_TMP.
Definition names_ok (ns : list str) : Prop :=
  NoDup ns ∧ Forall name_ok ns ∧
  ∀ n m, n ∈ ns → m ∈ ns → n ≠ m → ¬ parse_path n `prefix_of` parse_path m.

(** A bundle directory [D] under construction: [W] are the files written, in
    order, and [fs0] the tree outside of it. *)
Record session (D : path) (W : list (str * bytes)) (fs0 fs : Fs) : Prop := {
  se_wf : fs_wf fs;
  se_dir : nodes fs !! D = Some NDir;
  se_file : ∀ n d, (n, d) ∈ W → nodes fs !! (D ++ parse_path n) = Some (NFile d);
  se_only : ∀ k m, k ≠ [] → nodes fs !! (D ++ k) = Some m →
    ∃ n d, (n, d) ∈ W ∧ k `prefix_of` parse_path n ∧ (m = NDir ∨ k = parse_path n);
  se_frame : ∀ q, ¬ D `prefix_of` q → nodes fs !! q = nodes fs0 !! q;
}.

Definition written_of (W : list (str * bytes)) : gmap str Z :=
  list_to_map ((λ nd, (nd.1, blen nd.2)) <$> W).
Definition writer_of (D : path) (W : list (str * bytes)) : Writer :=
  {| w_dir := D; w_written := written_of W; w_committed := false |}.

Lemma written_of_None W n : n ∉ W.*1 → written_of W !! n = None.
Proof.
  intros Hn. apply not_elem_of_list_to_map_1. intros H. apply Hn.
  rewrite <- list_fmap_compose in H. done.
Qed.

Lemma written_of_snoc W n d :
  n ∉ W.*1 → written_of (W ++ [(n, d)]) = <[n := blen d]> (written_of W).
Proof.
  intros Hn. unfold written_of. rewrite fmap_app. apply list_to_map_snoc.
  rewrite <- list_fmap_compose. done.
Qed.

Lemma written_of_lookup W n d : NoDup W.*1 → (n, d) ∈ W → written_of W !! n = Some (blen d).
Proof.
  intros Hnd Hin. apply elem_of_list_to_map_1.
  - by rewrite <- list_fmap_compose.
  - apply list_elem_of_fmap. by exists (n, d).
Qed.

Lemma dom_written_of W : dom (written_of W) = list_to_set W.*1.
Proof. unfold written_of. rewrite dom_list_to_map_L, <- list_fmap_compose. done. Qed.

Lemma names_ok_prefix ns ms : names_ok (ns ++ ms) → names_ok ns.
Proof.
  intros (Hnd & Hok & Hp). apply NoDup_app in Hnd as (Hnd & _ & _).
  apply Forall_app in Hok as [Hok _]. split_and!; [done..|].
  intros n m Hn Hm. apply Hp; apply elem_of_app; by left.
Qed.

Lemma prefix_eq_dec_length {A} (k l : list A) : k `prefix_of` l → (length l ≤ length k)%nat → k = l.
Proof.
  intros [r ->] Hl. rewrite length_app in Hl. destruct r; [by rewrite app_nil_r|simpl in Hl; lia].
Qed.


Lemma prefix_of_app_inv (q D k : path) :
  q `prefix_of` D ++ k → q `prefix_of` D ∨ ∃ j, q = D ++ j ∧ j `prefix_of` k ∧ j ≠ [].
Proof.
  revert q. induction D as [|c D IH]; intros q Hq; simpl in Hq.
  - destruct q; [left; apply prefix_nil|]. right. eexists; split_and!; done.
  - destruct q as [|c' q]; [left; apply prefix_nil|].
    pose proof (prefix_cons_inv_1 _ _ _ _ Hq) as ->. apply prefix_cons_inv_2 in Hq.
    destruct (IH q Hq) as [H|(j & -> & ? & ?)]; [left; by apply prefix_cons|].
    right. by exists j.
Qed.

Lemma parent_app (D k : path) : k ≠ [] → parent (D ++ k) = D ++ parent k.
Proof. intros Hk. destruct (exists_last Hk) as (j & c & ->). by rewrite app_assoc, !parent_snoc. Qed.

Lemma not_under_parent (D k : path) : k ≠ [] → ¬ (D ++ k) `prefix_of` D ++ parent k.
Proof.
  intros Hk Hp%prefix_length. destruct (exists_last Hk) as (j & c & ->).
  rewrite parent_snoc, !length_app in Hp. simpl in Hp. lia.
Qed.

(** What is on the path to a new file, or below it, is a directory above it. *)
Lemma session_no_conflict D W fs0 fs n j m :
  session D W fs0 fs → names_ok (W.*1 ++ [n]) → j ≠ [] → nodes fs !! (D ++ j) = Some m →
  j `prefix_of` parse_path n ∨ parse_path n `prefix_of` j →
  m = NDir ∧ ¬ parse_path n `prefix_of` j.
Proof.
  intros Hs (Hnd & Hok & Hpre) Hj Hm Hjn.
  destruct (se_only _ _ _ _ Hs _ _ Hj Hm) as (n' & d' & HW & Hjn' & Hd).
  assert (Hin : n' ∈ W.*1) by (apply list_elem_of_fmap; by exists (n', d')).
  assert (n ≠ n').
  { intros ->. apply NoDup_app in Hnd as (_ & Hnd & _). apply (Hnd _ Hin). by left. }
  assert (H1 : ¬ parse_path n `prefix_of` parse_path n').
  { apply Hpre; [apply elem_of_app; right; by left|apply elem_of_app; by left|done]. }
  assert (H2 : ¬ parse_path n' `prefix_of` parse_path n).
  { apply Hpre; [apply elem_of_app; by left|apply elem_of_app; right; by left|done]. }
  assert (Hnj : ¬ parse_path n `prefix_of` j) by (intros ?; destruct H1; by etrans).
  split; [|done]. destruct Hd as [->|Hd]; [done|]. subst j. naive_solver.
Qed.

Lemma session_no_file D W fs0 fs n :
  session D W fs0 fs → names_ok (W.*1 ++ [n]) → parse_path n ≠ [] →
  no_file_above fs (D ++ parent (parse_path n)).
Proof.
  intros Hs Hok Hne q dq Hq Hqn. apply prefix_of_app_inv in Hq as [[k ->]|(j & -> & Hj & Hj0)].
  - pose proof (se_dir _ _ _ _ Hs) as Hd. destruct (decide (k = [])) as [->|Hk].
    + rewrite app_nil_r in Hd. congruence.
    + pose proof (fs_wf_file _ _ _ k (se_wf _ _ _ _ Hs) Hqn Hk). congruence.
  - apply under_parent in Hj.
    destruct (session_no_conflict _ _ _ _ n _ _ Hs Hok Hj0 Hqn) as [? _]; [by left|done].
Qed.

Lemma session_step D W fs0 fs fs1 fs3 n d :
  session D W fs0 fs → names_ok (W.*1 ++ [n]) → parse_path n ≠ [] →
  fs_wf fs1 → dirs_added (D ++ parent (parse_path n)) fs fs1 →
  nodes fs1 !! (D ++ parse_path n) = None →
  nodes fs1 !! (D ++ parent (parse_path n)) = Some NDir →
  nodes fs3 = <[D ++ parse_path n := NFile d]> (nodes fs1) →
  session D (W ++ [(n, d)]) fs0 fs3.
Proof.
  intros Hs Hok Hne Hwf1 Hadd Ht Hp Hn3.
  assert (Hold : ∀ q m, nodes fs !! q = Some m → nodes fs3 !! q = Some m).
  { intros q m Hq. rewrite Hn3, lookup_insert_ne, Hadd, Hq; [done|].
    intros <-. rewrite Hadd, Hq in Ht. done. }
  split.
  - apply (fs_wf_ext (create_node (D ++ parse_path n) (NFile d) fs1)); [done|].
    apply fs_wf_create_node; [done| |by rewrite parent_app|done].
    by destruct D, (parse_path n).
  - apply Hold, Hs.
  - intros n' d' [H|H]%elem_of_app; [by apply Hold, Hs|].
    apply list_elem_of_singleton in H as [= -> ->]. rewrite Hn3. by apply lookup_insert_eq.
  - intros k m Hk. rewrite Hn3, lookup_insert, Hadd. intros Hm.
    destruct (decide (D ++ parse_path n = D ++ k)) as [Hkn|Hkn].
    { apply app_inv_head in Hkn as <-. exists n, d. split_and!; [|done|by right].
      apply elem_of_app; right; by left. }
    destruct (nodes fs !! (D ++ k)) eqn:E.
    + destruct (se_only _ _ _ _ Hs _ _ Hk E) as (n' & d' & ? & ? & ?). simplify_eq.
      exists n', d'. split; [apply elem_of_app; by left|done].
    + case_decide as Hkp; [simplify_eq|done].
      exists n, d. split_and!; [apply elem_of_app; right; by left| |by left].
      apply under_parent. by apply prefix_app_inv in Hkp.
  - intros q Hq. rewrite <- (se_frame _ _ _ _ Hs q Hq), Hn3, lookup_insert_ne, Hadd.
    2:{ intros <-. apply Hq. by eexists. }
    destruct (nodes fs !! q) eqn:E; [done|]. rewrite decide_False; [done|].
    intros [[k ->]|(j & -> & _)]%prefix_of_app_inv; [|apply Hq; by eexists].
    destruct (decide (k = [])) as [->|Hk]; [by apply Hq; rewrite app_nil_r|].
    pose proof (fs_wf_prefix _ _ _ _ (se_wf _ _ _ _ Hs) (se_dir _ _ _ _ Hs) Hk). congruence.
Qed.

(** Writing one more file extends the session. *)
Lemma write_file_spec D W fs0 fs n d :
  lexical D → session D W fs0 fs → names_ok (W.*1 ++ [n]) →
  ∃ fs', write_file (writer_of D W) n (bytes_io d) fs = (Ok (writer_of D (W ++ [(n, d)]), blen d), fs')
    ∧ session D (W ++ [(n, d)]) fs0 fs'.
Proof.
  intros HD Hs Hok. pose proof Hok as (Hnd & Hoks & _).
  apply Forall_app in Hoks as [_ [[(Hrel & Hlex & Hne) _] _]%Forall_cons].
  assert (HnW : n ∉ W.*1).
  { apply NoDup_app in Hnd as (_ & Hnd & _). intros Hin. apply (Hnd n Hin). by left. }
  assert (Hlt : lexical (D ++ parse_path n)) by by apply lexical_app.
  pose proof (session_no_file _ _ _ _ _ Hs Hok Hne) as Hfile.
  unfold write_file. rewrite !decide_False.
  2:{ cbn [w_written writer_of]. rewrite written_of_None by done. by intros []. }
  2:{ by intros ->. }
  cbn [w_dir writer_of]. rewrite joinpath_relative, parent_app by done.
  destruct (mkdir_parents_spec (D ++ parent (parse_path n)) fs) as (fs1 & E1 & Hwf1 & Hadd);
    [apply Hs|apply lexical_app; split; [done|by apply lexical_parent]|done|].
  unfold bind at 1. rewrite E1.
  assert (Ht : nodes fs1 !! (D ++ parse_path n) = None).
  { rewrite Hadd. destruct (nodes fs !! (D ++ parse_path n)) eqn:E.
    - edestruct (session_no_conflict D W fs0 fs n) as [_ []]; [done..|by left|done].
    - rewrite decide_False; [done|]. by apply not_under_parent. }
  assert (Hp : nodes fs1 !! (D ++ parent (parse_path n)) = Some NDir).
  { rewrite Hadd. destruct (nodes fs !! (D ++ parent _)) as [[dd|]|] eqn:E; [|done|].
    - by edestruct Hfile.
    - by rewrite decide_True. }
  unfold bind at 1. rewrite write_bytes_lexical, Ht, parent_app, Hp by done.
  destruct (copy_bytes_io (D ++ parse_path n) d (create_node (D ++ parse_path n) (NFile "") fs1))
    as (fs3 & E3 & Hn3); [done|by apply lookup_insert_eq|].
  unfold bind. rewrite E3. exists fs3. split.
  { cbn. unfold writer_of. rewrite written_of_snoc by done. done. }
  eapply session_step; try done. rewrite Hn3. simpl. apply insert_insert_eq.
Qed.

(** ** Lemmas: committing *)

(** The declared files of a metadata dictionary agree with the sizes written. *)
Definition declares (meta : dict) (written : gmap str Z) : Prop :=
  ∃ entries names,
    dict_get "files" meta = Some (JList entries) ∧ entries ≠ [] ∧
    mapM entry_name entries = Some names ∧ NoDup names ∧
    dom written = list_to_set names ∧
    Forall2 (λ e n, ∃ z, entry_size e = Some z ∧ written !! n = Some z) entries names.

Lemma check_sizes_Ok written entries names :
  list_to_set names ⊆ dom written → length entries = length names →
  check_sizes written (zip names (map entry_size entries)) = Ok tt ↔
  Forall2 (λ e n, ∃ z, entry_size e = Some z ∧ written !! n = Some z) entries names.
Proof.
  revert names. induction entries as [|e entries IH]; intros [|n names] Hd Hl;
    [by split; [constructor|]|done..|].
  simpl in Hl. cbn [zip_with map check_sizes]. rewrite Forall2_cons.
  assert (Hn : n ∈ dom written) by set_solver.
  apply elem_of_dom in Hn as [z Hz].
  rewrite <- IH by (set_solver || lia). destruct (entry_size e) as [z'|]; [|naive_solver].
  rewrite Hz. simpl. case_decide; naive_solver.
Qed.

Lemma commit_checks_Ok written meta :
  commit_checks written meta = Ok tt ↔ declares meta written.
Proof.
  unfold commit_checks, declares.
  destruct (dict_get "files" meta) as [[| | | | |[|f fs]|]|]; try naive_solver.
  destruct (mapM entry_name (f :: fs)) as [names|] eqn:E; [|naive_solver].
  pose proof (proj1 (mapM_Some _ _ _) E) as Hlen%Forall2_length.
  destruct (decide (NoDup names)) as [Hnd|Hnd];
    [rewrite (bool_decide_true (NoDup names)) by done
    |rewrite (bool_decide_false (NoDup names)) by done; naive_solver].
  destruct (decide (dom written = list_to_set names)) as [Hd|Hd];
    [rewrite (bool_decide_true (dom written = _)) by done
    |rewrite (bool_decide_false (dom written = _)) by done; naive_solver].
  cbn [negb]. rewrite check_sizes_Ok by (done || by rewrite Hd). naive_solver.
Qed.


Section bundles.
Variable root : path.
Hypothesis Hroot : lexical root.

Lemma resolve_parts p :
  key_ok p → resolve root p = parent (resolve root p) ++ [default "" (last (parse_path p))].
Proof.
  intros Hp. rewrite resolve_key by done. destruct Hp as (_ & _ & Hne).
  destruct (exists_last Hne) as (k & c & Hk). rewrite Hk, last_snoc.
  change (root ++ "data" :: k ++ [c]) with (root ++ ("data" :: k) ++ [c]).
  by rewrite app_assoc, parent_snoc.
Qed.

Lemma open_bundle_write_spec p fs :
  fs_wf fs → key_ok p →
  check_bundle_path_collision root (resolve root p) fs = Ok tt →
  no_file_above fs (parent (resolve root p)) → nodes fs !! resolve root p = None →
  ∃ fs1 fs', open_bundle_write root p fs = (Ok (writer_of (resolve root p) []), fs')
    ∧ dirs_added (parent (resolve root p)) fs fs1 ∧ session (resolve root p) [] fs1 fs'.
Proof.
  intros Hwf Hp Hc Hno HD. pose proof (resolve_lexical root p Hroot Hp) as Hlex.
  pose proof (resolve_parts p Hp) as Hparts. set (D := resolve root p) in *.
  destruct (mkdir_parents_spec (parent D) fs) as (fs1 & E1 & Hwf1 & Hadd);
    [done|by apply lexical_parent|done|].
  assert (HD1 : nodes fs1 !! D = None).
  { rewrite Hadd, HD, decide_False; [done|]. rewrite Hparts at 1. apply not_under_snoc. }
  assert (Hpar : nodes fs1 !! parent D = Some NDir).
  { rewrite Hadd. destruct (nodes fs !! parent D) as [[d|]|] eqn:E; [|done|by rewrite decide_True].
    by destruct (Hno (parent D) d). }
  exists fs1, (create_node D NDir fs1). split_and!; [|done|].
  - unfold open_bundle_write, bind, get, of_res. fold D. rewrite Hc, E1.
    unfold catch. by rewrite mkdir_lexical, HD1, Hpar by done.
  - split.
    + apply fs_wf_create_node; [done| |done|done]. rewrite Hparts. by destruct (parent D).
    + apply lookup_insert_eq.
    + intros n d Hn. by apply not_elem_of_nil in Hn.
    + intros k m Hk. rewrite nodes_create_node, lookup_insert_ne.
      2:{ intros Hk'%(f_equal length). rewrite length_app in Hk'. destruct k; [done|simpl in Hk'; lia]. }
      rewrite (fs_wf_absent fs1 D) by (done || by eexists). done.
    + intros q Hq. rewrite nodes_create_node, lookup_insert_ne; [done|]. by intros <-.
Qed.

End bundles.

Lemma session_reserved D W fs0 fs c :
  session D W fs0 fs → names_ok W.*1 → c = BUNDLE_MANIFEST ∨ c = BUNDLE_MANIFEST_TMP →
  ∀ k, nodes fs !! ((D ++ [c]) ++ k) = None.
Proof.
  intros Hs (_ & Hok & _) Hc k.
  destruct (nodes fs !! ((D ++ [c]) ++ k)) as [m|] eqn:E; [|done].
  rewrite <- app_assoc in E.
  destruct (se_only _ _ _ _ Hs ([c] ++ k) m) as (n & d & HW & [j Hj] & _); [done..|].
  rewrite Forall_forall in Hok. destruct (Hok n) as [_ Hn].
  { apply list_elem_of_fmap. by exists (n, d). }
  destruct (Hn c (k ++ j)) as [H1 H2]; [by rewrite Hj|]. destruct Hc; congruence.
Qed.

(** A committed bundle: the session's tree and the manifest. *)
Definition committed_tree (D : path) (meta : dict) (fs fs' : Fs) : Prop :=
  ∀ q, nodes fs' !! q =
    if decide (q = D ++ [BUNDLE_MANIFEST]) then Some (NFile (json_dumps (JDict meta)))
    else nodes fs !! q.

Lemma commit_spec {D W fs0 fs meta} :
  lexical D → session D W fs0 fs → names_ok W.*1 → declares meta (written_of W) →
  ∃ w' fs', commit (writer_of D W) meta fs = (Ok w', fs') ∧ w_committed w' = true
    ∧ committed_tree D meta fs fs' ∧ fs_wf fs'.
Proof.
  intros HD Hs Hok Hm.
  assert (Hl : ∀ c, c ≠ ".." → lexical (D ++ [c])).
  { intros c Hc. apply lexical_app. split; [done|]. unfold lexical. set_solver. }
  pose proof (session_reserved D W fs0 fs BUNDLE_MANIFEST Hs Hok (or_introl eq_refl)) as Hf.
  pose proof (session_reserved D W fs0 fs BUNDLE_MANIFEST_TMP Hs Hok (or_intror eq_refl)) as Ht.
  pose proof (Hf []) as Hf0. pose proof (Ht []) as Ht0. rewrite app_nil_r in Hf0, Ht0.
  assert (Hne : D ++ [BUNDLE_MANIFEST_TMP] ≠ D ++ [BUNDLE_MANIFEST]).
  { intros [= E]%app_inv_head. }
  set (tmp := D ++ [BUNDLE_MANIFEST_TMP]) in *. set (final := D ++ [BUNDLE_MANIFEST]) in *.
  set (fs1 := create_node tmp (NFile (json_dumps (JDict meta))) fs).
  assert (E1 : write_bytes tmp (json_dumps (JDict meta)) fs = (Ok tt, fs1)).
  { rewrite write_bytes_lexical, Ht0 by by apply Hl.
    unfold tmp at 1. by rewrite parent_snoc, (se_dir _ _ _ _ Hs). }
  assert (E2 : rename tmp final fs1 = (Ok tt, touch (parent final)
    (set_node final (NFile (json_dumps (JDict meta))) (remove_tree tmp fs1)))).
  { apply rename_lexical; [by apply Hl|by apply Hl|apply lookup_insert_eq|].
    unfold fs1. rewrite nodes_create_node, lookup_insert_ne by done. by rewrite Hf0. }
  assert (Hct : committed_tree D meta fs (touch (parent final)
    (set_node final (NFile (json_dumps (JDict meta))) (remove_tree tmp fs1)))).
  { intros q. rewrite nodes_touch. unfold set_node. cbn [nodes]. rewrite lookup_insert.
    case_decide as E; [subst; by rewrite decide_True|].
    rewrite (decide_False (P := q = _)) by (by intros ->). rewrite nodes_remove_tree.
    case_decide as Eq; [destruct Eq as [k ->]; by rewrite Ht|].
    unfold fs1. rewrite nodes_create_node, lookup_insert_ne; [done|]. by intros <-. }
  exists {| w_dir := D; w_written := written_of W; w_committed := true |}. eexists.
  split_and!; [|done|exact Hct|].
  - unfold commit, bind, of_res. cbn [w_dir w_written writer_of].
    rewrite (proj2 (commit_checks_Ok _ _) Hm). fold tmp final. by rewrite E1, E2.
  - assert (Hwf : fs_wf (create_node final (NFile (json_dumps (JDict meta))) fs)).
    { apply fs_wf_create_node; [apply Hs|unfold final; by destruct D| |done].
      unfold final. by rewrite parent_snoc, (se_dir _ _ _ _ Hs). }
    eapply fs_wf_ext; [|exact Hwf]. apply map_eq. intros q.
    rewrite Hct, nodes_create_node, lookup_insert. unfold final.
    repeat case_decide; congruence.
Qed.

(** ** Storing a bundle

    What the upload and message handlers do with a writer. *)

Definition write_all (w : Writer) (files : list (str * bytes)) : M Fs Writer :=
  fold_m (λ w nd, r <- write_file w nd.1 (bytes_io nd.2);; ret r.1) w files.

Definition store_bundle (root : path) (p : str) (files : list (str * bytes)) (meta : dict)
    : M Fs Writer :=
  w <- open_bundle_write root p;;
  w' <- write_all w files;;
  commit w' meta.

(** The path is free: nothing in the way of the directories above it, and no
    bundle above or below. *)
Definition storable (root : path) (p : str) (fs : Fs) : Prop :=
  key_ok p ∧ check_bundle_path_collision root (resolve root p) fs = Ok tt ∧
  no_file_above fs (parent (resolve root p)) ∧ nodes fs !! resolve root p = None.

Lemma write_all_spec D W files fs0 fs :
  lexical D → session D W fs0 fs → names_ok (W ++ files).*1 →
  ∃ fs', write_all (writer_of D W) files fs = (Ok (writer_of D (W ++ files)), fs')
    ∧ session D (W ++ files) fs0 fs'.
Proof.
  revert W fs. induction files as [|[n d] files IH]; intros W fs HD Hs Hok.
  { exists fs. rewrite app_nil_r. done. }
  assert (Hok1 : names_ok (W.*1 ++ [n])).
  { rewrite fmap_app in Hok. apply (names_ok_prefix _ files.*1). by rewrite <- app_assoc. }
  destruct (write_file_spec D W fs0 fs n d HD Hs Hok1) as (fs1 & E1 & Hs1).
  destruct (IH (W ++ [(n, d)]) fs1) as (fs2 & E2 & Hs2); [done|done|by rewrite <- app_assoc|].
  exists fs2. rewrite <- app_assoc in E2, Hs2. split; [|done].
  unfold write_all. cbn [fold_m fst snd]. unfold bind at 1. unfold bind at 1. rewrite E1.
  unfold ret at 1. cbn [fst]. exact E2.
Qed.

Section store.
Variable root : path.
Hypothesis Hroot : lexical root.

(** The tree after opening and writing, before the commit. *)
Lemma open_and_write_spec {p files fs} :
  fs_wf fs → storable root p fs → names_ok files.*1 →
  ∃ fs1 fs2,
    (w <- open_bundle_write root p;; write_all w files) fs
      = (Ok (writer_of (resolve root p) files), fs2)
    ∧ dirs_added (parent (resolve root p)) fs fs1
    ∧ session (resolve root p) files fs1 fs2.
Proof.
  intros Hwf (Hp & Hc & Hno & HD) Hok.
  destruct (open_bundle_write_spec root Hroot p fs) as (fs1 & fs' & E & Hadd & Hs); [done..|].
  destruct (write_all_spec (resolve root p) [] files fs1 fs') as (fs2 & E2 & Hs2);
    [by apply resolve_lexical|done|done|].
  exists fs1, fs2. split_and!; [|done|done]. unfold bind. by rewrite E, E2.
Qed.

Lemma is_file_committed D meta fs fs' :
  lexical D → committed_tree D meta fs fs' →
  is_file fs' (D ++ [BUNDLE_MANIFEST]) = true ∧ lexical (D ++ [BUNDLE_MANIFEST])
  ∧ nodes fs' !! (D ++ [BUNDLE_MANIFEST]) = Some (NFile (json_dumps (JDict meta))).
Proof.
  intros HD Hct.
  assert (Hl : lexical (D ++ [BUNDLE_MANIFEST])).
  { apply lexical_app. split; [done|]. unfold lexical. set_solver. }
  assert (E : nodes fs' !! (D ++ [BUNDLE_MANIFEST]) = Some (NFile (json_dumps (JDict meta)))).
  { rewrite Hct. by rewrite decide_True. }
  split_and!; [|done|done]. rewrite is_file_lexical by done. by eexists.
Qed.

Lemma read_bundle_meta_committed p meta fs fs' :
  key_ok p → json_wf (JDict meta) = true → committed_tree (resolve root p) meta fs fs' →
  read_bundle_meta root p fs' = (Ok meta, fs').
Proof.
  intros Hp Hw Hct.
  destruct (is_file_committed (resolve root p) meta fs fs') as (Hf & Hl & E);
    [by apply resolve_lexical|done|].
  unfold read_bundle_meta, bind at 1, get. rewrite Hf.
  unfold bind. rewrite (read_bytes_lexical _ (json_dumps (JDict meta))) by done.
  unfold utf8_decode. rewrite json_dumps_utf8 by done. by rewrite json_loads_dumps.
Qed.

Lemma open_bundle_file_read_committed p meta n d fs fs' :
  key_ok p → key_ok n → committed_tree (resolve root p) meta fs fs' →
  nodes fs' !! (resolve root p ++ parse_path n) = Some (NFile d) →
  open_bundle_file_read root p n fs' = (Ok d, fs').
Proof.
  intros Hp (Hrel & Hlex & _) Hct Hd. pose proof (resolve_lexical root p Hroot Hp) as HD.
  destruct (is_file_committed (resolve root p) meta fs fs') as (Hf & Hl & E); [done..|].
  assert (Hln : lexical (resolve root p ++ parse_path n)) by by apply lexical_app.
  unfold open_bundle_file_read, bind, get. rewrite Hf, joinpath_relative by done.
  rewrite (proj2 (is_file_lexical fs' _ Hln)) by by eexists.
  by apply read_bytes_lexical.
Qed.
End store.

(** ** Lemmas: deleting, aborting, listing *)

Lemma commit_checks_Raise written meta e :
  commit_checks written meta = Raise e → ∃ msg, e = ValueError PlainValueError msg.
Proof.
  assert (Hsz : ∀ l e, check_sizes written l = Raise e → ∃ msg, e = ValueError PlainValueError msg).
  { induction l as [|[n [z|]] l IH]; cbn [check_sizes]; intros e' H; [done| |by simplify_eq; eexists].
    case_decide; [by apply IH|by simplify_eq; eexists]. }
  unfold commit_checks. intros H.
  repeat (case_match; simplify_eq; try by eexists). by eapply Hsz.
Qed.

Lemma remove_tree_dirs D W fs fs1 fs2 :
  nodes fs !! D = None → fs_wf fs → D ≠ [] →
  dirs_added (parent D) fs fs1 → session D W fs1 fs2 →
  dirs_added (parent D) fs (remove_tree D fs2).
Proof.
  intros HD Hwf Hne Hadd Hs q. rewrite nodes_remove_tree. case_decide as Hq.
  - rewrite (fs_wf_absent fs D) by done. rewrite decide_False; [done|].
    intros Hq'. destruct (exists_last Hne) as (k & c & ->). rewrite parent_snoc in Hq'.
    apply (not_under_snoc k c). by etrans.
  - rewrite (se_frame _ _ _ _ Hs q Hq). apply Hadd.
Qed.

Section deletion.
Variable root : path.

Lemma delete_bundle_lexical p fs :
  lexical (resolve root p) →
  delete_bundle root p fs =
    match nodes fs !! resolve root p with
    | Some NDir => (Ok tt, remove_tree (resolve root p) fs)
    | _ => (Raise (OSError ENOENT ("Bundle not found: " +:+ p)), fs)
    end.
Proof.
  intros Hl. unfold delete_bundle, bind, get, is_dir. rewrite node_at_lexical by done.
  destruct (nodes fs !! resolve root p) as [[]|] eqn:E; [done| |done].
  by apply rmtree_lexical.
Qed.

Lemma manifest_lexical D : lexical D → lexical (D ++ [BUNDLE_MANIFEST]).
Proof. intros HD. apply lexical_app. split; [done|]. unfold lexical. set_solver. Qed.

(** Without a manifest file there is no bundle to read. *)
Lemma read_bundle_meta_missing p fs :
  lexical (resolve root p) →
  (∀ d, nodes fs !! (resolve root p ++ [BUNDLE_MANIFEST]) ≠ Some (NFile d)) →
  read_bundle_meta root p fs = (Raise (OSError ENOENT ("Bundle not found: " +:+ p)), fs)
  ∧ ∀ n, open_bundle_file_read root p n fs
         = (Raise (OSError ENOENT ("Bundle not found: " +:+ p)), fs).
Proof.
  intros Hl Hn.
  assert (Hf : is_file fs (resolve root p ++ [BUNDLE_MANIFEST]) = false).
  { apply not_true_iff_false. rewrite is_file_lexical by by apply manifest_lexical. naive_solver. }
  unfold read_bundle_meta, open_bundle_file_read, bind, get. by rewrite Hf.
Qed.
End deletion.

#[export] Instance ref_le_trans : Transitive ref_le.
Proof. intros a b c. unfold ref_le. apply transitivity. Qed.
#[export] Instance ref_le_total : Total ref_le.
Proof. intros a b. unfold ref_le. apply total, _. Qed.

(** *** The walk *)

Section walk.
Context (root : path) (fs : Fs) (include_orphans : bool) (base real : path).
Hypothesis Hwf : fs_wf fs.

Let visited (k : path) := visit root fs include_orphans base real k.

(** The directories the walk visits below [k]: those that no bundle on the
    way hides. *)
Definition reached (k j : path) : Prop :=
  nodes fs !! (real ++ k ++ j) = Some NDir ∧
  ∀ i, i `prefix_of` j → i ≠ j → (visited (k ++ i)).2 = true.

Lemma reached_cons k d j :
  (visited k).2 = true → reached (k ++ [d]) j → reached k (d :: j).
Proof.
  intros Hk [Hn Hi]. split; [by rewrite <- app_assoc in Hn|].
  intros [|d' i] Hp Hne; [by rewrite app_nil_r|].
  pose proof (prefix_cons_inv_1 _ _ _ _ Hp) as ->. apply prefix_cons_inv_2 in Hp.
  specialize (Hi i Hp). rewrite <- app_assoc in Hi. apply Hi. congruence.
Qed.

Lemma reached_cons_inv k d j :
  reached k (d :: j) → (visited k).2 = true ∧ nodes fs !! (real ++ k ++ [d]) = Some NDir
    ∧ reached (k ++ [d]) j.
Proof.
  intros [Hn Hi]. split_and!.
  - specialize (Hi [] (prefix_nil _)). rewrite app_nil_r in Hi. by apply Hi.
  - destruct j as [|c j]; [done|].
    apply (fs_wf_prefix fs _ (c :: j) NDir Hwf); [|done].
    by rewrite <- !app_assoc.
  - split; [by rewrite <- app_assoc|]. intros i Hp Hne. rewrite <- app_assoc. simpl.
    apply Hi; [by apply prefix_cons|congruence].
Qed.

Lemma walk_bundles_spec fuel k N ref :
  (∀ q n, nodes fs !! q = Some n → (length q ≤ N)%nat) →
  nodes fs !! (real ++ k) = Some NDir → (N < length (real ++ k) + fuel)%nat →
  ref ∈ walk_bundles root fuel fs include_orphans base real k ↔
  ∃ j, reached k j ∧ ref ∈ (visited (k ++ j)).1.
Proof.
  intros HN. revert k. induction fuel as [|fuel IH]; intros k Hk Hf.
  { apply HN in Hk. lia. }
  cbn [walk_bundles]. fold (visited k). destruct (visited k) as [refs descend] eqn:Ev.
  rewrite elem_of_app. split.
  - intros [H|H].
    + exists []. rewrite app_nil_r, Ev. split; [|done]. split; [by rewrite app_nil_r|].
      intros i Hp Hne. apply prefix_nil_inv in Hp. done.
    + destruct descend; [|by apply not_elem_of_nil in H].
      apply list_elem_of_In, in_concat in H as (l & Hl & Hr).
      apply in_map_iff in Hl as (d & <- & Hd).
      apply list_elem_of_In in Hr, Hd. apply elem_of_child_dirs in Hd.
      rewrite <- app_assoc in Hd.
      apply IH in Hr as (j & Hj & Hr); [|done|rewrite !length_app in *; simpl in *; lia].
      exists (d :: j). split; [apply reached_cons; [by rewrite Ev|done]|].
      by rewrite <- app_assoc in Hr.
  - intros ([|d j] & Hj & Hr).
    + left. by rewrite app_nil_r, Ev in Hr.
    + right. apply reached_cons_inv in Hj as (Hd & Hn & Hj). rewrite Ev in Hd. simpl in Hd.
      subst descend. apply list_elem_of_In, in_concat. eexists. split.
      * apply in_map_iff. exists d. split; [done|]. apply list_elem_of_In, elem_of_child_dirs.
        by rewrite <- app_assoc.
      * apply list_elem_of_In, IH; [done|rewrite !length_app in *; simpl in *; lia|].
        exists j. split; [done|]. by rewrite <- app_assoc.
Qed.
End walk.

(** What [visit] reports and where it stops, by the files of the directory. *)
Lemma visit_descends root fs io base real k :
  (visit root fs io base real k).2 = true ↔ k = [] ∨ child_files fs (real ++ k) = [].
Proof.
  unfold visit. case_decide as Hk; [naive_solver|].
  destruct (child_files fs (real ++ k)) as [|f l] eqn:E.
  - rewrite bool_decide_false by by intros ?%not_elem_of_nil. cbn. naive_solver.
  - rewrite <- E. case_bool_decide as Hm; [rewrite E in *; naive_solver|].
    destruct (existsb _ (child_files fs (real ++ k))) eqn:Ex; [rewrite E in *; naive_solver|].
    exfalso. rewrite E in Ex, Hm. cbn [existsb] in Ex. apply orb_false_iff in Ex as [Ex _].
    bool_to_prop. subst. apply Hm. by left.
Qed.

Lemma visit_refs root fs io base real k ref :
  ref ∈ (visit root fs io base real k).1 ↔
  k ≠ [] ∧ child_files fs (real ++ k) ≠ [] ∧
  ((br_has_meta ref = true ∧ BUNDLE_MANIFEST ∈ child_files fs (real ++ k)) ∨
   (br_has_meta ref = false ∧ io = true ∧ BUNDLE_MANIFEST ∉ child_files fs (real ++ k))) ∧
  br_path ref = as_posix (drop (length (data_root root)) (base ++ k)) ∧
  br_mtime ref = mtime fs (real ++ k).
Proof.
  unfold visit. destruct ref as [rp rm rt]. cbn [br_path br_has_meta br_mtime].
  case_decide as Hk; [cbn; rewrite elem_of_nil; naive_solver|].
  case_bool_decide as Hm.
  { cbn. rewrite list_elem_of_singleton.
    assert (child_files fs (real ++ k) ≠ []) by by intros E; rewrite E in Hm; apply not_elem_of_nil in Hm.
    naive_solver. }
  destruct (existsb _ _) eqn:Ex.
  - assert (child_files fs (real ++ k) ≠ []) by by intros E; rewrite E in Ex.
    destruct io; cbn; rewrite ?list_elem_of_singleton, ?elem_of_nil; naive_solver.
  - cbn. rewrite elem_of_nil. split; [done|]. intros (_ & Hne & H & _).
    destruct (child_files fs (real ++ k)) as [|f l]; [done|]. exfalso.
    cbn [existsb] in Ex. apply orb_false_iff in Ex as [Ex _]. bool_to_prop. subst.
    apply Hm. by left.
Qed.

(** *** What the listing holds *)

Lemma list_bundles_walk root prefix io fs :
  lexical root → key_ok prefix → nodes fs !! resolve root prefix = Some NDir →
  (list_bundles root prefix io fs).1 =
    Ok (merge_sort ref_le (walk_bundles root (walk_fuel fs) fs io
      (resolve root prefix) (resolve root prefix) [])).
Proof.
  intros Hroot Hp HD. pose proof (resolve_lexical root prefix Hroot Hp) as Hl.
  unfold list_bundles. rewrite namei_lexical by done. cbn [app].
  rewrite (proj2 (is_dir_lexical fs _ Hl)) by done.
  rewrite decide_True; [done|]. rewrite resolve_key by done.
  exists (parse_path prefix). change (data_root root) with (root ++ ["data"]). by rewrite <- app_assoc.
Qed.

Lemma listed_refs root prefix io fs ref :
  fs_wf fs → lexical root → key_ok prefix → nodes fs !! resolve root prefix = Some NDir →
  ref ∈ merge_sort ref_le (walk_bundles root (walk_fuel fs) fs io
      (resolve root prefix) (resolve root prefix) []) ↔ ∃ k,
    let d := resolve root prefix ++ k in
    k ≠ [] ∧ nodes fs !! d = Some NDir ∧
    (∀ i, i `prefix_of` k → i ≠ [] → i ≠ k → child_files fs (resolve root prefix ++ i) = []) ∧
    child_files fs d ≠ [] ∧
    ((br_has_meta ref = true ∧ BUNDLE_MANIFEST ∈ child_files fs d) ∨
     (br_has_meta ref = false ∧ io = true ∧ BUNDLE_MANIFEST ∉ child_files fs d)) ∧
    br_path ref = as_posix (parse_path prefix ++ k) ∧ br_mtime ref = mtime fs d.
Proof.
  intros Hwf Hroot Hp HD.
  assert (Hbase : resolve root prefix = data_root root ++ parse_path prefix).
  { rewrite resolve_key by done. change (data_root root) with (root ++ ["data"]).
    by rewrite <- app_assoc. }
  rewrite merge_sort_Permutation.
  erewrite walk_bundles_spec; [|done|apply fs_wf_depth|by rewrite app_nil_r|].
  2:{ rewrite app_nil_r. unfold walk_fuel. lia. }
  unfold reached. cbn [app]. setoid_rewrite visit_refs. setoid_rewrite visit_descends.
  f_equiv. intros k.
  assert (E : drop (length (data_root root)) (resolve root prefix ++ k) = parse_path prefix ++ k).
  { rewrite Hbase, <- app_assoc. apply drop_app_length. }
  rewrite E. cbn zeta. split.
  - intros ([H1 H2] & H3 & H4 & H5 & H6 & H7). split_and!; try done.
    intros i Hi Hi0 Hik. by destruct (H2 i Hi Hik).
  - intros (H1 & H2 & H3 & H4 & H5 & H6 & H7). split_and!; try done.
    intros i Hi Hik. destruct (decide (i = [])); [by left|right]. by apply H3.
Qed.

(** *** Containment and collisions *)

(** A validated key resolves inside the data directory. *)
Lemma validated_resolve root key :
  lexical root → validate_path key None = Ok tt →
  resolve root key = data_root root ++ parse_path key ∧ lexical (resolve root key).
Proof.
  intros Hroot Hv. pose proof Hv as (_ & Hrel & _)%validate_path_Ok.
  apply validate_path_no_dotdot in Hv. unfold resolve. rewrite joinpath_relative by done.
  split; [done|]. apply lexical_app. split; [|by apply parse_path_lexical].
  change (data_root root) with (root ++ ["data"]). apply lexical_app. split; [done|].
  unfold lexical. set_solver.
Qed.

(** What [write_bytes] touches. *)
Lemma write_bytes_frame p data fs q :
  lexical p → q ≠ p → nodes (write_bytes p data fs).2 !! q = nodes fs !! q.
Proof.
  intros Hp Hq. rewrite write_bytes_lexical by done.
  destruct (nodes fs !! p) as [[]|]; [by apply lookup_insert_ne|done|].
  destruct (nodes fs !! parent p) as [[]|]; [done| |done]. by apply lookup_insert_ne.
Qed.

Lemma put_frame root key data fs q :
  lexical (resolve root key) → ¬ q `prefix_of` resolve root key →
  nodes (put root key data fs).2 !! q = nodes fs !! q.
Proof.
  intros Hl Hq. unfold put, bind.
  pose proof (mkdir_parents_frame (parent (resolve root key)) fs (lexical_parent _ Hl)) as [_ Hf].
  destruct (mkdir_parents _ fs) as [[a|e] fs1]; cbn [snd] in *.
  - rewrite write_bytes_frame; [|done|by intros ->].
    apply Hf. intros Hu. by apply Hq, under_parent.
  - apply Hf. intros Hu. by apply Hq, under_parent.
Qed.

Lemma open_bundle_write_Ok root p fs w fs' :
  lexical (resolve root p) → open_bundle_write root p fs = (Ok w, fs') →
  check_bundle_path_collision root (resolve root p) fs = Ok tt ∧
  nodes fs !! resolve root p = None ∧ w = writer_of (resolve root p) [].
Proof.
  intros Hl. unfold open_bundle_write, bind, get, of_res.
  destruct (check_bundle_path_collision _ _ fs) as [[]|]; [|done].
  pose proof (mkdir_parents_frame (parent (resolve root p)) fs (lexical_parent _ Hl)) as [Hk _].
  destruct (mkdir_parents _ fs) as [[a|e] fs1]; [|done]. cbn [snd] in Hk.
  unfold catch. rewrite mkdir_lexical by done.
  destruct (nodes fs1 !! resolve root p) eqn:E1; [done|].
  destruct (nodes fs1 !! parent _) as [[]|]; try done. intros [= <- _].
  split_and!; [done| |done].
  destruct (nodes fs !! resolve root p) eqn:E; [|done]. apply Hk in E. congruence.
Qed.

(** The ancestor loop meets every directory between the namespace and the
    bundle. *)
Lemma check_ancestors_Ok root fuel fs ns k :
  check_ancestors root fuel fs (data_root root ++ ns) (data_root root ++ ns ++ k) = Ok tt →
  (length k ≤ fuel)%nat → ns ≠ [] →
  ∀ j, j ≠ [] → j `prefix_of` k →
    is_dir fs (data_root root ++ ns ++ j) && looks_like_bundle_dir fs (data_root root ++ ns ++ j) = false.
Proof.
  intros Hc Hf Hns. revert k Hc Hf. induction fuel as [|fuel IH]; intros k Hc Hf j Hj Hjk.
  { apply prefix_length in Hjk. destruct j; [done|]. simpl in Hjk. lia. }
  cbn [check_ancestors] in Hc.
  assert (Hk : k ≠ []) by by intros ->; apply prefix_nil_inv in Hjk.
  rewrite decide_False in Hc.
  2:{ rewrite app_assoc. intros E%(f_equal length). rewrite length_app in E. destruct k; [done|simpl in E; lia]. }
  rewrite decide_False in Hc.
  2:{ intros E%(f_equal length). rewrite length_app in E. destruct ns; [done|simpl in E; lia]. }
  destruct (is_dir fs (data_root root ++ ns ++ k) && looks_like_bundle_dir fs _) eqn:E; [done|].
  destruct (decide (j = k)) as [->|Hne]; [done|].
  rewrite app_assoc, parent_app, <- app_assoc in Hc by done.
  apply (IH (parent k)); [done| |done|].
  - destruct (exists_last Hk) as (k' & c & ->). rewrite parent_snoc, length_app in *. simpl in *. lia.
  - destruct (exists_last Hk) as (k' & c & ->). rewrite parent_snoc.
    by apply prefix_snoc_inv in Hjk as [->|?].
Qed.

(** [d] holds a committed bundle. *)
Definition committed (fs : Fs) (d : path) : Prop :=
  ∃ m, nodes fs !! (d ++ [BUNDLE_MANIFEST]) = Some (NFile m).

Lemma committed_looks_like fs d :
  fs_wf fs → lexical d → committed fs d → is_dir fs d && looks_like_bundle_dir fs d = true.
Proof.
  intros Hwf Hd [m Hm]. pose proof (proj2 Hwf _ _ _ Hm) as Hdir.
  pose proof (proj2 (is_dir_lexical fs d Hd) Hdir) as E.
  unfold looks_like_bundle_dir. rewrite E. cbn.
  rewrite (proj2 (is_file_lexical fs _ (manifest_lexical d Hd))); [done|by eexists].
Qed.

(** *** Deciding the side conditions on concrete inputs *)

Definition name_okb (n : str) : bool :=
  negb (startswith "/" n) && bool_decide (".." ∉ parse_path n) &&
  match parse_path n with
  | c :: _ => negb (bool_decide (c = BUNDLE_MANIFEST)) && negb (bool_decide (c = BUNDLE_MANIFEST_TMP))
  | [] => false
  end.
Definition names_okb (ns : list str) : bool :=
  bool_decide (NoDup ns) && forallb name_okb ns &&
  forallb (λ n, forallb (λ m, bool_decide (n = m)
    || negb (bool_decide (parse_path n `prefix_of` parse_path m))) ns) ns.

Lemma name_okb_sound n : name_okb n = true → name_ok n.
Proof.
  unfold name_okb, name_ok, key_ok. intros H. destruct (parse_path n) as [|c k] eqn:E.
  { by rewrite andb_false_r in H. }
  bool_to_prop. split_and!; [done|done|done|]. intros c' k' [= <- <-]. bool_to_prop. done.
Qed.

Lemma names_okb_sound ns : names_okb ns = true → names_ok ns.
Proof.
  unfold names_okb, names_ok. intros H. bool_to_prop. split_and!; [done| |].
  - apply Forall_forall. intros n Hn. apply name_okb_sound.
    by eapply (forallb_elem name_okb).
  - intros n m Hn Hm Hne.
    pose proof (forallb_elem _ n _ H0 Hn) as H2. cbv beta in H2.
    pose proof (forallb_elem _ m _ H2 Hm) as H3. cbv beta in H3.
    apply orb_true_iff in H3 as [H3|H3]; bool_to_prop; done.
Qed.

(** The empty tree. *)
Definition fs_init : Fs := {| nodes := {[ [] := NDir ]}; mtimes := ∅; fs_clock := 0 |}.

Lemma fs_init_wf : fs_wf fs_init.
Proof.
  split; [done|]. intros p c n H. simpl in H. apply lookup_singleton_Some in H as [H _].
  by destruct p.
Qed.

Lemma fs_init_storable p :
  key_ok p → check_bundle_path_collision [] (resolve [] p) fs_init = Ok tt →
  storable [] p fs_init.
Proof.
  intros Hp Hc. split_and!; [done|done| |].
  - intros q d _ H. simpl in H. apply lookup_singleton_Some in H as [_ H]. done.
  - rewrite resolve_key by done. simpl. by rewrite lookup_singleton_ne.
Qed.

Definition demo_path : str := "inbox/bob/m1".
Definition demo_files : list (str * bytes) := [("a.txt", "hello"); ("sub/b", "")].
Definition demo_meta : dict :=
  [("schema_version", JInt 1);
   ("files", JList [JDict [("name", JStr "a.txt"); ("size", JInt 5)];
                    JDict [("name", JStr "sub/b"); ("size", JInt 0)]])].

Lemma demo_storable : storable [] demo_path fs_init.
Proof.
  apply fs_init_storable; [|by vm_compute].
  split_and!; [done| |done]. unfold lexical. vm_compute. set_solver.
Qed.
Lemma demo_names : names_ok demo_files.*1.
Proof. apply names_okb_sound. by vm_compute. Qed.
Lemma demo_declares : declares demo_meta (written_of demo_files).
Proof. apply commit_checks_Ok. by vm_compute. Qed.
Lemma demo_wf : json_wf (JDict demo_meta) = true.
Proof. by vm_compute. Qed.

(** The tree after the demonstration bundle was stored. *)
Definition demo_fs : Fs := (store_bundle [] demo_path demo_files demo_meta fs_init).2.

Lemma demo_fs_wf : fs_wf demo_fs.
Proof. apply fs_wfb_sound. by vm_compute. Qed.

(** Deciding [key_ok]. *)
Definition key_okb (p : str) : bool :=
  negb (startswith "/" p) && bool_decide (".." ∉ parse_path p) && bool_decide (parse_path p ≠ []).
Lemma key_okb_sound p : key_okb p = true → key_ok p.
Proof. unfold key_okb, key_ok. intros H. bool_to_prop. done. Qed.

Lemma lexical_nil : lexical [].
Proof. by intros ?%not_elem_of_nil. Qed.

(** ** Properties *)

(** C7: a stored bundle reads back: on a free path, with file names that do not
    shadow one another or the manifest and metadata that declares exactly the
    files written with their sizes, storing succeeds, and afterwards the
    manifest and every file read as they were given, while every path outside
    the bundle, the directories leading to it apart, is as before. *)
Theorem store_bundle_reads_back root p files meta fs :
  lexical root → fs_wf fs → storable root p fs → names_ok files.*1 →
  declares meta (written_of files) → json_wf (JDict meta) = true →
  ∃ w fs', store_bundle root p files meta fs = (Ok w, fs') ∧ fs_wf fs' ∧
    read_bundle_meta root p fs' = (Ok meta, fs') ∧
    (∀ n d, (n, d) ∈ files → open_bundle_file_read root p n fs' = (Ok d, fs')) ∧
    (∀ q n, ¬ resolve root p `prefix_of` q →
       ¬ q `prefix_of` resolve root p → nodes fs' !! q = Some n ↔ nodes fs !! q = Some n).
Proof.
  intros Hroot Hwf Hst Hok Hdecl Hw. pose proof Hst as (Hp & _).
  pose proof (resolve_lexical root p Hroot Hp) as HD.
  destruct (open_and_write_spec root Hroot Hwf Hst Hok) as (fs1 & fs2 & E & Hadd & Hs).
  destruct (commit_spec HD Hs Hok Hdecl) as (w & fs' & Ec & _ & Hct & Hwf').
  exists w, fs'. split_and!.
  - unfold store_bundle. unfold bind in E |- *.
    destruct (open_bundle_write root p fs) as [[w0|e] fs0]; [|done]. by rewrite E, Ec.
  - done.
  - by eapply read_bundle_meta_committed.
  - intros n d Hn. destruct Hok as (_ & Hok & _).
    rewrite Forall_forall in Hok. destruct (Hok n) as [Hkn Hres].
    { apply list_elem_of_fmap. by exists (n, d). }
    eapply open_bundle_file_read_committed; [done..|]. rewrite Hct, decide_False.
    + by eapply se_file.
    + intros Hq%app_inv_head. by destruct (Hres _ _ Hq).
  - intros q n Hq Hq'. rewrite Hct, decide_False by (intros ->; apply Hq; by eexists).
    rewrite (se_frame _ _ _ _ Hs q Hq), Hadd.
    destruct (nodes fs !! q); [done|]. rewrite decide_False; [done|].
    intros Hp'. apply Hq'. by apply under_parent.
Qed.

Lemma store_bundle_reads_back_witness :
  ∃ w fs', store_bundle [] demo_path demo_files demo_meta fs_init = (Ok w, fs')
    ∧ read_bundle_meta [] demo_path fs' = (Ok demo_meta, fs')
    ∧ open_bundle_file_read [] demo_path "a.txt" fs' = (Ok "hello", fs').
Proof.
  destruct (store_bundle_reads_back [] demo_path demo_files demo_meta fs_init)
    as (w & fs' & E & _ & Hm & Hf & _).
  - exact lexical_nil.
  - exact fs_init_wf.
  - exact demo_storable.
  - exact demo_names.
  - exact demo_declares.
  - exact demo_wf.
  - exists w, fs'. split_and!; [exact E|exact Hm|]. apply Hf. by left.
Defined.

(** C18: commits are atomic and aborts are clean: after any number of writes the
    bundle is invisible to every read until the commit; a commit whose metadata
    does not declare exactly the written files is a [ValueError] that changes
    nothing; and aborting leaves the tree as it was before the open, the
    directories leading to the bundle apart. *)
Theorem uncommitted_bundle_invisible root p files meta fs :
  lexical root → fs_wf fs → storable root p fs → names_ok files.*1 →
  ∃ w fs2, (w <- open_bundle_write root p;; write_all w files) fs = (Ok w, fs2) ∧
    read_bundle_meta root p fs2 = (Raise (OSError ENOENT ("Bundle not found: " +:+ p)), fs2) ∧
    (∀ n, open_bundle_file_read root p n fs2
          = (Raise (OSError ENOENT ("Bundle not found: " +:+ p)), fs2)) ∧
    (¬ declares meta (written_of files) →
     ∃ msg, commit w meta fs2 = (Raise (ValueError PlainValueError msg), fs2)) ∧
    ∃ fs3, abort w fs2 = (Ok tt, fs3) ∧ dirs_added (parent (resolve root p)) fs fs3.
Proof.
  intros Hroot Hwf Hst Hok. pose proof Hst as (Hp & _ & _ & HD).
  pose proof (resolve_lexical root p Hroot Hp) as Hl.
  destruct (open_and_write_spec root Hroot Hwf Hst Hok) as (fs1 & fs2 & E & Hadd & Hs).
  exists (writer_of (resolve root p) files), fs2. split; [done|].
  destruct (read_bundle_meta_missing root p fs2 Hl) as [Hm Hf].
  { intros d. pose proof (session_reserved _ _ _ _ _ Hs Hok (or_introl eq_refl) []) as H.
    by rewrite app_nil_r in H; rewrite H. }
  split_and!; [done|done| |].
  - intros Hnd. unfold commit, bind, of_res. cbn [w_written writer_of].
    destruct (commit_checks (written_of files) meta) as [[]|e] eqn:Ec.
    + by apply commit_checks_Ok in Ec.
    + apply commit_checks_Raise in Ec as [msg ->]. by exists msg.
  - exists (remove_tree (resolve root p) fs2). split.
    + unfold abort, catch. cbn [w_committed w_dir writer_of].
      by rewrite rmtree_lexical by (done || apply (se_dir _ _ _ _ Hs)).
    + eapply remove_tree_dirs; [done..| |done|done].
      rewrite resolve_key by done. by destruct root.
Qed.

Lemma uncommitted_bundle_invisible_witness :
  ∃ w fs2,
    (w <- open_bundle_write [] demo_path;; write_all w demo_files) fs_init = (Ok w, fs2) ∧
    read_bundle_meta [] demo_path fs2
      = (Raise (OSError ENOENT ("Bundle not found: " +:+ demo_path)), fs2).
Proof.
  destruct (uncommitted_bundle_invisible [] demo_path demo_files [] fs_init)
    as (w & fs2 & E & Hm & _).
  - exact lexical_nil.
  - exact fs_init_wf.
  - exact demo_storable.
  - exact demo_names.
  - exists w, fs2. split; [exact E|exact Hm].
Defined.

(** C19: the listing is exact: under a well-formed tree and a prefix inside the
    data directory, [list_bundles] returns, in the order of the paths, one
    reference for each directory strictly below the prefix that holds a file
    and is not inside another such directory: with [has_meta] when one of its
    files is the manifest, and without, when orphans are asked for, otherwise. *)
Theorem list_bundles_exact root prefix io fs :
  fs_wf fs → lexical root → key_ok prefix →
  nodes fs !! resolve root prefix = Some NDir →
  ∃ refs, (list_bundles root prefix io fs).1 = Ok refs ∧ StronglySorted ref_le refs ∧
    ∀ ref, ref ∈ refs ↔ ∃ k,
      let d := resolve root prefix ++ k in
      k ≠ [] ∧ nodes fs !! d = Some NDir ∧
      (∀ i, i `prefix_of` k → i ≠ [] → i ≠ k → child_files fs (resolve root prefix ++ i) = []) ∧
      child_files fs d ≠ [] ∧
      ((br_has_meta ref = true ∧ BUNDLE_MANIFEST ∈ child_files fs d) ∨
       (br_has_meta ref = false ∧ io = true ∧ BUNDLE_MANIFEST ∉ child_files fs d)) ∧
      br_path ref = as_posix (parse_path prefix ++ k) ∧ br_mtime ref = mtime fs d.
Proof.
  intros Hwf Hroot Hp HD. eexists. split; [by apply list_bundles_walk|]. split.
  - apply (StronglySorted_merge_sort _).
  - intros ref. by apply listed_refs.
Qed.

Lemma list_bundles_exact_witness :
  ∃ refs, (list_bundles [] "inbox" false demo_fs).1 = Ok refs ∧
    ∃ ref, ref ∈ refs ∧ br_path ref = demo_path.
Proof.
  destruct (list_bundles_exact [] "inbox" false demo_fs) as (refs & E & _ & H).
  - exact demo_fs_wf.
  - exact lexical_nil.
  - apply key_okb_sound. vm_compute. reflexivity.
  - vm_compute. reflexivity.
  - exists refs. split; [exact E|].
    exists {| br_path := demo_path; br_has_meta := true; br_mtime := 0 |}.
    split; [|reflexivity]. apply H. exists ["bob"; "m1"]. cbn zeta. split_and!.
    + discriminate.
    + vm_compute. reflexivity.
    + intros i Hi Hi0 Hik. destruct i as [|c [|c' i]]; [destruct (Hi0 eq_refl)| |].
      * apply prefix_cons_inv_1 in Hi as ->. vm_compute. reflexivity.
      * pose proof (prefix_cons_inv_1 _ _ _ _ Hi) as ->. apply prefix_cons_inv_2 in Hi.
        pose proof (prefix_cons_inv_1 _ _ _ _ Hi) as ->. apply prefix_cons_inv_2 in Hi.
        apply prefix_nil_inv in Hi as ->. destruct (Hik eq_refl).
    + vm_compute. discriminate.
    + left. split; [reflexivity|]. apply elem_of_child_files. eexists. vm_compute. reflexivity.
    + vm_compute. reflexivity.
    + vm_compute. reflexivity.
Defined.

(** A bundle directory is deleted exactly: below a path that is a directory
    everything disappears and nothing else changes, the bundle can no longer be
    read, and any other path is [FileNotFoundError] without effect. *)
Theorem delete_bundle_exact root p fs :
  fs_wf fs → lexical root → key_ok p →
  match nodes fs !! resolve root p with
  | Some NDir => ∃ fs', delete_bundle root p fs = (Ok tt, fs') ∧ fs_wf fs' ∧
      (∀ q, nodes fs' !! q
            = if decide (resolve root p `prefix_of` q) then None else nodes fs !! q) ∧
      read_bundle_meta root p fs' = (Raise (OSError ENOENT ("Bundle not found: " +:+ p)), fs')
  | _ => delete_bundle root p fs = (Raise (OSError ENOENT ("Bundle not found: " +:+ p)), fs)
  end.
Proof.
  intros Hwf Hroot Hp. pose proof (resolve_lexical root p Hroot Hp) as Hl.
  rewrite delete_bundle_lexical by done.
  destruct (nodes fs !! resolve root p) as [[]|] eqn:E; [done| |done].
  eexists. split_and!; [done| |apply nodes_remove_tree|].
  - apply fs_wf_remove_tree; [done|]. rewrite resolve_key by done. by destruct root.
  - apply read_bundle_meta_missing; [done|]. intros d. rewrite nodes_remove_tree.
    rewrite decide_True; [done|]. by eexists.
Qed.

Lemma delete_bundle_exact_witness :
  ∃ fs', delete_bundle [] demo_path demo_fs = (Ok tt, fs') ∧
    read_bundle_meta [] demo_path fs'
      = (Raise (OSError ENOENT ("Bundle not found: " +:+ demo_path)), fs').
Proof.
  assert (Hp : key_ok demo_path) by (apply key_okb_sound; vm_compute; reflexivity).
  pose proof (delete_bundle_exact [] demo_path demo_fs demo_fs_wf lexical_nil Hp) as H.
  assert (E : nodes demo_fs !! resolve [] demo_path = Some NDir) by (vm_compute; reflexivity).
  rewrite E in H. destruct H as (fs' & H & _ & _ & Hm). exists fs'. split; [exact H|exact Hm].
Defined.

(** A manifest may declare a file named like the temporary of the commit:
    [validate_manifest] accepts it, the store succeeds, and the file is gone:
    the commit has renamed it into the manifest. *)
Theorem tmp_manifest_name_is_lost :
  let files := [(BUNDLE_MANIFEST_TMP, "hi")] in
  let meta := [("files", JList [JDict [("name", JStr BUNDLE_MANIFEST_TMP); ("size", JInt 2)]])] in
  let r := store_bundle [] demo_path files meta fs_init in
  validate_manifest {| um_file_count := 1; um_files :=
    [{| mf_name := BUNDLE_MANIFEST_TMP; mf_size := 2; mf_mime := None |}] |} = Ok tt ∧
  (∃ w, r.1 = Ok w) ∧
  (read_bundle_meta [] demo_path r.2).1 = Ok meta ∧
  (open_bundle_file_read [] demo_path BUNDLE_MANIFEST_TMP r.2).1
    = Raise (OSError ENOENT "File not found: inbox/bob/m1/.meta.json.tmp").
Proof. split_and!; [..|eexists| |]; vm_compute; reflexivity. Qed.

(** A validated key stays inside the data directory: whatever the outcome of
    [put], no path changes but those below [data/] and the directories leading
    to it. *)
Theorem put_contained root key data fs q :
  lexical root → validate_path key None = Ok tt →
  ¬ data_root root `prefix_of` q → ¬ q `prefix_of` data_root root →
  nodes (put root key data fs).2 !! q = nodes fs !! q.
Proof.
  intros Hroot Hv Hq1 Hq2. destruct (validated_resolve root key Hroot Hv) as [E Hl].
  apply put_frame; [done|]. rewrite E. intros [Hq|(j & -> & _)]%prefix_of_app_inv; [done|].
  apply Hq1. by eexists.
Qed.

Lemma put_contained_witness :
  nodes (put ["srv"] "notes/today" "x" fs_init).2 !! ["etc"] = nodes fs_init !! ["etc"].
Proof.
  apply (put_contained ["srv"] "notes/today" "x" fs_init ["etc"]).
  - unfold lexical. set_solver.
  - vm_compute. reflexivity.
  - intros H%prefix_cons_inv_1. discriminate.
  - intros H%prefix_cons_inv_1. discriminate.
Defined.

(** C28: bundles never nest: when [open_bundle_write] succeeds, the new bundle
    directory did not exist, no committed bundle lies below it, and no committed
    bundle between its namespace root ([store], or [inbox] and a recipient) and
    itself contains it. *)
Theorem open_bundle_write_no_nesting root p ns k fs w fs' :
  fs_wf fs → lexical root → key_ok p → parse_path p = ns ++ k →
  length ns = namespace_depth (parse_path p) → k ≠ [] →
  open_bundle_write root p fs = (Ok w, fs') →
  (∀ d, resolve root p `prefix_of` d → ¬ committed fs d) ∧
  (∀ j, j ≠ [] → j `prefix_of` k → ¬ committed fs (data_root root ++ ns ++ j)).
Proof.
  intros Hwf Hroot Hp Ens Hlen Hk Hopen.
  pose proof (resolve_lexical root p Hroot Hp) as Hl.
  apply open_bundle_write_Ok in Hopen as (Hc & HD & _); [|done].
  assert (E : resolve root p = data_root root ++ parse_path p).
  { rewrite resolve_key by done. change (data_root root) with (root ++ ["data"]).
    by rewrite <- app_assoc. }
  assert (Habove : ∀ d, resolve root p `prefix_of` d → ¬ committed fs d).
  { intros d [r ->] [m Hm]. rewrite (fs_wf_absent fs (resolve root p)) in Hm; [done|done|done|].
    eexists. by rewrite <- app_assoc. }
  split; [done|]. intros j Hj Hjk Hcom.
  destruct (decide (j = k)) as [->|Hjk'].
  { apply (Habove (resolve root p)); [done|]. by rewrite E, Ens. }
  unfold check_bundle_path_collision, relative_to in Hc.
  rewrite E, decide_True, drop_app_length in Hc by by eexists. cbv beta iota zeta in Hc.
  rewrite Ens in Hc, Hlen. rewrite <- Hlen, take_app_length in Hc.
  rewrite decide_False in Hc by (by destruct ns).
  rewrite decide_False in Hc by (rewrite length_app; destruct k; [done|simpl; lia]).
  rewrite parent_app, (parent_app ns) in Hc by (done || by destruct ns).
  destruct (check_ancestors _ _ _ _ _) as [[]|] eqn:Ec; [|done].
  pose proof (committed_looks_like fs (data_root root ++ ns ++ j) Hwf) as Hlook.
  rewrite (check_ancestors_Ok root _ _ _ _ Ec) in Hlook; [| | |done|].
  - discriminate Hlook; [|done]. rewrite E, Ens in Hl.
    destruct Hjk as [r ->]. rewrite !lexical_app in *. tauto.
  - destruct (exists_last Hk) as (k' & c & ->). rewrite parent_snoc, !length_app. lia.
  - destruct ns; [|done]. exfalso. simpl in Hlen.
    destruct k; [done|]. simpl in Hlen. by case_decide.
  - destruct (exists_last Hk) as (k' & c & ->). rewrite parent_snoc.
    by apply prefix_snoc_inv in Hjk as [->|?].
Qed.

Lemma open_bundle_write_no_nesting_witness :
  ¬ committed demo_fs (data_root [] ++ ["inbox"; "bob"] ++ ["m2"]).
Proof.
  apply (open_bundle_write_no_nesting [] "inbox/bob/m2/x" ["inbox"; "bob"] ["m2"; "x"] demo_fs
    (writer_of (resolve [] "inbox/bob/m2/x") []) (open_bundle_write [] "inbox/bob/m2/x" demo_fs).2).
  - exact demo_fs_wf.
  - exact lexical_nil.
  - apply key_okb_sound. vm_compute. reflexivity.
  - vm_compute. reflexivity.
  - vm_compute. reflexivity.
  - discriminate.
  - vm_compute. reflexivity.
  - discriminate.
  - exists ["x"]. reflexivity.
Defined.
