(* ===== verification/Leases.v ===== *)
(** * Leases

    The lease operations of [backends/filesystem/storage.py]: the table
    [self._leases] of every process that serves the same directory, and the
    [flock] locks on the files under [locks/], which belong to open file
    descriptions and so exclude each other within a process as well.  A
    process that dies loses its table and its locks. *)

From Stdlib Require Import Ascii String.
From S2P Require Import Prelude PyStr Effects.
Local Open Scope string_scope.
Local Open Scope list_scope.
Local Open Scope effect_scope.

(** [_LeaseInfo]; the descriptor is the entry of [ls_flocks]. *)
Record LeaseInfo := { li_lease_id : str }.

Record LeaseSys := mkLeaseSys {
  ls_tables : gmap nat (gmap str LeaseInfo);
  ls_flocks : gmap str nat;
  ls_next : nat;
  ls_log : list event;
}.

Definition table (p : nat) (s : LeaseSys) : gmap str LeaseInfo := default ∅ (ls_tables s !! p).
Definition set_table (p : nat) (t : gmap str LeaseInfo) (s : LeaseSys) : LeaseSys :=
  mkLeaseSys (<[p := t]> (ls_tables s)) (ls_flocks s) (ls_next s) (ls_log s).
Definition set_flocks (f : gmap str nat → gmap str nat) (s : LeaseSys) : LeaseSys :=
  mkLeaseSys (ls_tables s) (f (ls_flocks s)) (ls_next s) (ls_log s).
Definition log_lease (l : log_level) (name : str) (s : LeaseSys) : LeaseSys :=
  mkLeaseSys (ls_tables s) (ls_flocks s) (ls_next s) (ls_log s ++ [Log l name]).

Section leases.
(** The results of [uuid.uuid4().hex], and whether the lock file of a key can
    be opened. *)
Variable uuid_hex : nat → str.
Variable open_ok : str → bool.

(** [acquire_lease] of the process [p]; the lifetime is an argument of the
    method that its body does not use. *)
Definition acquire_lease (p : nat) (key : str) (ttl_seconds : Z) : M LeaseSys (option str) :=
  s <- get;;
  match table p s !! key with
  | Some _ => ret None
  | None =>
      if negb (open_ok key) then modify (log_lease ERROR "lease.open_failed");;; ret None
      else match ls_flocks s !! key with
      | Some _ => ret None
      | None =>
          let lease_id := uuid_hex (ls_next s) in
          modify (set_flocks (insert key p));;;
          modify (λ s, mkLeaseSys (<[p := <[key := {| li_lease_id := lease_id |}]> (table p s)]>
                                     (ls_tables s))
                         (ls_flocks s) (S (ls_next s)) (ls_log s));;;
          modify (log_lease INFO "lease.acquired");;;
          ret (Some lease_id)
      end
  end.

(** [info is None or info.lease_id != lease_id]. *)
Definition holds (info : option LeaseInfo) (lease_id : str) : bool :=
  match info with Some i => bool_decide (li_lease_id i = lease_id) | None => false end.

Definition renew_lease (p : nat) (key lease_id : str) : M LeaseSys bool :=
  s <- get;;
  if holds (table p s !! key) lease_id
  then modify (log_lease DEBUG "lease.renewed");;; ret true else ret false.

(** [release_lease]; [unlock_fails] is an [OSError] of the unlock, which leaves
    the lock held. *)
Definition release_lease (unlock_fails : bool) (p : nat) (key lease_id : str) : M LeaseSys bool :=
  s <- get;;
  if holds (table p s !! key) lease_id then
    (if unlock_fails then modify (log_lease ERROR "lease.release_error")
     else modify (set_flocks (delete key)));;;
    modify (λ s, set_table p (delete key (table p s)) s);;;
    modify (log_lease INFO "lease.released");;;
    ret true
  else ret false.

(** The end of a process. *)
Definition crash (p : nat) (s : LeaseSys) : LeaseSys :=
  mkLeaseSys (delete p (ls_tables s)) (filter (λ kv, kv.2 ≠ p) (ls_flocks s)) (ls_next s) (ls_log s).

(** ** The system *)

Inductive lease_step : LeaseSys → LeaseSys → Prop :=
  | step_acquire p key ttl s : lease_step s (acquire_lease p key ttl s).2
  | step_renew p key id s : lease_step s (renew_lease p key id s).2
  | step_release f p key id s : lease_step s (release_lease f p key id s).2
  | step_crash p s : lease_step s (crash p s).

Definition lease_init : LeaseSys := mkLeaseSys ∅ ∅ 0 [].

(** Every table entry is backed by a lock of its process. *)
Definition backed (s : LeaseSys) : Prop :=
  ∀ p key i, table p s !! key = Some i → ls_flocks s !! key = Some p.

Lemma acquire_backed p key ttl s : backed s → backed (acquire_lease p key ttl s).2.
Proof.
  intros Hb. unfold acquire_lease, bind, get.
  destruct (table p s !! key) as [i|] eqn:E; [done|].
  destruct (open_ok key); [|done]. cbn [negb].
  destruct (ls_flocks s !! key) as [o|] eqn:Ef; [done|].
  intros q k i. unfold table at 1. cbn. destruct (decide (q = p)) as [->|Eq].
  - rewrite lookup_insert_eq. cbn. intros [[<- _]|[Hne Hk]]%lookup_insert_Some; [by rewrite lookup_insert_eq|].
    rewrite lookup_insert_ne by done. by eapply Hb.
  - rewrite lookup_insert_ne by done. fold (table q s). intros Hk.
    pose proof (Hb q k i Hk) as Hq. rewrite lookup_insert_ne; [done|]. congruence.
Qed.

Lemma release_backed f p key id s : backed s → backed (release_lease f p key id s).2.
Proof.
  intros Hb. unfold release_lease, bind, get.
  destruct (holds (table p s !! key) id) eqn:E; [|done].
  assert (Hown : ls_flocks s !! key = Some p).
  { destruct (table p s !! key) as [i|] eqn:Ek; [by eapply Hb|done]. }
  assert (Hrest : ∀ q k i, default ∅ (<[p := delete key (table p s)]> (ls_tables s) !! q) !! k = Some i →
    ls_flocks s !! k = Some q ∧ k ≠ key).
  { intros q k i. destruct (decide (q = p)) as [->|Hne].
    - rewrite lookup_insert_eq. cbn. intros [Hne Hk]%lookup_delete_Some. split; [by eapply Hb|done].
    - rewrite lookup_insert_ne by done. intros Hk. fold (table q s) in Hk.
      pose proof (Hb q k i Hk) as Hq. split; [done|]. congruence. }
  destruct f; intros q k i; unfold table at 1; cbn; intros [Hk Hne]%Hrest; [done|].
  by rewrite lookup_delete_ne.
Qed.

Lemma crash_backed p s : backed s → backed (crash p s).
Proof.
  intros Hb q k i. unfold table, crash. cbn.
  destruct (decide (q = p)) as [->|Hne]; [by rewrite lookup_delete_eq|].
  rewrite lookup_delete_ne by done. intros Hk. apply map_lookup_filter_Some. split; [|done].
  by eapply Hb.
Qed.

Lemma steps_backed s : rtc lease_step lease_init s → backed s.
Proof.
  assert (H0 : backed lease_init) by (intros ???; unfold table; cbn; by rewrite lookup_empty).
  revert H0. generalize lease_init. intros s0 H0 Hs. induction Hs as [|s1 s2 s3 Hstep _ IH]; [done|].
  apply IH. destruct Hstep as [p k t s|p k i s|f p k i s|p s].
  - by apply acquire_backed.
  - unfold renew_lease, bind, get. by destruct (holds _ _).
  - by apply release_backed.
  - by apply crash_backed.
Qed.
End leases.

(** ** Properties *)

(** C25: leases exclude each other: in every state the processes can reach by
    acquiring, renewing, releasing and crashing, no two processes hold the same
    key; a renewal or release succeeds exactly for a holder that gives its own
    lease id; and while a process holds a key every acquisition of it by any
    process is refused, whatever lifetime the holder asked for and however
    long ago. *)
Theorem lease_mutual_exclusion uuid open_ok s p q key i j ttl id :
  rtc (lease_step uuid open_ok) lease_init s →
  table p s !! key = Some i → table q s !! key = Some j →
  p = q ∧
  (∀ r, (acquire_lease uuid open_ok r key ttl s).1 = Ok None) ∧
  (renew_lease p key id s).1 = Ok (bool_decide (li_lease_id i = id)) ∧
  (∀ f, (release_lease f p key id s).1 = Ok (bool_decide (li_lease_id i = id))).
Proof.
  intros Hs%steps_backed Hi Hj. pose proof (Hs _ _ _ Hi) as Hp. pose proof (Hs _ _ _ Hj) as Hq.
  split_and!; [congruence| | |].
  - intros r. unfold acquire_lease, bind, get. destruct (table r s !! key); [done|].
    destruct (open_ok key); [|done]. cbn [negb]. by rewrite Hp.
  - unfold renew_lease, bind, get. rewrite Hi. cbn. by case_bool_decide.
  - intros f. unfold release_lease, bind, get. rewrite Hi. cbn. by case_bool_decide; destruct f.
Qed.

Definition demo_uuid (n : nat) : str := if decide (n = 0)%nat then "id0" else "idn".
Definition demo_held : LeaseSys :=
  (acquire_lease demo_uuid (λ _, true) 1 "ttl-cleanup" 60 lease_init).2.

Lemma lease_mutual_exclusion_witness :
  (acquire_lease demo_uuid (λ _, true) 2 "ttl-cleanup" 60 demo_held).1 = Ok None ∧
  (renew_lease 1 "ttl-cleanup" "id0" demo_held).1 = Ok true.
Proof.
  destruct (lease_mutual_exclusion demo_uuid (λ _, true) demo_held 1 1 "ttl-cleanup"
    {| li_lease_id := "id0" |} {| li_lease_id := "id0" |} 60 "id0") as (_ & Ha & Hr & _).
  - eapply rtc_l; [apply (step_acquire _ _ 1 "ttl-cleanup" 60)|apply rtc_refl].
  - reflexivity.
  - reflexivity.
  - split; [exact (Ha 2)|exact Hr].
Defined.
