(* ===== verification/Cli.v ===== *)
(** * The command line

    [cli/]: the commands [upload], [download], [send] and [capabilities].  A
    command runs on a [Terminal]: the local file system, the two output
    streams and the state [N] of the network.  The HTTP client is the argument
    [send_request]; a reply is its status and the pieces its body arrives in,
    the last of which may be a failure.  The archive writer of [tarfile] is the
    argument [tar_writer], the owner of local files, the text an undecodable
    body prints and the environment are arguments too.  [_run_async] is the
    identity; options that [typer] itself rejects do not reach the commands. *)

From Stdlib Require Import Ascii String.
From stdpp Require Import pretty.
From S2P Require Import Prelude PyStr PyCodec Json Effects PyNum Paths Limits Config.
From S2P Require Import Jwt FsModel Storage.
Local Open Scope string_scope.
Local Open Scope list_scope.
Local Open Scope effect_scope.

(** ** HTTP *)

(** What a request carries; the pieces of a streamed body are computed while
    they are sent, and computing one can raise. *)
Inductive CallBody := NoBody | JsonBody (j : json) | StreamBody (pieces : list (res bytes)).
Record HttpCall := {
  hc_method : str;
  hc_base : str;
  hc_url : str;
  hc_headers : list (str * str);
  hc_body : CallBody;
}.
Record HttpReply := { hr_status : Z; hr_pieces : list (res bytes) }.

(** [httpx.HTTPError]. *)
Definition is_HTTPError (e : exn) : bool :=
  match e with HTTPStatusError | RequestError _ => true | _ => false end.

(** The pieces of a body up to a failure. *)
Fixpoint gather (pieces : list (res bytes)) : res bytes :=
  match pieces with
  | [] => Ok ""
  | Raise e :: _ => Raise e
  | Ok b :: rest => r <-? gather rest;; Ok (b +:+ r)
  end.

(** [json.loads] of a body: an error is a [ValueError]. *)
Definition loads_body (body : bytes) : res json :=
  match utf8_decode body ≫= json_loads with
  | Some j => Ok j
  | None => Raise (ValueError PlainValueError "JSONDecodeError")
  end.

(** [urlparse(url).path]. *)
Definition before (c : ascii) (s : str) : str := match split1 c s with Some (p, _) => p | None => s end.
Definition url_path (raw : str) : str :=
  let url := drop_unsafe raw in
  let rest := match split1 ":" url with
    | Some (s, rest) => if is_scheme s then rest else url
    | None => url
    end in
  let rest := if startswith "//" rest
              then str_drop (2 + String.length (take_netloc (str_drop 2 rest))) rest else rest in
  let path := before "?" (before "#" rest) in
  match rsplit1 "/" path with
  | Some (dir, leaf) => dir +:+ "/" +:+ before ";" leaf
  | None => before ";" path
  end.

(** [str(d.get(k, default))] and [d[k]] on a decoded body. *)
Definition repr_json (j : json) : str := match j with JStr s => repr s | _ => py_str j end.

(** ** Archives *)

(** The fields of a [TarInfo] that the commands read or set. *)
Record MemberInfo := {
  mi_name : str;
  mi_size : Z;
  mi_isreg : bool;
  mi_uid : Z; mi_gid : Z; mi_uname : str; mi_gname : str; mi_mode : Z;
}.

(** [_strip_owner]. *)
Definition strip_owner (info : MemberInfo) : option MemberInfo :=
  if mi_isreg info then
    Some {| mi_name := mi_name info; mi_size := mi_size info; mi_isreg := true;
            mi_uid := 0; mi_gid := 0; mi_uname := ""; mi_gname := ""; mi_mode := 420 |}
  else None.

(** [tarfile.open(fileobj=buf, mode=...)]: what [addfile] and [close] put into
    the buffer. *)
Record TarWriter := {
  tw_state : Type;
  tw_open : bool → tw_state;
  tw_add : tw_state → MemberInfo → bytes → tw_state * bytes;
  tw_close : tw_state → bytes;
}.

(** ** Arguments *)

(** [_normalise_arg]. *)
Definition normalise_arg (arg : str) : res str :=
  let arg := if startswith "./" arg then str_drop 2 arg else arg in
  if decide (arg = "") then Raise (BadParameter "file argument cannot be empty")
  else if startswith "/" arg then Raise (BadParameter ("absolute path not allowed: " +:+ repr arg))
  else match validate_path arg None with
       | Ok _ => Ok arg
       | Raise (ValueError PathValidationError msg) =>
           Raise (BadParameter ("invalid path " +:+ repr arg +:+ ": " +:+ msg))
       | Raise e => Raise e
       end.

(** ** The commands *)

Record Terminal (N : Type) := mkTerminal {
  tm_fs : Fs;
  tm_out : list str;
  tm_err : list str;
  tm_net : N;
}.
Arguments mkTerminal {_}. Arguments tm_fs {_}. Arguments tm_out {_}. Arguments tm_err {_}. Arguments tm_net {_}.

Section cli.
Context {N : Type} `{PyJwt}.
Abbreviation T := (Terminal N).

Variable send_request : HttpCall → M N HttpReply.
Variable tar_writer : TarWriter.
Variable owner : path → Z * Z * str * str * Z.
Variable dir_size : Z.
Variable decode_replace : bytes → str.
Variable environ : gmap str str.
Variable stdin : bytes.
Variable cwd : path.

Definition set_fs (fs : Fs) (t : T) : T := mkTerminal fs (tm_out t) (tm_err t) (tm_net t).
Definition set_net (n : N) (t : T) : T := mkTerminal (tm_fs t) (tm_out t) (tm_err t) n.
Definition on_fs {A} (m : M Fs A) : M T A := lift tm_fs set_fs m.
Definition on_net {A} (m : M N A) : M T A := lift tm_net set_net m.

Definition print (line : str) : M T unit :=
  modify (λ t, mkTerminal (tm_fs t) (tm_out t ++ [line]) (tm_err t) (tm_net t)).
Definition eprint (line : str) : M T unit :=
  modify (λ t, mkTerminal (tm_fs t) (tm_out t) (tm_err t ++ [line]) (tm_net t)).
Definition exit_with {A} (code : Z) : M T A := raise (TyperExit code).
(** [print(msg, file=sys.stderr); raise typer.Exit(code=...)]. *)
Definition fail_with {A} (msg : str) (code : Z) : M T A := eprint msg;;; exit_with code.

Definition local (name : str) : path := joinpath cwd name.

Definition request (method base url : str) (headers : list (str * str)) (body : CallBody) : M T HttpReply :=
  on_net (send_request {| hc_method := method; hc_base := base; hc_url := url;
                          hc_headers := headers; hc_body := body |}).
(** A request whose whole reply is read. *)
Definition exchange (method base url : str) (headers : list (str * str)) (body : CallBody)
    : M T (Z * bytes) :=
  reply <- request method base url headers body;;
  content <- of_res (gather (hr_pieces reply));;
  ret (hr_status reply, content).

Definition is_success (status : Z) : bool := (200 <=? status)%Z && (status <? 300)%Z.
Definition bearer (token : str) : str * str := ("Authorization", "Bearer " +:+ token).

(** [_tar_chunks]: the non-empty contents of the buffer after each member, and
    the tail; a file that cannot be read ends the generator. *)
Fixpoint tar_members (fs : Fs) (tw : tw_state tar_writer) (files : list str) : list (res bytes) :=
  match files with
  | [] => match tw_close tar_writer tw with "" => [] | tail => [Ok tail] end
  | name :: rest =>
      match node_at fs (local name) with
      | None => [Raise (OSError ENOENT name)]
      | Some n =>
          let '(uid, gid, uname, gname, mode) := owner (local name) in
          let data := match n with NFile d => d | NDir => "" end in
          let info := {| mi_name := name; mi_size := blen data;
                         mi_isreg := match n with NFile _ => true | NDir => false end;
                         mi_uid := uid; mi_gid := gid; mi_uname := uname; mi_gname := gname;
                         mi_mode := mode |} in
          let '(tw, chunk) := match strip_owner info with
            | Some info => tw_add tar_writer tw info data
            | None => (tw, "")
            end in
          match chunk with
          | "" => tar_members fs tw rest
          | _ => Ok chunk :: tar_members fs tw rest
          end
      end
  end.
Definition tar_chunks (fs : Fs) (files : list str) (compress : bool) : list (res bytes) :=
  tar_members fs (tw_open tar_writer compress) files.

Definition tar_headers (token : str) (compress : bool) : list (str * str) :=
  [bearer token; ("Content-Type", "application/x-tar")]
  ++ if compress then [("Content-Encoding", "gzip")] else [].

(** *** [cli/upload.py] *)

Definition upload (files : list str) (url token : str) (no_compress : bool) : M T unit :=
  normalised <- of_res (map_res normalise_arg files);;
  let compress := negb no_compress in
  t <- get;;
  '(status, content) <- catch
    (exchange "POST" "" url (tar_headers token compress)
       (StreamBody (tar_chunks (tm_fs t) normalised compress)))
    (λ e, if is_HTTPError e then
       Some (fail_with ("upload failed: " +:+ match e with RequestError m => m | _ => "" end) 1)
     else None);;
  if is_success status then
    body <- catch (of_res (loads_body content)) (λ e,
      if is_ValueError e
      then Some (fail_with ("unexpected non-json 2xx response: " +:+ decode_replace content) 1)
      else None);;
    d <- of_res (as_dict body);;
    print ("bundle_id=" +:+ get_str "bundle_id" "" d);;;
    exit_with 0
  else
    eprint (decode_replace content);;;
    if bool_decide (400 <= status < 500)%Z then exit_with 2 else exit_with 3.

(** *** [cli/send.py] *)

Definition raise_for_send (status : Z) (content : bytes) : M T unit :=
  if is_success status then ret tt
  else
    eprint (decode_replace content);;;
    if bool_decide (400 <= status < 500)%Z then exit_with 2 else exit_with 3.

(** [os.path.getsize]; of a directory it is [dir_size]. *)
Definition getsize (name : str) : M T Z :=
  t <- get;;
  match node_at (tm_fs t) (local name) with
  | None => raise (OSError ENOENT name)
  | Some (NFile d) => ret (blen d)
  | Some NDir => ret dir_size
  end.

Definition manifest_entry (name : str) : M T json :=
  size <- getsize name;;
  ret (JDict [("name", JStr name); ("size", JInt size)]).

(** [_send_async]: the two phases. *)
Definition send_async (base to path : str) (files : list str) (api_key : str) (compress : bool)
    : M T str :=
  entries <- map_m manifest_entry files;;
  let manifest := JDict [("file_count", JInt (Z.of_nat (length files))); ("files", JList entries)] in
  '(status, content) <- exchange "POST" base "/uploads" [bearer api_key]
    (JsonBody (JDict [("to", JStr to); ("path", JStr path); ("manifest", manifest)]));;
  raise_for_send status content;;;
  init <- of_res (j <-? loads_body content;; as_dict j);;
  upload_url <- of_res (dict_item "upload_url" init);;
  batch_token <- of_res (dict_item "batch_token" init);;
  bundle_id <- of_res (dict_item "bundle_id" init);;
  t <- get;;
  url <- of_res (match upload_url with JStr u => Ok u | _ => Raise (OtherError "AttributeError") end);;
  '(status, content) <- exchange "POST" base (url_path url)
    (tar_headers (py_str batch_token) compress)
    (StreamBody (tar_chunks (tm_fs t) files compress));;
  raise_for_send status content;;;
  done <- of_res (j <-? loads_body content;; as_dict j);;
  ret (py_str (default bundle_id (dict_get "bundle_id" done))).

(** [x or os.environ.get(name)], the empty string being no value. *)
Definition option_or_env (x : option str) (name : str) : str :=
  match x with
  | Some s => if decide (s = "") then default "" (environ !! name) else s
  | None => default "" (environ !! name)
  end.

Definition send (files : list str) (to path : str) (url api_key : option str) : M T unit :=
  let resolved_url := option_or_env url "CASSETTA_URL" in
  let resolved_key := option_or_env api_key "CASSETTA_API_KEY" in
  if bool_decide (resolved_url = "" ∨ resolved_key = "") then
    let missing := join_str " and "
      (map fst (filter (λ lv : str * str, lv.2 = "") [("url", resolved_url); ("api key", resolved_key)])) in
    fail_with ("missing " +:+ missing
      +:+ ": set --url/--api-key or CASSETTA_URL/CASSETTA_API_KEY") 2
  else
    normalised <- of_res (map_res normalise_arg files);;
    bundle_id <- catch (send_async resolved_url to path normalised resolved_key true)
      (λ e, if is_HTTPError e then
         Some (fail_with ("send failed: " +:+ match e with RequestError m => m | _ => "" end) 1)
       else None);;
    print ("bundle_id=" +:+ bundle_id).

(** *** [cli/download.py] *)

(** [_decode_recipient]. *)
Definition decode_recipient (token : str) : option str :=
  match jwt_unverified token with
  | None => None
  | Some claims =>
      match dict_get "recipient" claims with
      | Some r => if py_truthy r then Some (py_str r) else None
      | None => None
      end
  end.

(** [_load_envelope]. *)
Definition load_envelope (manifest_json : str) : M T dict :=
  raw <- (if decide (manifest_json = "-") then ret stdin else on_fs (read_bytes (local manifest_json)));;
  text <- of_res (match utf8_decode raw with
                  | Some text => Ok text
                  | None => Raise (ValueError PlainValueError "'utf-8' codec can't decode bytes")
                  end);;
  match json_loads text with
  | None => fail_with "manifest is not valid JSON" 2
  | Some (JDict envelope) => ret envelope
  | Some _ => fail_with "manifest must be a JSON object" 2
  end.

(** [async for chunk in resp.aiter_bytes(): f.write(chunk)]: a failure leaves
    what was written. *)
Fixpoint write_pieces (dest : path) (pieces : list (res bytes)) : M T unit :=
  match pieces with
  | [] => ret tt
  | Raise e :: _ => raise e
  | Ok chunk :: rest =>
      when (negb (bool_decide (chunk = ""))) (on_fs (append_bytes dest chunk));;;
      write_pieces dest rest
  end.

(** [_write_file_streaming]. *)
Definition write_file_streaming (url : str) (headers : list (str * str)) (dest : path) : M T unit :=
  on_fs (mkdir_parents (parent dest));;;
  reply <- request "GET" "" url headers NoBody;;
  if is_success (hr_status reply) then
    on_fs (write_bytes dest "");;;
    write_pieces dest (hr_pieces reply)
  else
    body <- of_res (gather (hr_pieces reply));;
    eprint (decode_replace body);;;
    raise HTTPStatusError.

(** One entry of [_download_all]. *)
Definition download_entry (headers : list (str * str)) (out : path) (entry : json) : M T unit :=
  match entry with
  | JDict entry =>
      let name := get_str "name" "" entry in
      let url := get_str "url" "" entry in
      if bool_decide (name = "" ∨ url = "")
      then fail_with ("file entry missing name/url: " +:+ repr_json (JDict entry)) 2
      else write_file_streaming url headers (joinpath out name)
  | _ => fail_with ("invalid file entry (not an object): " +:+ repr_json entry) 2
  end.
Definition download_all (files : list json) (headers : list (str * str)) (out : path) : M T unit :=
  for_each files (download_entry headers out).

Definition download (manifest_json out : str) : M T unit :=
  envelope <- load_envelope manifest_json;;
  let mode := default JNull (dict_get "mode" envelope) in
  if negb (get_is "mode" "reference" envelope)
  then fail_with ("manifest mode is " +:+ repr_json mode +:+ ", not 'reference'; nothing to stream") 2
  else match dict_get "download_token" envelope with
  | Some (JStr (String _ _ as token)) =>
      match dict_get "files" envelope with
      | Some (JList ((_ :: _) as files)) =>
          let headers := [bearer token]
            ++ match decode_recipient token with Some r => [("X-Sender", r)] | None => [] end in
          on_fs (mkdir_parents (local out));;;
          catch (download_all files headers (local out)) (λ e,
            match e with
            | HTTPStatusError => Some (exit_with 2)
            | RequestError msg => Some (fail_with ("download failed: " +:+ msg) 1)
            | _ => None
            end)
      | _ => fail_with "manifest has no files to download" 2
      end
  | _ => fail_with "manifest is missing 'download_token'" 2
  end.

(** *** [cli/capabilities.py] *)

(** [doc.get(key) or []] and [or {}], which must then be what they are used
    as. *)
Definition list_or_empty (key : str) (doc : dict) : res (list json) :=
  match dict_get key doc with
  | Some j => if py_truthy j
              then match j with JList l => Ok l | _ => Raise (OtherError "TypeError") end else Ok []
  | None => Ok []
  end.
Definition dict_or_empty (key : str) (doc : dict) : res dict :=
  match dict_get key doc with
  | Some j => if py_truthy j then as_dict j else Ok []
  | None => Ok []
  end.

(** [missing if value is None else str(value)]. *)
Definition render_value (missing key : str) (d : dict) : str :=
  "  " +:+ key +:+ ": " +:+
  match default JNull (dict_get key d) with JNull => missing | j => py_str j end.

Definition LIMIT_KEYS : list str :=
  ["per_file_max"; "per_bundle_total_max"; "per_bundle_file_count_max"; "max_inline_size"].
Definition TTL_KEYS : list str :=
  ["upload_token_ttl"; "download_claim_ttl"; "passive_gc_min_age"; "passive_gc_interval"].

(** [_render]. *)
Definition render (doc : dict) : M T unit :=
  print ("Server version: " +:+ get_str "server_version" "?" doc);;;
  print ("Schema version: " +:+ get_str "schema_version" "?" doc);;;
  modes <- of_res (list_or_empty "supported_modes" doc);;
  print ("Supported modes: " +:+ join_str ", " (map py_str modes));;;
  features <- of_res (list_or_empty "features" doc);;
  print ("Features: " +:+ join_str ", " (map py_str features));;;
  limits <- of_res (dict_or_empty "limits" doc);;
  print "Limits:";;;
  for_each LIMIT_KEYS (λ key, print (render_value "unlimited" key limits));;;
  ttls <- of_res (dict_or_empty "ttls" doc);;
  print "TTLs (seconds):";;;
  for_each TTL_KEYS (λ key, print (render_value "n/a" key ttls)).

(** [_fetch]. *)
Definition fetch (url : str) (api_key : option str) : M T dict :=
  let headers := match api_key with
    | Some key => if decide (key = "") then [] else [bearer key]
    | None => []
    end in
  '(status, content) <- exchange "GET" "" (rstrip "/" url +:+ "/capabilities") headers NoBody;;
  if bool_decide (400 <= status)%Z then
    fail_with ("capabilities request failed"
      +:+ (if bool_decide (status = 401 ∨ status = 403)%Z then " (authentication)" else "")
      +:+ ": " +:+ pretty status +:+ " " +:+ strip (decode_replace content)) 2
  else
    match utf8_decode content with
    | None => value_error "'utf-8' codec can't decode bytes"
    | Some text =>
        match json_loads text with
        | None => fail_with "response is not valid JSON" 2
        | Some (JDict data) => ret data
        | Some _ => fail_with "response is not a JSON object" 2
        end
    end.

Definition capabilities (url : str) (api_key : option str) : M T unit :=
  doc <- catch (fetch url api_key) (λ e,
    match e with
    | RequestError msg => Some (fail_with ("network failure: " +:+ msg) 1)
    | _ => None
    end);;
  render doc.
End cli.

(** The exit status of the process: [typer] ends it as [Exit] says, with 2 for
    a usage error; another exception is a traceback and status 1. *)
Definition exit_status {A} (r : res A) : Z :=
  match r with
  | Ok _ => 0
  | Raise (TyperExit code) => code
  | Raise (BadParameter _) => 2
  | Raise _ => 1
  end.
