(* ===== verification/Streaming.v ===== *)
(** * The bridge between the request body and the archive reader

    [streaming.py]: the bounded queue with a synchronous [read], which
    implements a byte stream whatever the chunks it is fed; and the protocol of
    [routes/upload.py] around it, in which one event loop runs both the body
    pump and the writes that the archive thread waits for. *)

From Stdlib Require Import Ascii String.
From S2P Require Import Prelude PyStr Effects.
Local Open Scope string_scope.
Local Open Scope list_scope.

(** ** [SyncStreamReader] *)

(** The queue ([None] is the end-of-stream sentinel), the buffered bytes and
    whether the sentinel was taken. *)
Record SyncStreamReader := {
  rd_queue : list (option bytes);
  rd_pending : bytes;
  rd_eof_seen : bool;
}.

Definition DEFAULT_QUEUE_SIZE : nat := 8.
Definition new_reader : SyncStreamReader :=
  {| rd_queue := []; rd_pending := ""; rd_eof_seen := false |}.

(** [queue.put]: [None] when it blocks. *)
Definition queue_put (x : option bytes) (r : SyncStreamReader) : option SyncStreamReader :=
  if (length (rd_queue r) <? DEFAULT_QUEUE_SIZE)%nat
  then Some {| rd_queue := rd_queue r ++ [x]; rd_pending := rd_pending r; rd_eof_seen := rd_eof_seen r |}
  else None.

Definition feed (chunk : bytes) (r : SyncStreamReader) : option SyncStreamReader :=
  if decide (chunk = "") then Some r else queue_put (Some chunk) r.
Definition close (r : SyncStreamReader) : option SyncStreamReader := queue_put None r.

(** The loop of [read]; [None] when it waits on an empty queue. *)
Fixpoint read_loop (n : Z) (queue : list (option bytes)) (buf : bytes) (eof_seen : bool)
    : option (bytes * SyncStreamReader) :=
  if decide (0 < n ∧ n <= blen buf)%Z then
    Some (str_take (Z.to_nat n) buf,
          {| rd_queue := queue; rd_pending := str_drop (Z.to_nat n) buf; rd_eof_seen := eof_seen |})
  else if eof_seen then
    Some (buf, {| rd_queue := queue; rd_pending := ""; rd_eof_seen := true |})
  else
    match queue with
    | [] => None
    | None :: queue' => read_loop n queue' buf true
    | Some chunk :: queue' => read_loop n queue' (buf +:+ chunk) eof_seen
    end.

Definition read (n : Z) (r : SyncStreamReader) : option (bytes * SyncStreamReader) :=
  if decide (n = 0)%Z then Some ("", r)
  else read_loop n (rd_queue r) (rd_pending r) (rd_eof_seen r).


(** ** The protocol of an upload

    The pump feeds the chunks of the body from the event loop and then closes
    the reader; [queue.put] blocks the loop.  The archive thread reads, and for
    every entry submits a write to the loop and waits for its result. *)

(** One round of the loop of [read]: whether it can return, and the chunk it
    takes otherwise. *)
Definition read_ready (n : Z) (r : SyncStreamReader) : bool :=
  bool_decide (n = 0)%Z || bool_decide (0 < n ∧ n <= blen (rd_pending r))%Z || rd_eof_seen r.
Definition get_chunk (r : SyncStreamReader) : option SyncStreamReader :=
  match rd_queue r with
  | [] => None
  | None :: q => Some {| rd_queue := q; rd_pending := rd_pending r; rd_eof_seen := true |}
  | Some c :: q => Some {| rd_queue := q; rd_pending := rd_pending r +:+ c; rd_eof_seen := rd_eof_seen r |}
  end.

Inductive archive_act := ARead (n : Z) | AWrite.
Inductive worker := Running (acts : list archive_act) | Waiting (acts : list archive_act).

(** The reader, the chunks to feed, whether the reader is closed, whether the
    loop is blocked in a [put], and the archive thread. *)
Record pump := mkPump {
  p_reader : SyncStreamReader;
  p_body : list bytes;
  p_closed : bool;
  p_blocked : bool;
  p_worker : worker;
}.

(** What [_pump_stream] puts next, and the state after it. *)
Definition pump_put (s : pump) : option pump :=
  match p_body s with
  | c :: body => r ← feed c (p_reader s); Some (mkPump r body (p_closed s) false (p_worker s))
  | [] => if p_closed s then None
          else r ← close (p_reader s); Some (mkPump r [] true false (p_worker s))
  end.
Definition pump_done (s : pump) : bool := bool_decide (p_body s = []) && p_closed s.

Inductive pump_step : pump → pump → Prop :=
  | step_put s s' : pump_put s = Some s' → pump_step s s'
  | step_block s : p_blocked s = false → pump_done s = false → pump_put s = None →
      pump_step s (mkPump (p_reader s) (p_body s) (p_closed s) true (p_worker s))
  | step_get r r' body closed blocked n k :
      read_ready n r = false → get_chunk r = Some r' →
      pump_step (mkPump r body closed blocked (Running (ARead n :: k)))
                (mkPump r' body closed blocked (Running (ARead n :: k)))
  | step_read r d r' body closed blocked n k :
      read_ready n r = true → read n r = Some (d, r') →
      pump_step (mkPump r body closed blocked (Running (ARead n :: k)))
                (mkPump r' body closed blocked (Running k))
  | step_submit r body closed blocked k :
      pump_step (mkPump r body closed blocked (Running (AWrite :: k)))
                (mkPump r body closed blocked (Waiting k))
  | step_write r body closed k :
      pump_step (mkPump r body closed false (Waiting k)) (mkPump r body closed false (Running k)).

Definition pump_init (body : list bytes) (acts : list archive_act) : pump :=
  mkPump new_reader body false false (Running acts).
Definition finished (s : pump) : Prop := p_worker s = Running [].
Definition stuck (s : pump) : Prop := ∀ s', ¬ pump_step s s'.

(** ** The abstract stream *)

Record stream := { st_rest : bytes; st_closed : bool }.
Definition spec_read (n : Z) (s : stream) : option (bytes * stream) :=
  if decide (n = 0)%Z then Some ("", s)
  else if decide (0 < n ∧ n <= blen (st_rest s))%Z then
    Some (str_take (Z.to_nat n) (st_rest s),
          {| st_rest := str_drop (Z.to_nat n) (st_rest s); st_closed := st_closed s |})
  else if st_closed s then Some (st_rest s, {| st_rest := ""; st_closed := true |})
  else None.

Inductive reader_op := OpFeed (c : bytes) | OpClose | OpRead (n : Z).

(** A sequence of calls, none of which blocks, and what its reads return. *)
Fixpoint run_reader (ops : list reader_op) (r : SyncStreamReader) : option (list bytes * SyncStreamReader) :=
  match ops with
  | [] => Some ([], r)
  | OpFeed c :: ops => r' ← feed c r; run_reader ops r'
  | OpClose :: ops => r' ← close r; run_reader ops r'
  | OpRead n :: ops => p ← read n r; q ← run_reader ops p.2; Some (p.1 :: q.1, q.2)
  end.
Fixpoint run_stream (ops : list reader_op) (s : stream) : option (list bytes * stream) :=
  match ops with
  | [] => Some ([], s)
  | OpFeed c :: ops => run_stream ops {| st_rest := st_rest s +:+ c; st_closed := st_closed s |}
  | OpClose :: ops => run_stream ops {| st_rest := st_rest s; st_closed := true |}
  | OpRead n :: ops => p ← spec_read n s; q ← run_stream ops p.2; Some (p.1 :: q.1, q.2)
  end.

(** The producer closes once it has fed everything. *)
Fixpoint feeds_before_close (closed : bool) (ops : list reader_op) : bool :=
  match ops with
  | [] => true
  | OpFeed c :: ops => negb closed && feeds_before_close closed ops
  | OpClose :: ops => feeds_before_close true ops
  | OpRead _ :: ops => feeds_before_close closed ops
  end.

(** The stream a reader stands for. *)
Definition chunk_bytes (q : list (option bytes)) : bytes := foldr (λ o b, default "" o +:+ b) "" q.
Definition view (r : SyncStreamReader) : stream :=
  {| st_rest := rd_pending r +:+ chunk_bytes (rd_queue r);
     st_closed := rd_eof_seen r || existsb (λ o, bool_decide (o = None)) (rd_queue r) |}.

(** No data follows the sentinel. *)
Fixpoint sentinel_last (q : list (option bytes)) : bool :=
  match q with
  | [] => true
  | Some _ :: q => sentinel_last q
  | None :: q => forallb (λ o, bool_decide (o = None)) q
  end.
Definition reader_ok (r : SyncStreamReader) : bool :=
  if rd_eof_seen r then forallb (λ o, bool_decide (o = None)) (rd_queue r) else sentinel_last (rd_queue r).

(** ** Lemmas *)

Lemma str_take_app_le n s t : (n ≤ String.length s)%nat → str_take n (s +:+ t) = str_take n s.
Proof.
  revert n. induction s as [|a s IH]; intros [|n] Hn; cbn in Hn; [by destruct t|lia|done|].
  rewrite app_cons. cbn [str_take]. f_equal. apply IH. lia.
Qed.
Lemma str_drop_app_le n s t : (n ≤ String.length s)%nat → str_drop n (s +:+ t) = str_drop n s +:+ t.
Proof.
  revert n. induction s as [|a s IH]; intros [|n] Hn; cbn in Hn; [done|lia|done|].
  rewrite app_cons. cbn [str_drop]. apply IH. lia.
Qed.

Lemma chunk_bytes_snoc q o : chunk_bytes (q ++ [o]) = chunk_bytes q +:+ default "" o.
Proof.
  induction q as [|o' q IH]; cbn [chunk_bytes app foldr]; [by rewrite app_empty_r|].
  fold (chunk_bytes (q ++ [o])) (chunk_bytes q). by rewrite IH, app_str_assoc.
Qed.
Lemma chunk_bytes_sentinels q :
  forallb (λ o : option bytes, bool_decide (o = None)) q = true → chunk_bytes q = "".
Proof.
  induction q as [|o q IH]; cbn [forallb]; [done|]. intros [Ho Hq]%andb_true_iff.
  apply bool_decide_eq_true in Ho as ->. cbn [chunk_bytes foldr]. by apply IH.
Qed.
Lemma sentinel_last_sentinels q :
  forallb (λ o : option bytes, bool_decide (o = None)) q = true → sentinel_last q = true.
Proof. destruct q as [|[c|] q]; cbn [forallb sentinel_last]; [done|done|]. by intros [_ ?]%andb_true_iff. Qed.

(** What one [read] returns, and the stream that is left. *)
Definition matches (x : option (bytes * SyncStreamReader)) (y : option (bytes * stream)) : Prop :=
  match x, y with
  | Some (d, r'), Some (d', s') => d = d' ∧ view r' = s' ∧ reader_ok r' = true
  | None, None => True
  | _, _ => False
  end.

Lemma read_loop_matches n q buf eof :
  n ≠ 0%Z → reader_ok {| rd_queue := q; rd_pending := buf; rd_eof_seen := eof |} = true →
  matches (read_loop n q buf eof) (spec_read n (view {| rd_queue := q; rd_pending := buf; rd_eof_seen := eof |})).
Proof.
  intros Hn. revert buf eof. induction q as [|o q IH]; intros buf eof Hok.
  all: unfold spec_read; rewrite (decide_False (P := n = 0%Z)) by done; cbn [read_loop].
  all: destruct (decide (0 < n ∧ n <= blen buf)%Z) as [Hle|Hle].
  1,3: rewrite decide_True by (cbn; unfold blen in *; rewrite string_length_app; lia);
    unfold blen in Hle; cbn [view st_rest st_closed rd_pending rd_queue matches];
    rewrite str_take_app_le, str_drop_app_le by lia; done.
  all: destruct eof.
  - cbn [view chunk_bytes foldr existsb rd_queue rd_pending rd_eof_seen st_rest st_closed orb].
    rewrite !app_empty_r, decide_False by done. done.
  - cbn [view chunk_bytes foldr existsb rd_queue rd_pending rd_eof_seen st_rest st_closed orb].
    rewrite !app_empty_r, decide_False by done. done.
  - unfold view. cbn [rd_queue rd_pending rd_eof_seen st_rest st_closed orb].
    unfold reader_ok in Hok. cbn [rd_eof_seen rd_queue] in Hok.
    rewrite chunk_bytes_sentinels, app_empty_r, decide_False by done. cbn [matches]. split_and!; [done| |done].
    unfold view. cbn [rd_queue rd_pending rd_eof_seen orb]. by rewrite chunk_bytes_sentinels.
  - destruct o as [c|]; unfold reader_ok in Hok; cbn [rd_eof_seen rd_queue sentinel_last] in Hok.
    + specialize (IH (buf +:+ c) false Hok). unfold spec_read in IH.
      rewrite (decide_False (P := n = 0%Z)) in IH by done.
      unfold view in *. cbn [rd_queue rd_pending rd_eof_seen st_rest st_closed orb existsb chunk_bytes foldr default] in *.
      fold (chunk_bytes q) in *. rewrite <- app_str_assoc in IH. exact IH.
    + specialize (IH buf true). unfold spec_read in IH. rewrite (decide_False (P := n = 0%Z)) in IH by done.
      unfold reader_ok in IH. cbn [rd_eof_seen rd_queue] in IH. specialize (IH Hok).
      unfold view in *. cbn [rd_queue rd_pending rd_eof_seen st_rest st_closed orb existsb chunk_bytes foldr default] in *.
      fold (chunk_bytes q) in *. rewrite app_empty_l. exact IH.
Qed.

Lemma read_matches n r : reader_ok r = true → matches (read n r) (spec_read n (view r)).
Proof.
  intros Hok. unfold read. destruct (decide (n = 0%Z)) as [->|Hn].
  - done.
  - destruct r as [q buf eof]. by apply read_loop_matches.
Qed.

Lemma existsb_app_single {A} (f : A → bool) l x : existsb f (l ++ [x]) = existsb f l || f x.
Proof. rewrite existsb_app. cbn. by rewrite orb_false_r. Qed.

Lemma sentinel_last_snoc q c :
  existsb (λ o : option bytes, bool_decide (o = None)) q = false → sentinel_last (q ++ [Some c]) = true.
Proof. induction q as [|[c'|] q IH]; cbn; [done|exact IH|done]. Qed.
Lemma sentinel_last_close q : sentinel_last q = true → sentinel_last (q ++ [None]) = true.
Proof.
  induction q as [|[c'|] q IH]; cbn; [done|exact IH|]. rewrite forallb_app. by intros ->.
Qed.

Lemma queue_put_Some x r r' :
  queue_put x r = Some r' →
  (length (rd_queue r) < DEFAULT_QUEUE_SIZE)%nat ∧
  r' = {| rd_queue := rd_queue r ++ [x]; rd_pending := rd_pending r; rd_eof_seen := rd_eof_seen r |}.
Proof. unfold queue_put. case_match eqn:E; [|done]. intros [= <-]. split; [by apply Nat.ltb_lt|done]. Qed.

Lemma queue_put_None x r : queue_put x r = None ↔ (DEFAULT_QUEUE_SIZE ≤ length (rd_queue r))%nat.
Proof.
  unfold queue_put. destruct (length (rd_queue r) <? DEFAULT_QUEUE_SIZE)%nat eqn:E.
  - apply Nat.ltb_lt in E. split; [done|lia].
  - apply Nat.ltb_ge in E. done.
Qed.

Lemma feed_view c r r' :
  reader_ok r = true → st_closed (view r) = false → feed c r = Some r' →
  reader_ok r' = true ∧ view r' = {| st_rest := st_rest (view r) +:+ c; st_closed := false |}.
Proof.
  unfold feed. intros Hok Hc. case_decide as Hd.
  - intros [= <-]. subst. split; [done|]. unfold view in *. cbn [st_rest st_closed] in *.
    by rewrite app_empty_r, Hc.
  - intros [_ ->]%queue_put_Some. unfold view in *. cbn [st_rest st_closed rd_queue rd_pending rd_eof_seen] in *.
    apply orb_false_iff in Hc as [He Hq]. unfold reader_ok in *. cbn [rd_eof_seen rd_queue] in *.
    rewrite He in *. split; [by apply sentinel_last_snoc|].
    rewrite chunk_bytes_snoc, existsb_app_single, Hq. cbn [default]. by rewrite app_str_assoc.
Qed.

Lemma close_view r r' :
  reader_ok r = true → close r = Some r' →
  reader_ok r' = true ∧ view r' = {| st_rest := st_rest (view r); st_closed := true |}.
Proof.
  unfold close. intros Hok [_ ->]%queue_put_Some. unfold view. cbn [st_rest rd_queue rd_pending rd_eof_seen].
  rewrite chunk_bytes_snoc, app_empty_r, existsb_app_single, bool_decide_true, !orb_true_r by done.
  split; [|done]. unfold reader_ok in *. cbn [rd_eof_seen rd_queue] in *.
  destruct (rd_eof_seen r); [by rewrite forallb_app, Hok|by apply sentinel_last_close].
Qed.

Lemma spec_read_closed n s d s' : spec_read n s = Some (d, s') → st_closed s' = st_closed s.
Proof. unfold spec_read. repeat case_decide; try case_match; intros; simplify_eq; done. Qed.

Lemma run_reader_simulates ops r outs r' closed :
  reader_ok r = true → st_closed (view r) = closed → feeds_before_close closed ops = true →
  run_reader ops r = Some (outs, r') →
  reader_ok r' = true ∧ run_stream ops (view r) = Some (outs, view r').
Proof.
  revert r outs closed. induction ops as [|[c| |n] ops IH]; intros r outs closed Hok Hc Hf;
    cbn [run_reader run_stream feeds_before_close] in *.
  - by intros [= <- <-].
  - apply andb_true_iff in Hf as [Hn Hf]. apply negb_true_iff in Hn as ->.
    destruct (feed c r) as [r1|] eqn:E; cbn [mbind option_bind]; [|done]. intros H.
    destruct (feed_view _ _ _ Hok Hc E) as [Hok1 Hv]. rewrite Hc, <- Hv.
    eapply IH; [done| |done|done]. by rewrite Hv.
  - destruct (close r) as [r1|] eqn:E; cbn [mbind option_bind]; [|done]. intros H.
    destruct (close_view _ _ Hok E) as [Hok1 Hv]. rewrite <- Hv.
    eapply IH; [done| |done|done]. by rewrite Hv.
  - pose proof (read_matches n r Hok) as Hm.
    destruct (read n r) as [[d r1]|]; cbn [mbind option_bind fst snd]; [|done].
    destruct (run_reader ops r1) as [[ds r2]|] eqn:E; cbn [mbind option_bind]; [|done]. intros [= <- <-].
    unfold matches in Hm. destruct (spec_read n (view r)) as [[d' s']|] eqn:Es; [|done].
    destruct Hm as (<- & <- & Hok1). cbn [mbind option_bind fst snd].
    destruct (IH r1 ds closed Hok1) as [? E2]; [|done|done|].
    { erewrite spec_read_closed by done. done. }
    split; [done|]. by rewrite E2.
Qed.

(** ** Lemmas: the protocol *)

(** With at most eight puts in all the loop is never blocked, and a reader
    that was closed still has its sentinel. *)
Record roomy (s : pump) : Prop := {
  ro_blocked : p_blocked s = false;
  ro_room : (length (rd_queue (p_reader s)) + length (p_body s) + (if p_closed s then 0 else 1)
             ≤ DEFAULT_QUEUE_SIZE)%nat;
  ro_closed : p_closed s = true →
    p_body s = [] ∧ (rd_eof_seen (p_reader s) = true ∨ None ∈ rd_queue (p_reader s));
}.

Lemma feed_Some c r : (length (rd_queue r) < DEFAULT_QUEUE_SIZE)%nat → is_Some (feed c r).
Proof.
  intros Hl. unfold feed. case_decide; [done|]. destruct (queue_put (Some c) r) eqn:E; [done|].
  apply queue_put_None in E. lia.
Qed.
Lemma close_Some r : (length (rd_queue r) < DEFAULT_QUEUE_SIZE)%nat → is_Some (close r).
Proof. intros Hl. unfold close. destruct (queue_put None r) eqn:E; [done|]. apply queue_put_None in E. lia. Qed.

Lemma feed_room c r r' :
  feed c r = Some r' → (length (rd_queue r') ≤ length (rd_queue r) + 1)%nat ∧
  rd_eof_seen r' = rd_eof_seen r ∧ (None ∈ rd_queue r → None ∈ rd_queue r').
Proof.
  unfold feed. case_decide; [by intros [= <-]; split_and!; [lia|..]|].
  intros [_ ->]%queue_put_Some. cbn. rewrite length_app. cbn. split_and!; [lia|done|].
  intros ?. apply elem_of_app. by left.
Qed.

Lemma pump_put_roomy s : roomy s → pump_done s = false → is_Some (pump_put s).
Proof.
  intros [_ Hr _] Hd. unfold pump_put, pump_done in *. destruct (p_body s) as [|c body] eqn:Eb.
  - rewrite bool_decide_true in Hd by done. cbn in Hd. rewrite Hd in Hr |- *. cbn [length] in Hr.
    destruct (close_Some (p_reader s)) as [r ->]; [lia|]. by cbn.
  - cbn [length] in Hr. destruct (feed_Some c (p_reader s)) as [r ->]; [lia|]. by cbn.
Qed.

Lemma read_queue n q buf eof d r' :
  read_ready n {| rd_queue := q; rd_pending := buf; rd_eof_seen := eof |} = true →
  read n {| rd_queue := q; rd_pending := buf; rd_eof_seen := eof |} = Some (d, r') →
  rd_queue r' = q ∧ rd_eof_seen r' = eof.
Proof.
  unfold read_ready, read. cbn [rd_pending rd_eof_seen rd_queue].
  destruct (decide (n = 0%Z)); [by intros _ [= _ <-]|]. rewrite bool_decide_false by done. cbn [orb].
  destruct q as [|o q]; cbn [read_loop].
  all: destruct (decide (0 < n ∧ n <= blen buf)%Z); [by intros _ [= _ <-]|].
  all: rewrite bool_decide_false by done; cbn [orb]; intros ->; by intros [= _ <-].
Qed.

Lemma read_ready_Some n r : read_ready n r = true → is_Some (read n r).
Proof.
  destruct r as [q buf eof]. unfold read_ready, read. cbn [rd_pending rd_eof_seen rd_queue].
  destruct (decide (n = 0%Z)); [done|]. rewrite bool_decide_false by done. cbn [orb].
  destruct q as [|o q]; cbn [read_loop].
  all: destruct (decide (0 < n ∧ n <= blen buf)%Z); [done|].
  all: rewrite bool_decide_false by done; cbn [orb]; by intros ->.
Qed.

Lemma roomy_step s s' : roomy s → pump_step s s' → roomy s'.
Proof.
  intros Hs Hst. pose proof Hs as [Hb Hr Hc].
  destruct Hst as [s s' Hp|s Hb' Hd Hp|r r' body closed blocked n k Hn Hg|r d r' body closed blocked n k Hn Hg|r body closed blocked k|r body closed k].
  - unfold pump_put in Hp. destruct (p_body s) as [|c body] eqn:Eb.
    + destruct (p_closed s) eqn:Ec; [done|]. destruct (close (p_reader s)) as [r|] eqn:E; [|done].
      injection Hp as <-. unfold close in E. apply queue_put_Some in E as [_ ->]. cbn [length] in Hr.
      constructor; cbn; [done| |].
      * rewrite length_app. cbn. lia.
      * intros _. split; [done|]. right. apply elem_of_app. right. by constructor.
    + destruct (feed c (p_reader s)) as [r|] eqn:E; [|done]. injection Hp as <-.
      apply feed_room in E as (Hl & He & Hq). cbn [length] in Hr. constructor; cbn; [done|lia|].
      intros Ecl. destruct (Hc Ecl) as [? _]. done.
  - destruct (pump_put_roomy s Hs Hd) as [? ?]. congruence.
  - unfold get_chunk in Hg. cbn in Hr, Hc, Hb. destruct (rd_queue r) as [|[c|] q] eqn:Eq; [done|..]; injection Hg as <-.
    + constructor; cbn in *; [done|lia|]. intros Ecl. destruct (Hc Ecl) as [-> Hx]. split; [done|].
      destruct Hx as [?|Hx]; [by left|]. apply elem_of_cons in Hx as [?|?]; [done|by right].
    + constructor; cbn in *; [done|lia|]. intros Ecl. destruct (Hc Ecl) as [-> _]. split; [done|by left].
  - destruct r as [q buf eof]. apply (read_queue n) in Hg as [Hq He]; [|done]. constructor; cbn in *; [done| |].
    + by rewrite Hq.
    + by rewrite Hq, He.
  - by constructor.
  - by constructor.
Qed.

Lemma roomy_progress s : roomy s → finished s ∨ ¬ stuck s.
Proof.
  intros Hs. pose proof Hs as [Hb Hr Hc]. destruct s as [r body closed blocked wk]. cbn in *. subst blocked.
  destruct wk as [[|[n|] k]|k].
  - by left.
  - right. intros Hst. destruct (read_ready n r) eqn:En.
    + destruct (read_ready_Some n r En) as [[d r'] E]. by eapply Hst, step_read.
    + destruct (get_chunk r) as [r'|] eqn:Eg; [by eapply Hst, step_get|].
      destruct (pump_done (mkPump r body closed false (Running (ARead n :: k)))) eqn:Ed.
      * unfold pump_done in Ed. cbn in Ed. apply andb_true_iff in Ed as [_ ->].
        destruct (Hc eq_refl) as [_ [He|Hq]].
        -- unfold read_ready in En. by rewrite He, orb_true_r in En.
        -- unfold get_chunk in Eg. destruct (rd_queue r) as [|[]]; [by inversion Hq|done|done].
      * destruct (pump_put_roomy _ Hs Ed) as [s' Hp]. by eapply Hst, step_put.
  - right. intros Hst. by eapply Hst, step_submit.
  - right. intros Hst. by eapply Hst, step_write.
Qed.

Lemma roomy_init body acts : (length body < DEFAULT_QUEUE_SIZE)%nat → roomy (pump_init body acts).
Proof. intros Hl. constructor; cbn; [done|lia|done]. Qed.

(** What is left to do; every step does some of it. *)
Definition worker_left (k : worker) : nat :=
  match k with Running acts => 2 * length acts | Waiting acts => 2 * length acts + 1 end.
Definition work_left (s : pump) : nat :=
  4 * (length (p_body s) + (if p_closed s then 0 else 1)) + length (rd_queue (p_reader s))
  + (if p_blocked s then 0 else 1) + worker_left (p_worker s).

Lemma pump_step_work s s' : pump_step s s' → (work_left s' < work_left s)%nat.
Proof.
  unfold work_left, worker_left.
  intros [s1 s2 Hp|s1 Hb _ _|r r' body closed blocked n k _ Hg|r d r' body closed blocked n k Hn Hg|r body closed blocked k|r body closed k];
    cbn [p_body p_closed p_reader p_blocked p_worker length]; try lia.
  - unfold pump_put in Hp. destruct (p_body s1) as [|c body].
    + destruct (p_closed s1); [done|]. destruct (close (p_reader s1)) as [r|] eqn:E; [|done]. injection Hp as <-.
      unfold close in E. apply queue_put_Some in E as [_ ->]. cbn. rewrite length_app. cbn. repeat case_match; lia.
    + destruct (feed c (p_reader s1)) as [r|] eqn:E; [|done]. injection Hp as <-.
      apply feed_room in E as [Hl _]. cbn. repeat case_match; lia.
  - rewrite Hb. lia.
  - unfold get_chunk in Hg. destruct (rd_queue r) as [|[c|] q]; [done|..]; injection Hg as <-; cbn; lia.
  - destruct r as [q buf eof]. apply (read_queue n) in Hg as [-> _]; [|done]. cbn. lia.
Qed.

Lemma pump_run_work n s s' : nsteps pump_step n s s' → (n + work_left s' ≤ work_left s)%nat.
Proof. induction 1 as [|n s1 s2 s3 H12 _ IH]; [lia|]. apply pump_step_work in H12. lia. Qed.

Lemma roomy_run n s s' : roomy s → nsteps pump_step n s s' → roomy s'.
Proof. intros Hs Hr. induction Hr as [|n s1 s2 s3 H12 _ IH]; [done|]. by eapply IH, roomy_step. Qed.

(** ** Properties *)

(** C22: the queue refines a byte stream: whatever the sizes of the chunks that
    are fed before the close, a sequence of calls that does not block returns
    what the reads of the concatenated stream return, and the next read blocks
    exactly when the stream has too few bytes and no end. *)
Theorem reader_refines_stream ops outs r :
  feeds_before_close false ops = true → run_reader ops new_reader = Some (outs, r) →
  run_stream ops {| st_rest := ""; st_closed := false |} = Some (outs, view r) ∧
  ∀ n, read n r = None ↔ spec_read n (view r) = None.
Proof.
  intros Hf Hr. destruct (run_reader_simulates ops new_reader outs r false) as [Hok Hs]; try done.
  split; [done|]. intros n. pose proof (read_matches n r Hok) as Hm. unfold matches in Hm.
  by destruct (read n r) as [[]|], (spec_read n (view r)) as [[]|].
Qed.

Definition demo_ops : list reader_op :=
  [OpFeed "ab"; OpFeed ""; OpFeed "cde"; OpRead 3; OpClose; OpRead 9; OpRead (-1)].

Lemma reader_refines_stream_witness :
  run_reader demo_ops new_reader = Some (["abc"; "de"; ""], {| rd_queue := []; rd_pending := ""; rd_eof_seen := true |}) ∧
  run_stream demo_ops {| st_rest := ""; st_closed := false |}
    = Some (["abc"; "de"; ""], {| st_rest := ""; st_closed := true |}).
Proof.
  split; [vm_compute; reflexivity|].
  exact (proj1 (reader_refines_stream demo_ops ["abc"; "de"; ""]
    {| rd_queue := []; rd_pending := ""; rd_eof_seen := true |} eq_refl eq_refl)).
Defined.

(** C35: every upload stops, and a short one only when it is done: no schedule of
    the pump and the archive thread takes more steps than four for each chunk
    of the body and two for each action of the archive, and five more; and
    when the body has fewer than eight chunks, a state in which no step is
    possible is one where the archive thread has finished. *)
Theorem short_upload_terminates body acts n s :
  nsteps pump_step n (pump_init body acts) s →
  (n ≤ 4 * length body + 2 * length acts + 5)%nat ∧
  ((length body < DEFAULT_QUEUE_SIZE)%nat → stuck s → finished s).
Proof.
  intros Hr. split.
  - pose proof (pump_run_work _ _ _ Hr) as Hw. unfold work_left, worker_left in Hw. cbn in Hw. lia.
  - intros Hl Hst. by destruct (roomy_progress s (roomy_run _ _ _ (roomy_init body acts Hl) Hr)).
Qed.

Lemma short_upload_terminates_witness :
  ∃ s, nsteps pump_step 3 (pump_init ["x"] [ARead 1; AWrite]) s ∧ (stuck s → finished s).
Proof.
  assert (Hr : nsteps pump_step 3 (pump_init ["x"] [ARead 1; AWrite])
    (mkPump {| rd_queue := []; rd_pending := ""; rd_eof_seen := false |} [] false false (Running [AWrite]))).
  { eapply nsteps_l; [apply step_put; vm_compute; reflexivity|].
    eapply nsteps_l; [apply step_get; vm_compute; reflexivity|].
    eapply nsteps_l; [eapply step_read; vm_compute; reflexivity|]. apply nsteps_O. }
  eexists. split; [exact Hr|]. apply (short_upload_terminates ["x"] [ARead 1; AWrite] 3); [exact Hr|vm_compute; lia].
Defined.

(** A longer body can hang: the archive thread takes one chunk and submits a
    write, the pump fills the queue again and blocks the loop that would have
    run the write. *)
Definition hung : pump :=
  mkPump {| rd_queue := replicate 8 (Some "x"); rd_pending := ""; rd_eof_seen := false |}
    ["x"] false true (Waiting []).

Example long_upload_can_hang :
  rtc pump_step (pump_init (replicate 10 "x") [ARead 1; AWrite]) hung ∧ stuck hung ∧ ¬ finished hung.
Proof.
  split_and!; [| |done].
  - do 8 (eapply rtc_l; [apply step_put; vm_compute; reflexivity|]).
    eapply rtc_l; [apply step_get; vm_compute; reflexivity|].
    eapply rtc_l; [eapply step_read; vm_compute; reflexivity|].
    eapply rtc_l; [apply step_submit|].
    eapply rtc_l; [apply step_put; vm_compute; reflexivity|].
    eapply rtc_l; [apply step_block; vm_compute; reflexivity|]. apply rtc_refl.
  - intros s' Hs. inversion Hs as [? ? Hp|? Hb|  | | | ]; subst; [|done].
    vm_compute in Hp. done.
Qed.
