(* ===== verification/World.v ===== *)
(** * The application: interfaces, state and the parts every handler shares

    [protocols/*.py] as type classes and records, [defaults/factory.py] and
    [create_app]'s [app.state] as the class [App] (what a request reads) and
    the record [World] (what it changes), and the helpers all routes use:
    [structured_log.safe_emit], [auth/observability.py],
    [auth/dependencies.py], the policy enforcement of the routes and the
    defaults of the access, alias, identity and transport protocols.

    A request reads one clock: [w_now] and [w_mono] do not advance inside a
    handler.  [struct_log] does not raise, as the [logging] module does not;
    a metrics provider may, as [app_metric_fails] decides. *)

From Stdlib Require Import Ascii String.
From stdpp Require Import pretty.
From S2P Require Import Prelude PyStr PyCodec Json DateTime Effects PyNum Paths Limits Config.
From S2P Require Import Claims KeyStore Jwt FsModel Storage.
Local Open Scope string_scope.
Local Open Scope list_scope.
Local Open Scope effect_scope.

(** ** The protocols *)

(** [protocols/storage.py]; [sb_abort] takes the handle that the open
    returned. *)
Class StorageBackend (S : Type) := {
  sb_writer : Type;
  sb_open_bundle_write : str → M S sb_writer;
  sb_write_file : sb_writer → str → Source → M S (sb_writer * Z);
  sb_commit : sb_writer → dict → M S sb_writer;
  sb_abort : sb_writer → M S unit;
  sb_read_bundle_meta : str → M S dict;
  sb_open_bundle_file_read : str → str → M S bytes;
  sb_list_bundles : str → bool → S → res (list BundleRef) * list event;
  sb_delete_bundle : str → M S unit;
}.

(** [protocols/claim_storage.py]; the active claims at a time, for a
    lifetime. *)
Class ClaimStorage (C : Type) := {
  cs_issue : ClaimRecord → M C unit;
  cs_get : str → M C (option ClaimRecord);
  cs_mark_fetched : str → str → M C ClaimRecord;
  cs_delete : str → M C unit;
  cs_iter_all : M C (list ClaimRecord);
  cs_iter_active : Z → Z → M C (gmap str str);
}.

(** [protocols/keystore.py]. *)
Class KeyStoreProtocol (K : Type) := {
  kp_is_healthy : K → bool;
  kp_setup_done : K → bool;
  kp_setup : str → M K (str * KeyInfo);
  kp_create_key : str → M K (str * KeyInfo);
  kp_validate : str → M K (option KeyInfo);
  kp_list_keys : M K (list KeyInfo);
  kp_revoke_key : str → M K unit;
  kp_rotate_key : str → M K (str * KeyInfo);
}.

(** [protocols/access.py]. *)
Record AccessPolicy := {
  ap_kind : str;
  ap_check : Identity → str → str → res bool;
  ap_visible_agents : Identity → list str → res (list str);
}.

(** [protocols/alias.py]. *)
Record ResolvedRecipient := { inbox_targets : list str; display_name : option str }.
Record AliasResolver (K : Type) := {
  ar_resolve : str → option str → M K (option ResolvedRecipient);
}.
Arguments ar_resolve {_} _ _ _.

(** What [create_app] puts together; [app_uuid n] is the [n]-th result of
    [uuid.uuid4], [app_mime] is [mimetypes.guess_type(name, strict=False)[0]],
    which depends on the tables of the host, and [app_rate_allows] the
    decision of the rate-limiting library on the earlier hits, a rate and a
    client. *)
Class App (K : Type) := {
  app_config : AppConfig;
  app_access : AccessPolicy;
  app_alias : AliasResolver K;
  app_identity : KeyInfo → res Identity;
  app_limits : LimitsPolicy;
  app_transport : str → str → str → str;
  app_metric_fails : event → bool;
  app_uuid : nat → str;
  app_mime : str → option str;
  app_revocation : str → res unit;
  app_rate_allows : list (str * str) → str → str → bool;
}.

(** ** Defaults *)

(** [DefaultAccessPolicy]. *)
Definition DefaultAccessPolicy : AccessPolicy :=
  {| ap_kind := "core"; ap_check := λ _ _ _, Ok true; ap_visible_agents := λ _ labels, Ok labels |}.

(** [DefaultIdentityProvider]. *)
Definition DefaultIdentityProvider (i : KeyInfo) : res Identity :=
  Ok {| id_label := ki_label i; id_extra := [] |}.

(** [CoreReferenceTransport(public_base_url).build_download_url]. *)
Definition CoreReferenceTransport (public_base_url bundle_path name token : str) : str :=
  rstrip "/" public_base_url +:+ "/download/" +:+ quote bundle_path +:+ "/" +:+ quote name.

(** [DefaultAliasResolver]. *)
Definition DefaultAliasResolver {K} `{KeyStoreProtocol K} : AliasResolver K := {|
  ar_resolve name _ :=
    if has_char ":" name then
      keys <- kp_list_keys;;
      ret (match find_first (λ k, bool_decide (ki_label k = name) && ki_is_active k) keys with
           | Some _ => Some {| inbox_targets := ["inbox/" +:+ name +:+ "/"]; display_name := Some name |}
           | None => None
           end)
    else ret None
|}.

(** [uuid.uuid4().hex]. *)
Fixpoint without_dashes (s : str) : str :=
  match s with
  | String a s' => if decide (a = "-"%char) then without_dashes s' else String a (without_dashes s')
  | "" => ""
  end.

(** ** The state *)

Record World (S C K : Type) := mkWorld {
  w_store : S;
  w_claims : C;
  w_keys : K;
  w_slots : JWTKeySlots;
  w_now : Z;
  w_mono : Z;
  w_uuids : nat;
  w_hits : list (str * str);
  w_log : list event;
}.
Arguments mkWorld {_ _ _}.
Arguments w_store {_ _ _}. Arguments w_claims {_ _ _}. Arguments w_keys {_ _ _}.
Arguments w_slots {_ _ _}. Arguments w_now {_ _ _}. Arguments w_mono {_ _ _}.
Arguments w_uuids {_ _ _}. Arguments w_hits {_ _ _}. Arguments w_log {_ _ _}.

Section world.
Context {S C K : Type}.
Abbreviation W := (World S C K).

Definition set_store (s : S) (w : W) : W :=
  mkWorld s (w_claims w) (w_keys w) (w_slots w) (w_now w) (w_mono w) (w_uuids w) (w_hits w) (w_log w).
Definition set_claims (c : C) (w : W) : W :=
  mkWorld (w_store w) c (w_keys w) (w_slots w) (w_now w) (w_mono w) (w_uuids w) (w_hits w) (w_log w).
Definition set_keystore (k : K) (w : W) : W :=
  mkWorld (w_store w) (w_claims w) k (w_slots w) (w_now w) (w_mono w) (w_uuids w) (w_hits w) (w_log w).
Definition set_slots (s : JWTKeySlots) (w : W) : W :=
  mkWorld (w_store w) (w_claims w) (w_keys w) s (w_now w) (w_mono w) (w_uuids w) (w_hits w) (w_log w).
Definition set_uuids (n : nat) (w : W) : W :=
  mkWorld (w_store w) (w_claims w) (w_keys w) (w_slots w) (w_now w) (w_mono w) n (w_hits w) (w_log w).
Definition set_hits (h : list (str * str)) (w : W) : W :=
  mkWorld (w_store w) (w_claims w) (w_keys w) (w_slots w) (w_now w) (w_mono w) (w_uuids w) h (w_log w).
Definition add_events (l : list event) (w : W) : W :=
  mkWorld (w_store w) (w_claims w) (w_keys w) (w_slots w) (w_now w) (w_mono w) (w_uuids w) (w_hits w)
    (w_log w ++ l).

Definition on_store {A} (m : M S A) : M W A := lift w_store set_store m.
Definition on_claims {A} (m : M C A) : M W A := lift w_claims set_claims m.
Definition on_keys {A} (m : M K A) : M W A := lift w_keys set_keystore m.

Definition struct_log (level : log_level) (name : str) : M W unit :=
  modify (add_events [Log level name]).

(** ** [structured_log.safe_emit]

    Its skeleton over arbitrary steps: the log step and the metric step, each
    with the fallback record of its own [except] clause. *)
Definition attempt {St} (m fallback : M St unit) : M St unit :=
  catch m (λ _, Some (catch fallback (λ _, Some (ret tt)))).
Definition safe_emit_steps {St} (log log_failed metric metric_failed : option (M St unit)) : M St unit :=
  match log with
  | Some m => attempt m (default (ret tt) log_failed)
  | None => ret tt
  end;;;
  match metric with
  | Some m => attempt m (default (ret tt) metric_failed)
  | None => ret tt
  end.

Context `{App K}.

(** [metrics.increment(...)] and [metrics.gauge(...)]. *)
Definition emit_metric (e : event) : M W unit :=
  if app_metric_fails e then raise (OtherError "metrics") else modify (add_events [e]).

Definition safe_emit (log : option (log_level * str)) (metric : option event) : M W unit :=
  safe_emit_steps
    ((λ l : log_level * str, struct_log l.1 l.2) <$> log)
    (Some (struct_log ERROR "struct_log failed"))
    (emit_metric <$> metric)
    ((λ _, struct_log ERROR "metrics failed") <$> log).

(** A counter with one tag, and the untagged byte counters. *)
Definition count_event (name key value : str) : event := Increment name 1 [(key, value)].

(** ** [auth/observability.py] *)

Definition emit_auth_failure (source reason : str) (identity_hint : option str) : M W unit :=
  if match identity_hint with Some h => (12 <? String.length h)%nat | None => false end
  then raise AssertionError
  else attempt
    (struct_log WARNING "auth.failure";;;
     emit_metric (Increment "cassetta.auth.failures" 1 [("source", source); ("reason", reason)]))
    (struct_log ERROR "auth observability emission failed").

(** ** Requests and responses *)

(** One item of a multipart form: the file name (if it is an upload), the
    content type and the contents. *)
Record FormItem := { fi_filename : option str; fi_content_type : option str; fi_data : bytes }.

(** The parts of a request the handlers read.  [rq_credentials] is what
    FastAPI's [HTTPBearer] extracts; [rq_body] the chunks of the body, and
    [rq_body_error] what reading it raises in the end, if anything. *)
Record HttpRequest := {
  rq_x_setup_token : option str;
  rq_credentials : option str;
  rq_authorization : str;
  rq_x_sender : option str;
  rq_raw_path : bytes;
  rq_content_type : str;
  rq_content_encoding : str;
  rq_body : list bytes;
  rq_body_error : option exn;
  rq_form : list FormItem;
  rq_client : str;
}.

Record Response := { rsp_status : Z; rsp_body : json; rsp_headers : list (str * str) }.
Definition json_response (status : Z) (body : json) (headers : list (str * str)) : Response :=
  {| rsp_status := status; rsp_body := body; rsp_headers := headers |}.
Definition no_content : Response := {| rsp_status := 204; rsp_body := JNull; rsp_headers := [] |}.

(** The whole body of a request. *)
Definition body_of (rq : HttpRequest) : bytes := join_str "" (rq_body rq).
Definition read_body (rq : HttpRequest) : M W bytes :=
  match rq_body_error rq with Some e => raise e | None => ret (body_of rq) end.

Definition http_error {A} (status : Z) (detail : str) : M W A :=
  raise (HTTPException status (DText detail)).

(** ** [auth/dependencies.py] *)

Context `{KeyStoreProtocol K}.

Definition get_current_identity (rq : HttpRequest) : M W Identity :=
  if cf_dev_mode app_config then ret dev_identity
  else
    let setup_token := cf_setup_token app_config in
    if decide (rq_x_setup_token rq = Some setup_token) then ret operator_identity
    else
      info <- match rq_credentials rq with
              | Some credentials => on_keys (kp_validate credentials)
              | None => ret None
              end;;
      match info with
      | Some info => of_res (app_identity info)
      | None =>
          match rq_x_setup_token rq, rq_credentials rq with
          | Some _, _ => emit_auth_failure "rest" "invalid_setup_token" None
          | None, Some c =>
              emit_auth_failure "rest" "invalid_key"
                (if decide (c = "") then None else Some (str_take 12 c))
          | None, None => emit_auth_failure "rest" "missing_bearer" None
          end;;;
          http_error 401 "Missing or invalid authentication credentials"
      end.

(** ** Policy enforcement, the [_enforce] of the route modules *)

Definition policy_kind_fields (policy : AccessPolicy) : str * str :=
  let field := if bool_decide (ap_kind policy = "core" ∨ ap_kind policy = "cloud")
               then ap_kind policy else "core" in
  (field, if decide (field = "cloud") then "team" else "core").

(** The decision, with the denial reported. *)
Definition check_policy (identity : Identity) (resource action : str) : M W bool :=
  allowed <- of_res (ap_check app_access identity resource action);;
  if allowed : bool then ret true
  else
    safe_emit (Some (INFO, "policy.denied"))
      (Some (Increment "cassetta.policy.decisions" 1
        [("result", "denied"); ("policy_kind", (policy_kind_fields app_access).2)]));;;
    ret false.

Definition enforce (identity : Identity) (resource action : str) : M W unit :=
  allowed <- check_policy identity resource action;;
  if allowed : bool then ret tt else http_error 403 "Forbidden".

(** A fresh [uuid.uuid4()]. *)
Definition new_uuid : M W str :=
  w <- get;;
  modify (set_uuids (Datatypes.S (w_uuids w)));;;
  ret (app_uuid (w_uuids w)).
Definition new_bundle_id : M W str := u <- new_uuid;; ret (without_dashes u).

(** [time.time()] in whole seconds. *)
Definition now_seconds (w : W) : Z := (w_now w / 1000000)%Z.

(** [backend.list_bundles(...)], with the warnings it logs. *)
Definition list_bundles_w `{StorageBackend S} (prefix : str) (include_orphans : bool)
    : M W (list BundleRef) :=
  w <- get;;
  let '(r, events) := sb_list_bundles prefix include_orphans (w_store w) in
  modify (add_events events);;;
  of_res r.

(** [infer_mime] and [pick_mime] of [mime.py]. *)
Definition DEFAULT_MIME : str := "application/octet-stream".
Definition infer_mime (name : str) : M W str :=
  match app_mime name with
  | None => struct_log DEBUG "mime_inference_fallback";;; ret DEFAULT_MIME
  | Some guessed => ret guessed
  end.
Definition pick_mime (name : str) (explicit : option str) : M W str :=
  match explicit with
  | Some e => if decide (e = "") then infer_mime name else ret e
  | None => infer_mime name
  end.

(** A verification by the running server, with the slots it updates. *)
Definition verify_token `{PyJwt} (token : str) : M W dict :=
  w <- get;;
  let '(r, slots) := verify_with_slots app_revocation (now_seconds w) (w_mono w) (w_slots w) token in
  modify (set_slots slots);;;
  of_res r.
End world.
