(* ===== verification/Frame.v ===== *)
(** * Reasoning about handlers

    Rules for computations on the [World]: weakest preconditions of the
    operations on its parts and of the observability helpers; [frames], that a
    computation relates the states before and after it; and [same_run], that
    two computations do the same up to the observability events.  The tactics
    [frame] and [same_run] apply the rules of the hint database [cassetta]. *)

From Stdlib Require Import Ascii String.
From S2P Require Import Prelude PyStr PyCodec Json DateTime Effects PyNum Paths Limits Config.
From S2P Require Import Claims KeyStore Jwt FsModel Storage World.
Local Open Scope string_scope.
Local Open Scope list_scope.
Local Open Scope effect_scope.

(** ** Frames *)

Definition frames {St A} (R : relation St) (m : M St A) : Prop := ∀ s, R s (m s).2.

Section frames.
Context {St : Type} (R : relation St) `{!PreOrder R}.

Lemma frames_pure {A} (m : M St A) : pure_state m → frames R m.
Proof. intros Hm s. by rewrite Hm. Qed.
Lemma frames_ret {A} (a : A) : frames R (ret a).
Proof. by intros s. Qed.
Lemma frames_raise {A} e : frames R (@raise St A e).
Proof. by intros s. Qed.
Lemma frames_of_res {A} (r : res A) : frames R (of_res r).
Proof. by intros s. Qed.
Lemma frames_get : frames R get.
Proof. by intros s. Qed.
Lemma frames_modify f : (∀ s, R s (f s)) → frames R (modify f).
Proof. intros Hf s. apply Hf. Qed.
Lemma frames_bind {A B} (m : M St A) (k : A → M St B) :
  frames R m → (∀ a, frames R (k a)) → frames R (bind m k).
Proof.
  intros Hm Hk s. unfold bind. specialize (Hm s). destruct (m s) as [[a|e] s']; [|done].
  etrans; [done|apply Hk].
Qed.
Lemma frames_catch {A} (m : M St A) h :
  frames R m → (∀ e m', h e = Some m' → frames R m') → frames R (catch m h).
Proof.
  intros Hm Hh s. unfold catch. specialize (Hm s). destruct (m s) as [[a|e] s']; [done|].
  destruct (h e) as [m'|] eqn:E; [|done]. etrans; [done|by eapply Hh].
Qed.
Lemma frames_when b m : frames R m → frames R (when b m).
Proof. destruct b; [done|intros _; apply frames_ret]. Qed.
Lemma frames_for_each {A} (l : list A) f : (∀ x, frames R (f x)) → frames R (for_each l f).
Proof.
  intros Hf. induction l as [|x l IH]; [apply frames_ret|]. by apply frames_bind; [|intros []].
Qed.
Lemma frames_fold_m {A B} (f : B → A → M St B) acc l :
  (∀ b x, frames R (f b x)) → frames R (fold_m f acc l).
Proof.
  intros Hf. revert acc. induction l as [|x l IH]; intros acc; [apply frames_ret|].
  by apply frames_bind.
Qed.
Lemma frames_map_m {A B} (f : A → M St B) l : (∀ x, frames R (f x)) → frames R (map_m f l).
Proof.
  intros Hf. induction l as [|x l IH]; [apply frames_ret|]. apply frames_bind; [done|]. intros y.
  apply frames_bind; [done|]. intros ys. apply frames_ret.
Qed.
End frames.

(** A framed computation satisfies what every related state does. *)
Lemma wp_frames {St A} (R : relation St) (m : M St A) (Q : A → St → Prop) X s :
  frames R m → (∀ a s', R s s' → Q a s') → (∀ e s', R s s' → X e s') → wp m Q X s.
Proof. intros Hm HQ HX. unfold wp. specialize (Hm s). destruct (m s) as [[a|e] s']; auto. Qed.

(** [frame] decomposes a program down to its operations, which [eauto] finds
    in the database. *)
Ltac frame_step :=
  lazymatch goal with
  | |- PreOrder _ => apply _
  | |- frames _ (ret _) => apply frames_ret
  | |- frames _ (raise _) => apply frames_raise
  | |- frames _ (of_res _) => apply frames_of_res
  | |- frames _ get => apply frames_get
  | |- frames _ (bind _ _) => apply frames_bind; [| |intros ?]
  | |- frames _ (catch _ _) => apply frames_catch; [| |intros ? ? ?; simplify_eq/=]
  | |- frames _ (when _ _) => apply frames_when
  | |- frames _ (for_each _ _) => apply frames_for_each; [|intros ?]
  | |- frames _ (fold_m _ _ _) => apply frames_fold_m; [|intros ? ?]
  | |- frames _ (map_m _ _) => apply frames_map_m; [|intros ?]
  | |- frames _ (match ?x with _ => _ end) => destruct x eqn:?
  | H : match ?x with _ => _ end = Some _ |- frames _ _ => destruct x eqn:?; simplify_eq/=
  | |- frames _ _ => solve [eauto 4 with cassetta]
  end.
Ltac frame := repeat (frame_step; cbv beta zeta).

(** ** Observability *)

Section observability.
Context {S C K : Type} `{!App K}.
Abbreviation W := (World S C K).
Implicit Types (w : W).

Lemma add_events_nil w : add_events [] w = w.
Proof. destruct w. unfold add_events. cbn. by rewrite app_nil_r. Qed.
Lemma add_events_app l k w : add_events k (add_events l w) = add_events (l ++ k) w.
Proof. unfold add_events. cbn. by rewrite app_assoc. Qed.

Lemma emit_metric_cases e w :
  ∃ r evs, emit_metric e w = (r, add_events evs w).
Proof.
  unfold emit_metric. destruct (app_metric_fails e).
  - exists (Raise (OtherError "metrics")), []. by rewrite add_events_nil.
  - by exists (Ok tt), [e].
Qed.

(** An attempt of a computation that only emits, with a fallback that only
    emits, succeeds and only emits. *)
Lemma attempt_emits (m fallback : M W unit) w :
  (∀ w, ∃ r evs, m w = (r, add_events evs w)) → (∀ w, ∃ r evs, fallback w = (r, add_events evs w)) →
  ∃ evs, attempt m fallback w = (Ok tt, add_events evs w).
Proof.
  intros Hm Hf. unfold attempt, catch. destruct (Hm w) as ([[]|e] & evs & ->); [by exists evs|].
  destruct (Hf (add_events evs w)) as ([[]|e'] & evs' & ->); rewrite add_events_app; by eexists.
Qed.

Lemma struct_log_emits level name w : ∃ r evs, struct_log level name w = (r, add_events evs w).
Proof. by exists (Ok tt), [Log level name]. Qed.

Lemma attempt_log_ok level name msg w :
  ∃ evs, attempt (struct_log level name) (struct_log ERROR msg) w = (Ok tt, add_events evs w).
Proof. apply attempt_emits; apply struct_log_emits. Qed.

Lemma safe_emit_ok log metric w : ∃ evs, safe_emit log metric w = (Ok tt, add_events evs w).
Proof.
  set (after := match emit_metric <$> metric with
    | Some m => attempt m (default (ret tt) ((λ _, struct_log ERROR "metrics failed") <$> log))
    | None => ret tt
    end : M W unit).
  assert (Ha : ∀ w, ∃ evs, after w = (Ok tt, add_events evs w)).
  { intros w'. subst after. destruct metric as [e|]; [|exists []; by rewrite add_events_nil].
    apply attempt_emits; [apply emit_metric_cases|]. destruct log as [l|]; [apply struct_log_emits|].
    intros w2. exists (Ok tt), []. by rewrite add_events_nil. }
  unfold safe_emit, safe_emit_steps. fold after. destruct log as [[level name]|].
  - destruct (attempt_log_ok level name "struct_log failed" w) as [evs E].
    unfold bind at 1. cbn [fmap option_fmap option_map default from_option fst snd id]. rewrite E.
    destruct (Ha (add_events evs w)) as [evs' ->]. rewrite add_events_app. by eexists.
  - unfold bind at 1. apply Ha.
Qed.

(** The hints the code passes have at most 12 characters. *)
Definition hint_ok (hint : option str) : bool :=
  match hint with Some h => (String.length h <=? 12)%nat | None => true end.

Lemma emit_auth_failure_ok source reason hint w :
  hint_ok hint = true → ∃ evs, emit_auth_failure source reason hint w = (Ok tt, add_events evs w).
Proof.
  intros Hh. unfold emit_auth_failure. replace (match hint with Some h => _ | None => false end) with false.
  - apply attempt_emits; [|apply struct_log_emits]. intros w'. unfold bind, struct_log at 1, modify.
    destruct (emit_metric_cases (Increment "cassetta.auth.failures" 1 [("source", source); ("reason", reason)])
      (add_events [Log WARNING "auth.failure"] w')) as (r & evs & ->). rewrite add_events_app. by eexists _, _.
  - symmetry. destruct hint as [h|]; [|done]. apply Nat.ltb_ge. by apply Nat.leb_le in Hh.
Qed.

Lemma hint_ok_credentials s :
  hint_ok (if decide (s = "") then None else Some (str_take 12 s)) = true.
Proof. case_decide; [done|]. apply Nat.leb_le, str_take_length. Qed.

Lemma wp_struct_log level name (Q : unit → W → Prop) X w :
  Q tt (add_events [Log level name] w) → wp (struct_log level name) Q X w.
Proof. done. Qed.
Lemma wp_safe_emit log metric (Q : unit → W → Prop) X w :
  (∀ evs, Q tt (add_events evs w)) → wp (safe_emit log metric) Q X w.
Proof. intros HQ. unfold wp. destruct (safe_emit_ok log metric w) as [evs ->]. apply HQ. Qed.
Lemma wp_auth_failure source reason hint (Q : unit → W → Prop) X w :
  hint_ok hint = true → (∀ evs, Q tt (add_events evs w)) → wp (emit_auth_failure source reason hint) Q X w.
Proof. intros Hh HQ. unfold wp. destruct (emit_auth_failure_ok source reason hint w Hh) as [evs ->]. apply HQ. Qed.

Lemma wp_on_store {A} (m : M S A) (Q : A → W → Prop) X w :
  wp m (λ a s, Q a (set_store s w)) (λ e s, X e (set_store s w)) (w_store w) → wp (on_store m) Q X w.
Proof. unfold wp, on_store, lift. by destruct (m (w_store w)) as [[] s]. Qed.
Lemma wp_on_claims {A} (m : M C A) (Q : A → W → Prop) X w :
  wp m (λ a c, Q a (set_claims c w)) (λ e c, X e (set_claims c w)) (w_claims w) → wp (on_claims m) Q X w.
Proof. unfold wp, on_claims, lift. by destruct (m (w_claims w)) as [[] s]. Qed.
Lemma wp_on_keys {A} (m : M K A) (Q : A → W → Prop) X w :
  wp m (λ a k, Q a (set_keystore k w)) (λ e k, X e (set_keystore k w)) (w_keys w) → wp (on_keys m) Q X w.
Proof. unfold wp, on_keys, lift. by destruct (m (w_keys w)) as [[] s]. Qed.
End observability.

(** ** Equality up to the events *)

Section same_run.
Context {S C K : Type}.
Abbreviation W := (World S C K).

Definition eqv (w1 w2 : W) : Prop :=
  w_store w1 = w_store w2 ∧ w_claims w1 = w_claims w2 ∧ w_keys w1 = w_keys w2 ∧
  w_slots w1 = w_slots w2 ∧ w_now w1 = w_now w2 ∧ w_mono w1 = w_mono w2 ∧
  w_uuids w1 = w_uuids w2 ∧ w_hits w1 = w_hits w2.

Definition same_run {A} (m1 m2 : M W A) : Prop :=
  ∀ w1 w2, eqv w1 w2 → (m1 w1).1 = (m2 w2).1 ∧ eqv (m1 w1).2 (m2 w2).2.

Lemma eqv_events l1 l2 w1 w2 : eqv w1 w2 → eqv (add_events l1 w1) (add_events l2 w2).
Proof. done. Qed.

Lemma run_ret {A} (a : A) : same_run (ret a) (ret a).
Proof. done. Qed.
Lemma run_raise {A} e : same_run (@raise W A e) (raise e).
Proof. done. Qed.
Lemma run_of_res {A} (r : res A) : same_run (of_res r) (of_res r).
Proof. done. Qed.
Lemma run_bind {A B} (m1 m2 : M W A) (k1 k2 : A → M W B) :
  same_run m1 m2 → (∀ a, same_run (k1 a) (k2 a)) → same_run (bind m1 k1) (bind m2 k2).
Proof.
  intros Hm Hk w1 w2 Hw. unfold bind. specialize (Hm w1 w2 Hw).
  destruct (m1 w1) as [[a1|e1] w1'], (m2 w2) as [[a2|e2] w2']; cbn in Hm; destruct Hm as [Hr Hw']; simplify_eq;
    [by apply Hk|done].
Qed.
Lemma run_get {B} (k1 k2 : W → M W B) :
  (∀ s c k sl n m u h l1 l2, same_run (k1 (mkWorld s c k sl n m u h l1)) (k2 (mkWorld s c k sl n m u h l2))) →
  same_run (bind get k1) (bind get k2).
Proof.
  intros Hk w1 w2 Hw. unfold bind, get. destruct w1, w2. pose proof Hw as (? & ? & ? & ? & ? & ? & ? & ?).
  cbn in *. subst. by apply Hk.
Qed.
Lemma run_catch {A} (m1 m2 : M W A) h1 h2 :
  same_run m1 m2 →
  (∀ e, match h1 e, h2 e with Some x, Some y => same_run x y | None, None => True | _, _ => False end) →
  same_run (catch m1 h1) (catch m2 h2).
Proof.
  intros Hm Hh w1 w2 Hw. unfold catch. specialize (Hm w1 w2 Hw).
  destruct (m1 w1) as [[a1|e1] w1'], (m2 w2) as [[a2|e2] w2']; cbn in Hm; destruct Hm as [Hr Hw']; simplify_eq;
    [done|]. specialize (Hh e2). destruct (h1 e2), (h2 e2); [by apply Hh|done..].
Qed.
Lemma run_when b (m1 m2 : M W unit) : same_run m1 m2 → same_run (when b m1) (when b m2).
Proof. by destruct b. Qed.
Lemma run_for_each {A} (l : list A) (f1 f2 : A → M W unit) :
  (∀ x, same_run (f1 x) (f2 x)) → same_run (for_each l f1) (for_each l f2).
Proof. intros Hf. induction l as [|x l IH]; [done|]. by apply run_bind. Qed.
Lemma run_fold_m {A B} (f1 f2 : B → A → M W B) acc l :
  (∀ b x, same_run (f1 b x) (f2 b x)) → same_run (fold_m f1 acc l) (fold_m f2 acc l).
Proof.
  intros Hf. revert acc. induction l as [|x l IH]; intros acc; [done|]. apply run_bind; [done|]. apply IH.
Qed.
Lemma run_map_m {A B} (f1 f2 : A → M W B) l :
  (∀ x, same_run (f1 x) (f2 x)) → same_run (map_m f1 l) (map_m f2 l).
Proof. intros Hf. induction l as [|x l IH]; [done|]. repeat (apply run_bind; [done|intros]). done. Qed.

Lemma run_on_store {A} (m : M S A) : same_run (on_store m) (on_store m).
Proof.
  intros w1 w2 Hw. pose proof Hw as (Hs & ? & ? & ? & ? & ? & ? & ?). unfold on_store, lift. rewrite Hs.
  by destruct (m (w_store w2)).
Qed.
Lemma run_on_claims {A} (m : M C A) : same_run (on_claims m) (on_claims m).
Proof.
  intros w1 w2 Hw. pose proof Hw as (? & Hs & ? & ? & ? & ? & ? & ?). unfold on_claims, lift. rewrite Hs.
  by destruct (m (w_claims w2)).
Qed.
Lemma run_on_keys {A} (m : M K A) : same_run (on_keys m) (on_keys m).
Proof.
  intros w1 w2 Hw. pose proof Hw as (? & ? & Hs & ? & ? & ? & ? & ?). unfold on_keys, lift. rewrite Hs.
  by destruct (m (w_keys w2)).
Qed.
Lemma run_struct_log l1 n1 l2 n2 : same_run (struct_log l1 n1) (struct_log l2 n2).
Proof. done. Qed.
Lemma run_set_uuids n : same_run (modify (set_uuids n)) (modify (set_uuids n)).
Proof. intros w1 w2 (? & ? & ? & ? & ? & ? & ? & ?). done. Qed.
Lemma run_set_hits n : same_run (modify (set_hits n)) (modify (set_hits n)).
Proof. intros w1 w2 (? & ? & ? & ? & ? & ? & ? & ?). done. Qed.
Lemma run_set_slots n : same_run (modify (set_slots n)) (modify (set_slots n)).
Proof. intros w1 w2 (? & ? & ? & ? & ? & ? & ? & ?). done. Qed.
Lemma run_events l1 l2 : same_run (modify (add_events l1)) (modify (add_events l2)).
Proof. done. Qed.

(** Emissions under two applications, whose metrics providers may fail
    differently. *)
Lemma run_safe_emit (a1 a2 : App K) l1 m1 l2 m2 :
  same_run (@safe_emit S C K a1 l1 m1) (@safe_emit S C K a2 l2 m2).
Proof.
  intros w1 w2 Hw. destruct (@safe_emit_ok S C K a1 l1 m1 w1) as [? ->], (@safe_emit_ok S C K a2 l2 m2 w2) as [? ->].
  by split; [|apply eqv_events].
Qed.
Lemma run_auth_failure (a1 a2 : App K) s r h :
  hint_ok h = true → same_run (@emit_auth_failure S C K a1 s r h) (@emit_auth_failure S C K a2 s r h).
Proof.
  intros Hh w1 w2 Hw. destruct (@emit_auth_failure_ok S C K a1 s r h w1 Hh) as [? ->],
    (@emit_auth_failure_ok S C K a2 s r h w2 Hh) as [? ->].
  by split; [|apply eqv_events].
Qed.
Lemma run_list_bundles `{!StorageBackend S} prefix io :
  same_run (list_bundles_w prefix io) (list_bundles_w prefix io).
Proof.
  apply run_get. intros. cbn [w_store]. destruct (sb_list_bundles prefix io s).
  apply run_bind; [apply run_events|intros; apply run_of_res].
Qed.
End same_run.

(** The tactic: bodies of named functions are unfolded first. *)
Ltac run_handlers :=
  repeat lazymatch goal with
  | |- match match ?x with _ => _ end with _ => _ end => destruct x eqn:?
  end.
Ltac run_step :=
  lazymatch goal with
  | |- True => exact I
  | |- same_run (bind get _) (bind get _) => apply run_get; intros ? ? ? ? ? ? ? ? ? ?; cbn [now_seconds w_store w_claims w_keys w_slots w_now w_mono w_uuids w_hits]
  | |- same_run (bind _ _) (bind _ _) => apply run_bind; [|intros ?]
  | |- same_run (catch _ _) (catch _ _) => apply run_catch; [|intros ?; run_handlers]
  | |- same_run (when _ _) (when _ _) => apply run_when
  | |- same_run (for_each _ _) (for_each _ _) => apply run_for_each; intros ?
  | |- same_run (fold_m _ _ _) (fold_m _ _ _) => apply run_fold_m; intros ? ?
  | |- same_run (map_m _ _) (map_m _ _) => apply run_map_m; intros ?
  | |- same_run (match ?x with _ => _ end) _ => destruct x eqn:?
  | |- same_run (safe_emit _ _) (safe_emit _ _) => apply run_safe_emit
  | |- same_run (emit_auth_failure _ _ _) (emit_auth_failure _ _ _) =>
      apply run_auth_failure; first [done|apply hint_ok_credentials]
  | |- same_run (list_bundles_w _ _) (list_bundles_w _ _) => apply run_list_bundles
  | |- same_run (on_store _) (on_store _) => apply run_on_store
  | |- same_run (on_claims _) (on_claims _) => apply run_on_claims
  | |- same_run (on_keys _) (on_keys _) => apply run_on_keys
  | |- same_run (struct_log _ _) (struct_log _ _) => apply run_struct_log
  | |- same_run (ret _) (ret _) => apply run_ret
  | |- same_run (raise _) (raise _) => apply run_raise
  | |- same_run (of_res _) (of_res _) => apply run_of_res
  | |- same_run (modify (set_uuids _)) (modify _) => apply run_set_uuids
  | |- same_run (modify (set_hits _)) (modify _) => apply run_set_hits
  | |- same_run (modify (set_slots _)) (modify _) => apply run_set_slots
  | |- same_run (modify (add_events _)) (modify (add_events _)) => apply run_events
  end.
Ltac same_run := repeat (run_step; cbv beta zeta).

(** ** Reads

    What the protocols promise of their reading operations: a read of the
    storage changes nothing; the claim and key stores may change what is not
    data (their logs), up to a relation of the implementation. *)
Class StorageReads S `{StorageBackend S} := {
  sr_meta p : pure_state (sb_read_bundle_meta p);
  sr_file p name : pure_state (sb_open_bundle_file_read p name);
}.
Class ClaimReads C `{ClaimStorage C} := {
  claims_same : relation C;
  claims_same_preorder :: PreOrder claims_same;
  cr_get jti : frames claims_same (cs_get jti);
  cr_iter_active now ttl : frames claims_same (cs_iter_active now ttl);
  cr_iter_all : frames claims_same cs_iter_all;
}.
Class KeyReads K `{KeyStoreProtocol K} := {
  keys_same : relation K;
  keys_same_preorder :: PreOrder keys_same;
  kr_validate raw : frames keys_same (kp_validate raw);
  kr_list : frames keys_same kp_list_keys;
}.
(** Resolving an alias only reads the keys. *)
Class AliasReads K `{KeyReads K, App K} :=
  ar_reads name sender : frames keys_same (ar_resolve app_alias name sender).

(** The application's data (bundles, claims and keys) and the clock. *)
Record same_data {S C K} `{ClaimReads C, KeyReads K} (w w' : World S C K) : Prop := {
  sd_store : w_store w' = w_store w;
  sd_claims : claims_same (w_claims w) (w_claims w');
  sd_keys : keys_same (w_keys w) (w_keys w');
  sd_now : w_now w' = w_now w;
}.
#[export] Instance same_data_preorder {S C K} `{ClaimReads C, KeyReads K} :
  PreOrder (same_data (S := S) (C := C) (K := K)).
Proof.
  split.
  - intros w. by split.
  - intros w1 w2 w3 [E1 ? ? ?] [E2 ? ? ?]. split; [congruence|by etrans..|congruence].
Qed.

Section reads.
Context {S C K : Type} `{StorageReads S, ClaimReads C, KeyReads K, !App K}.
Abbreviation W := (World S C K).
Implicit Types (w : W).

Lemma frames_emits {A} (m : M W A) :
  (∀ w, ∃ r evs, m w = (r, add_events evs w)) → frames same_data m.
Proof. intros Hm w. destruct (Hm w) as (r & evs & ->). by split. Qed.
Lemma frames_struct_log level name : frames same_data (struct_log level name : M W unit).
Proof. apply frames_emits, struct_log_emits. Qed.
Lemma frames_emit_metric e : frames same_data (emit_metric e : M W unit).
Proof. apply frames_emits, emit_metric_cases. Qed.
Lemma frames_safe_emit log metric : frames same_data (safe_emit log metric : M W unit).
Proof. apply frames_emits. intros w. destruct (safe_emit_ok log metric w) as [evs ->]. by eexists _, _. Qed.
Lemma frames_auth_failure source reason hint :
  hint_ok hint = true → frames same_data (emit_auth_failure source reason hint : M W unit).
Proof.
  intros Hh. apply frames_emits. intros w.
  destruct (emit_auth_failure_ok source reason hint w Hh) as [evs ->]. by eexists _, _.
Qed.

Lemma frames_on_store {A} (m : M S A) : pure_state m → frames same_data (on_store m : M W A).
Proof.
  intros Hm w. unfold on_store, lift. specialize (Hm (w_store w)). destruct (m (w_store w)) as [r s].
  cbn in *. by split.
Qed.
Lemma frames_on_claims {A} (m : M C A) : frames claims_same m → frames same_data (on_claims m : M W A).
Proof.
  intros Hm w. unfold on_claims, lift. specialize (Hm (w_claims w)). destruct (m (w_claims w)) as [r s].
  cbn in *. by split.
Qed.
Lemma frames_on_keys {A} (m : M K A) : frames keys_same m → frames same_data (on_keys m : M W A).
Proof.
  intros Hm w. unfold on_keys, lift. specialize (Hm (w_keys w)). destruct (m (w_keys w)) as [r s].
  cbn in *. by split.
Qed.
Lemma frames_set_uuids n : frames same_data (modify (set_uuids n) : M W unit).
Proof. by apply frames_modify. Qed.
Lemma frames_set_hits n : frames same_data (modify (set_hits n) : M W unit).
Proof. by apply frames_modify. Qed.
Lemma frames_set_slots n : frames same_data (modify (set_slots n) : M W unit).
Proof. by apply frames_modify. Qed.
Lemma frames_add_events n : frames same_data (modify (add_events n) : M W unit).
Proof. by apply frames_modify. Qed.
Lemma frames_list_bundles prefix io : frames same_data (list_bundles_w prefix io : M W (list BundleRef)).
Proof.
  intros w. unfold list_bundles_w, bind at 1, get. destruct (sb_list_bundles prefix io (w_store w)) as [r evs].
  unfold bind, modify, of_res. cbn. by split.
Qed.
Lemma frames_verify `{!PyJwt} token : frames same_data (verify_token token : M W dict).
Proof.
  intros w. unfold verify_token, bind at 1, get. destruct (verify_with_slots _ _ _ _ _) as [r sl]. by split.
Qed.
Lemma frames_read_meta p : frames same_data (on_store (sb_read_bundle_meta p) : M W dict).
Proof. apply frames_on_store, sr_meta. Qed.
Lemma frames_read_file p n : frames same_data (on_store (sb_open_bundle_file_read p n) : M W bytes).
Proof. apply frames_on_store, sr_file. Qed.
Lemma frames_iter_active now ttl : frames same_data (on_claims (cs_iter_active now ttl) : M W (gmap str str)).
Proof. apply frames_on_claims, cr_iter_active. Qed.
Lemma frames_list_keys : frames same_data (on_keys kp_list_keys : M W (list KeyInfo)).
Proof. apply frames_on_keys, kr_list. Qed.
Lemma frames_validate raw : frames same_data (on_keys (kp_validate raw) : M W (option KeyInfo)).
Proof. apply frames_on_keys, kr_validate. Qed.

Lemma frames_read_body rq : frames same_data (read_body rq : M W bytes).
Proof. unfold read_body. frame. Qed.
Lemma frames_check_policy i r a : frames same_data (check_policy i r a : M W bool).
Proof. unfold check_policy. frame. apply frames_safe_emit. Qed.
Lemma frames_enforce i r a : frames same_data (enforce i r a : M W unit).
Proof. unfold enforce. apply frames_bind; [apply _|apply frames_check_policy|]. intros []; [apply frames_ret; apply _|apply frames_raise; apply _]. Qed.
End reads.
#[export] Hint Resolve frames_struct_log frames_emit_metric frames_safe_emit frames_auth_failure
  hint_ok_credentials frames_set_uuids frames_set_hits frames_set_slots frames_add_events
  frames_list_bundles frames_verify frames_read_meta frames_read_file frames_iter_active frames_list_keys
  frames_validate frames_read_body frames_check_policy frames_enforce : cassetta.

Lemma frames_current_identity {S C K} `{StorageReads S, ClaimReads C, KeyReads K, !App K} rq :
  frames same_data (get_current_identity rq : M (World S C K) Identity).
Proof. unfold get_current_identity, http_error. frame. Qed.
#[export] Hint Resolve frames_current_identity : cassetta.
