(* ===== verification/CliLaws.v ===== *)
(** * Theorems on the command line

    What the commands of [Cli] do to the local file system, to the output and
    to the network, for any client: when [send] reports a bundle, which exit
    status means what, and what [download] writes where. *)

From Stdlib Require Import Ascii String.
From stdpp Require Import pretty.
From S2P Require Import Prelude PyStr PyCodec Json Effects PyNum Paths Limits Config.
From S2P Require Import Claims KeyStore Jwt FsModel Storage World Frame Cli.
Local Open Scope string_scope.
Local Open Scope list_scope.
Local Open Scope effect_scope.

(** ** Lemmas: running on a terminal *)

(** A [typer.Exit] of a failure, or an exception that is none. *)
Definition failing (e : exn) : Prop := match e with TyperExit c => c ∈ [1; 2; 3]%Z | _ => True end.
Definition tame {A} (r : res A) : Prop := match r with Ok _ => True | Raise e => failing e end.

Lemma failing_status {A} e : failing e → exit_status (@Raise A e) ∈ [1; 2; 3]%Z.
Proof. destruct e; cbn; try done; intros _; set_solver. Qed.

Lemma tame_bind {A B} (r : res A) (k : A → res B) : tame r → (∀ a, tame (k a)) → tame (res_bind r k).
Proof. by destruct r; cbn. Qed.
Lemma tame_map_res {A B} (f : A → res B) l : (∀ a, tame (f a)) → tame (map_res f l).
Proof.
  intros Hf. induction l as [|x l IH]; [done|]. cbn [map_res].
  apply tame_bind; [done|]. intros y. by apply tame_bind.
Qed.
Lemma tame_loads body : tame (loads_body body).
Proof. unfold loads_body. by case_match. Qed.
Lemma tame_as_dict j : tame (as_dict j).
Proof. by destruct j. Qed.
Lemma tame_item k d : tame (dict_item k d).
Proof. unfold dict_item. by case_match. Qed.
(** A bad file argument is a usage error. *)
Lemma normalise_BadParameter a e : normalise_arg a = Raise e → ∃ msg, e = BadParameter msg.
Proof.
  unfold normalise_arg. cbv zeta. set (arg := if startswith "./" a then _ else a). clearbody arg.
  destruct (decide (arg = "")); [intros [= <-]; by eexists|].
  destruct (startswith "/" arg); [intros [= <-]; by eexists|].
  unfold validate_path, path_error. repeat case_match; intros; simplify_eq; by eexists.
Qed.
Lemma tame_normalise a : tame (normalise_arg a).
Proof. destruct (normalise_arg a) as [|e] eqn:E; [done|]. by apply normalise_BadParameter in E as [msg ->]. Qed.
Lemma map_res_Raise {A B} (f : A → res B) l e : map_res f l = Raise e → ∃ x, x ∈ l ∧ f x = Raise e.
Proof.
  induction l as [|x l IH]; [done|]. cbn [map_res]. unfold res_bind. destruct (f x) as [y|e'] eqn:E.
  - destruct (map_res f l) as [ys|e']; [done|]. intros [= ->]. destruct IH as (z & Hz & Ez); [done|].
    exists z. split; [by right|done].
  - intros [= ->]. exists x. split; [by left|done].
Qed.

Section terminal.
Context {N : Type}.
Abbreviation T := (Terminal N).
Implicit Types (t : T).

Lemma wp_on_fs {A} (m : M Fs A) (Q : A → T → Prop) X t :
  wp m (λ a fs, Q a (set_fs fs t)) (λ e fs, X e (set_fs fs t)) (tm_fs t) → wp (on_fs m) Q X t.
Proof. unfold wp, on_fs, lift. by destruct (m (tm_fs t)) as [[a|e] fs]. Qed.
Lemma wp_on_net {A} (m : M N A) (Q : A → T → Prop) X t :
  wp m (λ a n, Q a (set_net n t)) (λ e n, X e (set_net n t)) (tm_net t) → wp (on_net m) Q X t.
Proof. unfold wp, on_net, lift. by destruct (m (tm_net t)) as [[a|e] n]. Qed.

(** A computation followed by another, by what the first keeps. *)
Lemma wp_keep {A B} (m : M T A) (k : A → M T B) (I : T → Prop) (Q : B → T → Prop) X t :
  wp m (λ _, I) X t → (∀ a t', I t' → wp (k a) Q X t') → wp (bind m k) Q X t.
Proof. intros Hm Hk. apply wp_bind. by eapply wp_mono; [| |exact Hm]; [|done]; auto. Qed.

Lemma on_fs_run {A} (m : M Fs A) r fs t : m (tm_fs t) = (r, fs) → on_fs m t = (r, set_fs fs t).
Proof. unfold on_fs, lift. by intros ->. Qed.
Lemma on_net_run {A} (m : M N A) r n t : m (tm_net t) = (r, n) → on_net m t = (r, set_net n t).
Proof. unfold on_net, lift. by intros ->. Qed.

(** An HTTP client raises its own errors or what computing the body raised,
    and so does reading a reply; none of them ends the process as a success. *)
Definition client_ok (send_request : HttpCall → M N HttpReply) : Prop :=
  ∀ c n, match (send_request c n).1 with
         | Ok reply => Forall tame (hr_pieces reply)
         | Raise e => failing e
         end.

Lemma tame_gather pieces : Forall tame pieces → tame (gather pieces).
Proof.
  induction 1 as [|[b|e] pieces Hp _ IH]; [done| |done]. cbn [gather].
  by apply tame_bind.
Qed.
End terminal.

(** ** Lemmas: the outcome of [send] *)

Section send.
Context {N : Type} `{PyJwt}.
Abbreviation T := (Terminal N).
Variable send_request : HttpCall → M N HttpReply.
Variable tar_writer : TarWriter.
Variable owner : path → Z * Z * str * str * Z.
Variable dir_size : Z.
Variable decode_replace : bytes → str.
Variable environ : gmap str str.
Variable cwd : path.
Hypothesis Hclient : client_ok send_request.

(** The local files and the output are those of [t0]. *)
Definition silent (t0 t : T) : Prop := tm_fs t = tm_fs t0 ∧ tm_out t = tm_out t0.
Definition silent_failure (t0 : T) (e : exn) (t : T) : Prop := silent t0 t ∧ failing e.

Lemma wp_tame {A} (r : res A) t0 t : silent t0 t → tame r → wp (of_res r) (λ _, silent t0) (silent_failure t0) t.
Proof. intros Hs Hr. apply wp_of_res. by destruct r. Qed.

Lemma wp_exchange method base url headers body t0 t :
  silent t0 t →
  wp (exchange send_request method base url headers body) (λ _, silent t0) (silent_failure t0) t.
Proof.
  intros [Hf Ho]. unfold exchange, request. apply wp_bind, wp_on_net. unfold wp at 1.
  pose proof (Hclient {| hc_method := method; hc_base := base; hc_url := url; hc_headers := headers; hc_body := body |}
    (tm_net t)) as Hc. destruct (send_request _ (tm_net t)) as [[reply|e] n]; cbn [fst] in Hc; [|done].
  apply wp_bind. eapply wp_mono; [| |apply (wp_tame _ t0); [done|by apply tame_gather]]; [|done].
  intros content t' Hs. by apply wp_ret.
Qed.

Lemma wp_fail_with {A} msg code t0 t (Q : A → T → Prop) :
  silent t0 t → code ∈ [1; 2; 3]%Z → wp (fail_with msg code) Q (silent_failure t0) t.
Proof. intros [Hf Ho] Hc. unfold fail_with, eprint, exit_with. by apply wp_bind, wp_modify, wp_raise. Qed.

Lemma wp_raise_for_send status content t0 t :
  silent t0 t → wp (raise_for_send decode_replace status content) (λ _, silent t0) (silent_failure t0) t.
Proof.
  intros [Hf Ho]. unfold raise_for_send, eprint, exit_with. destruct (is_success status); [by apply wp_ret|].
  apply wp_bind, wp_modify. case_match; apply wp_raise; (split; [by split|]); cbn; set_solver.
Qed.

Lemma wp_entry name t0 t :
  silent t0 t → wp (manifest_entry dir_size cwd name) (λ _, silent t0) (silent_failure t0) t.
Proof.
  intros Hs. unfold manifest_entry. apply wp_bind. unfold getsize. apply wp_bind, wp_get.
  destruct (node_at _ _) as [[d|]|]; [apply wp_ret, wp_ret|apply wp_ret, wp_ret|apply wp_raise]; done.
Qed.

Lemma wp_entries files t0 t :
  silent t0 t → wp (map_m (manifest_entry dir_size cwd) files) (λ _, silent t0) (silent_failure t0) t.
Proof.
  revert t. induction files as [|f files IH]; intros t Hs; [done|]. cbn [map_m].
  eapply wp_keep; [by apply wp_entry|]. intros y t1 H1. eapply wp_keep; [by apply IH|]. intros ys t2 H2. by apply wp_ret.
Qed.

Lemma wp_send_async base to path files key compress t0 t :
  silent t0 t →
  wp (send_async send_request tar_writer owner dir_size decode_replace cwd base to path files key compress)
    (λ _, silent t0) (silent_failure t0) t.
Proof.
  intros Hs. unfold send_async. eapply wp_keep; [by apply wp_entries|]. intros entries t1 H1. cbv zeta.
  eapply wp_keep; [by apply wp_exchange|]. intros [status content] t2 H2.
  eapply wp_keep; [by apply wp_raise_for_send|]. intros _ t3 H3.
  eapply wp_keep; [apply wp_tame; [done|]; apply tame_bind; [apply tame_loads|apply tame_as_dict]|]. intros init t4 H4.
  eapply wp_keep; [by apply wp_tame; [|apply tame_item]|]. intros upload_url t4a H4a.
  eapply wp_keep; [by apply wp_tame; [|apply tame_item]|]. intros batch_token t4b H4b.
  eapply wp_keep; [by apply wp_tame; [|apply tame_item]|]. intros bundle_id t4c H4c.
  apply wp_bind, wp_get. eapply wp_keep; [apply wp_tame; [done|by case_match]|]. intros url t5 H5.
  eapply wp_keep; [by apply wp_exchange|]. intros [status' content'] t6 H6.
  eapply wp_keep; [by apply wp_raise_for_send|]. intros _ t7 H7.
  eapply wp_keep; [apply wp_tame; [done|]; apply tame_bind; [apply tame_loads|apply tame_as_dict]|]. intros done t8 H8.
  by apply wp_ret.
Qed.

(** The part of [send] after its checks. *)
Lemma wp_reported base to path files key t :
  wp (bundle_id <- catch (send_async send_request tar_writer owner dir_size decode_replace cwd base to path files key true)
        (λ e, if is_HTTPError e then
           Some (fail_with ("send failed: " +:+ match e with RequestError m => m | _ => "" end) 1)
         else None);;
      print ("bundle_id=" +:+ bundle_id))
    (λ _ t', tm_fs t' = tm_fs t ∧ ∃ id, tm_out t' = tm_out t ++ ["bundle_id=" +:+ id]) (silent_failure t) t.
Proof.
  apply wp_bind, wp_catch. eapply wp_mono; [| |by apply (wp_send_async base to path files key true t t)].
  - intros id t' [Hf Ho]. apply wp_modify. cbn. split; [done|]. exists id. by rewrite Ho.
  - intros e t' [Hs He]. destruct (is_HTTPError e); [|done]. apply wp_fail_with; [done|set_solver].
Qed.
End send.

Definition is_configured (environ : gmap str str) (url api_key : option str) : bool :=
  negb (bool_decide (option_or_env environ url "CASSETTA_URL" = ""))
  && negb (bool_decide (option_or_env environ api_key "CASSETTA_API_KEY" = "")).

Lemma not_rejected environ files names url api_key :
  ¬ (option_or_env environ url "CASSETTA_URL" = "" ∨ option_or_env environ api_key "CASSETTA_API_KEY" = "") →
  map_res normalise_arg files = Ok names →
  is_configured environ url api_key = false ∨ Exists (λ f, ∃ e, normalise_arg f = Raise e) files → False.
Proof.
  intros Hcfg En%map_res_Ok [Hf|He].
  - unfold is_configured in Hf. rewrite !bool_decide_eq_false_2 in Hf by tauto. done.
  - apply Exists_exists in He as (f & Hin & e & Ee). apply list_elem_of_lookup in Hin as [i Hi].
    destruct (Forall2_lookup_l _ _ _ _ _ En Hi) as (y & _ & Ey). congruence.
Qed.

(** ** Lemmas: writing a download *)

(** Names that stay below the directory they are joined to and do not get in
    each other's way. *)
Definition separate (ns : list str) : Prop :=
  NoDup ns ∧ Forall key_ok ns ∧
  ∀ n m, n ∈ ns → m ∈ ns → n ≠ m → ¬ parse_path n `prefix_of` parse_path m.

(** The place of a name in the local directory [out]. *)
Definition dest (out : path) (name : str) : path := out ++ parse_path name.

Lemma joinpath_dest out name : key_ok name → joinpath out name = dest out name.
Proof. intros (Hr & _). unfold joinpath. by rewrite Hr. Qed.

Lemma dest_lexical out name : lexical out → key_ok name → lexical (dest out name).
Proof. intros Ho (_ & Hl & _). by apply lexical_app. Qed.

Lemma dest_parent out name : key_ok name → under out (parent (dest out name)).
Proof.
  intros (_ & _ & Hn). unfold dest. destruct (exists_last Hn) as (k & c & ->).
  rewrite app_assoc, parent_snoc. by exists k.
Qed.

(** Nothing in the local tree is in the way of a destination. *)
Definition clear (fs : Fs) (q : path) : Prop := no_file_above fs (parent q) ∧ nodes fs !! q ≠ Some NDir.

Lemma no_file_dir fs p : fs_wf fs → nodes fs !! p = Some NDir → no_file_above fs p.
Proof.
  intros Hwf Hp q d [k ->] Hq. destruct (decide (k = [])) as [->|Hk]; [rewrite app_nil_r in Hp; congruence|].
  pose proof (fs_wf_prefix _ _ _ _ Hwf Hp Hk). congruence.
Qed.
Lemma no_file_snoc fs p c : no_file_above fs p → nodes fs !! (p ++ [c]) = None → no_file_above fs (p ++ [c]).
Proof. intros Hf Hn q d [->|Hu]%prefix_snoc_inv; [congruence|by apply Hf]. Qed.

(** What becomes of the tree when files with these contents are written. *)
Definition after_writes (W : list (path * bytes)) (fs : Fs) (q : path) : option node :=
  match find_first (λ w, bool_decide (w.1 = q)) W with
  | Some w => Some (NFile w.2)
  | None =>
      match nodes fs !! q with
      | Some n => Some n
      | None => if existsb (λ w, bool_decide (under q (parent w.1))) W then Some NDir else None
      end
  end.

Lemma not_under_own_parent q : q ≠ [] → ¬ under q (parent q).
Proof. destruct (parent_cases q) as [->|(k & c & -> & ->)]; [done|]. intros _. apply not_under_snoc. Qed.

(** Writing the first of several files leaves the others clear. *)
Lemma clear_after q d fs fs' r :
  (∀ p, nodes fs' !! p = after_writes [(q, d)] fs p) → clear fs r → ¬ under q r → ¬ under r q → clear fs' r.
Proof.
  intros E [Hr Hd] Hqr Hrq. split.
  - intros p e Hp. rewrite E. unfold after_writes. cbn. case_bool_decide as Hqp; cbn.
    + subst. exfalso. apply Hqr. by apply under_parent.
    + intros H. destruct (nodes fs !! p) eqn:Ep; [|by destruct (_ || _)%bool]. simplify_eq. by apply (Hr p e).
  - rewrite E. unfold after_writes. cbn. case_bool_decide as Hqr'; [subst; by destruct Hqr|]. cbn.
    destruct (nodes fs !! r) eqn:Er; [done|]. case_bool_decide as Hu; cbn; [|done].
    exfalso. apply Hrq. by apply under_parent.
Qed.

Lemma after_writes_cons q d W fs fs' p :
  (∀ p, nodes fs' !! p = after_writes [(q, d)] fs p) → q ∉ W.*1 →
  after_writes W fs' p = after_writes ((q, d) :: W) fs p.
Proof.
  intros E Hq. unfold after_writes at 2. cbn [find_first existsb fst snd].
  unfold after_writes at 1. rewrite E. unfold after_writes. cbn.
  case_bool_decide as Hqp; cbn.
  - subst p. destruct (find_first _ W) as [w|] eqn:Ef; [|done].
    apply find_first_Some in Ef as [Hin Ew]. bool_to_prop. subst q. destruct Hq. by apply list_elem_of_fmap_2.
  - destruct (find_first _ W) as [w|]; [done|]. destruct (nodes fs !! p); [done|].
    rewrite orb_false_r. by destruct (bool_decide _).
Qed.

Section download.
Context {N : Type} `{PyJwt}.
Abbreviation T := (Terminal N).
Implicit Types (t : T).
Variable send_request : HttpCall → M N HttpReply.
Variable decode_replace : bytes → str.

Definition get_call (url : str) (headers : list (str * str)) : HttpCall :=
  {| hc_method := "GET"; hc_base := ""; hc_url := url; hc_headers := headers; hc_body := NoBody |}.

(** The requests for the files [F] (name, URL and contents) in their order
    are answered with the contents, from the network state [n] to [n']. *)
Fixpoint served (headers : list (str * str)) (F : list (str * str * bytes)) (n n' : N) : Prop :=
  match F with
  | [] => n' = n
  | (name, url, body) :: F =>
      ∃ reply n1, send_request (get_call url headers) n = (Ok reply, n1) ∧
        is_success (hr_status reply) = true ∧ gather (hr_pieces reply) = Ok body ∧ served headers F n1 n'
  end.

Lemma set_fs_twice fs fs' t : set_fs fs' (set_fs fs t) = set_fs fs' t.
Proof. done. Qed.

Lemma bind_Ok {A B} (m : M T A) (k : A → M T B) a t t' : m t = (Ok a, t') → bind m k t = k a t'.
Proof. unfold bind. by intros ->. Qed.

Lemma write_pieces_run q pieces old body t :
  lexical q → fs_wf (tm_fs t) → nodes (tm_fs t) !! q = Some (NFile old) → gather pieces = Ok body →
  ∃ fs', write_pieces q pieces t = (Ok tt, set_fs fs' t) ∧ fs_wf fs' ∧
    nodes fs' = <[q := NFile (old +:+ body)]> (nodes (tm_fs t)).
Proof.
  intros Hq. revert old body t. induction pieces as [|[b|e] pieces IH]; intros old body t Hwf Hold; [| |done].
  - intros [= <-]. exists (tm_fs t). split_and!; [by destruct t|done|].
    rewrite app_empty_r. by rewrite insert_id.
  - cbn [gather]. unfold res_bind. destruct (gather pieces) as [r|] eqn:Eg; [|done]. intros [= <-].
    cbn [write_pieces]. unfold when. case_bool_decide as Hb; cbn [negb].
    + subst b. erewrite bind_Ok by done. by apply IH.
    + erewrite bind_Ok by (apply on_fs_run, append_bytes_lexical; [done|exact Hold]).
      destruct (IH (old +:+ b) r (set_fs (set_node q (NFile (old +:+ b)) (tm_fs t)) t)) as (fs' & E & Hwf' & En).
      * cbn. eapply fs_wf_set_file; [done|exact Hold].
      * cbn. by rewrite lookup_insert_eq.
      * done.
      * exists fs'. rewrite E, set_fs_twice. split_and!; [done|done|]. rewrite En. cbn.
        by rewrite insert_insert_eq, app_str_assoc.
Qed.

(** One file. *)
Lemma write_file_run url headers q t reply n' body :
  fs_wf (tm_fs t) → lexical q → q ≠ [] → clear (tm_fs t) q →
  send_request (get_call url headers) (tm_net t) = (Ok reply, n') →
  is_success (hr_status reply) = true → gather (hr_pieces reply) = Ok body →
  ∃ fs', write_file_streaming send_request decode_replace url headers q t = (Ok tt, set_net n' (set_fs fs' t)) ∧
    fs_wf fs' ∧ ∀ p, nodes fs' !! p = after_writes [(q, body)] (tm_fs t) p.
Proof.
  intros Hwf Hq Hne [Hfree Hdir] Hreq Hsuc Hg. unfold write_file_streaming.
  destruct (mkdir_parents_spec (parent q) (tm_fs t) Hwf (lexical_parent _ Hq) Hfree) as (fs1 & Em & Hwf1 & Hadd).
  erewrite bind_Ok by (by apply on_fs_run). unfold request.
  erewrite bind_Ok by (apply on_net_run; exact Hreq). rewrite Hsuc.
  assert (Hpar : nodes fs1 !! parent q = Some NDir).
  { rewrite Hadd. destruct (nodes (tm_fs t) !! parent q) as [[d|]|] eqn:Ep; [|done|by rewrite decide_True].
    by destruct (Hfree (parent q) d). }
  assert (Hq1 : nodes fs1 !! q = nodes (tm_fs t) !! q).
  { rewrite Hadd. destruct (nodes (tm_fs t) !! q); [done|]. by rewrite decide_False by by apply not_under_own_parent. }
  set (fs2 := match nodes fs1 !! q with Some _ => set_node q (NFile "") fs1 | None => create_node q (NFile "") fs1 end).
  assert (Ew : write_bytes q "" fs1 = (Ok tt, fs2)).
  { rewrite write_bytes_lexical, Hpar by done. subst fs2. rewrite Hq1.
    by destruct (nodes (tm_fs t) !! q) as [[d|]|]. }
  assert (Hn2 : nodes fs2 = <[q := NFile ""]> (nodes fs1)) by (subst fs2; by destruct (nodes fs1 !! q)).
  assert (Hwf2 : fs_wf fs2).
  { subst fs2. destruct (nodes fs1 !! q) as [[d|]|] eqn:E; [by eapply fs_wf_set_file|congruence|].
    by apply fs_wf_create_node. }
  erewrite bind_Ok by (apply on_fs_run; exact Ew).
  destruct (write_pieces_run q (hr_pieces reply) "" body (set_fs fs2 (set_net n' (set_fs fs1 t)))) as (fs3 & E3 & Hwf3 & En3).
  { done. } { done. } { cbn. by rewrite Hn2, lookup_insert_eq. } { done. }
  exists fs3. rewrite E3. split_and!; [done|done|]. intros p. cbn in En3. rewrite En3, Hn2, insert_insert_eq.
  unfold after_writes. cbn. rewrite lookup_insert. case_decide as Hp; [by rewrite bool_decide_true|].
  rewrite bool_decide_false, orb_false_r, Hadd by done. destruct (nodes (tm_fs t) !! p); [done|].
  by case_decide; case_bool_decide.
Qed.

(** The entry of a file in the envelope. *)
Definition entry_of (f : str * str * bytes) (j : json) : Prop :=
  f.1.2 ≠ "" ∧ ∃ d, j = JDict d ∧ get_str "name" "" d = f.1.1 ∧ get_str "url" "" d = f.1.2.

Definition to_write (out : path) (F : list (str * str * bytes)) : list (path * bytes) :=
  map (λ f, (dest out f.1.1, f.2)) F.
Definition names_of (F : list (str * str * bytes)) : list str := map (λ f, f.1.1) F.

Lemma dest_under out n m : under (dest out n) (dest out m) ↔ parse_path n `prefix_of` parse_path m.
Proof. unfold dest. split; [apply prefix_app_inv|apply prefix_app]. Qed.

Lemma download_all_run headers out F entries t n' :
  lexical out → fs_wf (tm_fs t) → separate (names_of F) → Forall2 entry_of F entries →
  Forall (λ n, clear (tm_fs t) (dest out n)) (names_of F) → served headers F (tm_net t) n' →
  ∃ fs', download_all send_request decode_replace entries headers out t = (Ok tt, set_net n' (set_fs fs' t)) ∧
    fs_wf fs' ∧ ∀ p, nodes fs' !! p = after_writes (to_write out F) (tm_fs t) p.
Proof.
  intros Hout Hwf Hsep He. revert t Hwf Hsep.
  induction He as [|[[name url] body] j F entries Hj He IH]; intros t Hwf Hsep Hclear Hs.
  { cbn in Hs. subst n'. exists (tm_fs t). split_and!; [by destruct t|done|]. intros p. unfold after_writes. cbn.
    by destruct (nodes (tm_fs t) !! p). }
  destruct Hsep as (Hnd & Hok & Hsep). cbn [names_of map fst] in Hnd, Hok, Hsep, Hclear.
  apply NoDup_cons in Hnd as [Hnew Hnd]. apply Forall_cons in Hok as [Hok1 Hok]. apply Forall_cons in Hclear as [Hc1 Hclear].
  destruct Hs as (reply & n1 & Hreq & Hsuc & Hg & Hs). destruct Hj as (Hurl & d & -> & Hname & Hdurl). cbn [fst snd] in *.
  destruct (write_file_run url headers (dest out name) t reply n1 body) as (fs1 & E1 & Hwf1 & En1); try done.
  { by apply dest_lexical. } { unfold dest. intros [_ E]%app_nil. by apply (proj2 (proj2 Hok1)). }
  assert (Hapart : ∀ m, m ∈ names_of F → ¬ under (dest out name) (dest out m) ∧ ¬ under (dest out m) (dest out name)).
  { intros m Hm. assert (name ≠ m) by (intros ->; done).
    rewrite !dest_under. split; apply Hsep; try done; by (left || right). }
  destruct (IH (set_net n1 (set_fs fs1 t))) as (fs2 & E2 & Hwf2 & En2); [done| | |done|].
  { split_and!; [done|done|]. intros m m' Hm Hm'. apply Hsep; by right. }
  { rewrite Forall_forall in Hclear |- *. intros m Hm. destruct (Hapart m Hm).
    eapply clear_after; [exact En1|by apply Hclear|done..]. }
  exists fs2. split_and!; [|done|].
  - cbn [download_all for_each]. unfold download_all in E2 |- *. cbn [for_each]. erewrite bind_Ok; [exact E2|].
    unfold download_entry. rewrite Hname, Hdurl. rewrite bool_decide_false.
    + by rewrite joinpath_dest.
    + intros [->| ->]; [|done]. by apply (proj2 (proj2 Hok1)).
  - intros p. rewrite En2. cbn [tm_fs set_net set_fs]. cbn [to_write map]. cbn [fst snd]. fold (to_write out F).
    apply after_writes_cons; [done|]. intros Hin. apply list_elem_of_fmap in Hin as ([q b] & E & Hin). cbn in E. subst q.
    apply list_elem_of_In, in_map_iff in Hin as ([[m u] b'] & Em & Hf).
    injection Em as Ed ->.
    destruct (Hapart m) as [Ha _]; [|by rewrite Ed in Ha; apply Ha].
    apply list_elem_of_In, in_map_iff. by exists (m, u, b).
Qed.

(** *** The command *)

Variable stdin : bytes.
Variable cwd : path.

(** What [--manifest-json] names holds [raw]. *)
Definition manifest_source (manifest_json : str) (fs : Fs) (raw : bytes) : Prop :=
  if decide (manifest_json = "-") then raw = stdin
  else lexical (local cwd manifest_json) ∧ nodes fs !! local cwd manifest_json = Some (NFile raw).

(** An envelope with a token and these entries. *)
Record reference_envelope (raw : bytes) (token : str) (entries : list json) : Prop := mkRefEnv {
  re_doc : ∃ env, utf8_decode raw ≫= json_loads = Some (JDict env) ∧ get_is "mode" "reference" env = true ∧
    dict_get "download_token" env = Some (JStr token) ∧ dict_get "files" env = Some (JList entries);
  re_token : token ≠ "";
  re_files : entries ≠ [];
}.

Definition download_headers (token : str) : list (str * str) :=
  [bearer token] ++ match decode_recipient token with Some r => [("X-Sender", r)] | None => [] end.

Lemma load_envelope_run manifest_json raw env t :
  manifest_source manifest_json (tm_fs t) raw → utf8_decode raw ≫= json_loads = Some (JDict env) →
  load_envelope stdin cwd manifest_json t = (Ok env, t).
Proof.
  unfold manifest_source, load_envelope. intros Hm Hd.
  destruct (utf8_decode raw) as [text|] eqn:Eu; [|done]. cbn in Hd.
  assert (Er : (if decide (manifest_json = "-") then ret stdin else on_fs (read_bytes (local cwd manifest_json))) t = (Ok raw, t)).
  { case_decide; [by subst|]. destruct Hm as [Hl Hn]. erewrite on_fs_run by by apply read_bytes_lexical.
    by destruct t. }
  erewrite bind_Ok by exact Er. rewrite Eu. unfold bind, of_res. by rewrite Hd.
Qed.

(** [download] up to the transfers: an envelope that is one gets its output
    directory. *)
Lemma download_starts manifest_json out raw token entries t :
  manifest_source manifest_json (tm_fs t) raw → reference_envelope raw token entries →
  download send_request decode_replace stdin cwd manifest_json out t =
    (on_fs (mkdir_parents (local cwd out));;;
     catch (download_all send_request decode_replace entries (download_headers token) (local cwd out))
       (λ e, match e with
        | HTTPStatusError => Some (exit_with 2)
        | RequestError msg => Some (fail_with ("download failed: " +:+ msg) 1)
        | _ => None
        end)) t.
Proof.
  intros Hm [(env & Hd & Hmode & Htok & Hfiles) Ht He]. unfold download.
  erewrite bind_Ok by by eapply load_envelope_run. cbv zeta. rewrite Hmode, Htok, Hfiles. cbn [negb].
  destruct token as [|a s]; [done|]. by destruct entries.
Qed.

Lemma clear_dirs_added out name fs fs' :
  key_ok name → dirs_added out fs fs' → clear fs (dest out name) → clear fs' (dest out name).
Proof.
  intros Hk Hadd [Hf Hd]. split.
  - intros q d Hq. rewrite Hadd. destruct (nodes fs !! q) eqn:E; [|by case_decide]. intros [= ->]. by apply (Hf q d).
  - rewrite Hadd. destruct (nodes fs !! dest out name); [done|]. rewrite decide_False; [done|].
    intros Hu. apply (not_under_own_parent (dest out name)).
    + unfold dest. intros [_ E]%app_nil. by apply (proj2 (proj2 Hk)).
    + etrans; [exact Hu|by apply dest_parent].
Qed.

Lemma after_writes_dirs out F fs fs' q :
  F ≠ [] → Forall key_ok (names_of F) → dirs_added out fs fs' →
  after_writes (to_write out F) fs' q = after_writes (to_write out F) fs q.
Proof.
  intros HF Hk Hadd. unfold after_writes. destruct (find_first _ _); [done|]. rewrite Hadd.
  destruct (nodes fs !! q); [done|]. case_decide as Hu; [|done].
  destruct F as [|[[name url] body] F]; [done|]. apply Forall_cons in Hk as [Hk _]. cbn.
  rewrite bool_decide_true; [done|]. etrans; [exact Hu|by apply dest_parent].
Qed.

Lemma download_run manifest_json out raw token entries F t n' :
  manifest_source manifest_json (tm_fs t) raw → reference_envelope raw token entries →
  Forall2 entry_of F entries → separate (names_of F) → fs_wf (tm_fs t) → lexical (local cwd out) →
  no_file_above (tm_fs t) (local cwd out) →
  Forall (λ n, clear (tm_fs t) (dest (local cwd out) n)) (names_of F) →
  served (download_headers token) F (tm_net t) n' →
  ∃ fs', download send_request decode_replace stdin cwd manifest_json out t = (Ok tt, set_net n' (set_fs fs' t)) ∧
    fs_wf fs' ∧ ∀ q, nodes fs' !! q = after_writes (to_write (local cwd out) F) (tm_fs t) q.
Proof.
  intros Hm Henv He Hsep Hwf Hout Hfree Hclear Hs.
  assert (HF : F ≠ []) by (intros ->; apply Forall2_nil_inv_l in He; by apply (re_files _ _ _ Henv)).
  destruct (mkdir_parents_spec _ _ Hwf Hout Hfree) as (fs1 & Em & Hwf1 & Hadd).
  destruct (download_all_run (download_headers token) (local cwd out) F entries (set_fs fs1 t) n')
    as (fs2 & E2 & Hwf2 & En2); try done.
  { destruct Hsep as (_ & Hk & _). rewrite Forall_forall in Hclear, Hk |- *. intros n Hn.
    eapply clear_dirs_added; [by apply Hk|exact Hadd|by apply Hclear]. }
  exists fs2. erewrite download_starts by done. erewrite bind_Ok by by apply on_fs_run.
  unfold catch. rewrite E2. split_and!; [done|done|]. intros q. rewrite En2. cbn [tm_fs set_fs].
  apply after_writes_dirs; [done|apply Hsep|done].
Qed.

(** *** What it leaves alone *)

(** Outside of a directory only its own parents may appear. *)
Definition below (out : path) (fs fs' : Fs) : Prop :=
  ∀ q, ¬ under out q →
    (∀ n, nodes fs !! q = Some n → nodes fs' !! q = Some n) ∧
    (¬ under q out → nodes fs' !! q = nodes fs !! q).
#[global] Instance below_preorder out : PreOrder (below out).
Proof.
  split; [done|]. intros fs1 fs2 fs3 H1 H2 q Hq. destruct (H1 q Hq) as [A1 B1], (H2 q Hq) as [A2 B2].
  split; [auto|]. intros Hu. by rewrite B2, B1.
Qed.
Definition below_t (out : path) t t' : Prop := below out (tm_fs t) (tm_fs t').
#[global] Instance below_t_preorder out : PreOrder (below_t out).
Proof. split; [intros t; apply below_preorder|]. intros t1 t2 t3 H1 H2. by eapply below_preorder. Qed.

Lemma below_on_fs {A} out (m : M Fs A) : frames (below out) m → frames (below_t out) (on_fs m : M T A).
Proof. intros Hm t. specialize (Hm (tm_fs t)). unfold on_fs, lift. by destruct (m (tm_fs t)). Qed.
Lemma below_request out method base url headers body :
  frames (below_t out) (request send_request method base url headers body).
Proof. intros t. unfold request, on_net, lift. by destruct (send_request _ (tm_net t)). Qed.
Lemma below_print out line : frames (below_t out) (print line : M T unit).
Proof. by intros t. Qed.
Lemma below_eprint out line : frames (below_t out) (eprint line : M T unit).
Proof. by intros t. Qed.
Lemma below_fail {A} out msg code : frames (below_t out) (fail_with msg code : M T A).
Proof. by intros t. Qed.
Lemma below_exit {A} out code : frames (below_t out) (exit_with code : M T A).
Proof. by intros t. Qed.

Lemma below_mkdir out p : lexical p → (under p out ∨ under out p) → frames (below out) (mkdir_parents p).
Proof.
  intros Hp Hu fs. destruct (mkdir_parents_frame p fs Hp) as [Hg Hs]. intros q Hq. split; [by apply Hg|].
  intros Hn. apply Hs. intros Hqp. destruct Hu as [Hu|Hu].
  - apply Hn. by etrans.
  - destruct (prefix_weak_total q out p Hqp Hu); done.
Qed.

Lemma below_update out p n fs fs' : under out p → nodes fs' = <[p := n]> (nodes fs) → below out fs fs'.
Proof. intros Hu E q Hq. rewrite E, lookup_insert_ne by (by intros ->). done. Qed.

Lemma below_write out p data : lexical p → under out p → frames (below out) (write_bytes p data).
Proof.
  intros Hp Hu fs. rewrite write_bytes_lexical by done.
  destruct (nodes fs !! p) as [[]|]; [| |destruct (nodes fs !! parent p) as [[]|]]; try done; by eapply below_update.
Qed.
Lemma below_append out p data : lexical p → under out p → frames (below out) (append_bytes p data).
Proof.
  intros Hp Hu fs. unfold append_bytes, bind at 1. rewrite lookup_path_lexical by done. unfold bind, get.
  destruct (nodes fs !! p) as [[]|]; try done. by eapply below_update.
Qed.
#[local] Hint Resolve below_request below_eprint below_fail below_exit below_print : cassetta.

Lemma below_pieces out p pieces : lexical p → under out p → frames (below_t out) (write_pieces p pieces : M T unit).
Proof.
  intros Hp Hu. induction pieces as [|[b|e] pieces IH]; cbn [write_pieces]; [frame| |frame].
  apply frames_bind; [apply _| |done]. apply frames_when; [apply _|]. by apply below_on_fs, below_append.
Qed.

Lemma below_file out url headers p :
  lexical p → under out (parent p) → frames (below_t out) (write_file_streaming send_request decode_replace url headers p).
Proof.
  intros Hp Hu. assert (Hu' : under out p) by by apply under_parent. unfold write_file_streaming.
  apply frames_bind; [apply _|apply below_on_fs, below_mkdir; [by apply lexical_parent|by right]|intros _].
  apply frames_bind; [apply _|apply below_request|intros reply]. case_match; [|frame].
  apply frames_bind; [apply _|by apply below_on_fs, below_write|intros _]. by apply below_pieces.
Qed.

(** The name an entry is written under is missing or stays below. *)
Definition contained_entry (j : json) : Prop :=
  match j with JDict d => get_str "name" "" d = "" ∨ key_ok (get_str "name" "" d) | _ => True end.

Lemma below_entries out headers entries :
  lexical out → Forall contained_entry entries →
  frames (below_t out) (download_all send_request decode_replace entries headers out).
Proof.
  intros Hout He. unfold download_all. induction He as [|j entries Hj He IH]; cbn [for_each]; [frame|].
  apply frames_bind; [apply _| |done]. unfold download_entry. destruct j; try apply below_fail. cbv zeta.
  case_bool_decide as Hn; [apply below_fail|]. destruct Hj as [Hj|Hj]; [tauto|].
  rewrite joinpath_dest by done. apply below_file; [by apply dest_lexical|by apply dest_parent].
Qed.
End download.

(** *** What [after_writes] says *)

Lemma written_file out F name url body fs :
  separate (names_of F) → (name, url, body) ∈ F →
  after_writes (to_write out F) fs (dest out name) = Some (NFile body).
Proof.
  intros (Hnd & Hok & Hsep) Hin. unfold after_writes.
  destruct (find_first _ _) as [[q b]|] eqn:E.
  - apply find_first_Some in E as [Hw Eq]. bool_to_prop. cbn in Eq. subst q.
    apply list_elem_of_In, in_map_iff in Hw as ([[m u] b'] & Em & Hf). injection Em as Ed ->. apply list_elem_of_In in Hf.
    assert (m = name) as ->.
    { destruct (decide (m = name)) as [|Hne]; [done|]. exfalso. apply (Hsep m name); [| |done|].
      - by apply (list_elem_of_fmap_2 (λ f : str * str * bytes, f.1.1)) in Hf.
      - by apply (list_elem_of_fmap_2 (λ f : str * str * bytes, f.1.1)) in Hin.
      - apply (dest_under out). by rewrite Ed. }
    cbn. do 2 f_equal. clear -Hnd Hin Hf. induction F as [|[[n' u'] c] F IH]; [by apply not_elem_of_nil in Hin|].
    cbn in Hnd. apply NoDup_cons in Hnd as [Hnew Hnd].
    apply elem_of_cons in Hin as [Hin|Hin], Hf as [Hf|Hf]; [congruence| | |auto]; destruct Hnew; simplify_eq.
    + by apply (list_elem_of_fmap_2 (λ f : str * str * bytes, f.1.1)) in Hf.
    + by apply (list_elem_of_fmap_2 (λ f : str * str * bytes, f.1.1)) in Hin.
  - pose proof (proj1 (find_first_None _ _) E (dest out name, body)) as Hf. exfalso.
    cbn in Hf. rewrite bool_decide_true in Hf; [|done]. discriminate Hf.
    by apply (list_elem_of_fmap_2 (λ f : str * str * bytes, (dest out f.1.1, f.2))) in Hin.
Qed.

Lemma unwritten_node out F fs q :
  q ∉ map (dest out) (names_of F) →
  after_writes (to_write out F) fs q = nodes fs !! q ∨
  nodes fs !! q = None ∧ after_writes (to_write out F) fs q = Some NDir ∧
    ∃ name, name ∈ names_of F ∧ under q (parent (dest out name)).
Proof.
  intros Hq. unfold after_writes. destruct (find_first _ _) as [[p b]|] eqn:E.
  { apply find_first_Some in E as [Hw Eq]. bool_to_prop. cbn in Eq. subst p. destruct Hq.
    apply list_elem_of_In, in_map_iff in Hw as ([[m u] b'] & Em & Hf). injection Em as <- ->.
    apply list_elem_of_In, in_map, in_map_iff. by exists (m, u, b). }
  destruct (nodes fs !! q) eqn:Eq; [by left|]. destruct (existsb _ _) eqn:Ex; [|by left]. right. split_and!; [done..|].
  apply existsb_exists in Ex as (w & Hw & Hu). bool_to_prop.
  apply in_map_iff in Hw as ([[m u] b'] & <- & Hf). exists m. split; [|done].
  apply list_elem_of_In, in_map_iff. by exists (m, u, b').
Qed.

(** ** Properties *)


(** A download completes exactly: from an envelope with files whose names
    are relative, without [..] and not below each other, and replies that
    carry their contents in any pieces, the command succeeds; every file is in
    the output directory under its name with its bytes, replacing what was
    there; and besides these files only missing directories above them appear. *)
Theorem download_exact {N} `{PyJwt} send_request decode_replace stdin cwd manifest_json out raw token entries F
    (t : Terminal N) n' :
  manifest_source stdin cwd manifest_json (tm_fs t) raw → reference_envelope raw token entries →
  Forall2 entry_of F entries → separate (names_of F) → fs_wf (tm_fs t) → lexical (local cwd out) →
  no_file_above (tm_fs t) (local cwd out) →
  Forall (λ n, clear (tm_fs t) (dest (local cwd out) n)) (names_of F) →
  served send_request (download_headers token) F (tm_net t) n' →
  let run := download send_request decode_replace stdin cwd manifest_json out t in
  run.1 = Ok tt ∧ tm_net run.2 = n' ∧ tm_out run.2 = tm_out t ∧ fs_wf (tm_fs run.2) ∧
  (∀ name url body, (name, url, body) ∈ F →
     nodes (tm_fs run.2) !! dest (local cwd out) name = Some (NFile body)) ∧
  (∀ q, q ∉ map (dest (local cwd out)) (names_of F) →
     nodes (tm_fs run.2) !! q = nodes (tm_fs t) !! q ∨
     nodes (tm_fs t) !! q = None ∧ nodes (tm_fs run.2) !! q = Some NDir ∧
       ∃ name, name ∈ names_of F ∧ under q (parent (dest (local cwd out) name))).
Proof.
  intros Hm Henv He Hsep Hwf Hout Hfree Hclear Hs. cbn zeta.
  destruct (download_run send_request decode_replace stdin cwd manifest_json out raw token entries F t n'
    Hm Henv He Hsep Hwf Hout Hfree Hclear Hs) as (fs' & -> & Hwf' & Hn). cbn [fst snd tm_net tm_out tm_fs set_net set_fs].
  split_and!; [done..| |].
  - intros name url body Hin. rewrite Hn. by eapply written_file.
  - intros q Hq. rewrite Hn. by apply unwritten_node.
Qed.

(** C39: whatever the server answers, and however the transfers fail, a
    download from an envelope whose names are relative and without [..]
    changes nothing outside of its output directory, apart from creating the
    missing directories above it. *)
Theorem download_contained {N} `{PyJwt} send_request decode_replace stdin cwd manifest_json out raw token entries
    (t : Terminal N) q :
  manifest_source stdin cwd manifest_json (tm_fs t) raw → reference_envelope raw token entries →
  Forall contained_entry entries → lexical (local cwd out) → ¬ under (local cwd out) q →
  let fs' := tm_fs (download send_request decode_replace stdin cwd manifest_json out t).2 in
  (∀ n, nodes (tm_fs t) !! q = Some n → nodes fs' !! q = Some n) ∧
  (¬ under q (local cwd out) → nodes fs' !! q = nodes (tm_fs t) !! q).
Proof.
  intros Hm Henv He Hout Hq. cbn zeta. erewrite download_starts by done.
  match goal with |- context [tm_fs (?m t).2] =>
    assert (Hb : frames (below_t (local cwd out)) m); [|exact (Hb t q Hq)] end.
  apply frames_bind; [apply _|apply below_on_fs, below_mkdir; [done|by left]|intros _].
  apply frames_catch; [apply _|by apply below_entries|]. intros e m Hh.
  destruct e; simplify_eq; [apply below_exit|apply below_fail].
Qed.

(** *** A terminal in an empty home directory *)

#[local] Existing Instance ToyJwt.

Definition demo_home : path := ["home"].
Definition demo_disk : Fs := mkFs {[ [] := NDir; ["home"] := NDir; ["home"; "a.txt"] := NFile "hello" ]} ∅ 0.
Definition demo_terminal : Terminal nat := mkTerminal demo_disk [] [] 0.
Definition demo_tar_writer : TarWriter :=
  {| tw_state := unit; tw_open := λ _, tt; tw_add := λ _ _ data, (tt, data); tw_close := λ _, "" |}.

(** A server that answers every request with these pieces, and counts. *)
Definition demo_client (status : Z) (pieces : list bytes) : HttpCall → M nat HttpReply := λ _,
  modify Datatypes.S;;; ret {| hr_status := status; hr_pieces := map Ok pieces |}.
Definition demo_session : str := json_dumps (JDict [
  ("upload_url", JStr "http://h/upload/inbox%2Fbob"); ("batch_token", JStr "t"); ("bundle_id", JStr "b-1")]).

Definition demo_cli_send (files : list str) (url : option str) :=
  send (demo_client 201 [demo_session]) demo_tar_writer (λ _, (0, 0, "", "", 420)%Z) 4096 id ∅ demo_home
    files "bob" "m1" url (Some "key") demo_terminal.


Definition demo_envelope (names : list str) : bytes := json_dumps (JDict [
  ("mode", JStr "reference"); ("download_token", JStr "t");
  ("files", JList (map (λ n, JDict [("name", JStr n); ("url", JStr ("http://h/" +:+ n))]) names))]).
Definition demo_cli_download (names : list str) :=
  download (demo_client 200 ["by"; ""; "tes"]) id (demo_envelope names) demo_home "-" "in" demo_terminal.
Definition demo_received (names : list str) : list (str * str * bytes) :=
  map (λ n, (n, "http://h/" +:+ n, "bytes")) names.

Lemma demo_disk_wf : fs_wf demo_disk.
Proof. apply fs_wfb_sound. vm_compute. reflexivity. Qed.

Lemma demo_in_free : no_file_above demo_disk ["home"; "in"].
Proof.
  apply (no_file_snoc _ ["home"]); [apply no_file_dir; [exact demo_disk_wf|reflexivity]|vm_compute; reflexivity].
Qed.

Lemma demo_envelope_ok names entries :
  (utf8_decode (demo_envelope names) ≫= json_loads) = Some (JDict [("mode", JStr "reference"); ("download_token", JStr "t");
     ("files", JList entries)]) →
  entries ≠ [] → reference_envelope (demo_envelope names) "t" entries.
Proof. intros Hd He. split; [|done|done]. eexists. by split_and!. Qed.

Lemma download_exact_witness :
  let run := demo_cli_download ["x"; "sub/y"] in
  run.1 = Ok tt ∧ nodes (tm_fs run.2) !! ["home"; "in"; "sub"; "y"] = Some (NFile "bytes") ∧
  nodes (tm_fs run.2) !! ["home"; "a.txt"] = Some (NFile "hello").
Proof.
  destruct (download_exact (demo_client 200 ["by"; ""; "tes"]) id (demo_envelope ["x"; "sub/y"]) demo_home "-" "in"
    (demo_envelope ["x"; "sub/y"]) "t"
    (map (λ n, JDict [("name", JStr n); ("url", JStr ("http://h/" +:+ n))]) ["x"; "sub/y"])
    (demo_received ["x"; "sub/y"]) demo_terminal 2%nat) as (E & _ & _ & _ & Hin & Hout).
  - reflexivity.
  - apply demo_envelope_ok; [vm_compute; reflexivity|discriminate].
  - repeat constructor; try discriminate; eexists; (split; [reflexivity|split; reflexivity]).
  - split; [|split].
    + apply (bool_decide_unpack _). vm_compute. exact I.
    + repeat constructor; try reflexivity; try discriminate; apply (bool_decide_unpack _); vm_compute; exact I.
    + intros n m Hn Hm Hne. apply (bool_decide_unpack _). revert Hne.
      apply elem_of_cons in Hn as [->|[->|Hn%not_elem_of_nil]%elem_of_cons]; [..|destruct Hn];
      apply elem_of_cons in Hm as [->|[->|Hm%not_elem_of_nil]%elem_of_cons]; try (by destruct Hm);
      intros Hne; try (by destruct Hne); vm_compute; exact I.
  - exact demo_disk_wf.
  - apply (bool_decide_unpack _); vm_compute; exact I.
  - exact demo_in_free.
  - repeat constructor.
    + exact demo_in_free.
    + vm_compute. discriminate.
    + apply (no_file_snoc _ ["home"; "in"]); [exact demo_in_free|vm_compute; reflexivity].
    + vm_compute. discriminate.
  - do 2 (eexists _, _; split; [reflexivity|split; [reflexivity|split; [reflexivity|]]]). reflexivity.
  - split; [exact E|]. split.
    + apply (Hin "sub/y" "http://h/sub/y" "bytes"). right. left.
    + destruct (Hout ["home"; "a.txt"]) as [H|[H _]].
      * apply (bool_decide_unpack _). vm_compute. exact I.
      * exact H.
      * vm_compute in H. discriminate H.
Defined.

(** The second transfer breaks off. *)
Definition broken_client : HttpCall → M nat HttpReply := λ _,
  n <- get;; modify Datatypes.S;;;
  ret {| hr_status := 200; hr_pieces := if decide (n = 0%nat) then [Ok "x"] else [Ok "y"; Raise (RequestError "reset")] |}.
Definition demo_broken :=
  download broken_client id (demo_envelope ["x"; "sub/y"]) demo_home "-" "in" demo_terminal.

Lemma download_contained_witness :
  exit_status demo_broken.1 = 1%Z ∧
  nodes (tm_fs demo_broken.2) !! ["home"; "in"; "sub"; "y"] = Some (NFile "y") ∧
  nodes (tm_fs demo_broken.2) !! ["home"; "a.txt"] = Some (NFile "hello").
Proof.
  split; [vm_compute; reflexivity|]. split; [vm_compute; reflexivity|].
  apply (download_contained broken_client id (demo_envelope ["x"; "sub/y"]) demo_home "-" "in"
    (demo_envelope ["x"; "sub/y"]) "t"
    (map (λ n, JDict [("name", JStr n); ("url", JStr ("http://h/" +:+ n))]) ["x"; "sub/y"])).
  - reflexivity.
  - apply demo_envelope_ok; [vm_compute; reflexivity|discriminate].
  - apply Forall_cons; split; [right; apply key_okb_sound; vm_compute; reflexivity|].
    apply Forall_cons; split; [right; apply key_okb_sound; vm_compute; reflexivity|constructor].
  - apply (bool_decide_unpack _); vm_compute; exact I.
  - intros Hu. apply (bool_decide_unpack (¬ under ["home"; "in"] ["home"; "a.txt"])); [vm_compute; exact I|exact Hu].
  - intros Hu. apply (bool_decide_unpack (¬ under ["home"; "a.txt"] ["home"; "in"])); [vm_compute; exact I|exact Hu].
Defined.

(** The names of an envelope are joined to the output directory as they come,
    and names stored from a multipart form are not validated either: one with
    [..] replaces a file next to the directory, an absolute one any file. *)
Example envelope_name_escapes_out :
  nodes (tm_fs (demo_cli_download ["../a.txt"]).2) !! ["home"; "a.txt"] = Some (NFile "bytes") ∧
  nodes (tm_fs (demo_cli_download ["/home/a.txt"]).2) !! ["home"; "a.txt"] = Some (NFile "bytes") ∧
  (demo_cli_download ["/home/a.txt"]).1 = Ok tt.
Proof. vm_compute. auto. Qed.

(** The description of [upload] promises status 1 for bad arguments. *)
Example bad_upload_argument_exits_2 :
  exit_status (upload (demo_client 201 []) demo_tar_writer (λ _, (0, 0, "", "", 420)%Z) id demo_home
    ["/etc/passwd"] "http://h" "t" false demo_terminal).1 = 2%Z.
Proof. vm_compute. reflexivity. Qed.

(** The description of [capabilities] promises status 2 for every reply that
    is not 2xx; a redirect with a JSON object is shown as the capabilities. *)
Example redirect_is_rendered :
  exit_status (capabilities (demo_client 302 [json_dumps (JDict [])]) id "http://h" None demo_terminal).1 = 0%Z.
Proof. vm_compute. reflexivity. Qed.
