(* ===== verification/Backends.v ===== *)
(** * The core backends

    [defaults/factory.py]: the filesystem implementations as instances of the
    protocols, with what they promise of reads; the application
    [build_core_defaults] makes of a configuration; and the concrete server
    the witnesses run. *)

From Stdlib Require Import Ascii String.
From stdpp Require Import pretty.
From S2P Require Import Prelude PyStr PyCodec Json DateTime Effects PyNum Paths Limits Config.
From S2P Require Import Claims KeyStore Jwt FsModel Storage World Frame.
Local Open Scope string_scope.
Local Open Scope list_scope.
Local Open Scope effect_scope.

(** ** The instances *)

(** [FilesystemBackend(root_path)]. *)
Definition FilesystemBackend (root : path) : StorageBackend Fs := {|
  sb_writer := Writer;
  sb_open_bundle_write := open_bundle_write root;
  sb_write_file := write_file;
  sb_commit := commit;
  sb_abort := abort;
  sb_read_bundle_meta := read_bundle_meta root;
  sb_open_bundle_file_read := open_bundle_file_read root;
  sb_list_bundles := list_bundles root;
  sb_delete_bundle := delete_bundle root;
|}.

(** [FilesystemClaimStorage]. *)
Definition FilesystemClaimStorage (sha256_hex : str → str) : ClaimStorage ClaimDir := {|
  cs_issue := issue sha256_hex;
  cs_get := get_claim;
  cs_mark_fetched := mark_fetched;
  cs_delete := delete_claim sha256_hex;
  cs_iter_all := iter_all;
  cs_iter_active := iter_active_by_bundle_path;
|}.

(** [FileKeyStore]. *)
Definition FileKeyStore (sha256_hex : str → str) (token_urlsafe : nat → str) : KeyStoreProtocol KeyStore := {|
  kp_is_healthy := λ _, true;
  kp_setup_done := ks_setup_done;
  kp_setup := setup sha256_hex token_urlsafe;
  kp_create_key := create_key sha256_hex token_urlsafe;
  kp_validate := validate sha256_hex;
  kp_list_keys := list_keys;
  kp_revoke_key := revoke_key;
  kp_rotate_key := rotate_key sha256_hex token_urlsafe;
|}.

(** [build_core_defaults(config)], in a process whose random identifiers, type
    tables, metrics and rate limiter are given. *)
Definition build_core_defaults {K} `{KeyStoreProtocol K} (config : AppConfig) (uuid : nat → str)
    (mime : str → option str) (metric_fails : event → bool)
    (rate_allows : list (str * str) → str → str → bool) : App K := {|
  app_config := config;
  app_access := DefaultAccessPolicy;
  app_alias := DefaultAliasResolver;
  app_identity := DefaultIdentityProvider;
  app_limits := CoreLimitsPolicy (cf_limits config);
  app_transport := CoreReferenceTransport (cf_public_base_url config);
  app_metric_fails := metric_fails;
  app_uuid := uuid;
  app_mime := mime;
  app_revocation := noop_revocation_check;
  app_rate_allows := rate_allows;
|}.

(** ** Reads *)

Lemma pure_read_bytes p : pure_state (read_bytes p).
Proof.
  intros fs. unfold read_bytes, lookup_path, bind, get. destruct (namei fs [] p) as [q|]; [|done]. cbn.
  by destruct (nodes fs !! q) as [[]|].
Qed.

#[export] Instance filesystem_reads root : @StorageReads Fs (FilesystemBackend root).
Proof.
  split; cbn.
  - intros p fs. unfold read_bundle_meta, bind, get. cbv zeta.
    destruct (is_file fs _); [|done].
    pose proof (pure_read_bytes (resolve root p ++ [BUNDLE_MANIFEST]) fs) as Hp.
    destruct (read_bytes _ fs) as [[b|e] fs']; cbn in *; subst; [|done]. by repeat case_match.
  - intros p n fs. unfold open_bundle_file_read, bind, get. cbv zeta.
    destruct (is_file fs _); [|done]. destruct (is_file fs _); [|done]. apply pure_read_bytes.
Qed.

(** The files of the claim directory. *)
Definition same_claims (d d' : ClaimDir) : Prop := cd_files d' = cd_files d.
#[export] Instance same_claims_preorder : PreOrder same_claims.
Proof. split; [done|]. unfold same_claims. intros ???; congruence. Qed.

Lemma frames_iter_all : frames same_claims iter_all.
Proof.
  intros d. unfold iter_all, bind, get. destruct (cd_exists d); [|done].
  generalize (map_to_list (cd_files d)). intros l. revert d.
  enough (He : frames same_claims (read_entries l)) by exact He.
  induction l as [|[name body] l IH]; cbn [read_entries]; [apply frames_ret; apply _|].
  destruct (negb (is_sidecar name)); [done|]. destruct (parse_claim body) as [c|e].
  - apply frames_bind; [apply _|done|]. intros. apply frames_ret, _.
  - destruct (is_ValueError e || is_OSError e); [|apply frames_raise, _].
    apply frames_bind; [apply _| |done]. by apply frames_modify.
Qed.

#[export] Instance filesystem_claim_reads sha : @ClaimReads ClaimDir (FilesystemClaimStorage sha).
Proof.
  refine (@Build_ClaimReads _ (FilesystemClaimStorage sha) same_claims _ _ _ _); cbn.
  - intros jti d. unfold get_claim, bind, get. destruct (cd_files d !! claim_file jti); [|done].
    unfold of_res. by destruct (parse_claim _).
  - intros now ttl. apply frames_bind; [apply _|apply frames_iter_all|]. intros. apply frames_ret, _.
  - apply frames_iter_all.
Qed.

(** The records, the document on disk and the setup flag. *)
Definition same_keys (s s' : KeyStore) : Prop :=
  ks_keys s' = ks_keys s ∧ ks_disk s' = ks_disk s ∧ ks_setup_done s' = ks_setup_done s.
#[export] Instance same_keys_preorder : PreOrder same_keys.
Proof. split; [done|]. unfold same_keys. intros ??? (? & ? & ?) (? & ? & ?). split_and!; congruence. Qed.

#[export] Instance file_key_reads sha token : @KeyReads KeyStore (FileKeyStore sha token).
Proof.
  refine (@Build_KeyReads _ (FileKeyStore sha token) same_keys _ _ _); cbn.
  - intros raw s. unfold validate, bind, get. cbv zeta. destruct (find_first _ _) as [k|]; [|done].
    unfold of_res. by destruct (info_of k).
  - intros s. unfold list_keys, bind, get. generalize (ks_keys s). intros l. revert s.
    enough (He : frames same_keys (map_m (λ k, of_res (info_of k)) l)) by exact He.
    apply frames_map_m; [apply _|]. intros. apply frames_of_res, _.
Defined.

(** The default resolver lists the keys. *)
Lemma default_alias_reads {K} `{KeyReads K} name sender :
  frames keys_same (ar_resolve (DefaultAliasResolver (K := K)) name sender).
Proof.
  cbn. destruct (has_char ":" name); [|apply frames_ret, _].
  apply frames_bind; [apply _|apply kr_list|]. intros. apply frames_ret, _.
Qed.
#[export] Instance core_alias_reads {K} `{KeyReads K} config uuid mime fails allows :
  @AliasReads K _ _ (build_core_defaults config uuid mime fails allows).
Proof. intros name sender. apply default_alias_reads. Qed.

(** ** A concrete server *)

Module Demo.
Definition config (dev : bool) : AppConfig := {|
  cf_setup_token := if dev then "" else "secret"; cf_dev_mode := dev; cf_storage_path := "/";
  cf_keys_file := "/keys.json"; cf_default_ttl := 0; cf_allowed_path_chars := "a-zA-Z0-9\-_./";
  cf_mcp_allowed_hosts := []; cf_jwt_primary_key := "primary"; cf_public_base_url := "http://h";
  cf_jwt_secondary_key := None; cf_jwt_primary_key_source := "env"; cf_log_format := "text";
  cf_limits := default_limits_config; cf_rate_limit_broadcast := "10/minute";
  cf_broadcast_max_targets := 1000; cf_jwt_key_overlap_ttl := 600 |}.

Definition sha (s : str) : str := s.
Definition token (n : nat) : str := pretty n.
Definition uuid (n : nat) : str := pad 6 (Z.of_nat n).

#[local] Existing Instance ToyJwt.
#[local] Instance storage : StorageBackend Fs := FilesystemBackend [].
#[local] Instance claims : ClaimStorage ClaimDir := FilesystemClaimStorage sha.
#[local] Instance keys : KeyStoreProtocol KeyStore := FileKeyStore sha token.
#[local] Instance core (dev : bool) : App KeyStore :=
  build_core_defaults (config dev) uuid (λ _, None) (λ _, false) (λ _ _ _, true).

Definition World := World Fs ClaimDir KeyStore.
(** An empty server at the time [now] in seconds. *)
Definition world (now : Z) : World :=
  mkWorld fs_init (fresh_dir []) (fresh_store [] 0) (init_jwt_key_slots "primary" None 600)
    (now * 1000000) 0 0 [] [].

Definition request (body : bytes) : HttpRequest := {|
  rq_x_setup_token := None; rq_credentials := None; rq_authorization := ""; rq_x_sender := None;
  rq_raw_path := ""; rq_content_type := ""; rq_content_encoding := ""; rq_body := [body];
  rq_body_error := None; rq_form := []; rq_client := "127.0.0.1" |}.
End Demo.
