(* ===== verification/Auth.v ===== *)
(** * The older authentication dependencies

    [get_current_key] and [require_setup_token] of [auth/dependencies.py],
    which [get_current_identity] has replaced and which applications that
    embed the server may still use.  The first needs the key record that
    [get_current_identity] leaves in [request.state.key_info]: [authenticate]
    is that function with the record it leaves. *)

From Stdlib Require Import Ascii String.
From S2P Require Import Prelude PyStr PyCodec Json DateTime Effects PyNum Paths Limits Config.
From S2P Require Import Claims KeyStore Jwt FsModel Storage World Frame Backends.
Local Open Scope string_scope.
Local Open Scope list_scope.
Local Open Scope effect_scope.

Section auth.
Context {S C K : Type} `{KeyStoreProtocol K} `{App K}.
Abbreviation W := (World S C K).

(** The bearer's key, and the answer without one. *)
Definition bearer_key (rq : HttpRequest) : M W (option KeyInfo) :=
  match rq_credentials rq with
  | Some credentials => on_keys (kp_validate credentials)
  | None => ret None
  end.
Definition unauthenticated_error {A} (rq : HttpRequest) : M W A :=
  match rq_x_setup_token rq, rq_credentials rq with
  | Some _, _ => emit_auth_failure "rest" "invalid_setup_token" None
  | None, Some c =>
      emit_auth_failure "rest" "invalid_key" (if decide (c = "") then None else Some (str_take 12 c))
  | None, None => emit_auth_failure "rest" "missing_bearer" None
  end;;;
  http_error 401 "Missing or invalid authentication credentials".

(** [get_current_identity] with [request.state.key_info]. *)
Definition authenticate (rq : HttpRequest) : M W (Identity * option KeyInfo) :=
  if cf_dev_mode app_config then ret (dev_identity, None)
  else if decide (rq_x_setup_token rq = Some (cf_setup_token app_config)) then ret (operator_identity, None)
  else
    info <- bearer_key rq;;
    match info with
    | Some info => identity <- of_res (app_identity info);; ret (identity, Some info)
    | None => unauthenticated_error rq
    end.

(** [get_current_key]. *)
Definition get_current_key (rq : HttpRequest) : M W (option KeyInfo) :=
  if cf_dev_mode app_config then ret None
  else
    r <- authenticate rq;;
    if extra_get "operator" r.1 then ret None else ret r.2.

(** [x_setup_token or request.headers.get("X-Setup-Token")]. *)
Definition presented_token (rq : HttpRequest) (x_setup_token : option str) : option str :=
  match x_setup_token with
  | Some t => if decide (t = "") then rq_x_setup_token rq else Some t
  | None => rq_x_setup_token rq
  end.

(** [require_setup_token]. *)
Definition require_setup_token (rq : HttpRequest) (x_setup_token : option str) : M W unit :=
  if cf_dev_mode app_config then ret tt
  else if decide (presented_token rq x_setup_token = Some (cf_setup_token app_config)) then ret tt
  else
    emit_auth_failure "rest" "invalid_setup_token" None;;;
    http_error 403 "Invalid setup token".

(** [authenticate] is [get_current_identity]. *)
Lemma authenticate_identity rq w :
  get_current_identity rq w = (r <- authenticate rq;; ret r.1) w.
Proof.
  unfold get_current_identity, authenticate. destruct (cf_dev_mode app_config); [done|]. cbv zeta.
  case_decide; [done|]. trans (bind (bearer_key rq)
    (λ info, match info with Some info => of_res (app_identity info) | None => unauthenticated_error rq end) w);
    [reflexivity|].
  unfold bind. destruct (bearer_key rq w) as [[[info|]|e] w']; [| |done].
  - unfold of_res, ret. by destruct (app_identity info).
  - unfold unauthenticated_error, bind, http_error, raise.
    by repeat case_match; simplify_eq.
Qed.

(** An identity comes with a key record exactly when it is a bearer's: a key
    that is valid now, whose identity it is. *)
Lemma authenticate_key rq w identity info w' :
  authenticate rq w = (Ok (identity, Some info), w') →
  ∃ credentials, rq_credentials rq = Some credentials ∧
    (kp_validate credentials (w_keys w)).1 = Ok (Some info) ∧ app_identity info = Ok identity.
Proof.
  unfold authenticate. destruct (cf_dev_mode app_config); [done|]. case_decide; [done|].
  unfold bind at 1. destruct (bearer_key rq w) as [[[i|]|e] w1] eqn:E; [| |done].
  - unfold bind, of_res, ret. destruct (app_identity i) as [j|] eqn:Ei; [|done]. intros [= <- <- _].
    unfold bearer_key in E. destruct (rq_credentials rq) as [c|]; [|done].
    unfold on_keys, lift in E. exists c. by destruct (kp_validate c (w_keys w)); simplify_eq/=.
  - unfold unauthenticated_error, bind, http_error, raise. by repeat case_match.
Qed.
End auth.

(** ** Properties *)

(** [get_current_key] answers with a key record exactly for a bearer.  It
    fails when [get_current_identity] fails, with the same error and effects;
    a record it returns is of a key the request presents, valid in the key
    store at that moment and not an operator's; and [require_setup_token]
    accepts without effect or answers 403. *)
Theorem get_current_key_exact {S C K} `{KeyStoreProtocol K, !App K} rq header (w : World S C K) :
  (∀ e w', get_current_identity rq w = (Raise e, w') → get_current_key rq w = (Raise e, w')) ∧
  (∀ info w', get_current_key rq w = (Ok (Some info), w') → ∃ credentials identity,
     rq_credentials rq = Some credentials ∧ (kp_validate credentials (w_keys w)).1 = Ok (Some info) ∧
     get_current_identity rq w = (Ok identity, w') ∧ extra_get "operator" identity = false) ∧
  match require_setup_token rq header w with
  | (Ok _, w') => w' = w ∧ (cf_dev_mode app_config = true ∨ header = Some (cf_setup_token app_config)
                            ∨ rq_x_setup_token rq = Some (cf_setup_token app_config))
  | (Raise e, _) => e = HTTPException 403 (DText "Invalid setup token")
  end.
Proof.
  split_and!.
  - intros e w'. rewrite authenticate_identity. unfold get_current_key, bind, ret.
    destruct (cf_dev_mode app_config) eqn:Ed; [unfold authenticate; by rewrite Ed|].
    destruct (authenticate rq w) as [[r|] ?]; [by intros [=]|by intros [= -> ->]].
  - intros info w'. unfold get_current_key. destruct (cf_dev_mode app_config) eqn:Ed; [done|].
    unfold bind at 1. destruct (authenticate rq w) as [[[i k]|e] w''] eqn:E; [|done]. cbn [fst snd].
    destruct (extra_get "operator" i) eqn:Ex; [done|]. intros [= -> ->].
    destruct (authenticate_key _ _ _ _ _ E) as (c & Hc & Hv & _). exists c, i. split_and!; try done.
    by rewrite authenticate_identity; unfold bind; rewrite E.
  - unfold require_setup_token. destruct (cf_dev_mode app_config) eqn:Ed; [by split; [|left]|]. case_decide as Et.
    + split; [done|right]. unfold presented_token in Et. destruct header as [t|]; [case_decide|]; auto.
    + unfold bind, http_error, raise.
      by destruct (emit_auth_failure_ok "rest" "invalid_setup_token" None w) as [evs ->].
Qed.

(** *** A bearer *)

#[local] Existing Instances Demo.keys.
#[local] Instance keyed_server : App KeyStore := Demo.core false.
Definition bob_key : res (str * KeyInfo) * KeyStore := kp_create_key "bob" (fresh_store [] 0).
Definition bearer_world : Demo.World := set_keystore bob_key.2 (Demo.world 0).
Definition bearer_request : HttpRequest :=
  let rq := Demo.request "" in
  {| rq_x_setup_token := None;
     rq_credentials := match bob_key.1 with Ok (raw, _) => Some raw | Raise _ => None end;
     rq_authorization := ""; rq_x_sender := None; rq_raw_path := ""; rq_content_type := "";
     rq_content_encoding := ""; rq_body := []; rq_body_error := None; rq_form := [];
     rq_client := rq_client rq |}.

Lemma get_current_key_exact_witness :
  ∃ info w', get_current_key bearer_request bearer_world = (Ok (Some info), w') ∧ ki_label info = "bob" ∧
    (∃ identity, get_current_identity bearer_request bearer_world = (Ok identity, w')) ∧
    (require_setup_token bearer_request (Some "wrong") bearer_world).1
    = Raise (HTTPException 403 (DText "Invalid setup token")).
Proof.
  destruct (get_current_key_exact bearer_request (Some "wrong") bearer_world) as (_ & Hk & _).
  eexists _, _. split; [vm_compute; reflexivity|]. split; [reflexivity|]. split; [|vm_compute; reflexivity].
  destruct (Hk _ _ ltac:(vm_compute; reflexivity)) as (c & i & _ & _ & E & _).
  exists i. etrans; [exact E|]. vm_compute. reflexivity.
Defined.
