(* ===== verification/ClaimLaws.v ===== *)
(** * The contract of a claim store

    What the download routes rely on of [protocols/claim_storage.py]: the
    class [ClaimLaws] states it of any [ClaimStorage] as a map from tokens to
    claims; the directory of sidecars is an instance while its writes do not
    fail. *)

From Stdlib Require Import Ascii String.
From S2P Require Import Prelude PyStr PyCodec Json DateTime Effects PyNum Paths Limits Config.
From S2P Require Import Claims KeyStore Jwt FsModel Storage World Frame Backends.
Local Open Scope string_scope.
Local Open Scope list_scope.
Local Open Scope effect_scope.

(** The claim with another file fetched. *)
Definition fetch_file (c : ClaimRecord) (name : str) : ClaimRecord :=
  if bool_decide (name ∈ cr_files_fetched c) then c else with_fetched c (cr_files_fetched c ++ [name]).

Class ClaimLaws C `{ClaimStorage C} := {
  cl_inv : C → Prop;
  cl_claim : C → str → option ClaimRecord;
  cl_wf s jti c : cl_inv s → cl_claim s jti = Some c → cr_jti c = jti ∧ claim_ok c = true;
  cl_get s jti : cl_inv s → cs_get jti s = (Ok (cl_claim s jti), s);
  cl_issue s c :
    cl_inv s → claim_ok c = true →
    wp (cs_issue c)
      (λ _ s', cl_inv s' ∧ ∀ j, cl_claim s' j = if decide (j = cr_jti c) then Some c else cl_claim s j)
      (λ e s', e = BundleClaimedError (cr_bundle_path c) ∧ cl_inv s' ∧ ∀ j, cl_claim s' j = cl_claim s j) s;
  cl_issue_taken s c c' :
    cl_inv s → cl_claim s (cr_jti c') = Some c' → cr_bundle_path c' = cr_bundle_path c →
    ∃ s', cs_issue c s = (Raise (BundleClaimedError (cr_bundle_path c)), s') ∧ cl_inv s' ∧
      ∀ j, cl_claim s' j = cl_claim s j;
  cl_mark s jti c name :
    cl_inv s → cl_claim s jti = Some c → utf8_valid name = true →
    ∃ s', cs_mark_fetched jti name s = (Ok (fetch_file c name), s') ∧ cl_inv s' ∧
      ∀ j, cl_claim s' j = if decide (j = jti) then Some (fetch_file c name) else cl_claim s j;
  cl_delete s jti :
    cl_inv s →
    ∃ s', cs_delete jti s = (Ok tt, s') ∧ cl_inv s' ∧
      ∀ j, cl_claim s' j = if decide (j = jti) then None else cl_claim s j;
}.

(** ** The directory of sidecars *)

Section filesystem.
Variable sha : str → str.
#[local] Instance storage : ClaimStorage ClaimDir := FilesystemClaimStorage sha.
Implicit Types (d : ClaimDir).

(** No write fails, and every sidecar is one the code wrote. *)
Record healthy d : Prop := {
  he_faults : cd_faults d = [];
  he_ok : sidecars_ok sha (cd_files d);
  he_parse jti body : cd_files d !! claim_file jti = Some body → ∃ c, parse_claim body = Ok c;
}.

Definition claim_at d (jti : str) : option ClaimRecord :=
  match cd_files d !! claim_file jti with
  | Some body => match parse_claim body with Ok c => Some c | Raise _ => None end
  | None => None
  end.

Lemma claim_at_Some d jti c :
  claim_at d jti = Some c ↔ ∃ body, cd_files d !! claim_file jti = Some body ∧ parse_claim body = Ok c.
Proof.
  unfold claim_at. destruct (cd_files d !! claim_file jti) as [body|]; [|naive_solver].
  split; [|by intros (b & [= <-] & ->)]. destruct (parse_claim body) as [c'|] eqn:E; [|done].
  intros [= ->]. by exists body.
Qed.

Lemma claim_at_wf d jti c : healthy d → claim_at d jti = Some c → cr_jti c = jti ∧ claim_ok c = true.
Proof.
  intros [_ [He Hok] _] (body & Hb & Hp)%claim_at_Some. pose proof (is_sidecar_claim_file jti) as Hs. split.
  - destruct (He _ _ _ Hb Hs Hp) as [Hj _]. by apply claim_file_inj in Hj.
  - by eapply Hok.
Qed.

(** *** The oracle stays without faults *)

Definition no_new_faults (d d' : ClaimDir) : Prop := cd_faults d = [] → cd_faults d' = [].
#[local] Instance no_new_faults_preorder : PreOrder no_new_faults.
Proof. split; [by intros ? ?|]. intros ??? H1 H2 Hf. by apply H2, H1. Qed.

Lemma faults_modify f : (∀ d, cd_faults (f d) = cd_faults d) → frames no_new_faults (modify f).
Proof. intros Hf. apply frames_modify. intros d. unfold no_new_faults. by rewrite Hf. Qed.
Lemma faults_ensure_base : frames no_new_faults ensure_base.
Proof. by apply faults_modify. Qed.
Lemma faults_unlink name : frames no_new_faults (unlink_quiet name).
Proof. by apply faults_modify. Qed.
Lemma faults_trunc name : frames no_new_faults (open_trunc name).
Proof. by apply faults_modify. Qed.
Lemma faults_replace tmp final : frames no_new_faults (replace_file tmp final).
Proof. by apply faults_modify. Qed.
Lemma faults_excl name : frames no_new_faults (open_excl name).
Proof. intros d Hf. rewrite open_excl_eq. by destruct (cd_files d !! name). Qed.
Lemma faults_write name body : frames no_new_faults (write_sync name body).
Proof. intros d Hf. unfold write_sync, bind, get, modify. by rewrite Hf. Qed.
Lemma faults_get jti : frames no_new_faults (get_claim jti).
Proof. intros d Hf. by rewrite get_claim_eq. Qed.
#[local] Hint Resolve faults_ensure_base faults_unlink faults_trunc faults_replace faults_excl faults_write faults_get : cassetta.

Lemma faults_run d o : cd_faults d = [] → cd_faults (run_op sha d o) = [].
Proof.
  revert d. destruct o as [c|jti name|jti]; cbn [run_op].
  - change (frames no_new_faults (issue sha c)). unfold issue, on_error. frame.
  - change (frames no_new_faults (mark_fetched jti name)). unfold mark_fetched, durable_write, on_error. frame.
  - change (frames no_new_faults (delete_claim sha jti)). unfold delete_claim. frame.
Qed.

(** After an operation whose sidecars are old or written by it. *)
Lemma healthy_after d o :
  op_ok o = true → healthy d →
  (∀ jti body, cd_files (run_op sha d o) !! claim_file jti = Some body →
     cd_files d !! claim_file jti = Some body ∨ ∃ c, claim_ok c = true ∧ body = claim_body c) →
  healthy (run_op sha d o).
Proof.
  intros Ho [Hf Hok Hp] Hnew. split; [by apply faults_run|by apply run_op_ok|].
  intros jti body Hb. destruct (Hnew _ _ Hb) as [Hold|(c & Hc & ->)]; [by eapply Hp|].
  exists c. by apply parse_claim_body.
Qed.

Lemma claim_at_ext d d' jti :
  cd_files d' !! claim_file jti = cd_files d !! claim_file jti → claim_at d' jti = claim_at d jti.
Proof. unfold claim_at. by intros ->. Qed.

Lemma lookup_lock_other d p jti (v : bytes) :
  <[lock_file sha p := v]> (cd_files d) !! claim_file jti = cd_files d !! claim_file jti.
Proof. apply lookup_insert_ne, lock_not_claim_file. Qed.

Lemma issue_law d c :
  healthy d → claim_ok c = true →
  wp (issue sha c)
    (λ _ d', healthy d' ∧ ∀ j, claim_at d' j = if decide (j = cr_jti c) then Some c else claim_at d j)
    (λ e d', e = BundleClaimedError (cr_bundle_path c) ∧ healthy d' ∧ ∀ j, claim_at d' j = claim_at d j) d.
Proof.
  intros Hd Hc. destruct (issue_cases sha c d) as [Hcase Hnf]. specialize (Hnf (he_faults _ Hd)).
  pose proof (healthy_after d (OpIssue c) Hc Hd) as Hh. cbn [run_op] in Hh.
  unfold wp. destruct (issue sha c d) as [r d'] eqn:E. cbn [fst snd] in Hcase, Hnf, Hh.
  remember (cd_files d') as m' eqn:Em. destruct Hcase as [Hl Hs|Ht|Hl].
  - split.
    + apply Hh. intros jti body. rewrite lookup_insert_Some. intros [[_ <-]|[_ Hb]]; [right; by exists c|left].
      by rewrite lookup_insert_ne in Hb by apply lock_not_claim_file.
    + intros j. unfold claim_at. rewrite <- Em. case_decide as Hj.
      * subst j. by rewrite lookup_insert_eq, parse_claim_body.
      * rewrite lookup_insert_ne by (by intros ?%claim_file_inj). by rewrite lookup_lock_other.
  - split_and!; [done| |].
    + apply Hh. by left.
    + intros j. apply claim_at_ext. by rewrite <- Em.
  - done.
Qed.

Lemma issue_taken_law d c c' :
  healthy d → claim_at d (cr_jti c') = Some c' → cr_bundle_path c' = cr_bundle_path c →
  issue sha c d = (Raise (BundleClaimedError (cr_bundle_path c)), (issue sha c d).2) ∧
  healthy (issue sha c d).2 ∧ ∀ j, claim_at (issue sha c d).2 j = claim_at d j.
Proof.
  intros Hd Hc' Hp. destruct (issue_cases sha c d) as [Hcase Hnf]. specialize (Hnf (he_faults _ Hd)).
  apply claim_at_Some in Hc' as (body & Hb & Hparse).
  destruct (proj1 (he_ok _ Hd) _ _ _ Hb (is_sidecar_claim_file _) Hparse) as [_ Hlock]. rewrite Hp in Hlock.
  pose proof (faults_run d (OpIssue c) (he_faults _ Hd)) as Hf. cbn [run_op] in Hf.
  destruct (issue sha c d) as [r d'] eqn:E. cbn [fst snd] in Hcase, Hnf, Hf |- *.
  remember (cd_files d') as m' eqn:Em. destruct Hcase as [Hl Hs|Ht|Hl]; [congruence| |congruence].
  split_and!; [done| |].
  - split; [done| |]; rewrite <- Em; apply Hd.
  - intros j. apply claim_at_ext. by rewrite <- Em.
Qed.

Lemma fetch_file_ok c name : claim_ok c = true → utf8_valid name = true → claim_ok (fetch_file c name) = true.
Proof. intros Hc Hn. unfold fetch_file. case_bool_decide; [done|]. by apply with_fetched_ok. Qed.

Lemma mark_law d jti c name :
  healthy d → claim_at d jti = Some c → utf8_valid name = true →
  ∃ d', mark_fetched jti name d = (Ok (fetch_file c name), d') ∧ healthy d' ∧
    ∀ j, claim_at d' j = if decide (j = jti) then Some (fetch_file c name) else claim_at d j.
Proof.
  intros Hd Hc Hn. destruct (claim_at_wf _ _ _ Hd Hc) as [Hj Hok].
  pose proof (mark_fetched_cases sha jti name d) as Hcase. cbn zeta in Hcase.
  pose proof (healthy_after d (OpMark jti name) Hn Hd) as Hh. cbn [run_op] in Hh.
  pose proof Hc as (body & Hb & Hp)%claim_at_Some. rewrite Hb, Hp in Hcase. unfold fetch_file.
  case_bool_decide as Hin.
  - rewrite Hcase in Hh |- *. exists d. split_and!; [done|apply Hh; by left|].
    intros j. case_decide; [by subst|done].
  - destruct (mark_fetched jti name d) as [r d'] eqn:E. cbn [fst snd] in Hcase, Hh.
    destruct Hcase as [(-> & Ef)|(_ & _ & Hnf)]; [|by destruct Hnf; apply Hd].
    assert (Hok' : claim_ok (with_fetched c (cr_files_fetched c ++ [name])) = true) by by apply with_fetched_ok.
    exists d'. split_and!; [done| |].
    + apply Hh. rewrite Ef. intros j b. rewrite lookup_insert_Some. intros [[_ <-]|[_ Hl]]; [right; by eexists|left].
      rewrite lookup_delete_ne in Hl; [done|apply tmp_not_claim_file].
    + intros j. unfold claim_at. rewrite Ef. cbn [cr_jti with_fetched]. rewrite Hj. case_decide as Hjj.
      * subst j. by rewrite lookup_insert_eq, parse_claim_body.
      * rewrite lookup_insert_ne by (by intros ?%claim_file_inj).
        rewrite lookup_delete_ne; [done|apply tmp_not_claim_file].
Qed.

Lemma delete_law d jti :
  healthy d → ∃ d', delete_claim sha jti d = (Ok tt, d') ∧ healthy d' ∧
    ∀ j, claim_at d' j = if decide (j = jti) then None else claim_at d j.
Proof.
  intros Hd. pose proof (delete_claim_cases sha jti d) as Hcase. cbn zeta in Hcase.
  pose proof (healthy_after d (OpDelete jti) eq_refl Hd) as Hh. cbn [run_op] in Hh.
  destruct (cd_files d !! claim_file jti) as [body|] eqn:Eb.
  - destruct (he_parse _ Hd _ _ Eb) as [c Hp]. rewrite Hp in Hcase.
    destruct (delete_claim sha jti d) as [r d']. cbn [fst snd] in Hcase, Hh. destruct Hcase as [-> Ef].
    exists d'. split_and!; [done| |].
    + apply Hh. rewrite Ef. intros j b. rewrite !lookup_delete_Some. tauto.
    + intros j. unfold claim_at. rewrite Ef. case_decide as Hj; [subst; by rewrite lookup_delete_eq|].
      rewrite lookup_delete_ne by (by intros ?%claim_file_inj).
      rewrite lookup_delete_ne; [done|apply lock_not_claim_file].
  - destruct (delete_claim sha jti d) as [r d']. cbn [fst snd] in Hcase, Hh. destruct Hcase as [-> Ef].
    exists d'. split_and!; [done| |].
    + apply Hh. rewrite Ef. by left.
    + intros j. unfold claim_at. rewrite Ef. case_decide as Hj; [subst; by rewrite Eb|done].
Qed.
End filesystem.

#[export] Instance filesystem_claim_laws sha : @ClaimLaws ClaimDir (FilesystemClaimStorage sha).
Proof.
  refine (@Build_ClaimLaws _ (FilesystemClaimStorage sha) (healthy sha) claim_at _ _ _ _ _ _); cbn.
  - intros s jti c. apply claim_at_wf.
  - intros s jti [_ _ Hp]. change (get_claim jti s = (Ok (claim_at s jti), s)). rewrite get_claim_eq. unfold claim_at.
    destruct (cd_files s !! claim_file jti) as [body|] eqn:E; [|done]. by destruct (Hp _ _ E) as [c ->].
  - intros s c. apply issue_law.
  - intros s c c' Hs Hc Hp. eexists. by apply (issue_taken_law sha s c c').
  - intros s jti c name. apply mark_law.
  - intros s jti. apply delete_law.
Defined.
