(* ===== verification/Bundles.v ===== *)
(** * The contract of a bundle store

    What the routes rely on of [protocols/storage.py]: the class [BundleLaws]
    states it of any [StorageBackend], in terms of what its reads return and
    of an abstract upload session; the filesystem backend is an instance.
    [same_reads] and [same_reads_outside] compare two states of a store by the
    reads of its bundles. *)

From Stdlib Require Import Ascii String.
From S2P Require Import Prelude PyStr PyCodec Json DateTime Effects PyNum Paths Limits Config.
From S2P Require Import Claims KeyStore Jwt FsModel Storage World Frame Backends.
Local Open Scope string_scope.
Local Open Scope list_scope.
Local Open Scope effect_scope.

(** ** The contract *)

Section contract.
Context {S : Type} `{StorageBackend S}.
Implicit Types (s : S).

(** A bundle that reads back: its manifest and, among others, these files. *)
Definition stored s (p : str) (meta : dict) (files : list (str * bytes)) : Prop :=
  sb_read_bundle_meta p s = (Ok meta, s) ∧
  ∀ n d, (n, d) ∈ files → sb_open_bundle_file_read p n s = (Ok d, s).

(** There is no bundle at a path. *)
Definition absent s (p : str) : Prop :=
  ∃ e, is_FileNotFoundError e = true ∧ sb_read_bundle_meta p s = (Raise e, s).

(** The reads of one bundle are the same in two states. *)
Definition same_bundle (p : str) s s' : Prop :=
  (sb_read_bundle_meta p s').1 = (sb_read_bundle_meta p s).1 ∧
  ∀ n, key_ok n → (sb_open_bundle_file_read p n s').1 = (sb_open_bundle_file_read p n s).1.
Definition same_reads s s' : Prop := ∀ p, key_ok p → same_bundle p s s'.
(** The same for the bundles that are neither above nor below a path. *)
Definition apart (p q : str) : Prop :=
  ¬ parse_path p `prefix_of` parse_path q ∧ ¬ parse_path q `prefix_of` parse_path p.
Definition same_reads_outside (p : str) s s' : Prop := ∀ q, key_ok q → apart p q → same_bundle q s s'.

#[global] Instance same_bundle_preorder p : PreOrder (same_bundle p).
Proof.
  split; [done|]. intros s1 s2 s3 [E1 F1] [E2 F2].
  split; [congruence|]. intros n Hn. rewrite F2, F1; done.
Qed.
#[global] Instance same_reads_preorder : PreOrder same_reads.
Proof. split; [done|]. intros s1 s2 s3 H1 H2 p Hp. etrans; [by apply H1|by apply H2]. Qed.
#[global] Instance same_reads_outside_preorder p : PreOrder (same_reads_outside p).
Proof. split; [done|]. intros s1 s2 s3 H1 H2 q Hq Hn. etrans; [by apply H1|by apply H2]. Qed.

Lemma same_reads_weaken p s s' : same_reads s s' → same_reads_outside p s s'.
Proof. intros Hs q Hq _. by apply Hs. Qed.
End contract.

(** [bl_session p w0 W s0 s w]: in the state [s], [w] is the handle of an
    upload to [p] that opened as [w0] in the state [s0] and wrote the files
    [W] so far. *)
Class BundleLaws S `{StorageBackend S} := {
  bl_inv : S → Prop;
  bl_free : S → str → Prop;
  bl_session : str → sb_writer → list (str * bytes) → S → S → sb_writer → Prop;
  bl_open p s :
    bl_inv s → key_ok p →
    wp (sb_open_bundle_write p) (λ w s', bl_session p w [] s s' w)
      (λ _ s', bl_inv s' ∧ same_reads s s') s;
  bl_open_free p s :
    bl_inv s → key_ok p → bl_free s p → ∃ w s', sb_open_bundle_write p s = (Ok w, s');
  bl_write p w0 W s0 s w n d :
    bl_session p w0 W s0 s w → names_ok (W.*1 ++ [n]) →
    ∃ w' s', sb_write_file w n (bytes_io d) s = (Ok (w', blen d), s')
      ∧ bl_session p w0 (W ++ [(n, d)]) s0 s' w';
  bl_write_twice p w0 W s0 s w n src :
    bl_session p w0 W s0 s w → n ∈ W.*1 → ∃ e, sb_write_file w n src s = (Raise e, s);
  bl_commit p w0 W s0 s w meta :
    bl_session p w0 W s0 s w → names_ok W.*1 → json_wf (JDict meta) = true →
    declares meta (written_of W) →
    ∃ w' s', sb_commit w meta s = (Ok w', s') ∧ bl_inv s' ∧ stored s' p meta W
      ∧ same_reads_outside p s0 s';
  bl_commit_undeclared p w0 W s0 s w meta :
    bl_session p w0 W s0 s w → ¬ declares meta (written_of W) →
    ∃ e, sb_commit w meta s = (Raise e, s);
  bl_abort p w0 W s0 s w :
    bl_session p w0 W s0 s w →
    ∃ s', sb_abort w0 s = (Ok tt, s') ∧ bl_inv s' ∧ same_reads s0 s';
  bl_delete p s :
    bl_inv s → key_ok p →
    wp (sb_delete_bundle p) (λ _ s', bl_inv s' ∧ absent s' p ∧ same_reads_outside p s s')
      (λ e s', is_FileNotFoundError e = true ∧ s' = s ∧ absent s p) s;
}.

(** ** The filesystem backend *)

(** The contents of a regular file. *)
Definition file_at (fs : Fs) (q : path) : option bytes :=
  match nodes fs !! q with Some (NFile d) => Some d | _ => None end.

(** Directories may have appeared; the files are the same. *)
Definition only_dirs (fs fs' : Fs) : Prop :=
  fs_wf fs → fs_wf fs' ∧ ∀ q, file_at fs' q = file_at fs q.
#[export] Instance only_dirs_preorder : PreOrder only_dirs.
Proof.
  split; [done|]. intros fs1 fs2 fs3 H12 H23 Hwf. destruct (H12 Hwf) as [Hwf2 E12].
  destruct (H23 Hwf2) as [? E23]. split; [done|]. intros q. by rewrite E23.
Qed.

Lemma only_dirs_mkdir p : lexical p → frames only_dirs (mkdir p).
Proof.
  intros Hp fs Hwf. rewrite mkdir_lexical by done.
  destruct (nodes fs !! p) eqn:E; [done|]. destruct (nodes fs !! parent p) as [[]|] eqn:Ep; [done| |done].
  cbn [snd]. split.
  - apply fs_wf_create_node; [done| |done|done]. intros ->. by rewrite (proj1 Hwf) in E.
  - intros q. unfold file_at. rewrite nodes_create_node, lookup_insert. case_decide; [subst; by rewrite E|done].
Qed.

Lemma only_dirs_is_dir p e : frames only_dirs (fs <- get;; if is_dir fs p then ret tt else raise e).
Proof. frame. Qed.

Lemma only_dirs_mkdir_exist_ok p : lexical p → frames only_dirs (mkdir_exist_ok p).
Proof.
  intros Hp. apply frames_catch; [apply _|by apply only_dirs_mkdir|]. intros e m Hm.
  case_match; [|done]. simplify_eq. apply only_dirs_is_dir.
Qed.

Lemma only_dirs_mkdir_parents p : lexical p → frames only_dirs (mkdir_parents p).
Proof.
  unfold mkdir_parents. generalize (length p). intros fuel. revert p.
  induction fuel as [|fuel IH]; intros p Hp; cbn [mkdir_parents_go];
    (apply frames_catch; [apply _|by apply only_dirs_mkdir|]); intros e m Hm.
  - destruct (is_FileNotFoundError e); [done|]. destruct (is_OSError e); [|done]. simplify_eq.
    apply only_dirs_is_dir.
  - destruct (is_FileNotFoundError e).
    + simplify_eq. apply frames_bind; [apply _|by apply IH, lexical_parent|]. intros _.
      by apply only_dirs_mkdir_exist_ok.
    + destruct (is_OSError e); [|done]. simplify_eq. apply only_dirs_is_dir.
Qed.

Section filesystem.
Variable root : path.
Hypothesis Hroot : lexical root.
#[local] Instance backend : StorageBackend Fs := FilesystemBackend root.
Implicit Types (fs : Fs).

(** *** Reads by the files they open *)

Definition meta_of (p : str) (body : bytes) : res dict :=
  match utf8_decode body with
  | None => Raise (ValueError PlainValueError "'utf-8' codec can't decode bytes")
  | Some text =>
      match json_loads text with
      | Some (JDict meta) => Ok meta
      | Some _ => Raise (OSError ENOENT ("Bundle meta invalid: " +:+ p))
      | None => Raise (OSError ENOENT ("Bundle meta unreadable: " +:+ p))
      end
  end.

Lemma is_file_at fs q : lexical q → is_file fs q = match file_at fs q with Some _ => true | None => false end.
Proof. intros Hq. unfold is_file, file_at. rewrite node_at_lexical by done. by repeat case_match. Qed.
Lemma read_bytes_at fs q d : lexical q → file_at fs q = Some d → read_bytes q fs = (Ok d, fs).
Proof.
  intros Hq Hd. apply read_bytes_lexical; [done|]. unfold file_at in Hd. repeat case_match; by simplify_eq.
Qed.

Lemma read_bundle_meta_eq p fs :
  key_ok p →
  read_bundle_meta root p fs =
    (match file_at fs (resolve root p ++ [BUNDLE_MANIFEST]) with
     | Some body => meta_of p body
     | None => Raise (OSError ENOENT ("Bundle not found: " +:+ p))
     end, fs).
Proof.
  intros Hp. pose proof (manifest_lexical _ (resolve_lexical root p Hroot Hp)) as Hl.
  unfold read_bundle_meta, bind at 1, get. rewrite is_file_at by done.
  destruct (file_at fs _) as [body|] eqn:E; [|done].
  unfold bind. rewrite (read_bytes_at _ _ body) by done. unfold meta_of. by repeat case_match.
Qed.

Lemma open_bundle_file_read_eq p n fs :
  key_ok p → key_ok n →
  open_bundle_file_read root p n fs =
    (match file_at fs (resolve root p ++ [BUNDLE_MANIFEST]), file_at fs (resolve root p ++ parse_path n) with
     | Some _, Some d => Ok d
     | Some _, None => Raise (OSError ENOENT ("File not found: " +:+ p +:+ "/" +:+ n))
     | None, _ => Raise (OSError ENOENT ("Bundle not found: " +:+ p))
     end, fs).
Proof.
  intros Hp (Hrel & Hln & _). pose proof (resolve_lexical root p Hroot Hp) as HD.
  assert (Hl : lexical (resolve root p ++ parse_path n)) by by apply lexical_app.
  unfold open_bundle_file_read, bind, get. cbv zeta. rewrite joinpath_relative by done.
  rewrite !is_file_at by (done || by apply manifest_lexical).
  destruct (file_at fs _) as [body|] eqn:E; [|done].
  destruct (file_at fs (resolve root p ++ parse_path n)) as [d|] eqn:Ed; [|done].
  by apply read_bytes_at.
Qed.

Lemma same_bundle_files p fs fs' :
  key_ok p → (∀ k, file_at fs' (resolve root p ++ k) = file_at fs (resolve root p ++ k)) →
  same_bundle p fs fs'.
Proof.
  intros Hp Hf. split.
  - change ((read_bundle_meta root p fs').1 = (read_bundle_meta root p fs).1).
    by rewrite !read_bundle_meta_eq, Hf by done.
  - intros n Hn. change ((open_bundle_file_read root p n fs').1 = (open_bundle_file_read root p n fs).1).
    by rewrite !open_bundle_file_read_eq, !Hf by done.
Qed.

Lemma only_dirs_same_reads fs fs' : fs_wf fs → only_dirs fs fs' → fs_wf fs' ∧ same_reads fs fs'.
Proof.
  intros Hwf [? Hf]; [done|]. split; [done|]. intros p Hp. apply same_bundle_files; [done|].
  intros k. apply Hf.
Qed.

(** The directories of bundles that are apart are disjoint. *)
Lemma apart_resolve p q k :
  key_ok p → key_ok q → apart p q → ¬ resolve root p `prefix_of` resolve root q ++ k.
Proof.
  intros Hp Hq [Hn Hn']. rewrite !resolve_key by done.
  change (root ++ "data" :: parse_path p) with (root ++ (["data"] ++ parse_path p)).
  change (root ++ "data" :: parse_path q) with (root ++ (["data"] ++ parse_path q)).
  rewrite <- !app_assoc. intros H. do 2 apply prefix_app_inv in H.
  destruct (prefix_of_app_inv _ _ _ H) as [?|(j & E & ? & ?)]; [done|]. destruct Hn'. rewrite E. by eexists.
Qed.

Lemma same_outside p fs fs' :
  key_ok p → (∀ q, ¬ resolve root p `prefix_of` q → file_at fs' q = file_at fs q) →
  same_reads_outside p fs fs'.
Proof.
  intros Hp Hf q Hq Ha. apply same_bundle_files; [done|]. intros k. by apply Hf, apart_resolve.
Qed.

(** *** The upload session *)

Record fs_session (p : str) (w0 : Writer) (W : list (str * bytes)) (s0 s : Fs) (w : Writer) : Prop := {
  fss_path : key_ok p;
  fss_opened : w0 = writer_of (resolve root p) [];
  fss_handle : w = writer_of (resolve root p) W;
  fss_wf : fs_wf s0;
  fss_new : nodes s0 !! resolve root p = None;
  fss_tree : ∃ fs1, dirs_added (parent (resolve root p)) s0 fs1 ∧ session (resolve root p) W fs1 s;
}.

Lemma frames_open p : key_ok p → frames only_dirs (open_bundle_write root p).
Proof.
  intros Hp. pose proof (resolve_lexical root p Hroot Hp) as Hl. unfold open_bundle_write. cbv zeta.
  apply frames_bind; [apply _|apply frames_get, _|]. intros fs.
  apply frames_bind; [apply _|apply frames_of_res, _|]. intros _.
  apply frames_bind; [apply _|by apply only_dirs_mkdir_parents, lexical_parent|]. intros _.
  apply frames_bind; [apply _| |intros; apply frames_ret, _].
  apply frames_catch; [apply _|by apply only_dirs_mkdir|]. intros e m Hm.
  destruct (is_FileExistsError e); [|done]. simplify_eq. frame.
Qed.

Lemma open_bundle_write_dir p fs w fs' :
  lexical (resolve root p) → open_bundle_write root p fs = (Ok w, fs') →
  nodes fs' !! resolve root p = Some NDir.
Proof.
  intros Hl. unfold open_bundle_write, bind, get, of_res.
  destruct (check_bundle_path_collision _ _ fs) as [[]|]; [|done].
  destruct (mkdir_parents _ fs) as [[a|e] fs1]; [|done].
  unfold catch. rewrite mkdir_lexical by done.
  destruct (nodes fs1 !! resolve root p) eqn:E1; [done|].
  destruct (nodes fs1 !! parent _) as [[]|]; try done. intros [= _ <-]. apply lookup_insert_eq.
Qed.

(** A successful open had room for the bundle. *)
Lemma open_storable p fs w fs' :
  fs_wf fs → key_ok p → open_bundle_write root p fs = (Ok w, fs') → storable root p fs.
Proof.
  intros Hwf Hp E. pose proof (resolve_lexical root p Hroot Hp) as Hl.
  pose proof (open_bundle_write_dir _ _ _ _ Hl E) as Hd.
  pose proof (frames_open p Hp fs Hwf) as [Hwf' Hfa]. rewrite E in Hwf', Hfa. cbn [snd] in Hwf', Hfa.
  apply open_bundle_write_Ok in E as (Hc & Hnone & _); [|done].
  split_and!; [done|done| |done]. intros q d Hq Hqf.
  assert (Hq' : nodes fs' !! q = Some (NFile d)).
  { specialize (Hfa q). unfold file_at in Hfa. rewrite Hqf in Hfa. repeat case_match; by simplify_eq. }
  destruct Hq as [k Hk]. pose proof (fs_wf_parent _ _ _ Hwf' Hd) as Hpar. rewrite Hk in Hpar.
  destruct (decide (k = [])) as [->|Hne]; [rewrite app_nil_r in Hpar; congruence|].
  rewrite (fs_wf_file _ _ _ _ Hwf' Hq' Hne) in Hpar. done.
Qed.

Lemma fs_open p fs :
  fs_wf fs → key_ok p →
  wp (open_bundle_write root p) (λ w s', fs_session p w [] fs s' w)
    (λ _ s', fs_wf s' ∧ same_reads fs s') fs.
Proof.
  intros Hwf Hp. unfold wp. destruct (open_bundle_write root p fs) as [[w|e] fs'] eqn:E.
  - pose proof (open_storable _ _ _ _ Hwf Hp E) as (_ & Hc & Hno & HD).
    destruct (open_bundle_write_spec root Hroot p fs) as (fs1 & fs2 & E2 & Hadd & Hs); [done..|].
    rewrite E in E2. simplify_eq. split; try done. by exists fs1.
  - pose proof (frames_open p Hp fs) as Hf. rewrite E in Hf. by apply only_dirs_same_reads.
Qed.

(** Directories added above a new bundle change no read. *)
Lemma dirs_added_files d fs fs' q : dirs_added d fs fs' → file_at fs' q = file_at fs q.
Proof. intros Hadd. unfold file_at. rewrite Hadd. destruct (nodes fs !! q) as [[]|]; [done..|]. by case_decide. Qed.

Lemma fs_session_files p w0 W s0 s w q :
  fs_session p w0 W s0 s w → ¬ resolve root p `prefix_of` q → file_at s q = file_at s0 q.
Proof.
  intros [? ? ? ? ? (fs1 & Hadd & Hs)] Hq. unfold file_at at 1. rewrite (se_frame _ _ _ _ Hs _ Hq).
  fold (file_at fs1 q). by eapply dirs_added_files.
Qed.

Lemma fs_write p w0 W s0 s w n d :
  fs_session p w0 W s0 s w → names_ok (W.*1 ++ [n]) →
  ∃ w' s', write_file w n (bytes_io d) s = (Ok (w', blen d), s') ∧ fs_session p w0 (W ++ [(n, d)]) s0 s' w'.
Proof.
  intros [Hp -> -> Hwf HD (fs1 & Hadd & Hs)] Hok.
  destruct (write_file_spec (resolve root p) W fs1 s n d) as (s' & E & Hs');
    [by apply resolve_lexical|done|done|].
  exists (writer_of (resolve root p) (W ++ [(n, d)])), s'. split; [done|]. split; [done..|]. by exists fs1.
Qed.

Lemma fs_write_twice p w0 W s0 s w n src :
  fs_session p w0 W s0 s w → n ∈ W.*1 → ∃ e, write_file w n src s = (Raise e, s).
Proof.
  intros [_ _ -> _ _ _] Hn. unfold write_file. case_decide as Hne; [by eexists|].
  rewrite decide_True; [by eexists|]. cbn [w_written writer_of]. apply elem_of_dom.
  rewrite dom_written_of. by apply elem_of_list_to_set.
Qed.

Lemma fs_commit p w0 W s0 s w meta :
  fs_session p w0 W s0 s w → names_ok W.*1 → json_wf (JDict meta) = true → declares meta (written_of W) →
  ∃ w' s', commit w meta s = (Ok w', s') ∧ fs_wf s' ∧ stored s' p meta W ∧ same_reads_outside p s0 s'.
Proof.
  intros Hse Hok Hw Hm. pose proof Hse as [Hp _ -> _ _ (fs1 & Hadd & Hs)].
  pose proof (resolve_lexical root p Hroot Hp) as HD.
  destruct (commit_spec HD Hs Hok Hm) as (w' & s' & E & _ & Hct & Hwf').
  exists w', s'. split_and!; [done..| |].
  - split; [by eapply read_bundle_meta_committed|]. intros n d Hn. destruct Hok as (_ & Hok & _).
    rewrite Forall_forall in Hok. destruct (Hok n) as [Hkn Hres].
    { apply list_elem_of_fmap. by exists (n, d). }
    eapply open_bundle_file_read_committed; [done..|]. rewrite Hct, decide_False.
    + by eapply se_file.
    + intros Hq%app_inv_head. by destruct (Hres _ _ Hq).
  - apply same_outside; [done|]. intros q Hq. rewrite <- (fs_session_files _ _ _ _ _ _ _ Hse Hq).
    unfold file_at. rewrite Hct, decide_False; [done|]. intros ->. apply Hq. by eexists.
Qed.

Lemma fs_commit_undeclared w W s meta :
  w_written w = written_of W → ¬ declares meta (written_of W) → ∃ e, commit w meta s = (Raise e, s).
Proof.
  intros Ew Hm. unfold commit, bind, of_res. rewrite Ew.
  destruct (commit_checks (written_of W) meta) as [[]|e] eqn:Ec; [|by exists e].
  by apply commit_checks_Ok in Ec.
Qed.

Lemma fs_abort p w0 W s0 s w :
  fs_session p w0 W s0 s w → ∃ s', abort w0 s = (Ok tt, s') ∧ fs_wf s' ∧ same_reads s0 s'.
Proof.
  intros Hse. pose proof Hse as [Hp -> _ Hwf HD (fs1 & Hadd & Hs)].
  pose proof (resolve_lexical root p Hroot Hp) as Hl.
  assert (Hne : resolve root p ≠ []) by (rewrite resolve_key by done; by destruct root).
  exists (remove_tree (resolve root p) s). split_and!.
  - unfold abort, catch. cbn [w_committed w_dir writer_of].
    by rewrite rmtree_lexical by (done || apply (se_dir _ _ _ _ Hs)).
  - by apply fs_wf_remove_tree; [apply Hs|].
  - intros q Hq. apply same_bundle_files; [done|]. intros k.
    apply (dirs_added_files (parent (resolve root p))). by eapply remove_tree_dirs.
Qed.

Lemma fs_delete p fs :
  fs_wf fs → key_ok p →
  wp (delete_bundle root p) (λ _ s', fs_wf s' ∧ absent s' p ∧ same_reads_outside p fs s')
    (λ e s', is_FileNotFoundError e = true ∧ s' = fs ∧ absent fs p) fs.
Proof.
  intros Hwf Hp. pose proof (resolve_lexical root p Hroot Hp) as Hl.
  assert (Hne : resolve root p ≠ []) by (rewrite resolve_key by done; by destruct root).
  assert (Habs : ∀ fs, file_at fs (resolve root p ++ [BUNDLE_MANIFEST]) = None → absent fs p).
  { intros fs0 H0. exists (OSError ENOENT ("Bundle not found: " +:+ p)). split; [done|].
    change (read_bundle_meta root p fs0 = (Raise (OSError ENOENT ("Bundle not found: " +:+ p)), fs0)).
    by rewrite read_bundle_meta_eq, H0. }
  unfold wp. rewrite delete_bundle_lexical by done.
  destruct (nodes fs !! resolve root p) as [[d|]|] eqn:E.
  - split_and!; [done..|]. apply Habs. unfold file_at. by rewrite (fs_wf_file _ _ _ [BUNDLE_MANIFEST] Hwf E).
  - split_and!; [by apply fs_wf_remove_tree| |].
    + apply Habs. unfold file_at. rewrite nodes_remove_tree, decide_True; [done|]. by eexists.
    + apply same_outside; [done|]. intros q Hq. unfold file_at. by rewrite nodes_remove_tree, decide_False.
  - split_and!; [done..|]. apply Habs. unfold file_at.
    rewrite (fs_wf_absent _ _ _ Hwf E); [done|]. by eexists.
Qed.

(** *** The instance *)

Lemma fs_open_free p fs :
  fs_wf fs → key_ok p → storable root p fs → ∃ w fs', open_bundle_write root p fs = (Ok w, fs').
Proof.
  intros Hwf Hp (_ & Hc & Hno & HD).
  destruct (open_bundle_write_spec root Hroot p fs) as (fs1 & fs' & E & _); [done..|]. by eexists _, _.
Qed.

Lemma fs_undeclared p w0 W s0 s w meta :
  fs_session p w0 W s0 s w → ¬ declares meta (written_of W) → ∃ e, commit w meta s = (Raise e, s).
Proof. intros [_ _ -> _ _ _]. by apply fs_commit_undeclared. Qed.

#[export] Instance filesystem_bundle_laws : @BundleLaws Fs (FilesystemBackend root) := {|
  bl_inv := fs_wf;
  bl_free s p := storable root p s;
  bl_session := fs_session;
  bl_open p s := fs_open p s;
  bl_open_free := fs_open_free;
  bl_write := fs_write;
  bl_write_twice := fs_write_twice;
  bl_commit := fs_commit;
  bl_commit_undeclared := fs_undeclared;
  bl_abort := fs_abort;
  bl_delete := fs_delete;
|}.
End filesystem.

(** The concrete store of the witnesses. *)
Definition demo_bundle_laws : @BundleLaws Fs Demo.storage := filesystem_bundle_laws [] lexical_nil.
