(* ===== verification/Downloads.v ===== *)
(** * Response envelopes and download credentials

    [envelopes.py] and [downloads.py]: the two response envelopes of the read
    surfaces, and the sequence that mints a download credential, persists its
    claim and only then returns it. *)

From Stdlib Require Import Ascii String.
From S2P Require Import Prelude PyStr PyCodec Json DateTime Effects PyNum Paths Limits Config.
From S2P Require Import Claims KeyStore Jwt FsModel Storage World.
Local Open Scope string_scope.
Local Open Scope list_scope.
Local Open Scope effect_scope.

(** ** [envelopes.py] *)

Definition inline_file (name : str) (data : bytes) : json :=
  match utf8_decode data with
  | Some text => JDict [("name", JStr name); ("content", JStr text); ("encoding", JStr "utf8")]
  | None =>
      JDict [("name", JStr name); ("content", JStr (b64encode data)); ("encoding", JStr "base64")]
  end.

Definition build_inline_envelope (meta : dict) (file_payloads : list (str * bytes)) : json :=
  JDict [("mode", JStr "inline"); ("bundle", JDict meta);
         ("files", JList (map (λ p : str * bytes, inline_file p.1 p.2) file_payloads))].

(** [str(record.get("mime") or "application/octet-stream")]. *)
Definition mime_or_default (record : dict) : str :=
  match dict_get "mime" record with
  | Some m => if py_truthy m then py_str m else DEFAULT_MIME
  | None => DEFAULT_MIME
  end.

Definition reference_file (url : str → str) (record : json) : res json :=
  r <-? as_dict record;;
  n <-? dict_item "name" r;;
  let name := py_str n in
  size <-? get_int "size" 0 r;;
  Ok (JDict [("name", JStr name); ("size", JInt size); ("mime", JStr (mime_or_default r));
             ("url", JStr (url name))]).

Definition build_reference_envelope_with_path (meta : dict) (bundle_path : str)
    (transport : str → str → str → str) (token expires_at : str) : res json :=
  records <-? get_list "files" meta;;
  ref_files <-? map_res (reference_file (λ name, transport bundle_path name token)) records;;
  Ok (JDict [("mode", JStr "reference"); ("bundle", JDict meta); ("files", JList ref_files);
             ("download_token", JStr token); ("expires_at", JStr expires_at)]).

Definition infer_bundle_path (meta : dict) : str := get_str "_bundle_path" "" meta.

Definition build_reference_envelope (meta : dict) (transport : str → str → str → str)
    (token expires_at : str) : res json :=
  build_reference_envelope_with_path meta (infer_bundle_path meta) transport token expires_at.

(** ** [downloads.py] *)

(** [str(f["name"])] of a manifest entry. *)
Definition record_name (record : json) : res str :=
  r <-? as_dict record;; n <-? dict_item "name" r;; Ok (py_str n).

Definition build_claims (bundle_path : str) (meta : dict) (recipient : str) (ttl_s now : Z) : res dict :=
  records <-? get_list "files" meta;;
  file_names <-? map_res record_name records;;
  Ok [("bundle_path", JStr bundle_path);
      ("bundle_id", JStr (get_str "bundle_id" "" meta));
      ("recipient", JStr recipient);
      ("file_names", JList (map JStr file_names));
      ("iat", JInt now); ("nbf", JInt now); ("exp", JInt (now + ttl_s))].

Definition expires_iso (now_epoch ttl_s : Z) : str := iso_z (now_epoch + ttl_s).

Section downloads.
Context {S C K : Type} `{StorageBackend S} `{ClaimStorage C} `{KeyStoreProtocol K}
  `{App K} `{PyJwt}.
Abbreviation W := (World S C K).

Definition download_ttl (identity : Identity) : Z := ttl_download_claim (ttls app_limits identity).

(** Minting: the token, its jti, and the time it was issued at. *)
Definition mint_download_token (identity : Identity) (bundle_path : str) (meta : dict)
    (recipient : str) : M W (str * str) :=
  w <- get;;
  claims <- of_res (build_claims bundle_path meta recipient (download_ttl identity) (now_seconds w));;
  fresh <- new_uuid;;
  let token := sign fresh claims (cf_jwt_primary_key app_config) in
  ret (token, extract_jti token).

Definition claim_record (jti bundle_path : str) (meta : dict) (recipient : str) (now : Z) : ClaimRecord :=
  {| cr_schema_version := 1; cr_jti := jti; cr_bundle_path := bundle_path;
     cr_bundle_id := get_str "bundle_id" "" meta; cr_recipient := recipient;
     cr_created_at := isoformat now; cr_files_fetched := [] |}.

Definition build_reference_payload_for_inbox (identity : Identity) (bundle_path : str)
    (meta : dict) (recipient : str) (write_claim : bool) : M W json :=
  w <- get;;
  let ttl_s := download_ttl identity in
  '(token, jti) <- mint_download_token identity bundle_path meta recipient;;
  when write_claim
    (on_claims (cs_issue (claim_record jti bundle_path meta recipient (w_now w)));;;
     struct_log INFO "download_claim_issued");;;
  of_res (build_reference_envelope_with_path meta bundle_path app_transport token
            (expires_iso (now_seconds w) ttl_s)).

Definition build_reference_payload_for_store (identity : Identity) (bundle_path : str)
    (meta : dict) (recipient : str) : M W json :=
  w <- get;;
  let ttl_s := download_ttl identity in
  '(token, _) <- mint_download_token identity bundle_path meta recipient;;
  struct_log INFO "download_claim_issued";;;
  of_res (build_reference_envelope_with_path meta bundle_path app_transport token
            (expires_iso (now_seconds w) ttl_s)).
End downloads.
