(* ===== verification/Inbox.v ===== *)
(** * The inbox routes

    [routes/inbox.py]: listing, peeking, reading, picking and deleting the
    bundles of an agent's inbox.  The helpers on bundle metadata at the top
    have identical copies in [routes/files.py] and [mcp_server.py], which the
    models of those files reuse.  The response models' coercions are left out:
    a listing is the list of dictionaries the handler builds. *)

From Stdlib Require Import Ascii String.
From stdpp Require Import pretty.
From S2P Require Import Prelude PyStr PyCodec Json DateTime Effects PyNum Paths Limits Config.
From S2P Require Import Claims KeyStore Jwt FsModel Storage World Downloads.
Local Open Scope string_scope.
Local Open Scope list_scope.
Local Open Scope effect_scope.

Definition INBOX_NAMESPACE : str := "inbox".

(** ** Bundle metadata *)

(** [datetime.fromisoformat(created_at_iso).timestamp()], in microseconds. *)
Definition created_epoch (created_at_iso : str) : res Z := iso_to_epoch created_at_iso.

(** [_is_expired_by_meta] at a time. *)
Definition is_expired_by_meta (now : Z) (created_at_iso : str) (ttl : Z) : res bool :=
  if decide (ttl <= 0)%Z then Ok false
  else created <-? created_epoch created_at_iso;; Ok (ttl * 1000000 <? now - created)%Z.

(** [_compute_remaining_ttl] at a time. *)
Definition compute_remaining_ttl (now : Z) (created_at_iso : str) (ttl : Z) : res (option Z) :=
  if decide (ttl <= 0)%Z then Ok None
  else
    created <-? created_epoch created_at_iso;;
    let elapsed := (now - created)%Z in
    let remaining := Z.quot (ttl * 1000000 - elapsed) 1000000 in
    Ok (Some (Z.max remaining 0)).

(** [sum(int(f.get("size", 0)) for f in files)]. *)
Definition size_of_record (record : json) : res Z := r <-? as_dict record;; get_int "size" 0 r.
Definition total_size_of (files : list json) : res Z :=
  sizes <-? map_res size_of_record files;; Ok (sumZ sizes).

Definition opt_json {A} (f : A → json) (o : option A) : json :=
  match o with Some a => f a | None => JNull end.

(** [{"name": f["name"], "size": int(f["size"]), "mime": f["mime"]}]. *)
Definition listed_file (record : json) : res json :=
  r <-? as_dict record;;
  name <-? dict_item "name" r;;
  size <-? dict_item "size" r;; size <-? py_int size;;
  mime <-? dict_item "mime" r;;
  Ok (JDict [("name", name); ("size", JInt size); ("mime", mime)]).

Definition meta_or (k : str) (dflt : json) (meta : dict) : json :=
  default dflt (dict_get k meta).

(** [_listing_entry(path, meta, ttl)]. *)
Definition listing_entry (now : Z) (path : str) (meta : dict) (ttl : Z) : res dict :=
  files <-? get_list "files" meta;;
  total_size <-? total_size_of files;;
  let created_at_iso := get_str "created_at" "" meta in
  remaining <-? compute_remaining_ttl now created_at_iso ttl;;
  file_count <-? get_int "file_count" (Z.of_nat (length files)) meta;;
  version <-? get_int "schema_version" 1 meta;;
  listed <-? map_res listed_file files;;
  Ok [("path", JStr path); ("bundle_id", meta_or "bundle_id" (JStr "") meta);
      ("size", JInt total_size); ("sender", meta_or "sender" JNull meta);
      ("created_at", JStr created_at_iso); ("remaining_ttl", opt_json JInt remaining);
      ("file_count", JInt file_count); ("schema_version", JInt version); ("files", JList listed)].

(** The [created_at] of an entry, and the order of the listing: newest first. *)
Definition entry_created (e : dict) : str := get_str "created_at" "" e.
Definition newer_first (a b : dict) : bool := negb (str_ltb (entry_created a) (entry_created b)).

Section inbox.
Context {S C K : Type} `{StorageBackend S} `{ClaimStorage C} `{KeyStoreProtocol K}
  `{App K} `{PyJwt}.
Abbreviation W := (World S C K).

(** [backend.read_bundle_meta(p)], [None] for [FileNotFoundError]. *)
Definition try_read_meta (p : str) : M W (option dict) :=
  catch (meta <- on_store (sb_read_bundle_meta p);; ret (Some meta))
    (λ e, if is_FileNotFoundError e then Some (ret None) else None).

(** [try: backend.delete_bundle(p) except FileNotFoundError: pass]. *)
Definition delete_bundle_quiet (p : str) : M W unit :=
  catch (on_store (sb_delete_bundle p))
    (λ e, if is_FileNotFoundError e then Some (ret tt) else None).

Definition is_expired (meta : dict) : M W bool :=
  w <- get;;
  of_res (is_expired_by_meta (w_now w) (get_str "created_at" "" meta) (cf_default_ttl app_config)).

(** [record["name"]], which the backend needs to be a string. *)
Definition record_file_name (record : json) : res str :=
  r <-? as_dict record;;
  n <-? dict_item "name" r;;
  match n with JStr s => Ok s | _ => Raise (OtherError "TypeError") end.

(** [_collect_bundle_files]. *)
Definition collect_bundle_files (bundle_path : str) (records : list json) : M W (list (str * bytes)) :=
  map_m (λ record,
    name <- of_res (record_file_name record);;
    data <- on_store (sb_open_bundle_file_read bundle_path name);;
    ret (name, data)) records.

Definition inbox_path (agent path : str) : str :=
  INBOX_NAMESPACE +:+ "/" +:+ agent +:+ "/" +:+ path.

Definition file_not_found {A} (path : str) : M W A :=
  http_error 404 ("File not found: " +:+ path).

Definition count_inbox (action : str) : M W unit :=
  safe_emit None (Some (count_event "cassetta.inbox.operations" "action" action)).

(** [send_to_inbox_removed]. *)
Definition send_to_inbox_removed (agent path : str) : M W Response :=
  ret (json_response 410
    (JDict [("error", JStr "gone"); ("reason", JStr "replaced_by_two_phase_upload");
            ("replacement", JStr "POST /upload/{bundle_path}")]) []).

(** *** Listing *)

(** One iteration of the listing loop. *)
Definition list_step (agent : str) (hidden : gset str) (entries : list dict) (ref : BundleRef)
    : M W (list dict) :=
  if decide (br_path ref ∈ hidden) then ret entries
  else
    meta <- try_read_meta (br_path ref);;
    match meta with
    | None => struct_log WARNING "inbox.foreign_object";;; ret entries
    | Some meta =>
        expired <- is_expired meta;;
        if expired : bool then ret entries
        else
          w <- get;;
          e <- of_res (listing_entry (w_now w) (removeprefix (inbox_path agent "") (br_path ref))
                         meta (cf_default_ttl app_config));;
          ret (entries ++ [e])
    end.

Definition list_inbox (rq : HttpRequest) (agent prefix : str) : M W Response :=
  identity <- get_current_identity rq;;
  enforce identity ("inbox:" +:+ agent) "list";;;
  count_inbox "list";;;
  let scan_prefix := inbox_path agent prefix in
  w <- get;;
  hidden <- on_claims (cs_iter_active (w_now w) (ttl_download_claim (ttls app_limits identity)));;
  refs <- list_bundles_w scan_prefix false;;
  entries <- fold_m (list_step agent (dom hidden)) [] refs;;
  ret (json_response 200
    (JDict [("agent", JStr agent); ("files", JList (map JDict (stable_sort newer_first entries)))]) []).

(** *** Peeking *)

Definition peek_inbox_file (rq : HttpRequest) (agent path : str) : M W Response :=
  identity <- get_current_identity rq;;
  enforce identity ("inbox:" +:+ agent) "peek";;;
  meta <- try_read_meta (inbox_path agent path);;
  match meta with
  | None => struct_log INFO "peek.not_found";;; file_not_found path
  | Some meta =>
      expired <- is_expired meta;;
      if expired : bool then struct_log INFO "peek.not_found";;; file_not_found path
      else
        file_count <- of_res (get_int "file_count" 0 meta);;
        files <- of_res (get_list "files" meta);;
        _ <- of_res (total_size_of files);;
        struct_log DEBUG "peek.ok";;;
        count_inbox "peek";;;
        ret (json_response 200 (JDict [("bundle", JDict meta)])
          [("X-Cassetta-Sender", get_or_empty "sender" meta);
           ("X-Cassetta-File-Count", pretty file_count)])
  end.

(** *** Reading and picking *)

(** The metadata of a bundle that is present and not expired; an expired one
    is deleted. *)
Definition live_meta (bundle_path path : str) : M W dict :=
  meta <- try_read_meta bundle_path;;
  match meta with
  | None => file_not_found path
  | Some meta =>
      expired <- is_expired meta;;
      if expired : bool then delete_bundle_quiet bundle_path;;; file_not_found path
      else ret meta
  end.

(** The part [get_inbox_file] and [pick_inbox_file] share: the file count, the
    records and the mode the policy decides. *)
Definition download_mode (identity : Identity) (meta : dict) : M W (Z * list json * DownloadMode) :=
  file_count <- of_res (get_int "file_count" 1 meta);;
  records <- of_res (get_list "files" meta);;
  total_size <- of_res (total_size_of records);;
  mode <- of_res (evaluate_download app_limits identity
                    {| de_file_count := file_count; de_total_size := total_size |});;
  struct_log DEBUG "download_mode_decision";;;
  ret (file_count, records, mode).

Definition get_inbox_file (rq : HttpRequest) (agent path : str) : M W Response :=
  identity <- get_current_identity rq;;
  enforce identity ("inbox:" +:+ agent) "read";;;
  count_inbox "read";;;
  let bundle_path := inbox_path agent path in
  meta <- live_meta bundle_path path;;
  '((file_count, records), mode) <- download_mode identity meta;;
  let headers := [("X-Cassetta-Sender", get_or_empty "sender" meta);
                  ("X-Cassetta-File-Count", pretty file_count)] in
  match mode with
  | Reference =>
      envelope <- build_reference_payload_for_inbox identity bundle_path meta agent false;;
      ret (json_response 200 envelope headers)
  | _ =>
      payloads <- collect_bundle_files bundle_path records;;
      ret (json_response 200 (build_inline_envelope meta payloads) headers)
  end.

(** The search of [pick] for the newest bundle: its time, path and metadata. *)
Definition newest_step (acc : str * option (str * dict)) (ref : BundleRef)
    : M W (str * option (str * dict)) :=
  meta <- try_read_meta (br_path ref);;
  match meta with
  | None => struct_log WARNING "inbox.foreign_object";;; ret acc
  | Some meta =>
      expired <- is_expired meta;;
      if expired : bool then ret acc
      else
        let created_at_iso := get_str "created_at" "" meta in
        if str_ltb acc.1 created_at_iso
        then ret (created_at_iso, Some (br_path ref, meta)) else ret acc
  end.

Definition find_newest (agent : str) : M W (option (str * dict)) :=
  refs <- list_bundles_w (inbox_path agent "") false;;
  acc <- fold_m newest_step ("", None) refs;;
  ret acc.2.

(** The bundle a pick is about: its path, its name in the response, its
    metadata. *)
Definition pick_target (agent path : str) : M W (str * str * dict) :=
  if decide (path = "latest") then
    newest <- find_newest agent;;
    match newest with
    | None => http_error 404 "No files in inbox"
    | Some (bundle_path, meta) =>
        ret (bundle_path, removeprefix (inbox_path agent "") bundle_path, meta)
    end
  else
    let bundle_path := inbox_path agent path in
    meta <- live_meta bundle_path path;;
    ret (bundle_path, path, meta).

Definition pick_inbox_file (rq : HttpRequest) (agent path : str) : M W Response :=
  identity <- get_current_identity rq;;
  enforce identity ("inbox:" +:+ agent) "pick";;;
  count_inbox "pick";;;
  '((bundle_path, actual_path), meta) <- pick_target agent path;;
  '((file_count, records), mode) <- download_mode identity meta;;
  let headers := [("X-Cassetta-Sender", get_or_empty "sender" meta);
                  ("X-Cassetta-Path", actual_path);
                  ("X-Cassetta-File-Count", pretty file_count)] in
  match mode with
  | Reference =>
      envelope <- catch (build_reference_payload_for_inbox identity bundle_path meta agent true)
        (λ e, match e with BundleClaimedError _ => Some (file_not_found path) | _ => None end);;
      ret (json_response 200 envelope headers)
  | _ =>
      payloads <- collect_bundle_files bundle_path records;;
      delete_bundle_quiet bundle_path;;;
      ret (json_response 200 (build_inline_envelope meta payloads) headers)
  end.

Definition delete_inbox_file (rq : HttpRequest) (agent path : str) : M W Response :=
  identity <- get_current_identity rq;;
  enforce identity ("inbox:" +:+ agent) "delete";;;
  count_inbox "delete";;;
  catch (on_store (sb_delete_bundle (inbox_path agent path)))
    (λ e, if is_FileNotFoundError e then Some (file_not_found path) else None);;;
  ret no_content.

(** [build_bundle_conflict_response], and the body of the app-level handler. *)
Definition conflict_kind_name (k : conflict_kind) : str :=
  match k with shadow_parent => "shadow_parent" | shadow_child => "shadow_child" end.
Definition build_bundle_conflict_response (conflicting_path : str) (kind : conflict_kind) : Response :=
  json_response 409
    (JDict [("error", JStr "bundle_path_conflict"); ("conflicting_path", JStr conflicting_path);
            ("kind", JStr (conflict_kind_name kind))]) [].
End inbox.
