(* ===== verification/Files.v ===== *)
(** * The store routes

    [routes/files.py]: writing, listing, peeking, reading and deleting the
    bundles of the shared store, and the bundle writer that [routes/agents.py]
    and [mcp_server.py] have their own copies of. *)

From Stdlib Require Import Ascii String.
From stdpp Require Import pretty.
From S2P Require Import Prelude PyStr PyCodec Json DateTime Effects PyNum Paths Limits Config.
From S2P Require Import Claims KeyStore Jwt FsModel Storage World Downloads Inbox.
Local Open Scope string_scope.
Local Open Scope list_scope.
Local Open Scope effect_scope.

Definition RESERVED_PREFIXES : list str := ["inbox/"; "store/"].
Definition STORE_NAMESPACE : str := "store".
Definition store_path (path : str) : str := STORE_NAMESPACE +:+ "/" +:+ path.

(** A file of an upload: its name, its bytes and the type the client gave. *)
Definition part_name (f : str * bytes * option str) : str := f.1.1.
Definition part_data (f : str * bytes * option str) : bytes := f.1.2.

Definition part_entry (f : str * bytes * option str) : ManifestFile :=
  {| mf_name := part_name f; mf_size := blen (part_data f); mf_mime := f.2 |}.
Definition manifest_of_parts (parts : list (str * bytes * option str)) : UploadManifest :=
  {| um_file_count := Z.of_nat (length parts); um_files := map part_entry parts |}.

Definition parts_size (parts : list (str * bytes * option str)) : Z :=
  sumZ (map (λ f, blen (part_data f)) parts).

(** An item of [meta["files"]], and the manifest of a stored bundle. *)
Definition file_record (name : str) (size : Z) (mime : str) : json :=
  JDict [("name", JStr name); ("size", JInt size); ("mime", JStr mime)].

Definition bundle_meta (bundle_id : str) (sender : json) (now : Z) (content_type : str)
    (records : list json) : dict :=
  [("schema_version", JInt 1); ("bundle_id", JStr bundle_id); ("sender", sender);
   ("created_at", JStr (isoformat now)); ("content_type", JStr content_type);
   ("file_count", JInt (Z.of_nat (length records))); ("files", JList records)].

(** The context of a per-file rejection: the first file of the observed
    size. *)
Definition rejection_context (constraint : limits_constraint) (observed : Z)
    (files : list ManifestFile) : option str :=
  match constraint with
  | per_file_max =>
      match find_first (λ f, (mf_size f =? observed)%Z) files with
      | Some f => Some ("file " +:+ repr (mf_name f))
      | None => None
      end
  | _ => None
  end.

Section files.
Context {S C K : Type} `{StorageBackend S} `{ClaimStorage C} `{KeyStoreProtocol K}
  `{App K} `{PyJwt}.
Abbreviation W := (World S C K).

(** ** Writing a bundle *)

Definition part_step (acc : sb_writer * list json) (f : str * bytes * option str)
    : M W (sb_writer * list json) :=
  let name := part_name f in
  '(writer, _) <- on_store (sb_write_file acc.1 name (bytes_io (part_data f)));;
  mime <- pick_mime name f.2;;
  ret (writer, acc.2 ++ [file_record name (blen (part_data f)) mime]).

(** [_write_store_bundle], with the sender and content type as arguments. *)
Definition write_bundle (bundle_path : str) (files : list (str * bytes * option str))
    (sender : json) (content_type bundle_id : str) : M W dict :=
  writer <- on_store (sb_open_bundle_write bundle_path);;
  catch (
    '(writer, records) <- fold_m part_step (writer, []) files;;
    w <- get;;
    let meta := bundle_meta bundle_id sender (w_now w) content_type records in
    on_store (sb_commit writer meta);;;
    ret meta)
  (λ e, Some (on_store (sb_abort writer);;; raise e)).

Definition write_store_bundle (bundle_path : str) (files : list (str * bytes * option str))
    (bundle_id : str) : M W dict :=
  write_bundle bundle_path files JNull "application/octet-stream" bundle_id.

(** ** Uploading *)

Definition reject_limits {A} (error : limits_error) (constraint : limits_constraint)
    (limit : option Z) (observed : Z) (context : option str) : M W A :=
  struct_log INFO "policy.rejection";;;
  raise (LimitsRejection error constraint limit observed
           (format_reason error constraint limit observed context)).

(** [_evaluate_or_raise]. *)
Definition evaluate_or_raise (identity : Identity) (parts : list (str * bytes * option str)) : M W unit :=
  let manifest := manifest_of_parts parts in
  decision <- of_res (evaluate_upload app_limits identity manifest);;
  match decision with
  | Rejected error constraint limit observed =>
      reject_limits error constraint limit observed
        (rejection_context constraint observed (um_files manifest))
  | Accepted Inline => struct_log DEBUG "policy.upload_decision"
  | Accepted _ =>
      reject_limits batch_required max_inline_size
        (la_max_inline_size (advertise_limits app_limits identity))
        (total_size (um_files manifest)) None
  end.

(** The files of a multipart form. *)
Definition form_part (item : FormItem) : option (str * bytes * option str) :=
  match fi_filename item with
  | Some name =>
      if decide (name = "") then None
      else Some (name, fi_data item,
                 match fi_content_type item with
                 | Some t => if decide (t = "") then None else Some t
                 | None => None
                 end)
  | None => None
  end.

Definition is_multipart (rq : HttpRequest) : bool :=
  contains "multipart/form-data" (rq_content_type rq).

(** The parts of a request body. *)
Definition parts_of (rq : HttpRequest) (path : str) : M W (list (str * bytes * option str)) :=
  body <- read_body rq;;
  ret (if is_multipart rq then omap form_part (rq_form rq)
       else [(last_segment "/" path, body, None)]).

Definition validate_or_400 (path : str) (allowed : option str) : M W unit :=
  catch (of_res (validate_path path allowed)) (λ e,
    match e with
    | ValueError PathValidationError msg => Some (http_error 400 msg)
    | _ => None
    end).

Definition upload_file (rq : HttpRequest) (path : str) : M W Response :=
  identity <- get_current_identity rq;;
  validate_or_400 path (Some (cf_allowed_path_chars app_config));;;
  match find_first (λ p, startswith p path) RESERVED_PREFIXES with
  | Some prefix => http_error 400 ("Reserved path prefix: " +:+ prefix)
  | None =>
      enforce identity ("files:" +:+ path) "write";;;
      parts <- parts_of rq path;;
      if is_multipart rq && bool_decide (parts = [])
      then http_error 400 "No files found in multipart request"
      else
        let size := parts_size parts in
        evaluate_or_raise identity parts;;;
        let bundle_path := store_path path in
        existing <- try_read_meta bundle_path;;
        let existed := match existing with Some _ => true | None => false end in
        when existed (delete_bundle_quiet bundle_path);;;
        bundle_id <- new_bundle_id;;
        conflict <- catch (write_store_bundle bundle_path parts bundle_id;;; ret None) (λ e,
          match e with
          | BundlePathConflictError p k => Some (ret (Some (build_bundle_conflict_response p k)))
          | _ => None
          end);;
        match conflict with
        | Some response => ret response
        | None =>
            safe_emit (Some (INFO, "file.uploaded"))
              (Some (count_event "cassetta.files.operations" "action" "put"));;;
            safe_emit None (Some (Increment "cassetta.files.bytes" size [("action", "put")]));;;
            ret (json_response (if existed then 200 else 201)
                   (JDict [("path", JStr path); ("size", JInt size)]) [])
        end
  end.

(** ** Listing *)

Definition file_entry (now : Z) (path : str) (meta : dict) (ttl : Z) : res dict :=
  let created_at_iso := get_str "created_at" "" meta in
  created <-? created_epoch created_at_iso;;
  files <-? get_list "files" meta;;
  listed <-? map_res listed_file files;;
  total_size <-? total_size_of files;;
  remaining <-? compute_remaining_ttl now created_at_iso ttl;;
  file_count <-? get_int "file_count" (Z.of_nat (length listed)) meta;;
  Ok [("path", JStr path); ("size", JInt total_size); ("created_at", JStr created_at_iso);
      ("remaining_ttl", opt_json JInt remaining); ("file_count", JInt file_count);
      ("bundle_id", JStr (get_str "bundle_id" "" meta)); ("files", JList listed)].

Definition list_files_step (entries : list dict) (ref : BundleRef) : M W (list dict) :=
  meta <- try_read_meta (br_path ref);;
  match meta with
  | None => struct_log WARNING "files.foreign_object";;; ret entries
  | Some meta =>
      expired <- is_expired meta;;
      if expired : bool then ret entries
      else
        w <- get;;
        e <- of_res (file_entry (w_now w) (removeprefix (store_path "") (br_path ref)) meta
                       (cf_default_ttl app_config));;
        ret (entries ++ [e])
  end.

Definition list_files (rq : HttpRequest) (prefix : str) : M W Response :=
  identity <- get_current_identity rq;;
  enforce identity "files:*" "list";;;
  refs <- list_bundles_w (store_path (lstrip "/" prefix)) false;;
  entries <- fold_m list_files_step [] refs;;
  safe_emit (Some (INFO, "file.listed"))
    (Some (count_event "cassetta.files.operations" "action" "list"));;;
  ret (json_response 200 (JDict [("files", JList (map JDict entries))]) []).

(** ** Peeking, reading and deleting *)

Definition peek_store_file (rq : HttpRequest) (path : str) : M W Response :=
  identity <- get_current_identity rq;;
  validate_or_400 path None;;;
  enforce identity ("files:" +:+ path) "peek";;;
  meta <- try_read_meta (store_path path);;
  match meta with
  | None => struct_log INFO "peek.not_found";;; file_not_found path
  | Some meta =>
      expired <- is_expired meta;;
      if expired : bool then struct_log INFO "peek.not_found";;; file_not_found path
      else
        file_count <- of_res (get_int "file_count" 0 meta);;
        files <- of_res (get_list "files" meta);;
        _ <- of_res (total_size_of files);;
        safe_emit (Some (DEBUG, "peek.ok"))
          (Some (count_event "cassetta.files.operations" "action" "peek"));;;
        ret (json_response 200 (JDict [("bundle", JDict meta)])
               [("X-Cassetta-File-Count", pretty file_count)])
  end.

Definition download_file (rq : HttpRequest) (path : str) : M W Response :=
  identity <- get_current_identity rq;;
  validate_or_400 path None;;;
  enforce identity ("files:" +:+ path) "read";;;
  let bundle_path := store_path path in
  meta <- live_meta bundle_path path;;
  '((file_count, records), mode) <- download_mode identity meta;;
  safe_emit (Some (INFO, "file.downloaded"))
    (Some (count_event "cassetta.files.operations" "action" "get"));;;
  let headers := [("X-Cassetta-File-Count", pretty file_count)] in
  match mode with
  | Reference =>
      envelope <- build_reference_payload_for_store identity bundle_path meta (id_label identity);;
      total <- of_res (total_size_of records);;
      safe_emit None (Some (Increment "cassetta.files.bytes" total [("action", "get")]));;;
      ret (json_response 200 envelope headers)
  | _ =>
      payloads <- collect_bundle_files bundle_path records;;
      safe_emit None (Some (Increment "cassetta.files.bytes"
        (sumZ (map (λ p : str * bytes, blen p.2) payloads)) [("action", "get")]));;;
      ret (json_response 200 (build_inline_envelope meta payloads) headers)
  end.

Definition delete_file (rq : HttpRequest) (path : str) : M W Response :=
  identity <- get_current_identity rq;;
  validate_or_400 path None;;;
  enforce identity ("files:" +:+ path) "delete";;;
  catch (on_store (sb_delete_bundle (store_path path)))
    (λ e, if is_FileNotFoundError e then Some (file_not_found path) else None);;;
  safe_emit (Some (INFO, "file.deleted"))
    (Some (count_event "cassetta.files.operations" "action" "delete"));;;
  ret (json_response 200 (JDict [("deleted", JStr path)]) []).
End files.
