(* ===== verification/RoundTrips.v ===== *)
(** * Storing and reading back

    The handlers of [Files] and [Inbox] over any store that keeps the contract
    of [Bundles]: what the bundle writer stores, what a read of a stored bundle
    returns, that a pick consumes, and that the metadata the server writes is
    metadata the server can list.  The examples at the end are paths
    and file names that the routes let out of their place. *)

From Stdlib Require Import Ascii String.
From stdpp Require Import pretty.
From S2P Require Import Prelude PyStr PyCodec Json DateTime Effects PyNum Paths Limits Config.
From S2P Require Import Claims KeyStore Jwt FsModel Storage World Frame Backends Bundles Downloads Inbox Files.
Local Open Scope string_scope.
Local Open Scope list_scope.
Local Open Scope effect_scope.

(** ** Lemmas: the metadata of a bundle *)

(** The record [record_of f r] of an uploaded part. *)
Definition record_of (f : str * bytes * option str) (r : json) : Prop :=
  ∃ m, r = file_record (part_name f) (blen (part_data f)) m ∧ utf8_valid m = true.
Definition parts_data (files : list (str * bytes * option str)) : list (str * bytes) :=
  map (λ f, (part_name f, part_data f)) files.

(** The names and types that came with the parts are text. *)
Definition part_text (f : str * bytes * option str) : Prop :=
  utf8_valid (part_name f) = true ∧ ∀ m, f.2 = Some m → utf8_valid m = true.

Lemma file_record_wf n z m : utf8_valid n = true → utf8_valid m = true → json_wf (file_record n z m) = true.
Proof. intros Hn Hm. cbn [json_wf file_record forallb]. rewrite Hn, Hm. by vm_compute. Qed.

Lemma records_wf files recs :
  Forall part_text files → Forall2 record_of files recs → forallb json_wf recs = true.
Proof.
  intros Ht Hr. induction Hr as [|f r files recs (m & -> & Hm) Hr IH]; [done|].
  apply Forall_cons in Ht as [[Hn _] Ht]. cbn [forallb]. rewrite IH by done. by rewrite file_record_wf.
Qed.

Lemma bundle_meta_wf id sender now ct recs :
  utf8_valid id = true → json_wf sender = true → utf8_valid ct = true → forallb json_wf recs = true →
  json_wf (JDict (bundle_meta id sender now ct recs)) = true.
Proof.
  intros Hid Hs Hct Hr. unfold bundle_meta.
  change (bool_decide (NoDup ["schema_version"; "bundle_id"; "sender"; "created_at"; "content_type"; "file_count"; "files"])
    && (json_wf (JInt 1) && (utf8_valid id && (json_wf sender && (utf8_valid (isoformat now) &&
        (utf8_valid ct && (true && (forallb json_wf recs && true))))))) = true).
  rewrite Hid, Hs, Hct, Hr, isoformat_utf8. by vm_compute.
Qed.

Lemma parts_data_names files : (parts_data files).*1 = map part_name files.
Proof. induction files as [|f files IH]; [done|]. cbn. by rewrite <- IH. Qed.

Lemma parts_data_length files : length (parts_data files) = length files.
Proof. apply length_map. Qed.
Lemma parts_data_size files : sumZ (map (λ f, blen f.2) (parts_data files)) = parts_size files.
Proof. unfold parts_size, parts_data. by rewrite map_map. Qed.

(** What the writer records is what it wrote. *)
Lemma records_declare files recs id sender now ct :
  files ≠ [] → NoDup (map part_name files) → Forall2 record_of files recs →
  declares (bundle_meta id sender now ct recs) (written_of (parts_data files)).
Proof.
  intros Hne Hnd Hr. exists recs, (map part_name files).
  assert (Hm : mapM entry_name recs = Some (map part_name files)).
  { apply mapM_Some. clear -Hr. induction Hr as [|f r files recs (m & -> & _) Hr IH]; [by constructor|].
    constructor; [done|exact IH]. }
  split_and!; [done| |done|done| |].
  - intros ->. by apply Forall2_nil_inv_r in Hr.
  - by rewrite dom_written_of, parts_data_names.
  - assert (Hin : ∀ f, f ∈ files → written_of (parts_data files) !! part_name f = Some (blen (part_data f))).
    { intros f Hf. apply written_of_lookup; [by rewrite parts_data_names|].
      apply list_elem_of_In, in_map_iff. exists f. split; [done|]. by apply list_elem_of_In. }
    clear Hm Hne Hnd. revert Hin. generalize (written_of (parts_data files)). intros W Hin.
    induction Hr as [|f r files recs (m & -> & _) Hr IH]; constructor.
    + exists (blen (part_data f)). split; [done|]. apply Hin. by left.
    + apply IH. intros g Hg. apply Hin. by right.
Qed.

(** ** Lemmas: writing a bundle *)

Section flows.
Context {S C K : Type} `{StorageReads S, !BundleLaws S, ClaimReads C, KeyReads K, !App K, PyJwt}.
Abbreviation W := (World S C K).
Implicit Types (w : W).

(** The host's type tables hold text. *)
Definition mime_text : Prop := ∀ n m, app_mime n = Some m → utf8_valid m = true.

Lemma pick_mime_spec name explicit w :
  mime_text → (∀ m, explicit = Some m → utf8_valid m = true) →
  ∃ m evs, pick_mime name explicit w = (Ok m, add_events evs w) ∧ utf8_valid m = true.
Proof.
  intros Ht He. unfold pick_mime, infer_mime.
  assert (Hi : ∃ m evs, (match app_mime name with
    | None => struct_log DEBUG "mime_inference_fallback";;; ret DEFAULT_MIME
    | Some guessed => ret guessed end : M W str) w = (Ok m, add_events evs w) ∧ utf8_valid m = true).
  { destruct (app_mime name) as [g|] eqn:E; [|by eexists _, [_]].
    exists g, []. rewrite add_events_nil. split; [done|]. by eapply Ht. }
  destruct explicit as [e|]; [|done]. case_decide; [done|].
  exists e, []. rewrite add_events_nil. split; [done|]. by apply He.
Qed.

Lemma wp_parts p h0 V s0 files h recs w :
  mime_text → Forall part_text files →
  bl_session p h0 V s0 (w_store w) h → names_ok (V.*1 ++ map part_name files) →
  wp (fold_m part_step (h, recs) files)
    (λ r w', bl_session p h0 (V ++ parts_data files) s0 (w_store w') r.1 ∧ w_now w' = w_now w
       ∧ ∃ recs', r.2 = recs ++ recs' ∧ Forall2 record_of files recs') (λ _ _, False) w.
Proof.
  intros Hmt. revert V h recs w. induction files as [|f files IH]; intros V h recs w Ht Hs Hok.
  { cbn. rewrite app_nil_r. split_and!; [done..|]. exists []. by rewrite app_nil_r. }
  apply Forall_cons in Ht as [[Hfn Hfm] Ht]. cbn [map] in Hok.
  assert (Hok1 : names_ok (V.*1 ++ [part_name f])).
  { apply (names_ok_prefix _ (map part_name files)). by rewrite <- app_assoc. }
  destruct (bl_write _ _ _ _ _ _ (part_name f) (part_data f) Hs Hok1) as (h' & s' & E & Hs').
  cbn [fold_m]. apply wp_bind. unfold part_step at 1. cbn [fst snd]. apply wp_bind, wp_on_store.
  unfold wp at 1. rewrite E. apply wp_bind. unfold wp at 1.
  destruct (pick_mime_spec (part_name f) f.2 (set_store s' w)) as (m & evs & -> & Hm); [done..|].
  apply wp_ret. eapply wp_mono; [| |apply (IH (V ++ [(part_name f, part_data f)]))].
  - intros [h2 recs2] w2 (Hs2 & Hnow & recs' & -> & Hr). cbn [fst snd] in *. split_and!.
    + by rewrite <- app_assoc in Hs2.
    + done.
    + exists (file_record (part_name f) (blen (part_data f)) m :: recs').
      rewrite <- app_assoc. split; [done|]. constructor; [by exists m|done].
  - done.
  - done.
  - exact Hs'.
  - rewrite fmap_app, <- app_assoc. exact Hok.
Qed.

(** The bundle writer stores a bundle or changes no read; it fails only when
    the backend has no room or there is nothing to write. *)
Lemma wp_write_bundle p files sender ct id w :
  mime_text → Forall part_text files → bl_inv (w_store w) → key_ok p → names_ok (map part_name files) →
  utf8_valid id = true → json_wf sender = true → utf8_valid ct = true →
  wp (write_bundle p files sender ct id)
    (λ meta w', bl_inv (w_store w') ∧ same_reads_outside p (w_store w) (w_store w') ∧ w_now w' = w_now w ∧
       ∃ recs, meta = bundle_meta id sender (w_now w) ct recs ∧ Forall2 record_of files recs ∧
         stored (w_store w') p meta (parts_data files))
    (λ _ w', bl_inv (w_store w') ∧ same_reads (w_store w) (w_store w') ∧ w_now w' = w_now w ∧
       (files = [] ∨ ∀ h s', sb_open_bundle_write p (w_store w) ≠ (Ok h, s'))) w.
Proof.
  intros Hmt Ht Hinv Hp Hok Hid Hsender Hct. unfold write_bundle. apply wp_bind, wp_on_store.
  pose proof (bl_open p (w_store w) Hinv Hp) as Ho. unfold wp in Ho |- * at 1.
  destruct (sb_open_bundle_write p (w_store w)) as [[h0|e] s0] eqn:Eo.
  2:{ destruct Ho. split_and!; [done..|]. by right. }
  apply wp_catch, wp_bind. eapply wp_mono; [| |eapply wp_parts]; [| |done|done|exact Ho|done]; [|done].
  intros [h recs] w1 (Hs & Hnow & recs' & Er & Hr). cbn [fst snd app] in *. subst recs'.
  apply wp_bind, wp_get, wp_bind, wp_on_store. unfold wp at 1.
  destruct (decide (files = [])) as [->|Hne].
  - apply Forall2_nil_inv_l in Hr as ->.
    destruct (bl_commit_undeclared p h0 [] (w_store w) (w_store w1) h
      (bundle_meta id sender (w_now w1) ct [])) as [e ->]; [done| |].
    { by intros (entries & names & [= <-] & ? & _). }
    apply wp_bind, wp_on_store. unfold wp at 1.
    destruct (bl_abort _ _ _ _ _ _ Hs) as (s' & E & Hi & Hsame). cbn [w_store set_store]. rewrite E.
    apply wp_raise. split_and!; [done..|by left].
  - destruct (bl_commit p h0 (parts_data files) (w_store w) (w_store w1) h
      (bundle_meta id sender (w_now w1) ct recs)) as (w' & s' & -> & Hi & Hst & Hout); [done|..].
    + by rewrite parts_data_names.
    + apply bundle_meta_wf; [done..|]. by eapply records_wf.
    + apply records_declare; [done| |done]. apply Hok.
    + apply wp_ret. rewrite Hnow in *. split_and!; [done..|]. by exists recs.
Qed.

(** ** Lemmas: reading a stored bundle *)

Lemma set_store_id w : set_store (w_store w) w = w.
Proof. by destruct w. Qed.

(** The metadata describes the files: their number, their names in the order
    of the records, their sizes. *)
Record manifest_of (meta : dict) (recs : list json) (files : list (str * bytes)) : Prop := {
  mo_count : get_int "file_count" 1 meta = Ok (Z.of_nat (length files));
  mo_files : get_list "files" meta = Ok recs;
  mo_total : total_size_of recs = Ok (sumZ (map (λ f, blen f.2) files));
  mo_names : Forall2 (λ r f, record_file_name r = Ok f.1) recs files;
}.

Lemma bundle_meta_manifest id sender now ct files recs :
  Forall2 record_of files recs → manifest_of (bundle_meta id sender now ct recs) recs (parts_data files).
Proof.
  intros Hr. split.
  - unfold parts_data. by rewrite length_map, (Forall2_length _ _ _ Hr).
  - done.
  - unfold total_size_of.
    assert (map_res size_of_record recs = Ok (map (λ f, blen f.2) (parts_data files))) as ->; [|done].
    apply map_res_Ok. induction Hr as [|f r files recs (m & -> & _) Hr IH]; [by constructor|].
    by constructor.
  - induction Hr as [|f r files recs (m & -> & _) Hr IH]; [by constructor|]. by constructor.
Qed.

(** Not past the lifetime of bundles. *)
Definition fresh w (meta : dict) : Prop :=
  is_expired_by_meta (w_now w) (get_str "created_at" "" meta) (cf_default_ttl app_config) = Ok false.

Lemma fresh_written id sender now ct recs w :
  representable now →
  (cf_default_ttl app_config <= 0 ∨ w_now w - now <= cf_default_ttl app_config * 1000000)%Z →
  fresh w (bundle_meta id sender now ct recs).
Proof.
  intros Hnow Hage. unfold fresh, is_expired_by_meta. change (get_str _ _ _) with (isoformat now).
  case_decide; [done|]. unfold created_epoch, iso_to_epoch, res_bind.
  rewrite fromisoformat_isoformat by done. f_equal. apply Z.ltb_ge. lia.
Qed.

Section stored.
Context {p : str} {meta : dict} {recs : list json} {files : list (str * bytes)}.

Lemma try_read_meta_stored w : stored (w_store w) p meta files → try_read_meta p w = (Ok (Some meta), w).
Proof. intros [E _]. unfold try_read_meta, catch, bind, on_store, lift. by rewrite E, set_store_id. Qed.

Lemma try_read_meta_absent w : absent (w_store w) p → try_read_meta p w = (Ok None, w).
Proof.
  intros (e & He & E). unfold try_read_meta, catch, bind, on_store, lift. by rewrite E, He, set_store_id.
Qed.

Lemma collect_stored w :
  stored (w_store w) p meta files → manifest_of meta recs files →
  collect_bundle_files p recs w = (Ok files, w).
Proof.
  intros [_ Hf] [_ _ _ Hn]. unfold collect_bundle_files. clear meta.
  induction Hn as [|r f recs files Hr Hn IH]; [done|]. cbn [map_m]. unfold bind, of_res, on_store, lift.
  rewrite Hr. destruct f as [n d]. cbn [fst]. rewrite (Hf n d) by by left. rewrite set_store_id.
  unfold ret at 1. unfold bind, of_res, on_store, lift in IH. rewrite IH; [done|]. intros n' d' Hin. apply Hf. by right.
Qed.

Lemma live_meta_stored path w :
  stored (w_store w) p meta files → fresh w meta → live_meta p path w = (Ok meta, w).
Proof.
  intros Hs Hf. unfold live_meta, is_expired, bind, get, of_res. rewrite try_read_meta_stored by done.
  unfold fresh in Hf. by rewrite Hf.
Qed.

Lemma download_mode_manifest id mode w :
  manifest_of meta recs files →
  evaluate_download app_limits id
    {| de_file_count := Z.of_nat (length files); de_total_size := sumZ (map (λ f, blen f.2) files) |} = Ok mode →
  download_mode id meta w
    = (Ok (Z.of_nat (length files), recs, mode), add_events [Log DEBUG "download_mode_decision"] w).
Proof. intros [Ec Ef Et _] Em. unfold download_mode, bind, of_res. by rewrite Ec, Ef, Et, Em. Qed.
End stored.

Lemma enforce_allowed id resource action w :
  ap_check app_access id resource action = Ok true → enforce id resource action w = (Ok tt, w).
Proof. intros E. unfold enforce, check_policy, bind, of_res. by rewrite E. Qed.

Lemma wp_identity rq id (Q : Identity → W → Prop) X w :
  (get_current_identity rq w).1 = Ok id → (∀ w', same_data w w' → Q id w') →
  wp (get_current_identity rq) Q X w.
Proof.
  intros E HQ. pose proof (frames_current_identity (S := S) (C := C) rq w) as Hf. unfold wp. destruct (get_current_identity rq w) as [[i|e] w']; cbn in *; [|done].
  simplify_eq. by apply HQ.
Qed.

(** ** Lemmas: the store routes *)

Lemma frames_try_read_meta p : frames same_data (try_read_meta p : M W (option dict)).
Proof. unfold try_read_meta. frame. Qed.
Lemma frames_evaluate identity parts : frames same_data (evaluate_or_raise identity parts : M W unit).
Proof. unfold evaluate_or_raise, reject_limits. frame. Qed.
Lemma frames_bundle_id : frames same_data (new_bundle_id : M W str).
Proof. unfold new_bundle_id, new_uuid. frame. Qed.
Lemma frames_validate_or_400 path allowed : frames same_data (validate_or_400 path allowed : M W unit).
Proof. unfold validate_or_400, http_error. frame. Qed.
Lemma frames_parts_of rq path : frames same_data (parts_of rq path : M W (list (str * bytes * option str))).
Proof. unfold parts_of. frame. Qed.

(** The parts of a body that arrives. *)
Definition request_parts (rq : HttpRequest) (path : str) : list (str * bytes * option str) :=
  if is_multipart rq then omap form_part (rq_form rq) else [(last_segment "/" path, body_of rq, None)].

Lemma parts_of_Ok rq path parts w w' : parts_of rq path w = (Ok parts, w') → parts = request_parts rq path.
Proof. unfold parts_of, read_body, bind. destruct (rq_body_error rq); [done|]. by intros [= <-]. Qed.

Lemma validate_or_400_Ok path allowed w w' :
  validate_or_400 path allowed w = (Ok tt, w') → validate_path path allowed = Ok tt.
Proof.
  unfold validate_or_400, catch, of_res. destruct (validate_path path allowed) as [[]|e]; [done|].
  destruct e as [[] ?| | | | | | | | | | | | | | | | | | |]; done.
Qed.

Lemma store_path_ok path allowed : validate_path path allowed = Ok tt → key_ok (store_path path).
Proof.
  intros Hv%validate_path_no_dotdot. unfold store_path, STORE_NAMESPACE.
  assert (E : parse_path ("store" +:+ "/" +:+ path) = "store" :: parse_path path).
  { change ("store" +:+ "/" +:+ path) with ("store" +:+ String "/" path). unfold parse_path.
    rewrite split_app by done. rewrite filter_cons_True; done. }
  split_and!; [done| |by rewrite E]. rewrite E. apply not_elem_of_cons. split; [done|]. by apply parse_path_lexical.
Qed.

(** The host's identifiers are ASCII. *)
Definition uuid_text : Prop := ∀ n, str_forall is_ascii (app_uuid n) = true.

Lemma without_dashes_ascii s : str_forall is_ascii s = true → str_forall is_ascii (without_dashes s) = true.
Proof.
  induction s as [|a s IH]; [done|]. cbn [str_forall without_dashes]. intros [Ha Hs]%andb_true_iff.
  destruct (decide _); [by apply IH|]. cbn [str_forall]. by rewrite Ha, IH.
Qed.

Lemma bundle_id_text w id w' : uuid_text → new_bundle_id w = (Ok id, w') → utf8_valid id = true.
Proof. intros Hu. unfold new_bundle_id, new_uuid, bind, get, modify, ret. intros [= <- _]. apply ascii_utf8, without_dashes_ascii, Hu. Qed.

Lemma wp_delete_quiet p (Q : unit → W → Prop) X w :
  bl_inv (w_store w) → key_ok p →
  (∀ s, bl_inv s → absent s p → same_reads_outside p (w_store w) s → Q tt (set_store s w)) →
  wp (delete_bundle_quiet p) Q X w.
Proof.
  intros Hi Hp HQ. unfold delete_bundle_quiet. apply wp_catch, wp_on_store.
  eapply wp_mono; [| |apply (bl_delete p (w_store w) Hi Hp)].
  - intros [] s (? & ? & ?). by apply HQ.
  - intros e s (He & -> & Ha). rewrite He. apply wp_ret. by apply HQ.
Qed.

(** What an upload to the store leaves behind. *)
Definition uploaded (path : str) (parts : list (str * bytes * option str)) (w w' : W) : Prop :=
  ∃ id recs, let meta := bundle_meta id JNull (w_now w) "application/octet-stream" recs in
    Forall2 record_of parts recs ∧ stored (w_store w') (store_path path) meta (parts_data parts).

Definition outside_kept (p : str) (w w' : W) : Prop :=
  bl_inv (w_store w') ∧ same_reads_outside p (w_store w) (w_store w') ∧ w_now w' = w_now w.

Lemma outside_quiet p w w' : bl_inv (w_store w) → same_data w w' → outside_kept p w w'.
Proof. intros Hi [Es _ _ En]. unfold outside_kept. by rewrite Es. Qed.

Lemma outside_trans p w w1 w2 : outside_kept p w w1 → outside_kept p w1 w2 → outside_kept p w w2.
Proof. intros (? & ? & ?) (? & ? & ?). split_and!; [done|by etrans|congruence]. Qed.

(** A step that only reads and reports. *)
Lemma wp_quiet {A B} (m : M W A) (k : A → M W B) p (Q : B → W → Prop) w0 w :
  outside_kept p w0 w → frames same_data m →
  (∀ a w', m w = (Ok a, w') → outside_kept p w0 w' → w_store w' = w_store w → wp (k a) Q (λ _, outside_kept p w0) w') →
  wp (bind m k) Q (λ _, outside_kept p w0) w.
Proof.
  intros Ho Hm Hk. apply wp_bind. unfold wp at 1. specialize (Hm w).
  assert (Hw : ∀ w', same_data w w' → outside_kept p w0 w').
  { intros w' Hd. eapply outside_trans; [done|]. apply outside_quiet; [apply Ho|done]. }
  destruct (m w) as [[a|e] w'] eqn:E; cbn in Hm; [|by apply Hw].
  apply Hk; [done|by apply Hw|apply Hm].
Qed.

(** Writing the parts under a conflict handler. *)
Lemma wp_store_bundle path parts id w0 w :
  mime_text → Forall part_text parts → names_ok (map part_name parts) → key_ok (store_path path) →
  utf8_valid id = true → outside_kept (store_path path) w0 w →
  wp (catch (write_store_bundle (store_path path) parts id;;; ret None) (λ e,
        match e with
        | BundlePathConflictError p k => Some (ret (Some (build_bundle_conflict_response p k)))
        | _ => None
        end))
    (λ r w', outside_kept (store_path path) w0 w' ∧
       match r with Some rsp => rsp_status rsp = 409%Z | None => uploaded path parts w0 w' end)
    (λ _, outside_kept (store_path path) w0) w.
Proof.
  intros Hmt Ht Hok Hp Hid Ho. pose proof Ho as (Hi & _ & En). apply wp_catch, wp_bind. unfold write_store_bundle.
  eapply wp_mono; [| |apply (wp_write_bundle (store_path path) parts JNull _ id w); done].
  - intros meta w' (Hi' & Hout & En' & recs & -> & Hr & Hs). apply wp_ret. split.
    + by eapply outside_trans.
    + exists id, recs. rewrite <- En. by split.
  - intros e w' (Hi' & Hsame & En' & _).
    assert (outside_kept (store_path path) w0 w').
    { eapply outside_trans; [done|]. split; [done|]. split; [by apply same_reads_weaken|done]. }
    by destruct e.
Qed.

Lemma wp_upload_file rq path w :
  mime_text → uuid_text → bl_inv (w_store w) →
  Forall part_text (request_parts rq path) → names_ok (map part_name (request_parts rq path)) →
  wp (upload_file rq path)
    (λ rsp w', outside_kept (store_path path) w w' ∧
       (rsp_status rsp = 409%Z ∨ uploaded path (request_parts rq path) w w'))
    (λ _, outside_kept (store_path path) w) w.
Proof.
  intros Hmt Hu Hi Ht Hok. set (p := store_path path).
  assert (Ho : outside_kept p w w) by by apply outside_quiet.
  unfold upload_file. eapply wp_quiet; [exact Ho|apply frames_current_identity|]. intros identity w1 _ Ho1 _.
  eapply wp_quiet; [exact Ho1|apply frames_validate_or_400|]. intros [] w2 Hv%validate_or_400_Ok Ho2 _.
  apply store_path_ok in Hv. fold p in Hv.
  destruct (find_first _ RESERVED_PREFIXES); [exact Ho2|].
  eapply wp_quiet; [exact Ho2|apply frames_enforce|]. intros [] w3 _ Ho3 _.
  eapply wp_quiet; [exact Ho3|apply frames_parts_of|]. intros parts w4 ->%parts_of_Ok Ho4 _.
  destruct (is_multipart rq && _); [exact Ho4|]. cbv zeta.
  eapply wp_quiet; [exact Ho4|apply frames_evaluate|]. intros [] w5 _ Ho5 _.
  eapply wp_quiet; [exact Ho5|apply frames_try_read_meta|]. intros existing w6 _ Ho6 _. fold p.
  apply wp_bind.
  apply (wp_mono (when (match existing with Some _ => true | None => false end) (delete_bundle_quiet p))
    (λ _ w', outside_kept p w w') _ (λ _ _, False)); [|done|].
  2:{ apply wp_when; [|done]. intros _. apply wp_delete_quiet; [apply Ho6|done|]. intros s Hs _ Hout.
      eapply outside_trans; [exact Ho6|]. by split_and!. }
  intros [] w7 Ho7.
  eapply wp_quiet; [exact Ho7|apply frames_bundle_id|]. intros id w8 Hid Ho8 _.
  apply bundle_id_text in Hid; [|done].
  apply wp_bind. eapply wp_mono; [| |by apply (wp_store_bundle path (request_parts rq path) id w w8)]; [|done].
  intros [rsp|] w9 [Ho9 Hr].
  - apply wp_ret. split; [done|]. by left.
  - destruct existing; (eapply wp_quiet; [exact Ho9|apply frames_safe_emit|]); intros [] w10 _ Ho10 Es10;
      (eapply wp_quiet; [exact Ho10|apply frames_safe_emit|]); intros [] w11 _ Ho11 Es11;
      apply wp_ret; (split; [done|]); right; unfold uploaded; rewrite Es11, Es10; exact Hr.
Qed.

(** Reads change nothing, so their results decide what is stored. *)
Lemma stored_reads p meta files s :
  (sb_read_bundle_meta p s).1 = Ok meta →
  (∀ n d, (n, d) ∈ files → (sb_open_bundle_file_read p n s).1 = Ok d) → stored s p meta files.
Proof.
  intros Em Ef. split.
  - pose proof (sr_meta p s) as Hp. destruct (sb_read_bundle_meta p s) as [r s2]. cbn in *. by subst.
  - intros n d Hin. specialize (Ef n d Hin). pose proof (sr_file p n s) as Hp.
    destruct (sb_open_bundle_file_read p n s) as [r s2]. cbn in *. by subst.
Qed.

(** A stored bundle is stored in every state with the same reads of it. *)
Lemma stored_same p meta files s s' :
  (∀ n, n ∈ files.*1 → key_ok n) → same_bundle p s s' → stored s p meta files → stored s' p meta files.
Proof.
  intros Hk [Em Ef] [Hm Hf]. apply stored_reads; [by rewrite Em, Hm|]. intros n d Hin.
  rewrite Ef, (Hf n d Hin); [done|]. apply Hk, list_elem_of_fmap. by exists (n, d).
Qed.

Lemma parts_key_ok parts n : names_ok (map part_name parts) → n ∈ (parts_data parts).*1 → key_ok n.
Proof. intros (_ & Hok & _). rewrite parts_data_names. intros Hn. rewrite Forall_forall in Hok. by apply Hok. Qed.

Lemma wp_download_inline rq path id meta recs files w :
  validate_path path None = Ok tt → (get_current_identity rq w).1 = Ok id →
  ap_check app_access id ("files:" +:+ path) "read" = Ok true →
  stored (w_store w) (store_path path) meta files → manifest_of meta recs files → fresh w meta →
  evaluate_download app_limits id
    {| de_file_count := Z.of_nat (length files); de_total_size := sumZ (map (λ f, blen f.2) files) |}
    = Ok InlineDownload →
  wp (download_file rq path)
    (λ rsp w', rsp = json_response 200 (build_inline_envelope meta files)
       [("X-Cassetta-File-Count", pretty (Z.of_nat (length files)))] ∧ w_store w' = w_store w) (λ _ _, False) w.
Proof.
  intros Hv Hid Hacc Hs Hm Hf He. unfold download_file. apply wp_bind. eapply wp_identity; [done|].
  intros w1 [Es _ _ En]. rewrite <- Es in Hs. assert (Hf1 : fresh w1 meta) by (unfold fresh in *; by rewrite En).
  apply wp_bind. unfold wp at 1, validate_or_400, catch, of_res. rewrite Hv.
  apply wp_bind. unfold wp at 1. rewrite enforce_allowed by done. cbv zeta.
  apply wp_bind. unfold wp at 1. rewrite live_meta_stored by done.
  apply wp_bind. unfold wp at 1. rewrite (download_mode_manifest id InlineDownload w1 Hm He).
  apply wp_bind, wp_safe_emit. intros evs. apply wp_bind. unfold wp at 1.
  rewrite (collect_stored (p := store_path path) (meta := meta) (files := files)) by done.
  apply wp_bind, wp_safe_emit. intros evs'. by apply wp_ret.
Qed.

(** ** Lemmas: picking *)

Lemma wp_pick_inline rq agent path id meta recs files w :
  path ≠ "latest" → bl_inv (w_store w) → key_ok (inbox_path agent path) →
  (get_current_identity rq w).1 = Ok id → ap_check app_access id ("inbox:" +:+ agent) "pick" = Ok true →
  stored (w_store w) (inbox_path agent path) meta files → manifest_of meta recs files → fresh w meta →
  evaluate_download app_limits id
    {| de_file_count := Z.of_nat (length files); de_total_size := sumZ (map (λ f, blen f.2) files) |}
    = Ok InlineDownload →
  wp (pick_inbox_file rq agent path)
    (λ rsp w', rsp_status rsp = 200%Z ∧ rsp_body rsp = build_inline_envelope meta files ∧
       bl_inv (w_store w') ∧ absent (w_store w') (inbox_path agent path) ∧
       same_reads_outside (inbox_path agent path) (w_store w) (w_store w')) (λ _ _, False) w.
Proof.
  intros Hl Hi Hp Hid Hacc Hs Hm Hf He. unfold pick_inbox_file. apply wp_bind. eapply wp_identity; [done|].
  intros w1 [Es _ _ En]. rewrite <- Es in Hs, Hi |- *. assert (Hf1 : fresh w1 meta) by (unfold fresh in *; by rewrite En).
  apply wp_bind. unfold wp at 1. rewrite enforce_allowed by done.
  apply wp_bind, wp_safe_emit. intros evs. apply wp_bind. unfold pick_target. rewrite decide_False by done.
  cbv zeta. apply wp_bind. unfold wp at 1. rewrite live_meta_stored by done. apply wp_ret.
  apply wp_bind. unfold wp at 1. rewrite (download_mode_manifest id InlineDownload _ Hm He). cbv zeta.
  apply wp_bind. unfold wp at 1.
  rewrite (collect_stored (p := inbox_path agent path) (meta := meta) (files := files)) by done.
  apply wp_bind. apply wp_delete_quiet; [done..|]. intros s Hs' Ha Hout. by apply wp_ret.
Qed.

(** A read of a path without a bundle answers 404 and deletes nothing. *)
Lemma wp_pick_absent rq agent path id w :
  path ≠ "latest" → (get_current_identity rq w).1 = Ok id →
  ap_check app_access id ("inbox:" +:+ agent) "pick" = Ok true → absent (w_store w) (inbox_path agent path) →
  wp (pick_inbox_file rq agent path) (λ _ _, False)
    (λ e w', e = HTTPException 404 (DText ("File not found: " +:+ path)) ∧ w_store w' = w_store w) w.
Proof.
  intros Hl Hid Hacc Ha. unfold pick_inbox_file. apply wp_bind. eapply wp_identity; [done|].
  intros w1 [Es _ _ En]. rewrite <- Es in Ha |- *.
  apply wp_bind. unfold wp at 1. rewrite enforce_allowed by done.
  apply wp_bind, wp_safe_emit. intros evs. apply wp_bind. unfold pick_target. rewrite decide_False by done.
  cbv zeta. apply wp_bind. unfold live_meta. apply wp_bind. unfold wp at 1. by rewrite try_read_meta_absent.
Qed.
End flows.

(** ** Properties *)

(** C9: a write to the store round-trips: an upload that was not refused as a
    conflict changes no bundle above, below or beside its path, and as long
    as the bundle is not changed and not past its lifetime, a read of the same
    path, by a caller whom the policies let read inline, answers 200 with
    exactly the uploaded names and bytes, in their order, and changes
    nothing. *)
Theorem put_then_get {S C K} `{StorageReads S, !BundleLaws S, ClaimReads C, KeyReads K, !App K, PyJwt}
    rq rq' path rsp id (w w1 w2 : World S C K) :
  let parts := request_parts rq path in
  mime_text → uuid_text → bl_inv (w_store w) → Forall part_text parts → names_ok (map part_name parts) →
  upload_file rq path w = (Ok rsp, w1) → rsp_status rsp ≠ 409%Z →
  same_bundle (store_path path) (w_store w1) (w_store w2) → representable (w_now w) →
  (cf_default_ttl app_config <= 0 ∨ w_now w2 - w_now w <= cf_default_ttl app_config * 1000000)%Z →
  validate_path path None = Ok tt → (get_current_identity rq' w2).1 = Ok id →
  ap_check app_access id ("files:" +:+ path) "read" = Ok true →
  evaluate_download app_limits id {| de_file_count := Z.of_nat (length parts); de_total_size := parts_size parts |}
    = Ok InlineDownload →
  same_reads_outside (store_path path) (w_store w) (w_store w1) ∧
  ∃ meta hdr w3, download_file rq' path w2
      = (Ok (json_response 200 (build_inline_envelope meta (parts_data parts)) hdr), w3)
    ∧ w_store w3 = w_store w2.
Proof.
  intros parts Hmt Hu Hi Ht Hok Eput Hst Hsame Hnow Hage Hv Hid Hacc He.
  pose proof (wp_elim _ _ _ _ _ _ (wp_upload_file rq path w Hmt Hu Hi Ht Hok) Eput)
    as ((_ & Hout & _) & [?|(bid & recs & Hr & Hs)]); [done|].
  split; [done|]. apply (stored_same _ _ _ _ (w_store w2)) in Hs; [|by intros; eapply parts_key_ok|done].
  pose proof (wp_download_inline rq' path id _ recs (parts_data parts) w2 Hv Hid Hacc Hs) as Hd.
  rewrite parts_data_length, parts_data_size in Hd.
  specialize (Hd (bundle_meta_manifest _ _ _ _ _ _ Hr) (fresh_written _ _ _ _ _ _ Hnow Hage) He).
  unfold wp in Hd. destruct (download_file rq' path w2) as [[r|e] w3]; [|done]. destruct Hd as [-> Ew].
  by eexists _, _, w3.
Qed.

#[local] Existing Instances Demo.storage Demo.claims Demo.keys ToyJwt demo_bundle_laws.
#[local] Instance open_server : App KeyStore := Demo.core true.

Definition demo_put := upload_file (Demo.request "hello") "a.txt" (Demo.world 0).

Lemma demo_uuid_text (b : bool) : @uuid_text KeyStore (Demo.core b).
Proof. intros n. apply pad_ascii. Qed.

Lemma put_then_get_witness :
  (∃ rsp, demo_put.1 = Ok rsp ∧ rsp_status rsp = 201%Z) ∧
  ∃ meta hdr w3, download_file (Demo.request "") "a.txt" demo_put.2
    = (Ok (json_response 200 (build_inline_envelope meta [("a.txt", "hello")]) hdr), w3).
Proof.
  split; [eexists; split; vm_compute; reflexivity|].
  destruct (put_then_get (Demo.request "hello") (Demo.request "") "a.txt"
    (json_response 201 (JDict [("path", JStr "a.txt"); ("size", JInt 5)]) []) dev_identity
    (Demo.world 0) demo_put.2 demo_put.2) as [_ (meta & hdr & w3 & E & _)].
  - intros n m [=].
  - exact (demo_uuid_text true).
  - exact fs_init_wf.
  - repeat constructor. intros m [=].
  - apply names_okb_sound. vm_compute. reflexivity.
  - vm_compute. reflexivity.
  - intros [=].
  - reflexivity.
  - unfold representable. split; vm_compute; congruence.
  - left. vm_compute. congruence.
  - vm_compute. reflexivity.
  - reflexivity.
  - reflexivity.
  - reflexivity.
  - exists meta, hdr, w3. exact E.
Defined.

(** C13: an inline pick hands a bundle over exactly once: it answers 200 with
    the names and bytes that were stored and leaves every bundle beside it as
    it was, and after it every further pick of the path, in any state with the
    same store, answers 404 and changes no bundle. *)
Theorem pick_consumes_once {S C K} `{StorageReads S, !BundleLaws S, ClaimReads C, KeyReads K, !App K, PyJwt}
    rq agent path id meta recs files (w : World S C K) :
  let p := inbox_path agent path in
  path ≠ "latest" → bl_inv (w_store w) → key_ok p →
  (get_current_identity rq w).1 = Ok id → ap_check app_access id ("inbox:" +:+ agent) "pick" = Ok true →
  stored (w_store w) p meta files → manifest_of meta recs files → fresh w meta →
  evaluate_download app_limits id
    {| de_file_count := Z.of_nat (length files); de_total_size := sumZ (map (λ f, blen f.2) files) |}
    = Ok InlineDownload →
  ∃ rsp w1, pick_inbox_file rq agent path w = (Ok rsp, w1) ∧
    rsp_status rsp = 200%Z ∧ rsp_body rsp = build_inline_envelope meta files ∧
    same_reads_outside p (w_store w) (w_store w1) ∧
    ∀ rq' id' (w2 : World S C K), w_store w2 = w_store w1 → (get_current_identity rq' w2).1 = Ok id' →
      ap_check app_access id' ("inbox:" +:+ agent) "pick" = Ok true →
      ∃ w3, pick_inbox_file rq' agent path w2
          = (Raise (HTTPException 404 (DText ("File not found: " +:+ path))), w3)
        ∧ w_store w3 = w_store w2.
Proof.
  intros p Hl Hi Hp Hid Hacc Hs Hm Hf He.
  pose proof (wp_pick_inline rq agent path id meta recs files w Hl Hi Hp Hid Hacc Hs Hm Hf He) as Hw.
  unfold wp in Hw. destruct (pick_inbox_file rq agent path w) as [[rsp|e] w1]; [|done].
  destruct Hw as (? & ? & _ & Ha & ?). exists rsp, w1. split_and!; [done..|].
  intros rq' id' w2 Es Hid' Hacc'. rewrite <- Es in Ha.
  pose proof (wp_pick_absent rq' agent path id' w2 Hl Hid' Hacc' Ha) as Hw.
  unfold wp in Hw. destruct (pick_inbox_file rq' agent path w2) as [[r|e] w3]; [done|].
  destruct Hw as [-> ?]. by exists w3.
Qed.

(** A message for [bob] of two files, one of them not text. *)
Definition demo_parts : list (str * bytes * option str) :=
  [("a.txt", "hello", None); ("sub/b", String "255" "", None)].
Definition demo_records : list json :=
  map (λ f, file_record (part_name f) (blen (part_data f)) "text/plain") demo_parts.
Definition demo_message : dict := bundle_meta "id" (JStr "alice") 0 "bundle" demo_records.
Definition demo_tree : Fs :=
  (store_bundle [] "inbox/bob/m1" (parts_data demo_parts) demo_message fs_init).2.
Definition demo_inbox : World Fs ClaimDir KeyStore := set_store demo_tree (Demo.world 0).

Lemma demo_parts_records : Forall2 record_of demo_parts demo_records.
Proof. repeat constructor; by eexists. Qed.

Lemma demo_inbox_stored : stored (w_store demo_inbox) "inbox/bob/m1" demo_message (parts_data demo_parts).
Proof.
  apply stored_reads; [vm_compute; reflexivity|]. intros n d Hin.
  repeat (apply elem_of_cons in Hin as [[= -> ->]|Hin]; [vm_compute; reflexivity|]).
  by apply not_elem_of_nil in Hin.
Qed.

Lemma pick_consumes_once_witness :
  ∃ rsp w1, pick_inbox_file (Demo.request "") "bob" "m1" demo_inbox = (Ok rsp, w1) ∧
    rsp_body rsp = build_inline_envelope demo_message (parts_data demo_parts) ∧
    ∃ w3, pick_inbox_file (Demo.request "") "bob" "m1" w1
      = (Raise (HTTPException 404 (DText "File not found: m1")), w3).
Proof.
  destruct (pick_consumes_once (Demo.request "") "bob" "m1" dev_identity demo_message demo_records
    (parts_data demo_parts) demo_inbox) as (rsp & w1 & E & _ & Eb & _ & Hagain).
  - intros [=].
  - apply fs_wfb_sound. vm_compute. reflexivity.
  - apply key_okb_sound. vm_compute. reflexivity.
  - reflexivity.
  - reflexivity.
  - exact demo_inbox_stored.
  - apply bundle_meta_manifest. exact demo_parts_records.
  - reflexivity.
  - reflexivity.
  - exists rsp, w1. split; [exact E|]. split; [exact Eb|].
    destruct (Hagain (Demo.request "") dev_identity w1) as (w3 & E3 & _); [reflexivity|reflexivity|reflexivity|].
    exists w3. exact E3.
Defined.

(** C36: the metadata the writers produce always types: whatever the files, the
    clocks and the lifetime, both listings build an entry from it without an
    exception, with the sum of the sizes, the number of files, the records as
    written and a remaining lifetime that is never negative, and it is expired
    exactly when a positive lifetime is over. *)
Theorem written_metadata_lists files recs bundle_id sender now content_type now' path ttl :
  Forall2 record_of files recs → representable now →
  let meta := bundle_meta bundle_id sender now content_type recs in
  let remaining := if decide (ttl <= 0)%Z then JNull
    else JInt (Z.max (Z.quot (ttl * 1000000 - (now' - now)) 1000000) 0) in
  listing_entry now' path meta ttl = Ok
    [("path", JStr path); ("bundle_id", JStr bundle_id); ("size", JInt (parts_size files)); ("sender", sender);
     ("created_at", JStr (isoformat now)); ("remaining_ttl", remaining);
     ("file_count", JInt (Z.of_nat (length files))); ("schema_version", JInt 1); ("files", JList recs)] ∧
  file_entry now' path meta ttl = Ok
    [("path", JStr path); ("size", JInt (parts_size files)); ("created_at", JStr (isoformat now));
     ("remaining_ttl", remaining); ("file_count", JInt (Z.of_nat (length files)));
     ("bundle_id", JStr bundle_id); ("files", JList recs)] ∧
  is_expired_by_meta now' (get_str "created_at" "" meta) ttl
    = Ok ((0 <? ttl)%Z && (ttl * 1000000 <? now' - now)%Z).
Proof.
  intros Hr Hnow meta remaining.
  assert (Hl : map_res listed_file recs = Ok recs).
  { apply map_res_Ok. induction Hr as [|f r files recs (m & -> & _) Hr IH]; by constructor. }
  pose proof (bundle_meta_manifest bundle_id sender now content_type files recs Hr) as [_ _ Ht _].
  rewrite parts_data_size in Ht. pose proof (Forall2_length _ _ _ Hr) as Hlen.
  assert (Hc : created_epoch (isoformat now) = Ok now).
  { unfold created_epoch, iso_to_epoch. by rewrite fromisoformat_isoformat. }
  assert (Hrem : ∃ o, compute_remaining_ttl now' (isoformat now) ttl = Ok o ∧ opt_json JInt o = remaining).
  { unfold compute_remaining_ttl, remaining. case_decide; [by eexists|]. rewrite Hc. by eexists. }
  destruct Hrem as (o & Eo & <-). split_and!.
  - unfold listing_entry. change (get_list "files" meta) with (Ok recs : res (list json)). cbn [res_bind].
    rewrite Ht. cbn [res_bind]. change (get_str "created_at" "" meta) with (isoformat now). rewrite Eo. cbn [res_bind].
    rewrite Hl. cbn. by rewrite Hlen.
  - unfold file_entry. change (get_str "created_at" "" meta) with (isoformat now). rewrite Hc. cbn [res_bind].
    change (get_list "files" meta) with (Ok recs : res (list json)). cbn [res_bind]. rewrite Hl. cbn [res_bind].
    rewrite Ht. cbn [res_bind]. rewrite Eo. cbn. by rewrite Hlen.
  - unfold is_expired_by_meta. change (get_str "created_at" "" meta) with (isoformat now).
    destruct (decide (ttl <= 0)%Z) as [Hz|Hz].
    + by rewrite (proj2 (Z.ltb_ge _ _)).
    + rewrite Hc. cbn. by rewrite (proj2 (Z.ltb_lt 0 ttl)) by lia.
Qed.

Lemma written_metadata_lists_witness :
  Forall2 record_of demo_parts demo_records ∧
  is_expired_by_meta 7000001 (get_str "created_at" "" demo_message) 7 = Ok true ∧
  ∃ e, listing_entry 7000001 "m1" demo_message 7 = Ok e.
Proof.
  split; [exact demo_parts_records|].
  destruct (written_metadata_lists demo_parts demo_records "id" (JStr "alice") 0 "bundle" 7000001 "m1" 7)
    as (E & _ & Ex).
  - exact demo_parts_records.
  - unfold representable. split; vm_compute; congruence.
  - split; [exact Ex|]. eexists. exact E.
Defined.

(** A path in the configured characters can be written, and the routes that
    read and delete check it against the default characters only. *)
Example wider_charset_is_write_only :
  validate_path "a b" (Some "a-z ") = Ok tt ∧
  validate_path "a b" None = Raise (path_error "Path contains disallowed characters: ' '").
Proof. split; vm_compute; reflexivity. Qed.

(** A manifest may declare a file that reads as the manifest of a bundle of its
    own, with whatever sender it names. *)
Example nested_manifest_spoofs_bundle :
  let forged := [("sender", JStr "boss")] in
  let name := "x/meta.json" in
  let data := json_dumps (JDict forged) in
  validate_manifest {| um_file_count := 1; um_files := [{| mf_name := name; mf_size := blen data; mf_mime := None |}] |}
    = Ok tt ∧
  let fs := (store_bundle [] "inbox/bob/m1" [(name, data)]
    (bundle_meta "id" (JStr "alice") 0 "file" [file_record name (blen data) "text/plain"]) fs_init).2 in
  (read_bundle_meta [] "inbox/bob/m1" fs).1
    = Ok (bundle_meta "id" (JStr "alice") 0 "file" [file_record name (blen data) "text/plain"]) ∧
  (read_bundle_meta [] "inbox/bob/m1/x" fs).1 = Ok forged.
Proof. cbv zeta. split_and!; vm_compute; reflexivity. Qed.

(** *** Paths and names that leave their place *)

(** The demo server with a bundle at [store/a] beside the one in bob's inbox. *)
Definition two_bundles : Demo.World :=
  set_store (store_bundle [] "store/a" demo_files demo_meta demo_fs).2 (Demo.world 0).
Definition reads_in (w : Demo.World) (p : str) : res dict := (read_bundle_meta [] p (w_store w)).1.
Definition multipart (names : list (str * bytes)) : HttpRequest :=
  let rq := Demo.request "" in
  {| rq_x_setup_token := rq_x_setup_token rq; rq_credentials := rq_credentials rq;
     rq_authorization := rq_authorization rq; rq_x_sender := rq_x_sender rq;
     rq_raw_path := rq_raw_path rq; rq_content_type := "multipart/form-data";
     rq_content_encoding := rq_content_encoding rq; rq_body := []; rq_body_error := None;
     rq_form := map (λ nd, {| fi_filename := Some nd.1; fi_content_type := None; fi_data := nd.2 |}) names;
     rq_client := rq_client rq |}.

(** [agent] and [path] are joined into the bundle path unchecked: a request on
    bob's inbox deletes a bundle of the store. *)
Example inbox_path_leaves_inbox :
  let run := delete_inbox_file (Demo.request "") "bob" "../../store/a" two_bundles in
  reads_in two_bundles "store/a" = Ok demo_meta ∧ run.1 = Ok no_content ∧
  is_dir (w_store run.2) ["data"; "store"; "a"] = false.
Proof. split_and!; vm_compute; reflexivity. Qed.

(** The path [.] is valid, and is the store itself. *)
Example dot_deletes_the_store :
  let run := delete_file (Demo.request "") "." two_bundles in
  validate_path "." None = Ok tt ∧ rsp_status <$> (match run.1 with Ok r => Some r | _ => None end) = Some 200%Z ∧
  is_dir (w_store run.2) ["data"; "store"] = false.
Proof. split_and!; vm_compute; reflexivity. Qed.

(** File names of a form are not checked either: a part of [store/b] becomes
    the manifest of a bundle that nobody wrote. *)
Example form_name_leaves_bundle :
  let forged := [("sender", JStr "boss")] in
  let rq := multipart [("../../inbox/bob/x/meta.json", json_dumps (JDict forged))] in
  let run := upload_file rq "b" two_bundles in
  rsp_status <$> (match run.1 with Ok r => Some r | _ => None end) = Some 201%Z ∧
  reads_in run.2 "inbox/bob/x" = Ok forged.
Proof. split; vm_compute; reflexivity. Qed.

(** An overwrite deletes first: when the new files cannot be written, here for
    a repeated name, neither bundle is left. *)
Example failed_overwrite_loses_both :
  let run := upload_file (multipart [("f", "1"); ("f", "2")]) "a" two_bundles in
  reads_in two_bundles "store/a" = Ok demo_meta ∧
  (∃ e, run.1 = Raise e) ∧ is_dir (w_store run.2) ["data"; "store"; "a"] = false.
Proof. split_and!; [|eexists|]; vm_compute; reflexivity. Qed.
