(* ===== verification/SendInit.v ===== *)
(** * The first phase of a directed send

    [send_init.py] and [routes/uploads.py]: manifest parsing, the checks in
    their order, and the upload credential; the REST route on top of it. *)

From Stdlib Require Import Ascii String.
From stdpp Require Import pretty.
From S2P Require Import Prelude PyStr PyCodec Json DateTime Effects PyNum Paths Limits Config.
From S2P Require Import Claims KeyStore Jwt FsModel Storage World Downloads Inbox Files.
Local Open Scope string_scope.
Local Open Scope list_scope.
Local Open Scope effect_scope.

(** ** Data *)

(** [SendManifest] and [SendManifestFile] of [models.py]. *)
Record SendManifestFile := { sf_name : str; sf_size : Z; sf_mime : option str }.
Record SendManifest := { sm_files : list SendManifestFile; sm_file_count : option Z }.

(** [manifest.model_dump(exclude_none=True)]. *)
Definition dump_file (f : SendManifestFile) : json :=
  JDict ([("name", JStr (sf_name f)); ("size", JInt (sf_size f))]
         ++ match sf_mime f with Some m => [("mime", JStr m)] | None => [] end).
Definition model_dump (m : SendManifest) : dict :=
  [("files", JList (map dump_file (sm_files m)))]
  ++ match sm_file_count m with Some n => [("file_count", JInt n)] | None => [] end.

(** [SendInitResult]; [None] is the absent URL of the inline mode. *)
Inductive send_mode := SendInline | SendBatch.
Record SendInitResult := {
  sr_bundle_id : str;
  sr_mode : send_mode;
  sr_token : str;
  sr_expires_at : str;
  sr_upload_url : option str;
}.

Definition mode_name (m : send_mode) : str :=
  match m with SendInline => "inline" | SendBatch => "batch" end.

(** ** [_manifest_from_input] *)

Definition malformed_manifest (name : str) : exn := fail "malformed" name.

(** [int(x)] under [except (TypeError, ValueError)]. *)
Definition int_or_malformed (name : str) (j : json) : res Z :=
  match py_int j with
  | Ok z => Ok z
  | Raise e =>
      if is_ValueError e || is_TypeError e
      then Raise (malformed_manifest name) else Raise e
  end.

Definition entry_from_input (f : json) : res ManifestFile :=
  match f with
  | JDict d =>
      let name := get_str "name" "" d in
      size <-? int_or_malformed name (default (JInt 0) (dict_get "size" d));;
      Ok {| mf_name := name; mf_size := size;
            mf_mime := match dict_get "mime" d with
                       | Some JNull | None => None
                       | Some m => Some (py_str m)
                       end |}
  | _ => Raise (malformed_manifest "")
  end.

Definition manifest_from_input (raw : dict) : res UploadManifest :=
  match default (JList []) (dict_get "files" raw) with
  | JList files_raw =>
      entries <-? map_res entry_from_input files_raw;;
      let n := Z.of_nat (length entries) in
      file_count <-? int_or_malformed "" (default (JInt n) (dict_get "file_count" raw));;
      if decide (file_count = n) then Ok {| um_file_count := file_count; um_files := entries |}
      else Raise (malformed_manifest "")
  | _ => Raise (malformed_manifest "")
  end.

(** [_recipient_of]. *)
Definition recipient_of (target : str) : str :=
  rstrip "/" (removeprefix "inbox/" (rstrip "/" target)).

(** The manifest as it travels in the credential. *)
Definition manifest_json (m : UploadManifest) : json :=
  JDict [("file_count", JInt (um_file_count m));
         ("files", JList (map (λ f, file_record (mf_name f) (mf_size f) (default "" (mf_mime f)))
                            (um_files m)))].

Section send_init.
Context {S C K : Type} `{StorageBackend S} `{ClaimStorage C} `{KeyStoreProtocol K}
  `{App K} `{PyJwt}.
Abbreviation W := (World S C K).

(** [_enrich_manifest_mimes]. *)
Definition enrich_entry (entry : ManifestFile) : M W ManifestFile :=
  mime <- pick_mime (mf_name entry) (mf_mime entry);;
  ret {| mf_name := mf_name entry; mf_size := mf_size entry; mf_mime := Some mime |}.
Definition enrich_manifest_mimes (manifest : UploadManifest) : M W UploadManifest :=
  files <- map_m enrich_entry (um_files manifest);;
  ret {| um_file_count := um_file_count manifest; um_files := files |}.

Definition manifest_error {A} (msg : str) : M W A := raise (ValueError ManifestError msg).

(** Step 1. *)
Definition parse_manifest (manifest : SendManifest) : M W UploadManifest :=
  catch (
    parsed <- of_res (manifest_from_input (model_dump manifest));;
    of_res (validate_manifest parsed);;;
    ret parsed)
  (λ e, match e with ValueError _ msg => Some (manifest_error msg) | _ => None end).

(** Step 2. *)
Definition check_leaf_path (path : str) : M W unit :=
  catch (of_res (validate_path path (Some (cf_allowed_path_chars app_config)))) (λ e,
    if is_PathValidationError e
    then Some (manifest_error ("invalid_manifest: reason=invalid_char, name=" +:+ repr path))
    else None).

(** Step 3: [targets[0]] after the sender's own inbox is removed from a
    multicast. *)
Definition choose_target (targets : list str) (sender_label : option str) : res str :=
  let targets :=
    match sender_label with
    | Some label =>
        if (1 <? length targets)%nat
        then filter (λ t, endswith label (rstrip "/" t) = false) targets else targets
    | None => targets
    end in
  match targets with
  | t :: _ => Ok (recipient_of t)
  | [] => Raise (OtherError "IndexError")
  end.

Definition resolve_recipient (alias_resolver : option (AliasResolver K)) (to : str)
    (sender_label : option str) : M W str :=
  match alias_resolver with
  | None => ret to
  | Some resolver =>
      resolved <- on_keys (ar_resolve resolver to sender_label);;
      match resolved with
      | None =>
          if has_char ":" to
          then raise (ValueError UnknownRecipientError ("unknown_recipient: name=" +:+ repr to))
          else ret to
      | Some r => of_res (choose_target (inbox_targets r) sender_label)
      end
  end.

(** Step 4. *)
Definition check_access (identity : Identity) (recipient : str) : M W unit :=
  allowed <- check_policy identity (INBOX_NAMESPACE +:+ ":" +:+ recipient) "write";;
  if allowed : bool then ret tt else raise (ValueError AccessDenied "Forbidden").

(** Step 5. *)
Definition decide_mode (identity : Identity) (manifest : UploadManifest) (allow_inline : bool)
    : M W send_mode :=
  decision <- of_res (evaluate_upload app_limits identity manifest);;
  match decision with
  | Rejected error constraint limit observed =>
      reject_limits error constraint limit observed
        (rejection_context constraint observed (um_files manifest))
  | Accepted Inline => ret (if allow_inline then SendInline else SendBatch)
  | Accepted Batch => ret SendBatch
  | Accepted (OtherUploadMode text) =>
      value_error ("policy returned unexpected mode: " +:+ text)
  end.

Definition upload_claims (bundle_path bundle_id sender recipient : str) (mode : send_mode)
    (manifest : UploadManifest) (now ttl : Z) : dict :=
  [("bundle_path", JStr bundle_path); ("bundle_id", JStr bundle_id); ("sender", JStr sender);
   ("recipient", JStr recipient); ("mode", JStr (mode_name mode)); ("manifest", manifest_json manifest);
   ("iat", JInt now); ("nbf", JInt now); ("exp", JInt (now + ttl))].

(** [sender_label or identity.label]. *)
Definition sender_or_label (sender_label : option str) (identity : Identity) : str :=
  match sender_label with
  | Some s => if decide (s = "") then id_label identity else s
  | None => id_label identity
  end.

(** [prepare_send_init], with the configuration's primary key as the signing
    key, which is what both callers pass. *)
Definition prepare_send_init (to path : str) (manifest : SendManifest) (identity : Identity)
    (sender_label : option str) (alias_resolver : option (AliasResolver K)) (allow_inline : bool)
    : M W SendInitResult :=
  parsed <- parse_manifest manifest;;
  check_leaf_path path;;;
  recipient <- resolve_recipient alias_resolver to sender_label;;
  check_access identity recipient;;;
  mode <- decide_mode identity parsed allow_inline;;
  enriched <- enrich_manifest_mimes parsed;;
  bundle_id <- new_uuid;;
  w <- get;;
  let bundle_path := inbox_path recipient path in
  let now := now_seconds w in
  let ttl := ttl_upload_token (ttls app_limits identity) in
  let claims := upload_claims bundle_path bundle_id (sender_or_label sender_label identity)
                  recipient mode enriched now ttl in
  fresh <- new_uuid;;
  let token := sign fresh claims (cf_jwt_primary_key app_config) in
  struct_log INFO "upload_init";;;
  count_inbox "send";;;
  ret {| sr_bundle_id := bundle_id; sr_mode := mode; sr_token := token;
         sr_expires_at := iso_z (now + ttl);
         sr_upload_url :=
           match mode with
           | SendInline => None
           | SendBatch => Some (rstrip "/" (cf_public_base_url app_config) +:+ "/upload/"
                                +:+ quote bundle_path)
           end |}.

(** ** [routes/uploads.py] *)

Definition create_upload_session (rq : HttpRequest) (to path : str) (manifest : SendManifest)
    : M W Response :=
  identity <- get_current_identity rq;;
  result <- catch
    (prepare_send_init to path manifest identity (Some (id_label identity)) (Some app_alias) false)
    (λ e, match e with
     | ValueError ManifestError msg => Some (http_error 422 msg)
     | ValueError UnknownRecipientError msg => Some (http_error 404 msg)
     | ValueError AccessDenied msg => Some (http_error 403 msg)
     | _ => None
     end);;
  match sr_upload_url result with
  | None => raise AssertionError
  | Some upload_url =>
      ret (json_response 201
        (JDict [("mode", JStr "batch"); ("bundle_id", JStr (sr_bundle_id result));
                ("upload_url", JStr upload_url); ("batch_token", JStr (sr_token result));
                ("expires_at", JStr (sr_expires_at result))]) [])
  end.
End send_init.
