(* ===== verification/Upload.v ===== *)
(** * The byte upload

    [routes/upload.py]: the upload handler with its rollbacks.  The [tarfile] module (with gzip) is the argument [tar_open]:
    the entries an archive yields, in order, and the exception that ends the
    iteration, if any.  The archive reader sees the body through the stream
    reader of [Streaming], which is the concatenation of the chunks. *)

From Stdlib Require Import Ascii String.
From stdpp Require Import pretty.
From S2P Require Import Prelude PyStr PyCodec Json DateTime Effects PyNum Paths Limits Config.
From S2P Require Import Claims KeyStore Jwt FsModel Storage World Downloads Inbox Files SendInit.
Local Open Scope string_scope.
Local Open Scope list_scope.
Local Open Scope effect_scope.

(** ** [routes/upload.py] *)

Definition extract_bearer_token (authorization : str) : option str :=
  if startswith "bearer " (lower authorization) then
    match split1 " " authorization with Some (_, t) => Some (strip t) | None => None end
  else None.

Definition reject_unauth (reason : str) : exn :=
  HTTPException 401 (DDict [("error", "unauthenticated"); ("reason", reason)]).

Definition upload_jwt_error (e : token_error) : exn :=
  match e with
  | TokenExpired => reject_unauth "expired"
  | TokenNotYetValid => reject_unauth "immature"
  | TokenInvalidSignature => reject_unauth "bad_signature"
  | TokenMissingClaim claim =>
      HTTPException 401 (DDict [("error", "unauthenticated"); ("reason", "missing_claim"); ("claim", claim)])
  | RevokedTokenError _ => reject_unauth "revoked"
  | TokenDecodeError => reject_unauth "invalid"
  end.

(** A [TarInfo] and the result of [tf.extractfile(info).read()]. *)
Record TarInfo := {
  ti_name : str;
  ti_size : Z;
  ti_isreg : bool;
  ti_data : res (option bytes);
}.

(** [by_name = {f["name"]: f for f in manifest_files}], by the declared size:
    the last entry of a name wins. *)
Definition declared_file (f : json) : res (str * dict) :=
  name <-? record_file_name f;; d <-? as_dict f;; Ok (name, d).
Definition by_name_of (manifest_files : list json) : res (gmap str dict) :=
  entries <-? map_res declared_file manifest_files;;
  Ok (foldl (λ m e, <[e.1 := e.2]> m) ∅ entries).

Section upload.
Context {S C K : Type} `{StorageBackend S} `{ClaimStorage C} `{KeyStoreProtocol K}
  `{App K} `{PyJwt}.
Abbreviation W := (World S C K).

(** [tarfile.open(fileobj=..., mode=...)]: gzip or not, the bytes. *)
Variable tar_open : bool → bytes → list (res TarInfo).

Definition extract_bearer (rq : HttpRequest) : M W str :=
  match extract_bearer_token (rq_authorization rq) with
  | Some t => ret t
  | None => raise (reject_unauth "missing_bearer")
  end.

Definition effective_per_file_max : Z :=
  default DEFAULT_PER_FILE_MAX (lc_per_file_max (cf_limits app_config)).

Definition violation {A} (reason name : str) : M W A := raise (ManifestViolation reason name).

(** One entry of the archive: the writer, the names seen, the bytes so far. *)
Definition tar_step (by_name : gmap str dict) (acc : sb_writer * gset str * Z) (entry : res TarInfo)
    : M W (sb_writer * gset str * Z) :=
  let '(writer, seen, bytes_total) := acc in
  info <- of_res entry;;
  let name := ti_name info in
  if negb (ti_isreg info) then violation "non_regular_entry" name
  else match by_name !! name with
  | None => violation "extra_file" name
  | Some declared =>
      declared_size <- of_res (get_int "size" 0 declared);;
      if negb (bool_decide (ti_size info = declared_size)) then violation "wrong_size" name
      else if decide (effective_per_file_max < ti_size info)%Z then
        raise (LimitsRejection cap_exceeded per_file_max (Some effective_per_file_max) (ti_size info)
          ("per_file_max: max_bytes=" +:+ pretty effective_per_file_max
           +:+ " actual_bytes=" +:+ pretty (ti_size info)))
      else
        src <- of_res (ti_data info);;
        match src with
        | None => violation "non_regular_entry" name
        | Some data =>
            if negb (bool_decide (blen data = declared_size)) then violation "wrong_size" name
            else
              '(writer, _) <- on_store (sb_write_file writer name (bytes_io data));;
              ret (writer, {[name]} ∪ seen, bytes_total + blen data)%Z
        end
  end.

(** [_stream_tar_into_writer]. *)
Definition stream_tar_into_writer (entries : list (res TarInfo)) (writer : sb_writer)
    (manifest_files : list json) : M W (sb_writer * Z) :=
  by_name <- of_res (by_name_of manifest_files);;
  '((writer, seen), bytes_total) <- fold_m (tar_step by_name) (writer, ∅, 0%Z) entries;;
  match sorted (elements (dom by_name ∖ seen)) with
  | first :: _ => violation "missing_file" first
  | [] => ret (writer, bytes_total)
  end.

Definition count_upload (result : str) : M W unit :=
  safe_emit None (Some (count_event "cassetta.upload.operations" "result" result)).

(** The [except] clauses around the streaming. *)
Definition upload_failed (writer : sb_writer) {A} (e : exn) : M W A :=
  on_store (sb_abort writer);;;
  match e with
  | ManifestViolation reason name =>
      struct_log WARNING "upload_manifest_violation";;;
      struct_log WARNING "upload_rollback";;;
      count_upload "rejected";;;
      safe_emit None (Some (count_event "cassetta.upload.manifest_violations" "reason" reason));;;
      raise (HTTPException 400
        (DDict [("error", "manifest_violation"); ("reason", reason); ("name", name)]))
  | TarError msg =>
      struct_log WARNING "upload_rollback";;;
      count_upload "error";;;
      raise (HTTPException 400 (DDict [("error", "tar_parse_error"); ("reason", msg)]))
  | _ =>
      struct_log WARNING "upload_rollback";;;
      count_upload "error";;;
      raise e
  end.

(** [claims.get("manifest") or {}] and its files. *)
Definition manifest_files_of (claims : dict) : res (list json) :=
  match dict_get "manifest" claims with
  | Some m => if py_truthy m then d <-? as_dict m;; get_list "files" d else Ok []
  | None => Ok []
  end.

Definition uploaded_meta (bundle_id : str) (sender : json) (now : Z) (manifest_files : list json) : dict :=
  bundle_meta bundle_id sender now
    (if (1 <? length manifest_files)%nat then "bundle" else "file") manifest_files.

Definition conflict_409 {A} (kind : str) : M W A :=
  raise (HTTPException 409 (DDict [("error", "bundle_path_conflict"); ("kind", kind)])).

(** The claims of the credential, checked against the request. *)
Definition upload_claims_of (rq : HttpRequest) (bundle_path : str) : M W (dict * str) :=
  token <- extract_bearer rq;;
  claims <- catch (verify_token token) (λ e,
    match e with TokenError t => Some (raise (upload_jwt_error t)) | _ => None end);;
  if negb (get_is "mode" "batch" claims)
  then raise (HTTPException 422 (DDict [("error", "unauthenticated"); ("reason", "wrong_mode")]))
  else
    let claim_bundle_path := get_str "bundle_path" "" claims in
    if decide (unquote bundle_path = claim_bundle_path) then ret (claims, claim_bundle_path)
    else raise (reject_unauth "bundle_path_mismatch").

Definition open_or_409 (path : str) : M W sb_writer :=
  catch (on_store (sb_open_bundle_write path)) (λ e,
    match e with
    | BundlePathConflictError _ kind => Some (conflict_409 (conflict_kind_name kind))
    | OSError EEXIST _ => Some (conflict_409 "occupied")
    | _ => None
    end).

Definition upload_bundle (rq : HttpRequest) (bundle_path : str) : M W Response :=
  '(claims, path) <- upload_claims_of rq bundle_path;;
  manifest_files <- of_res (manifest_files_of claims);;
  bundle_id <- of_res (dict_item "bundle_id" claims);;
  let bundle_id := py_str bundle_id in
  let sender := default JNull (dict_get "sender" claims) in
  let gzip := bool_decide (lower (rq_content_encoding rq) = "gzip") in
  struct_log INFO "upload_stream_start";;;
  writer <- open_or_409 path;;
  '(written, bytes_total) <- catch
    (r <- stream_tar_into_writer (tar_open gzip (body_of rq)) writer manifest_files;;
     read_body rq;;; ret r)
    (λ e, Some (upload_failed writer e));;
  w <- get;;
  catch (on_store (sb_commit written (uploaded_meta bundle_id sender (w_now w) manifest_files)))
    (λ e, Some (
      on_store (sb_abort writer);;;
      struct_log WARNING "upload_rollback";;;
      count_upload "error";;;
      raise e));;;
  struct_log INFO "upload_stream_complete";;;
  count_upload "ok";;;
  safe_emit None (Some (Increment "cassetta.upload.bytes" bytes_total []));;;
  ret (json_response 201 (JDict [("bundle_id", JStr bundle_id); ("ok", JBool true)]) []).
End upload.
