(* ===== verification/Download.v ===== *)
(** * The byte download

    [routes/download.py]: the authorisation of a download by a credential and
    an identity header, the streamed body, and the claim accounting after the
    last byte. *)

From Stdlib Require Import Ascii String.
From stdpp Require Import pretty.
From S2P Require Import Prelude PyStr PyCodec Json DateTime Effects PyNum Paths Limits Config.
From S2P Require Import Claims KeyStore Jwt FsModel Storage World Downloads Inbox Files SendInit Upload.
Local Open Scope string_scope.
Local Open Scope list_scope.
Local Open Scope effect_scope.

Definition INBOX_PREFIX : str := "inbox/".
Definition WWW_AUTHENTICATE : str :=
  "Bearer error=" +:+ String dquote ("invalid_token" +:+ String dquote "").

(** ** Errors *)

Definition unauth (reason : str) (extra : list (str * str)) : exn :=
  DownloadError 401 ([("error", "unauthenticated"); ("reason", reason)] ++ extra)
    [("WWW-Authenticate", WWW_AUTHENTICATE)].
Definition forbidden (reason : str) : exn :=
  DownloadError 403 [("error", "forbidden"); ("reason", reason)] [].
Definition not_found_error (reason : str) : exn :=
  DownloadError 404 [("error", "not_found"); ("reason", reason)] [].

Definition download_jwt_error (e : token_error) : exn :=
  match e with
  | TokenExpired => unauth "expired" []
  | TokenNotYetValid => unauth "immature" []
  | TokenInvalidSignature => unauth "bad_signature" []
  | TokenMissingClaim claim => unauth "missing_claim" [("claim", claim)]
  | RevokedTokenError _ => unauth "revoked" []
  | TokenDecodeError => unauth "invalid" []
  end.

Definition jwt_error_to_reason (e : token_error) : str :=
  match e with TokenExpired => "jwt_expired" | _ => "jwt_invalid" end.

(** [_split_raw_path]. *)
Definition split_raw_path (raw_path : bytes) : res (str * str) :=
  match utf8_decode raw_path with
  | None => Raise (ValueError PlainValueError "'utf-8' codec can't decode bytes")
  | Some raw =>
      let raw := match split1 "?" raw with Some (p, _) => p | None => raw end in
      if startswith "/download/" raw then
        match rsplit1 "/" (str_drop (String.length "/download/") raw) with
        | Some (bundle_path_enc, name_enc) => Ok (unquote bundle_path_enc, unquote name_enc)
        | None => Raise (not_found_error "bundle_gone")
        end
      else Raise (not_found_error "bundle_gone")
  end.

(** The response of a download: the declared size and type, the bytes that
    were streamed. *)
Record FileStream := { fs_mime : str; fs_content_length : Z; fs_bytes : bytes }.

(** [{str(f.get("name")) for f in manifest_files}]. *)
Definition manifest_names (files : list json) : res (list str) :=
  map_res (λ f, d <-? as_dict f;; Ok (py_str (default JNull (dict_get "name" d)))) files.

(** The loop of [_body_generator]: the chunks of an open file go out one by
    one, and a client may leave after some number of them, which closes the
    generator where it stands; the result is the number of bytes sent when the
    loop ends by itself. *)
Definition DOWNLOAD_CHUNK : nat := 64 * 1024.
Fixpoint stream_chunks (client : option nat) (handle : Source) (total : Z) : res (option Z) :=
  match handle with
  | [] => Ok (Some total)
  | Raise e :: _ => Raise e
  | Ok chunk :: rest =>
      match client with
      | Some O => Ok None
      | Some (Datatypes.S n) => stream_chunks (Some n) rest (total + blen chunk)
      | None => stream_chunks None rest (total + blen chunk)
      end
  end.
Definition file_handle (data : bytes) : Source := chunks (String.length data) DOWNLOAD_CHUNK data.

Section download.
Context {S C K : Type} `{StorageBackend S} `{ClaimStorage C} `{KeyStoreProtocol K}
  `{App K} `{PyJwt}.
Abbreviation W := (World S C K).

Definition count_download (result : str) : M W unit :=
  safe_emit None (Some (count_event "cassetta.download.operations" "result" result)).

(** Steps 1 and 2: the credential. *)
Definition download_claims (rq : HttpRequest) : M W dict :=
  token <- match extract_bearer_token (rq_authorization rq) with
           | Some t => ret t
           | None => raise (unauth "missing_bearer" [])
           end;;
  catch (verify_token token) (λ e,
    match e with
    | TokenError t =>
        Some (emit_auth_failure "download" (jwt_error_to_reason t) None;;;
              raise (download_jwt_error t))
    | _ => None
    end).

(** [_resolve_identity_label]: ["*"] in dev mode. *)
Definition resolve_identity_label (rq : HttpRequest) : option str :=
  if cf_dev_mode app_config then Some "*"
  else match rq_x_sender rq with
       | Some sender => if decide (sender = "") then None else Some sender
       | None => None
       end.

Fixpoint require_claims (required : list str) (claims : dict) : res unit :=
  match required with
  | [] => Ok tt
  | k :: rest =>
      match dict_get k claims with
      | Some _ => require_claims rest claims
      | None => Raise (unauth "missing_claim" [("claim", k)])
      end
  end.

(** Steps 3 to 5: the bundle path and the file name the request may read. *)
Definition authorize_download (rq : HttpRequest) (claims : dict) : M W (str * str) :=
  of_res (require_claims ["bundle_path"; "bundle_id"; "recipient"; "file_names"] claims);;;
  '(decoded_path, decoded_name) <- of_res (split_raw_path (rq_raw_path rq));;
  let claim_bundle_path := get_str "bundle_path" "" claims in
  if negb (bool_decide (decoded_path = claim_bundle_path))
  then raise (unauth "bundle_path_mismatch" [])
  else
    names <- of_res (match dict_get "file_names" claims with
                     | Some j => if py_truthy j then get_list "file_names" claims else Ok []
                     | None => Ok []
                     end);;
    if negb (bool_decide (decoded_name ∈ map py_str names))
    then raise (unauth "name_not_in_claim" [])
    else
      match resolve_identity_label rq with
      | None => raise (unauth "identity_missing" [])
      | Some identity_label =>
          if bool_decide (identity_label ≠ "*")
             && bool_decide (identity_label ≠ get_str "recipient" "" claims)
          then
            struct_log WARNING "download_identity_mismatch";;;
            count_download "identity_mismatch";;;
            raise (forbidden "identity_mismatch")
          else ret (claim_bundle_path, decoded_name)
      end.

Definition gone {A} (reason : str) : M W A :=
  count_download "not_found";;; raise (not_found_error reason).

(** The first manifest entry of a name. *)
Fixpoint find_entry (name : str) (files : list json) : res (option dict) :=
  match files with
  | [] => Ok None
  | f :: rest =>
      d <-? as_dict f;;
      if decide (py_str (default JNull (dict_get "name" d)) = name) then Ok (Some d)
      else find_entry name rest
  end.

(** [_post_stream_claim_accounting]. *)
Definition post_stream_claim_accounting (jti bundle_path name : str) (manifest_files : list json)
    : M W unit :=
  record <- on_claims (cs_get jti);;
  match record with
  | None => ret tt
  | Some _ =>
      updated <- catch (c <- on_claims (cs_mark_fetched jti name);; ret (Some c)) (λ e,
        if is_FileNotFoundError e then Some (ret None) else None);;
      match updated with
      | None => ret tt
      | Some updated =>
          names <- of_res (manifest_names manifest_files);;
          if forallb (λ n, bool_decide (n ∈ cr_files_fetched updated)) names then
            delete_bundle_quiet bundle_path;;;
            on_claims (cs_delete jti);;;
            _ <- of_res (total_size_of manifest_files);;
            struct_log INFO "download_claim_completed"
          else ret tt
      end
  end.

(** [_body_generator] after its loop. *)
Definition body_sent (total : Z) (jti bundle_path name : str) (manifest_files : list json)
    (is_inbox : bool) : M W unit :=
  struct_log DEBUG "download_file_fetched";;;
  count_download "ok";;;
  safe_emit None (Some (Increment "cassetta.download.bytes" total []));;;
  when is_inbox (post_stream_claim_accounting jti bundle_path name manifest_files).

(** [_body_generator] for a client that leaves after some number of chunks, or
    stays. *)
Definition body_generator (client : option nat) (data : bytes) (jti bundle_path name : str)
    (manifest_files : list json) (is_inbox : bool) : M W unit :=
  sent <- of_res (stream_chunks client (file_handle data) 0);;
  match sent with
  | Some total => body_sent total jti bundle_path name manifest_files is_inbox
  | None => ret tt
  end.

(** Steps 6 and 7: what will be streamed, and the manifest. *)
Definition open_download (path name : str) : M W (FileStream * list json) :=
  meta <- try_read_meta path;;
  match meta with
  | None => gone "bundle_gone"
  | Some meta =>
      manifest_files <- of_res (get_list "files" meta);;
      entry <- of_res (find_entry name manifest_files);;
      match entry with
      | None => gone "name_not_in_manifest"
      | Some entry =>
          size_int <- of_res (get_int "size" 0 entry);;
          handle <- catch (d <- on_store (sb_open_bundle_file_read path name);; ret (Some d)) (λ e,
            if is_FileNotFoundError e then Some (ret None) else None);;
          match handle with
          | None => gone "bundle_gone"
          | Some data =>
              ret ({| fs_mime := mime_or_default entry; fs_content_length := size_int;
                      fs_bytes := data |}, manifest_files)
          end
      end
  end.

(** [download_file] and its body, for a client that leaves after some number of
    chunks, or stays. *)
Definition download_until (client : option nat) (rq : HttpRequest) : M W FileStream :=
  claims <- download_claims rq;;
  '(path, name) <- authorize_download rq claims;;
  '(stream, manifest_files) <- open_download path name;;
  body_generator client (fs_bytes stream) (get_or_empty "jti" claims) path name manifest_files
    (startswith INBOX_PREFIX path);;;
  ret stream.

(** [download_file] with the body streamed to its end. *)
Definition download_route (rq : HttpRequest) : M W FileStream := download_until None rq.
End download.

(** ** Lemmas: the loop *)

(** The number of chunks of a file. *)
Definition chunk_count (data : bytes) : nat := length (file_handle data).

Lemma stream_chunks_run client cs total :
  stream_chunks client (map Ok cs) total
  = Ok (if match client with Some n => (length cs <=? n)%nat | None => true end
        then Some (total + sumZ (map blen cs))%Z else None).
Proof.
  revert client total. induction cs as [|c cs IH]; intros [n|] total; cbn [map stream_chunks length].
  - by rewrite Z.add_0_r.
  - by rewrite Z.add_0_r.
  - destruct n as [|n]; [done|]. rewrite IH. cbn [sumZ map foldr Nat.leb]. by rewrite Z.add_assoc.
  - rewrite IH. cbn [sumZ map foldr]. by rewrite Z.add_assoc.
Qed.

Lemma stream_file client data :
  stream_chunks client (file_handle data) 0
  = Ok (if match client with Some n => (chunk_count data <=? n)%nat | None => true end then Some (blen data) else None).
Proof.
  unfold chunk_count, file_handle.
  destruct (chunks_spec DOWNLOAD_CHUNK (String.length data) data) as (cs & -> & _ & Hc); [unfold DOWNLOAD_CHUNK; lia|done|].
  rewrite stream_chunks_run, length_map, Z.add_0_l.
  enough (E : sumZ (map blen cs) = blen data) by by rewrite E.
  rewrite <- Hc. clear Hc. induction cs as [|c cs IH]; [done|].
  cbn [map foldr]. change (sumZ (blen c :: map blen cs)) with (blen c + sumZ (map blen cs))%Z. rewrite IH.
  unfold blen. rewrite string_length_app. lia.
Qed.
