(* ===== verification/TwoPhase.v ===== *)
(** * The two phases of a directed send

    [Upload], [SendInit] and [Download] over any store that keeps the contract
    of [Bundles]: an upload stores exactly what its credential declares or
    changes nothing, the credential of the first phase is accepted by the
    second, and a download only serves what its credential allows. *)

From Stdlib Require Import Ascii String.
From stdpp Require Import pretty.
From S2P Require Import Prelude PyStr PyCodec Json DateTime Effects PyNum Paths Limits Config.
From S2P Require Import Claims KeyStore Jwt FsModel Storage World Frame Backends Bundles Downloads Inbox Files RoundTrips.
From S2P Require Import SendInit Upload Download.
Local Open Scope string_scope.
Local Open Scope list_scope.
Local Open Scope effect_scope.

(** ** Lemmas: the names of a manifest *)

Lemma names_ok_sub l N : names_ok N → NoDup l → (∀ n, n ∈ l → n ∈ N) → names_ok l.
Proof.
  intros (_ & Hok & Hp) Hnd Hl. split_and!; [done| |].
  - rewrite Forall_forall in Hok |- *. intros n Hn. by apply Hok, Hl.
  - intros n m Hn Hm. apply Hp; by apply Hl.
Qed.

Lemma dict_get_wf k (d : dict) v : json_wf (JDict d) = true → dict_get k d = Some v → json_wf v = true.
Proof.
  cbn [json_wf]. intros [_ Hall]%andb_true_iff. induction d as [|[k0 v0] d IH]; [done|].
  cbn [forallb] in Hall. apply andb_true_iff in Hall as [[_ H0]%andb_true_iff Hall].
  unfold dict_get in *. cbn. case_bool_decide; [by intros [= <-]|]. by apply IH.
Qed.

(** The names a manifest declares. *)
Definition declared_names (manifest_files : list json) : res (list str) :=
  map_res record_file_name manifest_files.

Lemma by_name_dom manifest_files names bn :
  declared_names manifest_files = Ok names → by_name_of manifest_files = Ok bn → dom bn = list_to_set names.
Proof.
  unfold declared_names, by_name_of, res_bind. intros Hn%map_res_Ok.
  destruct (map_res declared_file manifest_files) as [entries|] eqn:E; [|done]. intros [= <-].
  apply map_res_Ok in E. enough (Hd : ∀ m : gmap str dict,
    dom (foldl (λ m e, <[e.1 := e.2]> m) m entries) = (list_to_set names : gset str) ∪ dom m).
  { rewrite Hd. set_solver. }
  revert names Hn. induction E as [|f e fs es He E IH]; intros names Hn m; inversion Hn; subst; [set_solver|].
  cbn [foldl]. erewrite IH by done. rewrite dom_insert_L. cbn [list_to_set].
  unfold declared_file, res_bind in He. destruct (record_file_name f) as [n|]; [|done].
  destruct (as_dict f); [|done]. simplify_eq/=. set_solver.
Qed.

(** Nothing in the manifest of a credential is malformed text. *)
Lemma manifest_files_wf claims files names :
  json_wf (JDict claims) = true → manifest_files_of claims = Ok files → declared_names files = Ok names →
  forallb json_wf files = true.
Proof.
  intros Hw. unfold manifest_files_of. destruct (dict_get "manifest" claims) as [m|] eqn:Em; [|by intros [= <-]].
  pose proof (dict_get_wf _ _ _ Hw Em) as Hm. destruct (py_truthy m); [|by intros [= <-]].
  unfold as_dict, res_bind. destruct m as [| | | | | |d]; try done. unfold get_list.
  destruct (dict_get "files" d) as [f|] eqn:Ef; [|by intros [= <-]].
  pose proof (dict_get_wf _ _ _ Hm Ef) as Hf. destruct f as [| | | |t|l|kv]; try done.
  - intros [= <-] Hn. by destruct t.
  - by intros [= <-] _.
  - intros [= <-] Hn. by destruct kv.
Qed.

(** ** Lemmas: streaming the archive *)

(** The regular file [n] with contents [d] is an entry of the archive. *)
Definition archived (entries : list (res TarInfo)) (n : str) (d : bytes) : Prop :=
  ∃ info, Ok info ∈ entries ∧ ti_isreg info = true ∧ ti_name info = n ∧ ti_data info = Ok (Some d).

Section upload.
Context {S C K : Type} `{StorageReads S, !BundleLaws S, ClaimReads C, KeyReads K, !App K, PyJwt}.
Abbreviation W := (World S C K).
Implicit Types (w : W).

Section session.
Variables (p : str) (h0 : sb_writer) (s0 : S) (names : list str) (entries : list (res TarInfo)).
Hypothesis Hnames : names_ok names.

(** The upload session holds the files written so far. *)
Definition streaming (h : sb_writer) (V : list (str * bytes)) w : Prop :=
  bl_session p h0 V s0 (w_store w) h ∧ NoDup V.*1 ∧ (∀ n, n ∈ V.*1 → n ∈ names) ∧
  ∀ n d, (n, d) ∈ V → archived entries n d.

(** Some session is open: what a failure leaves. *)
Definition broken_off w : Prop := ∃ h V, bl_session p h0 V s0 (w_store w) h.

Lemma streaming_broken h V w : streaming h V w → broken_off w.
Proof. intros [Hs _]. by exists h, V. Qed.

Lemma wp_tar_step bn acc entry w V :
  dom bn = (list_to_set names : gset str) → entry ∈ entries →
  streaming acc.1.1 V w → acc.1.2 = (list_to_set V.*1 : gset str) →
  wp (tar_step bn acc entry)
    (λ acc' w', w_now w' = w_now w ∧ ∃ V', streaming acc'.1.1 V' w' ∧ acc'.1.2 = (list_to_set V'.*1 : gset str))
    (λ _, broken_off) w.
Proof.
  intros Hbn Hin Hs Hseen. destruct acc as [[h seen] total]. cbn [fst snd] in *. subst seen.
  pose proof (streaming_broken _ _ _ Hs) as Hb. unfold tar_step, violation.
  apply wp_bind, wp_of_res. destruct entry as [info|e]; [|done]. cbv zeta.
  destruct (ti_isreg info) eqn:Er; [|done]. cbn [negb].
  destruct (bn !! ti_name info) as [declared|] eqn:En; [|done].
  apply wp_bind, wp_of_res. destruct (get_int "size" 0 declared) as [z|]; [|done].
  destruct (negb _); [done|]. case_decide; [done|].
  apply wp_bind, wp_of_res. destruct (ti_data info) as [[data|]|] eqn:Ed; [|done..].
  destruct (negb _); [done|]. apply wp_bind, wp_on_store.
  destruct Hs as (Hs & Hnd & Hsub & Harch).
  destruct (decide (ti_name info ∈ V.*1)) as [Hdup|Hnew].
  { destruct (bl_write_twice _ _ _ _ _ _ _ (bytes_io data) Hs Hdup) as [e E]. unfold wp. by rewrite E. }
  assert (HnN : ti_name info ∈ names).
  { apply (elem_of_list_to_set (C := gset str)). rewrite <- Hbn. by apply elem_of_dom. }
  assert (Hnd' : NoDup (V.*1 ++ [ti_name info])).
  { apply NoDup_app. split_and!; [done| |apply NoDup_singleton]. set_solver. }
  assert (Hsub' : ∀ n, n ∈ V.*1 ++ [ti_name info] → n ∈ names).
  { intros n [?|Hx%list_elem_of_singleton]%elem_of_app; [by apply Hsub|by subst n]. }
  destruct (bl_write _ _ _ _ _ _ (ti_name info) data Hs (names_ok_sub _ _ Hnames Hnd' Hsub')) as (h' & s' & E & Hs').
  unfold wp. rewrite E. split; [done|]. exists (V ++ [(ti_name info, data)]). cbn [fst snd].
  unfold streaming. rewrite fmap_app. split_and!; [done..| |].
  - intros n d [?|Hd%list_elem_of_singleton]%elem_of_app; [by apply Harch|]. simplify_eq. by exists info.
  - rewrite list_to_set_app_L. set_solver.
Qed.

Lemma wp_stream manifest_files h w :
  declared_names manifest_files = Ok names → streaming h [] w →
  wp (stream_tar_into_writer entries h manifest_files)
    (λ r w', w_now w' = w_now w ∧ ∃ V, streaming r.1 V w' ∧ V.*1 ≡ₚ names) (λ _, broken_off) w.
Proof.
  intros Hn Hs. pose proof (streaming_broken _ _ _ Hs) as Hb. unfold stream_tar_into_writer.
  apply wp_bind, wp_of_res. destruct (by_name_of manifest_files) as [bn|] eqn:Ebn; [|done].
  pose proof (by_name_dom _ _ _ Hn Ebn) as Hbn. apply wp_bind.
  eapply wp_mono; [| |apply (wp_fold_m (λ acc w', w_now w' = w_now w ∧
    ∃ V, streaming acc.1.1 V w' ∧ acc.1.2 = (list_to_set V.*1 : gset str)) entries (tar_step bn) (h, ∅, 0%Z) (λ _, broken_off) w)].
  - intros [[h' seen] total] w' (Hnow & V & Hs' & Hseen). cbn [fst snd] in *. subst seen.
    destruct (sorted _) as [|first l] eqn:Es.
    + split; [done|]. exists V. split; [done|]. destruct Hs' as (_ & Hnd & Hsub & _).
      apply NoDup_Permutation; [done|apply Hnames|]. intros n. split; [by apply Hsub|]. intros Hin.
      destruct (decide (n ∈ V.*1)) as [?|Hnot]; [done|]. exfalso.
      assert (Hel : n ∈ sorted (elements (dom bn ∖ list_to_set V.*1))).
      { rewrite elem_of_sorted. set_solver. }
      rewrite Es in Hel. by apply not_elem_of_nil in Hel.
    + by eapply streaming_broken.
  - done.
  - intros acc entry w' Hin (Hnow & V & Hs' & Hseen).
    eapply wp_mono; [| |by apply (wp_tar_step bn acc entry w' V)]; [|done].
    intros acc' w2 (Hnow2 & Hst). split; [congruence|done].
  - split; [done|]. exists []. by split.
Qed.
End session.

(** ** Lemmas: the upload handler *)

(** A credential whose manifest a store can hold: its path and names are in
    the domain of the contract. *)
Definition credential_ok (claims : dict) (path : str) : Prop :=
  key_ok path ∧ json_wf (JDict claims) = true ∧ (∃ id, dict_get "bundle_id" claims = Some (JStr id)) ∧
  ∀ files, manifest_files_of claims = Ok files → ∃ names, declared_names files = Ok names ∧ names_ok names.

(** What a successful upload stored: for every declared name one file, with the
    declared size and the bytes the archive had for it. *)
Definition upload_stored (entries : list (res TarInfo)) (claims : dict) (path : str) w w' : Prop :=
  ∃ files names id V,
    let meta := uploaded_meta id (default JNull (dict_get "sender" claims)) (w_now w) files in
    manifest_files_of claims = Ok files ∧ declared_names files = Ok names ∧
    dict_get "bundle_id" claims = Some (JStr id) ∧ V.*1 ≡ₚ names ∧
    (∀ n d, (n, d) ∈ V → archived entries n d) ∧ declares meta (written_of V) ∧
    stored (w_store w') path meta V.

Lemma wp_upload_failed {A} (h0 : sb_writer) p s0 e w (Q : A → W → Prop) :
  broken_off p h0 s0 w →
  wp (upload_failed h0 e) Q (λ _ w', bl_inv (w_store w') ∧ same_reads s0 (w_store w')) w.
Proof.
  intros (h & V & Hs). destruct (bl_abort _ _ _ _ _ _ Hs) as (s' & E & Hi & Hsame).
  unfold upload_failed. apply wp_bind, wp_on_store. unfold wp at 1. rewrite E.
  assert (Hdone : ∀ e' evs, wp (raise e' : M W A) Q (λ _ w', bl_inv (w_store w') ∧ same_reads s0 (w_store w'))
    (add_events evs (set_store s' w))) by done.
  destruct e; repeat first
    [ apply wp_bind, wp_struct_log; rewrite ?add_events_app
    | apply wp_bind, wp_safe_emit; intros ?; rewrite ?add_events_app
    | apply Hdone ].
Qed.

(** A commit stores what the metadata declares, or leaves the session. *)
Lemma wp_commit_session p h0 h V s0 s meta :
  names_ok V.*1 → json_wf (JDict meta) = true → bl_session p h0 V s0 s h →
  wp (sb_commit h meta)
    (λ _ s', declares meta (written_of V) ∧ bl_inv s' ∧ stored s' p meta V ∧ same_reads_outside p s0 s')
    (λ _ s', s' = s ∧ ¬ declares meta (written_of V)) s.
Proof.
  intros Hok Hw Hs. unfold wp. destruct (commit_checks (written_of V) meta) as [[]|e0] eqn:Ec.
  - apply commit_checks_Ok in Ec. by destruct (bl_commit _ _ _ _ _ _ _ Hs Hok Hw Ec) as (h' & s' & -> & ? & ? & ?).
  - destruct (bl_commit_undeclared _ _ _ _ _ _ meta Hs) as [e ->]; [|split; [done|]]; intros Hd%commit_checks_Ok; congruence.
Qed.

Lemma wp_commit_upload p h0 h V s0 w meta (Q : sb_writer → W → Prop) :
  names_ok V.*1 → json_wf (JDict meta) = true → bl_session p h0 V s0 (w_store w) h →
  (∀ s', declares meta (written_of V) → bl_inv s' → stored s' p meta V → same_reads_outside p s0 s' →
     ∀ h', Q h' (set_store s' w)) →
  wp (catch (on_store (sb_commit h meta)) (λ e, Some (
        on_store (sb_abort h0);;; struct_log WARNING "upload_rollback";;; count_upload "error";;; raise e)))
    Q (λ _ w', bl_inv (w_store w') ∧ same_reads s0 (w_store w')) w.
Proof.
  intros Hok Hw Hs HQ. apply wp_catch, wp_on_store.
  eapply wp_mono; [| |by apply (wp_commit_session p h0 h V s0)].
  - intros h' s' (? & ? & ? & ?). by apply HQ.
  - intros e s [-> _]. destruct (bl_abort _ _ _ _ _ _ Hs) as (s' & E & Hi & Hsame).
    apply wp_bind, wp_on_store. cbn [w_store set_store]. unfold wp at 1. rewrite E.
    apply wp_bind, wp_struct_log, wp_bind, wp_safe_emit. intros evs. by apply wp_raise.
Qed.

Lemma frames_upload_claims rq bp : frames same_data (upload_claims_of rq bp : M W (dict * str)).
Proof. unfold upload_claims_of, extract_bearer. frame. Qed.

Lemma wp_open_or_409 p s0 w (Q : sb_writer → W → Prop) :
  w_store w = s0 → bl_inv s0 → key_ok p →
  (∀ h s, bl_session p h [] s0 s h → Q h (set_store s w)) →
  wp (open_or_409 p) Q (λ _ w', bl_inv (w_store w') ∧ same_reads s0 (w_store w')) w.
Proof.
  intros <- Hi Hp HQ. unfold open_or_409. apply wp_catch, wp_on_store.
  eapply wp_mono; [| |apply (bl_open p (w_store w) Hi Hp)].
  - intros h s Hs. by apply HQ.
  - intros e s He. by destruct e as [| |[]| | | | | | | | | | | | | | | | |].
Qed.

Lemma wp_upload_bundle tar_open rq bp claims path w :
  bl_inv (w_store w) → (upload_claims_of rq bp w).1 = Ok (claims, path) → credential_ok claims path →
  wp (upload_bundle tar_open rq bp)
    (λ rsp w', rsp_status rsp = 201%Z ∧ bl_inv (w_store w') ∧ same_reads_outside path (w_store w) (w_store w') ∧
       upload_stored (tar_open (bool_decide (lower (rq_content_encoding rq) = "gzip")) (body_of rq)) claims path w w')
    (λ _ w', bl_inv (w_store w') ∧ same_reads (w_store w) (w_store w')) w.
Proof.
  intros Hi Hcl (Hp & Hw & (id & Hid) & Hfn). unfold upload_bundle. apply wp_bind. unfold wp at 1.
  pose proof (frames_upload_claims rq bp w) as Hd. destruct (upload_claims_of rq bp w) as [r w1].
  cbn in Hcl, Hd. subst r. destruct Hd as [Es _ _ En]. rewrite <- Es in Hi |- *.
  apply wp_bind, wp_of_res. destruct (manifest_files_of claims) as [files|] eqn:Ef; [|done].
  destruct (Hfn files eq_refl) as (names & Hn & Hok).
  apply wp_bind, wp_of_res. unfold dict_item. rewrite Hid. cbv zeta. cbn [py_str].
  apply wp_bind, wp_struct_log, wp_bind, wp_open_or_409; [done..|]. intros h0 s Hs.
  set (entries := tar_open _ _). set (w2 := set_store s _).
  apply wp_bind, wp_catch, wp_bind. cbn [w_store add_events] in Hs.
  assert (Hst : streaming path h0 (w_store w1) names entries h0 [] w2).
  { split_and!; [done|constructor|by intros n ?%not_elem_of_nil|by intros n d ?%not_elem_of_nil]. }
  eapply wp_mono; [| |apply (wp_stream path h0 (w_store w1) names entries Hok files h0 w2 Hn Hst)].
  2:{ intros e w3 Hb. eapply wp_upload_failed. exact Hb. }
  intros [h total] w3 (Hnow & V & Hs3 & HV). cbn [fst] in Hs3.
  apply wp_bind. unfold read_body. destruct (rq_body_error rq) as [e|].
  { apply wp_raise. eapply wp_upload_failed. by eapply streaming_broken. }
  apply wp_ret, wp_ret, wp_bind, wp_get, wp_bind. destruct Hs3 as (Hs3 & Hnd & Hsub & Harch).
  apply (wp_commit_upload path h0 h V).
  - eapply names_ok_sub; [exact Hok|done|exact Hsub].
  - apply bundle_meta_wf.
    + exact (dict_get_wf _ _ _ Hw Hid).
    + destruct (dict_get "sender" claims) eqn:E; [by eapply dict_get_wf|done].
    + by destruct (_ <? _)%nat.
    + by eapply manifest_files_wf.
  - exact Hs3.
  - intros s' Hdecl Hi' Hstored Hout h'.
    apply wp_bind, wp_struct_log, wp_bind, wp_safe_emit. intros evs.
    apply wp_bind, wp_safe_emit. intros evs'. apply wp_ret. split_and!; [done..|].
    exists files, names, id, V. rewrite Hnow in Hdecl, Hstored. cbn in Hdecl, Hstored. rewrite En in Hdecl, Hstored.
    by split_and!.
Qed.
End upload.

(** ** Lemmas: the download handler *)

Section download.
Context {S C K : Type} `{StorageReads S, !BundleLaws S, ClaimReads C, KeyReads K, !App K, PyJwt}.
Abbreviation W := (World S C K).
Implicit Types (w : W).

Lemma wp_then_raise {A B} (m : M W A) e (Q : B → W → Prop) w : wp (m;;; raise e) Q (λ _ _, True) w.
Proof. unfold wp, bind. by destruct (m w) as [[]]. Qed.

(** Of all bundles only those at or around a path may have changed. *)
Definition kept (p : str) w w' : Prop :=
  bl_inv (w_store w) → key_ok p → bl_inv (w_store w') ∧ same_reads_outside p (w_store w) (w_store w').
#[local] Instance kept_preorder p : PreOrder (kept p).
Proof.
  split; [by split|]. intros w1 w2 w3 H12 H23 Hi Hp. destruct (H12 Hi Hp) as [Hi2 ?].
  destruct (H23 Hi2 Hp) as [? ?]. split; [done|by etrans].
Qed.

Lemma kept_store p w w' : w_store w' = w_store w → kept p w w'.
Proof. intros E Hi Hp. by rewrite E. Qed.
Lemma frames_kept {A} p (m : M W A) : frames same_data m → frames (kept p) m.
Proof. intros Hm w. by apply kept_store, Hm. Qed.
Lemma kept_on_claims {A} p (m : M C A) : frames (kept p) (on_claims m : M W A).
Proof. intros w. apply kept_store. unfold on_claims, lift. by destruct (m (w_claims w)). Qed.
Lemma kept_delete p : frames (kept p) (delete_bundle_quiet p : M W unit).
Proof.
  intros w Hi Hp. pose proof (wp_delete_quiet p (λ _ w', bl_inv (w_store w') ∧ same_reads_outside p (w_store w) (w_store w'))
    (λ _ _, False) w Hi Hp) as Hw. unfold wp in Hw.
  destruct (delete_bundle_quiet p w) as [[[]|e] w']; [by apply Hw|by destruct Hw].
Qed.

Lemma kept_accounting p jti name files :
  frames (kept p) (post_stream_claim_accounting jti p name files : M W unit).
Proof.
  unfold post_stream_claim_accounting.
  apply frames_bind; [apply _|apply kept_on_claims|]. intros [record|]; [|apply frames_ret, _].
  apply frames_bind; [apply _| |].
  { apply frames_catch; [apply _| |].
    - apply frames_bind; [apply _|apply kept_on_claims|intros; apply frames_ret, _].
    - intros e m Hm. destruct (is_FileNotFoundError e); [|done]. simplify_eq. apply frames_ret, _. }
  intros [updated|]; [|apply frames_ret, _].
  apply frames_bind; [apply _|apply frames_of_res, _|]. intros names.
  destruct (forallb _ names); [|apply frames_ret, _].
  apply frames_bind; [apply _|apply kept_delete|]. intros _.
  apply frames_bind; [apply _|apply kept_on_claims|]. intros _.
  apply frames_bind; [apply _|apply frames_of_res, _|]. intros _. apply frames_kept, frames_struct_log.
Qed.

(** What the steps before the body establish. *)
Record authorised (rq : HttpRequest) (claims : dict) (path name : str) : Prop := {
  au_path : split_raw_path (rq_raw_path rq) = Ok (path, name);
  au_claim_path : path = get_str "bundle_path" "" claims;
  au_name : ∃ names, get_list "file_names" claims = Ok names ∧ name ∈ map py_str names;
  au_sender : cf_dev_mode app_config = true ∨ rq_x_sender rq = Some "*"
    ∨ rq_x_sender rq = Some (get_str "recipient" "" claims);
}.

Lemma verify_token_eq token w :
  verify_token token w =
    let r := verify_with_slots app_revocation (now_seconds w) (w_mono w) (w_slots w) token in
    (r.1, set_slots r.2 w).
Proof. unfold verify_token, bind, get, modify, of_res. by destruct (verify_with_slots _ _ _ _ token). Qed.

Lemma wp_download_claims rq w :
  wp (download_claims rq)
    (λ claims w', same_data w w' ∧ ∃ token, extract_bearer_token (rq_authorization rq) = Some token ∧
       (verify_with_slots app_revocation (now_seconds w) (w_mono w) (w_slots w) token).1 = Ok claims)
    (λ _ _, True) w.
Proof.
  unfold download_claims. apply wp_bind. destruct (extract_bearer_token _) as [token|]; [|done].
  apply wp_ret, wp_catch. unfold wp. rewrite verify_token_eq.
  destruct (verify_with_slots _ _ _ _ token) as [[claims|e] sl] eqn:E; cbn.
  - split; [done|]. exists token. by rewrite E.
  - destruct e; try done. apply wp_then_raise.
Qed.

Lemma wp_authorize rq claims w :
  wp (authorize_download rq claims) (λ r w', authorised rq claims r.1 r.2 ∧ same_data w w') (λ _ _, True) w.
Proof.
  unfold authorize_download. apply wp_bind, wp_of_res. destruct (require_claims _ claims); [|done].
  apply wp_bind, wp_of_res. destruct (split_raw_path _) as [[path name]|] eqn:Ep; [|done].
  cbv zeta. case_bool_decide as Hpath; [|done]. cbn [negb]. apply wp_bind, wp_of_res.
  destruct (dict_get "file_names" claims) as [j|] eqn:Ej; [|done].
  destruct (py_truthy j) eqn:Et; [|done]. destruct (get_list "file_names" claims) as [names|] eqn:En; [|done].
  case_bool_decide as Hname; [|done]. cbn [negb].
  destruct (resolve_identity_label rq) as [label|] eqn:El; [|done].
  destruct (_ && _) eqn:Eb.
  { apply wp_bind, wp_struct_log, wp_bind, wp_safe_emit. by intros evs. }
  apply wp_ret. split; [|done]. cbn [fst snd]. rewrite <- Hpath. split; [done|done|by exists names|].
  unfold resolve_identity_label in El. destruct (cf_dev_mode app_config); [by left|]. right.
  destruct (rq_x_sender rq) as [sender|]; [|done]. case_decide; [done|]. injection El as <-.
  apply andb_false_iff in Eb as [Eb|Eb]; apply bool_decide_eq_false in Eb; [left|right]; f_equal; by apply dec_stable.
Qed.

Lemma wp_open_download path name w :
  wp (open_download path name)
    (λ r w', same_data w w' ∧ (sb_open_bundle_file_read path name (w_store w)).1 = Ok (fs_bytes r.1) ∧
       ∃ meta entry, (sb_read_bundle_meta path (w_store w)).1 = Ok meta ∧ get_list "files" meta = Ok r.2 ∧
         find_entry name r.2 = Ok (Some entry) ∧ get_int "size" 0 entry = Ok (fs_content_length (r.1)))
    (λ _ _, True) w.
Proof.
  unfold open_download, gone. apply wp_bind. unfold try_read_meta. apply wp_catch, wp_bind, wp_on_store.
  unfold wp at 1. pose proof (sr_meta path (w_store w)) as Hm.
  destruct (sb_read_bundle_meta path (w_store w)) as [[meta|e] s1] eqn:Em; cbn in Hm; subst s1; rewrite set_store_id.
  2:{ destruct (is_FileNotFoundError e); [|done]. apply wp_ret, wp_then_raise. }
  apply wp_ret, wp_bind, wp_of_res. destruct (get_list "files" meta) as [files|] eqn:Ef; [|done].
  apply wp_bind, wp_of_res. destruct (find_entry name files) as [[entry|]|] eqn:Ee; [|apply wp_then_raise|done].
  apply wp_bind, wp_of_res. destruct (get_int "size" 0 entry) as [size|] eqn:Es; [|done].
  apply wp_bind, wp_catch, wp_bind, wp_on_store. unfold wp at 1. pose proof (sr_file path name (w_store w)) as Hf.
  destruct (sb_open_bundle_file_read path name (w_store w)) as [[d|e] s2]; cbn in Hf; subst s2; rewrite set_store_id.
  2:{ destruct (is_FileNotFoundError e); [|done]. apply wp_ret, wp_then_raise. }
  apply wp_ret, wp_ret. cbn [fst snd fs_bytes fs_content_length]. split; [done|]. split; [done|]. by exists meta, entry.
Qed.

Lemma wp_body client data jti path name files inbox w :
  wp (body_generator client data jti path name files inbox)
    (λ _ w', kept path w w' ∧ (inbox = false → w_store w' = w_store w)) (λ _ _, True) w.
Proof.
  unfold body_generator. apply wp_bind, wp_of_res. rewrite stream_file.
  destruct (match client with Some n => _ | None => _ end); [|apply wp_ret; by split; [apply kept_store|]].
  unfold body_sent. apply wp_bind, wp_struct_log, wp_bind, wp_safe_emit. intros evs.
  apply wp_bind, wp_safe_emit. intros evs'. destruct inbox; [|by split; [apply kept_store|]]. cbn [when].
  eapply wp_frames; [apply kept_accounting| |done]. intros [] w' Hk. split; [|done].
  intros Hi Hp. by apply Hk.
Qed.
End download.

(** ** Properties *)

(** C1: an upload is all or nothing, over any store that keeps the contract and
    any archive: with a credential for the path, either the answer is 201 and
    the bundle reads back with one file for each declared name, of the declared
    size and with the bytes of the archive, and with the sender and manifest of
    the credential, no bundle beside it changed; or the upload raises, and
    every read of every bundle is as before. *)
Theorem upload_all_or_nothing {S C K} `{StorageReads S, !BundleLaws S, ClaimReads C, KeyReads K, !App K, PyJwt}
    tar_open rq bundle_path claims path (w : World S C K) :
  bl_inv (w_store w) → (upload_claims_of rq bundle_path w).1 = Ok (claims, path) → credential_ok claims path →
  let entries := tar_open (bool_decide (lower (rq_content_encoding rq) = "gzip")) (body_of rq) in
  match upload_bundle tar_open rq bundle_path w with
  | (Ok rsp, w') => rsp_status rsp = 201%Z ∧ same_reads_outside path (w_store w) (w_store w')
      ∧ upload_stored entries claims path w w'
  | (Raise _, w') => same_reads (w_store w) (w_store w')
  end.
Proof.
  intros Hi Hcl Hok entries. pose proof (wp_upload_bundle tar_open rq bundle_path claims path w Hi Hcl Hok) as Hw.
  unfold wp in Hw. destruct (upload_bundle _ _ _ _) as [[rsp|e] w']; [|apply Hw]. destruct Hw as (? & _ & ? & ?). done.
Qed.

(** An upload of one declared file. *)
#[local] Existing Instances Demo.storage Demo.claims Demo.keys ToyJwt demo_bundle_laws.
#[local] Instance open_server : App KeyStore := Demo.core true.

Definition demo_upload_claims : dict :=
  upload_claims "inbox/bob/m1" "b1" "alice" "bob" SendBatch
    {| um_file_count := 1; um_files := [{| mf_name := "a.txt"; mf_size := 5; mf_mime := Some "text/plain" |}] |} 0 60.
Definition demo_request (token : str) : HttpRequest := {|
  rq_x_setup_token := None; rq_credentials := None; rq_authorization := "Bearer " +:+ token;
  rq_x_sender := None; rq_raw_path := "/download/inbox/bob/m1/a.txt"; rq_content_type := "";
  rq_content_encoding := ""; rq_body := []; rq_body_error := None; rq_form := []; rq_client := "127.0.0.1" |}.
Definition demo_tar (data : bytes) (_ : bool) (_ : bytes) : list (res TarInfo) :=
  [Ok {| ti_name := "a.txt"; ti_size := blen data; ti_isreg := true; ti_data := Ok (Some data) |}].

(** The declared file is stored; one byte more and nothing is. *)
Definition demo_run (data : bytes) :=
  upload_bundle (demo_tar data) (demo_request (sign "j1" demo_upload_claims "primary")) "inbox/bob/m1" (Demo.world 0).

Lemma upload_all_or_nothing_witness :
  let claims := dict_set "jti" (JStr "j1") demo_upload_claims in
  upload_stored (demo_tar "hello" false "") claims "inbox/bob/m1" (Demo.world 0) (demo_run "hello").2 ∧
  same_reads fs_init (w_store (demo_run "hello!").2).
Proof.
  intros claims.
  assert (Hok : credential_ok claims "inbox/bob/m1").
  { split_and!.
    - apply key_okb_sound. vm_compute. reflexivity.
    - vm_compute. reflexivity.
    - exists "b1". reflexivity.
    - intros files [= <-]. exists ["a.txt"]. split; [reflexivity|]. apply names_okb_sound. vm_compute. reflexivity. }
  split.
  - assert (E : demo_run "hello" = (Ok (json_response 201 (JDict [("bundle_id", JStr "b1"); ("ok", JBool true)]) []),
      (demo_run "hello").2)) by (vm_compute; reflexivity).
    pose proof (upload_all_or_nothing (demo_tar "hello") (demo_request (sign "j1" demo_upload_claims "primary"))
      "inbox/bob/m1" claims "inbox/bob/m1" (Demo.world 0) fs_init_wf eq_refl Hok) as H.
    change (upload_bundle _ _ _ _) with (demo_run "hello") in H. rewrite E in H. apply H.
  - assert (E : demo_run "hello!" = (Raise (HTTPException 400 (DDict [("error", "manifest_violation");
      ("reason", "wrong_size"); ("name", "a.txt")])), (demo_run "hello!").2)) by (vm_compute; reflexivity).
    pose proof (upload_all_or_nothing (demo_tar "hello!") (demo_request (sign "j1" demo_upload_claims "primary"))
      "inbox/bob/m1" claims "inbox/bob/m1" (Demo.world 0) fs_init_wf eq_refl Hok) as H.
    change (upload_bundle _ _ _ _) with (demo_run "hello!") in H. rewrite E in H. apply H.
Defined.


Definition demo_download_claims : dict :=
  [("bundle_path", JStr "inbox/bob/m1"); ("bundle_id", JStr "id"); ("recipient", JStr "bob");
   ("file_names", JList [JStr "a.txt"; JStr "sub/b"]); ("iat", JInt 0); ("nbf", JInt 0); ("exp", JInt 60)].
Definition demo_download : HttpRequest := demo_request (sign "j2" demo_download_claims "primary").


(** The recipient check accepts the sentinel of the dev mode from any client:
    on an authenticated server another sender than the recipient is refused,
    and the header [X-Sender: *] is not. *)
Example star_sender_passes :
  let as_sender s := {| rq_x_setup_token := None; rq_credentials := None;
    rq_authorization := rq_authorization demo_download; rq_x_sender := Some s; rq_raw_path := rq_raw_path demo_download;
    rq_content_type := ""; rq_content_encoding := ""; rq_body := []; rq_body_error := None; rq_form := [];
    rq_client := "10.0.0.1" |} in
  let run s := (download_route (H2 := Demo.core false) (as_sender s) demo_inbox).1 in
  run "mallory" = Raise (forbidden "identity_mismatch") ∧
  run "*" = Ok {| fs_mime := "text/plain"; fs_content_length := 5; fs_bytes := "hello" |}.
Proof. split; vm_compute; reflexivity. Qed.
