(* ===== verification/SendFlow.v ===== *)
(** * From the first phase to the second

    The credential [prepare_send_init] issues, followed to the upload route:
    within its lifetime and under the key it was signed with, an archive of
    the declared files is accepted and stored. *)

From Stdlib Require Import Ascii String.
From stdpp Require Import pretty.
From S2P Require Import Prelude PyStr PyCodec Json DateTime Effects PyNum Paths Limits Config.
From S2P Require Import Claims KeyStore Jwt FsModel Storage World Frame Backends Bundles Downloads Inbox Files RoundTrips.
From S2P Require Import SendInit Upload Download TwoPhase.
Local Open Scope string_scope.
Local Open Scope list_scope.
Local Open Scope effect_scope.

(** ** Lemmas: the manifest in the credential *)

(** The names and sizes of a manifest. *)
Definition declared (manifest : SendManifest) : list (str * Z) :=
  map (λ f, (sf_name f, sf_size f)) (sm_files manifest).
Definition entry_pairs (files : list ManifestFile) : list (str * Z) :=
  map (λ f, (mf_name f, mf_size f)) files.

Lemma entry_of_dump f :
  entry_from_input (dump_file f)
  = Ok {| mf_name := sf_name f; mf_size := sf_size f; mf_mime := sf_mime f |}.
Proof. destruct f as [n z [m|]]; done. Qed.

Lemma entries_of_dump fs :
  map_res entry_from_input (map dump_file fs)
  = Ok (map (λ f, {| mf_name := sf_name f; mf_size := sf_size f; mf_mime := sf_mime f |}) fs).
Proof. apply map_res_Ok. induction fs as [|f fs IH]; constructor; [apply entry_of_dump|done]. Qed.

Lemma parsed_files manifest m :
  manifest_from_input (model_dump manifest) = Ok m →
  um_files m = map (λ f, {| mf_name := sf_name f; mf_size := sf_size f; mf_mime := sf_mime f |}) (sm_files manifest).
Proof.
  unfold manifest_from_input. change (dict_get "files" (model_dump manifest))
    with (Some (JList (map dump_file (sm_files manifest)))). cbn [default from_option id].
  rewrite entries_of_dump. unfold res_bind. destruct (int_or_malformed _ _) as [z|]; [|done].
  case_decide; [|done]. by intros [= <-].
Qed.

(** The manifest of a directed send is text. *)
Definition manifest_text (manifest : SendManifest) : Prop :=
  Forall (λ f, utf8_valid (sf_name f) = true ∧ ∀ m, sf_mime f = Some m → utf8_valid m = true) (sm_files manifest).

(** The files of the credential: the declared names and sizes, with types. *)
Definition enriched_of (manifest : SendManifest) (files : list ManifestFile) : Prop :=
  Forall2 (λ f e, mf_name e = sf_name f ∧ mf_size e = sf_size f
    ∧ ∃ m, mf_mime e = Some m ∧ utf8_valid m = true) (sm_files manifest) files.

Definition manifest_records (files : list ManifestFile) : list json :=
  map (λ f, file_record (mf_name f) (mf_size f) (default "" (mf_mime f))) files.

Lemma manifest_records_wf manifest files :
  manifest_text manifest → enriched_of manifest files → forallb json_wf (manifest_records files) = true.
Proof.
  unfold manifest_text, enriched_of. generalize (sm_files manifest). clear manifest. intros fs Ht He.
  induction He as [|f e fs es (En & _ & m & Em & Hm) He IH]; [done|].
  apply Forall_cons in Ht as [[Hn _] Ht]. cbn [manifest_records map forallb].
  rewrite Em, file_record_wf by (by rewrite ?En). by apply IH.
Qed.

Section send.
Context {S C K : Type} `{StorageReads S, !BundleLaws S, ClaimReads C, KeyReads K, !App K, !AliasReads K, PyJwt}.
Abbreviation W := (World S C K).
Implicit Types (w : W).

Lemma wp_enrich (fs : list SendManifestFile) w :
  mime_text → Forall (λ f, utf8_valid (sf_name f) = true ∧ ∀ m, sf_mime f = Some m → utf8_valid m = true) fs →
  wp (map_m enrich_entry (map (λ f, {| mf_name := sf_name f; mf_size := sf_size f; mf_mime := sf_mime f |}) fs))
    (λ es w', Forall2 (λ f e, mf_name e = sf_name f ∧ mf_size e = sf_size f
       ∧ ∃ m, mf_mime e = Some m ∧ utf8_valid m = true) fs es ∧ same_data w w') (λ _ _, False) w.
Proof.
  intros Hmt Ht. revert w. induction Ht as [|f fs [Hn Hm] Ht IH]; intros w; [by split|].
  cbn [map map_m]. apply wp_bind. unfold enrich_entry at 1. cbn [mf_name mf_size mf_mime]. apply wp_bind.
  unfold wp at 1. destruct (pick_mime_spec (sf_name f) (sf_mime f) w) as (m & evs & -> & Hm'); [done..|].
  apply wp_ret, wp_bind. eapply wp_mono; [| |apply IH]; [|done].
  intros es w' [He Hd]. apply wp_ret. split.
  - constructor; [|done]. cbn. split_and!; [done..|by exists m].
  - etrans; [|done]. by split.
Qed.

(** The claims of the credential. *)
Definition credential (mode : send_mode) (recipient path bid sender : str) (count : Z) (files : list ManifestFile)
    (now ttl : Z) : dict :=
  upload_claims (inbox_path recipient path) bid sender recipient mode
    {| um_file_count := count; um_files := files |} now ttl.

Definition upload_ttl (identity : Identity) : Z := ttl_upload_token (ttls app_limits identity).

Lemma wp_parse_manifest manifest w :
  wp (parse_manifest manifest)
    (λ m w', w' = w ∧ um_files m = map (λ f, {| mf_name := sf_name f; mf_size := sf_size f; mf_mime := sf_mime f |})
       (sm_files manifest)) (λ _ w', w' = w) w.
Proof.
  unfold parse_manifest. apply wp_catch, wp_bind, wp_of_res.
  destruct (manifest_from_input (model_dump manifest)) as [m|e] eqn:E.
  - apply wp_bind, wp_of_res. destruct (validate_manifest m) as [[]|e]; [|by destruct e].
    apply wp_ret. split; [done|]. by apply parsed_files.
  - by destruct e.
Qed.

Lemma leaf_path_state path w r w' : check_leaf_path path w = (r, w') → w' = w.
Proof.
  unfold check_leaf_path, catch, of_res. destruct (validate_path path _) as [a|e]; [by intros [= _ <-]|].
  destruct (is_PathValidationError e); by intros [= _ <-].
Qed.
Lemma frames_recipient to sender : frames same_data (resolve_recipient (Some app_alias) to sender : M W str).
Proof. unfold resolve_recipient. frame. apply frames_on_keys, ar_reads. Qed.
Lemma frames_access identity recipient : frames same_data (check_access identity recipient : M W unit).
Proof. unfold check_access. frame. Qed.
Lemma frames_decide identity m allow : frames same_data (decide_mode identity m allow : M W send_mode).
Proof. unfold decide_mode, reject_limits, value_error. frame. Qed.
Lemma frames_uuid : frames same_data (new_uuid : M W str).
Proof. unfold new_uuid. frame. Qed.

Lemma decide_mode_batch identity m allow mode w w' :
  decide_mode identity m allow w = (Ok mode, w') → allow = false → mode = SendBatch.
Proof.
  intros E ->. revert E.
  unfold decide_mode, reject_limits, value_error, bind, of_res.
  destruct (evaluate_upload app_limits identity m) as [[[]|]|]; by intros [=].
Qed.

(** A step that keeps the data. *)
Lemma wp_same {A B} (m : M W A) (k : A → M W B) (Q : B → W → Prop) w0 w :
  same_data w0 w → frames same_data m →
  (∀ a w', m w = (Ok a, w') → same_data w0 w' → wp (k a) Q (λ _, same_data w0) w') →
  wp (bind m k) Q (λ _, same_data w0) w.
Proof.
  intros Hw0 Hm Hk. apply wp_bind. unfold wp at 1. specialize (Hm w).
  destruct (m w) as [[a|e] w'] eqn:E; cbn in Hm; [apply Hk; [done|]|]; by etrans.
Qed.

Lemma wp_prepare to path manifest identity label allow w :
  mime_text → uuid_text → manifest_text manifest →
  wp (prepare_send_init to path manifest identity label (Some app_alias) allow)
    (λ r w', same_data w w' ∧ (allow = false → sr_mode r = SendBatch) ∧ ∃ recipient bid fresh count files,
       (resolve_recipient (Some app_alias) to label w).1 = Ok recipient ∧
       enriched_of manifest files ∧ utf8_valid bid = true ∧ utf8_valid fresh = true ∧
       sr_bundle_id r = bid ∧
       (sr_mode r = SendBatch → sr_upload_url r = Some (rstrip "/" (cf_public_base_url app_config) +:+ "/upload/"
         +:+ quote (inbox_path recipient path))) ∧
       sr_token r = sign fresh (credential (sr_mode r) recipient path bid (sender_or_label label identity) count files
         (now_seconds w) (upload_ttl identity)) (cf_jwt_primary_key app_config))
    (λ _ w', same_data w w') w.
Proof.
  intros Hmt Hu Ht. unfold prepare_send_init. apply wp_bind.
  eapply wp_mono; [| |apply wp_parse_manifest]; [|by intros e w' ->]. intros m w1 [-> Hm].
  apply wp_bind. unfold wp at 1. destruct (check_leaf_path path w) as [r w2] eqn:Eleaf.
  apply leaf_path_state in Eleaf as ->. destruct r as [[]|e]; [|done].
  assert (Hd2 : same_data w w) by done.
  eapply wp_same; [exact Hd2|apply frames_recipient|]. intros recipient w3 Erec Hd3.
  eapply wp_same; [exact Hd3|apply frames_access|]. intros _ w4 _ Hd4.
  eapply wp_same; [exact Hd4|apply frames_decide|]. intros mode w5 Emode Hd5.
  pose proof (decide_mode_batch _ _ _ _ _ _ Emode) as Hmode.
  apply wp_bind. unfold enrich_manifest_mimes. apply wp_bind. rewrite Hm.
  eapply wp_mono; [| |by apply wp_enrich]; [|done]. intros files w6 [He Hd6].
  assert (Hd6' : same_data w w6) by by etrans. apply wp_ret.
  eapply wp_same; [exact Hd6'|apply frames_uuid|]. intros bid w7 Hbid Hd7.
  apply wp_bind, wp_get. cbv zeta.
  eapply wp_same; [exact Hd7|apply frames_uuid|]. intros fresh w8 Hfresh Hd8.
  assert (Hut : ∀ u (wa wb : W), new_uuid wa = (Ok u, wb) → utf8_valid u = true).
  { intros u wa wb. unfold new_uuid, bind, get, modify, ret. intros [= <- _]. apply ascii_utf8, Hu. }
  apply wp_bind, wp_struct_log, wp_bind, wp_safe_emit. intros evs. apply wp_ret.
  split; [by etrans; [exact Hd8|split]|]. split; [exact Hmode|].
  exists recipient, bid, fresh, (um_file_count m), files. split_and!; [by rewrite Erec|done| | |done| |].
  - by eapply Hut.
  - by eapply Hut.
  - cbn [sr_mode sr_upload_url]. by intros ->.
  - cbn [sr_token sr_mode]. unfold credential, now_seconds. by rewrite (sd_now _ _ Hd7).
Qed.

(** *** Verifying the credential *)

Section issued.
Variables (mode : send_mode) (recipient path bid sender fresh : str) (count : Z) (files : list ManifestFile) (now ttl : Z).
Hypothesis Hrecords : forallb json_wf (manifest_records files) = true.
Hypothesis Htext : utf8_valid bid = true ∧ utf8_valid fresh = true ∧ utf8_valid sender = true ∧
  utf8_valid recipient = true ∧ utf8_valid (inbox_path recipient path) = true.

Let claims := credential mode recipient path bid sender count files now ttl.

Lemma credential_unsigned : unsigned_ok claims = true.
Proof.
  destruct Htext as (Hb & _ & Hs & Hr & Hp). unfold unsigned_ok. apply andb_true_iff. split; [|done].
  change (bool_decide (NoDup ["bundle_path"; "bundle_id"; "sender"; "recipient"; "mode"; "manifest"; "iat"; "nbf"; "exp"])
    && (utf8_valid (inbox_path recipient path) && (utf8_valid bid && (utf8_valid sender && (utf8_valid recipient &&
       (utf8_valid (mode_name mode) && ((bool_decide (NoDup ["file_count"; "files"]) && (true && (forallb json_wf (manifest_records files) && true)))
       && (true && (true && (true && true))))))))) = true).
  rewrite Hb, Hs, Hr, Hp, Hrecords. by destruct mode; vm_compute.
Qed.

(** What the verification returns. *)
Definition payload : dict := dict_set "jti" (JStr fresh) claims.

Lemma payload_claims :
  json_wf (JDict payload) = true ∧ dict_get "bundle_id" payload = Some (JStr bid) ∧
  dict_get "sender" payload = Some (JStr sender) ∧ get_is "mode" (mode_name mode) payload = true ∧
  dict_get "bundle_path" payload = Some (JStr (inbox_path recipient path)) ∧
  manifest_files_of payload = Ok (manifest_records files).
Proof.
  unfold payload, get_is, manifest_files_of. rewrite !dict_get_set. rewrite !decide_False by done.
  split_and!; try done; [|by destruct mode]. apply dict_set_wf; [|done|].
  - by pose proof credential_unsigned as [? _]%andb_true_iff.
  - apply Htext.
Qed.

Context `{!PyJwtLaws}.

Lemma credential_verifies w key :
  (∀ jti, app_revocation jti = Ok tt) → (now <= now_seconds w < now + ttl)%Z →
  key = primary (w_slots w) ∨ (resolve_secondary (w_mono w) (w_slots w)).1 = Some key →
  (verify_token (sign fresh claims key) w).1 = Ok payload ∧ w_store (verify_token (sign fresh claims key) w).2 = w_store w
  ∧ w_now (verify_token (sign fresh claims key) w).2 = w_now w.
Proof.
  intros Hrev Hnow Hkey. unfold verify_token, bind, get, modify, of_res.
  destruct (verify_with_slots _ _ _ _ _) as [r sl] eqn:E. cbn. split; [|done].
  pose proof (verify_with_slots_eq app_revocation (now_seconds w) (w_mono w) (w_slots w) (sign fresh claims key)) as Ev.
  rewrite E in Ev. cbn in Ev. subst r.
  rewrite verify_signed by (apply credential_unsigned || apply Htext). rewrite decide_True by done.
  fold payload. unfold timed_result, claim_int, payload. rewrite !dict_get_set, !decide_False by done.
  change (dict_get "exp" claims) with (Some (JInt (now + ttl))). change (dict_get "nbf" claims) with (Some (JInt now)).
  change (dict_get "iat" claims) with (Some (JInt now)). cbv beta iota.
  rewrite (proj2 (Z.ltb_ge _ now)), (proj2 (Z.leb_gt (now + ttl) _)) by lia. cbn [token_error_of]. by rewrite Hrev.
Qed.

Lemma upload_claims_accepted rq bp w key :
  (∀ jti, app_revocation jti = Ok tt) → (now <= now_seconds w < now + ttl)%Z →
  key = primary (w_slots w) ∨ (resolve_secondary (w_mono w) (w_slots w)).1 = Some key →
  extract_bearer_token (rq_authorization rq) = Some (sign fresh claims key) →
  unquote bp = inbox_path recipient path →
  mode = SendBatch →
  ∃ w', upload_claims_of rq bp w = (Ok (payload, inbox_path recipient path), w')
    ∧ w_store w' = w_store w ∧ w_now w' = w_now w.
Proof.
  intros Hrev Hnow Hkey Ht Hbp Hmode. destruct (credential_verifies w key Hrev Hnow Hkey) as (E & Es & En).
  destruct payload_claims as (_ & _ & _ & Em & Ep & _).
  rewrite Hmode in Em. cbn [mode_name] in Em.
  assert (Es' : get_str "bundle_path" "" payload = inbox_path recipient path) by (unfold get_str; by rewrite Ep).
  clear Ep. rename Es' into Ep. unfold upload_claims_of, extract_bearer, bind, catch. rewrite Ht. unfold ret at 1.
  destruct (verify_token _ w) as [r w']. cbn in *. subst r. exists w'. rewrite Em, Ep. cbn [negb].
  by rewrite decide_True.
Qed.
End issued.

(** *** An archive of the declared files *)

Definition archive_of (V : list (str * bytes)) : list (res TarInfo) :=
  map (λ v, Ok {| ti_name := v.1; ti_size := blen v.2; ti_isreg := true; ti_data := Ok (Some v.2) |}) V.
(** The files have the declared names and sizes, in any order. *)
Definition matches (manifest : SendManifest) (V : list (str * bytes)) : Prop :=
  map (λ v, (v.1, blen v.2)) V ≡ₚ declared manifest.

Lemma foldl_insert_lookup {A} (l : list (str * A)) (m : gmap str A) n d :
  NoDup l.*1 → (n, d) ∈ l → foldl (λ m e, <[e.1 := e.2]> m) m l !! n = Some d.
Proof.
  assert (Hout : ∀ (l : list (str * A)) (m : gmap str A), n ∉ l.*1 →
    foldl (λ m e, <[e.1 := e.2]> m) m l !! n = m !! n).
  { clear. induction l as [|[n' d'] l IH]; intros m Hn; [done|]. cbn in *. apply not_elem_of_cons in Hn as [Hne Hn].
    rewrite IH, lookup_insert_ne by done. done. }
  revert m. induction l as [|[n' d'] l IH]; intros m Hnd Hin; [by apply not_elem_of_nil in Hin|].
  cbn in Hnd |- *. apply NoDup_cons in Hnd as [Hn Hnd]. apply elem_of_cons in Hin as [[= -> ->]|Hin]; [|by apply IH].
  rewrite Hout by done. apply lookup_insert_eq.
Qed.

Lemma enriched_names manifest files : enriched_of manifest files → map mf_name files = (declared manifest).*1.
Proof.
  unfold enriched_of, declared. generalize (sm_files manifest). intros fs He.
  induction He as [|f e fs es (En & _) He IH]; [done|]. cbn. by rewrite En, IH.
Qed.

Lemma enriched_names_ok manifest files :
  enriched_of manifest files → names_ok (map sf_name (sm_files manifest)) → names_ok (map mf_name files).
Proof.
  intros He. rewrite (enriched_names _ _ He). unfold declared.
  replace ((map (λ f, (sf_name f, sf_size f)) (sm_files manifest)).*1) with (map sf_name (sm_files manifest)); [done|].
  clear. induction (sm_files manifest); [done|]. cbn. by f_equal.
Qed.

Lemma enriched_pairs manifest files : enriched_of manifest files → entry_pairs files = declared manifest.
Proof.
  unfold enriched_of, declared, entry_pairs. generalize (sm_files manifest). intros fs He.
  induction He as [|f e fs es (En & Ez & _) He IH]; [done|]. cbn. by rewrite En, Ez, IH.
Qed.

Lemma declared_of_records files : declared_names (manifest_records files) = Ok (map mf_name files).
Proof. apply map_res_Ok. induction files as [|f files IH]; by constructor. Qed.

Lemma by_name_of_records files :
  NoDup (map mf_name files) →
  ∃ bn, by_name_of (manifest_records files) = Ok bn ∧
    ∀ n z, (n, z) ∈ entry_pairs files → ∃ d, bn !! n = Some d ∧ get_int "size" 0 d = Ok z.
Proof.
  intros Hnd. unfold by_name_of, res_bind.
  set (entry := λ f, (mf_name f, [("name", JStr (mf_name f)); ("size", JInt (mf_size f));
    ("mime", JStr (default "" (mf_mime f)))]) : str * dict).
  assert (map_res declared_file (manifest_records files) = Ok (map entry files)) as ->.
  { apply map_res_Ok. clear Hnd. induction files as [|f files IH]; by constructor. }
  eexists. split; [done|]. intros n z Hin. apply list_elem_of_In, in_map_iff in Hin as (f & [= <- <-] & Hf).
  exists (entry f).2. split; [|done]. apply foldl_insert_lookup.
  - replace ((map entry files).*1) with (map mf_name files); [done|]. clear. induction files; [done|]. cbn. by f_equal.
  - apply list_elem_of_In, in_map_iff. by exists f.
Qed.

Lemma wp_accepts p h0 s0 bn V V0 acc w :
  names_ok (V0 ++ V).*1 → (∀ n d, (n, d) ∈ V → ∃ dict, bn !! n = Some dict ∧ get_int "size" 0 dict = Ok (blen d)) →
  Forall (λ v, blen v.2 <= effective_per_file_max)%Z V →
  bl_session p h0 V0 s0 (w_store w) acc.1.1 → acc.1.2 = (list_to_set V0.*1 : gset str) →
  wp (fold_m (tar_step bn) acc (archive_of V))
    (λ acc' w', bl_session p h0 (V0 ++ V) s0 (w_store w') acc'.1.1 ∧ w_now w' = w_now w
       ∧ acc'.1.2 = (list_to_set (V0 ++ V).*1 : gset str)) (λ _ _, False) w.
Proof.
  revert V0 acc w. induction V as [|[n d] V IH]; intros V0 [[h seen] total] w Hok Hbn Hcap Hs Hseen.
  { by rewrite app_nil_r. }
  apply Forall_cons in Hcap as [Hcd Hcap]. cbn [fst snd] in *. subst seen.
  destruct (Hbn n d) as (dict & En & Ez); [by left|].
  assert (Hok1 : names_ok (V0.*1 ++ [n])).
  { rewrite fmap_app in Hok. apply (names_ok_prefix _ V.*1). by rewrite <- app_assoc. }
  destruct (bl_write _ _ _ _ _ _ n d Hs Hok1) as (h' & s' & E & Hs').
  cbn [archive_of map fold_m]. apply wp_bind. unfold tar_step at 1.
  apply wp_bind, wp_of_res. cbn [ti_name ti_size ti_isreg ti_data negb fst snd]. rewrite En.
  apply wp_bind, wp_of_res. rewrite Ez. rewrite bool_decide_true by done. cbn [negb].
  rewrite decide_False by lia. apply wp_bind, wp_of_res. rewrite bool_decide_true by done. cbn [negb].
  apply wp_bind, wp_on_store. unfold wp at 1. rewrite E. apply wp_ret.
  eapply wp_mono; [| |apply (IH (V0 ++ [(n, d)]))].
  - intros acc' w' (Hs2 & Hnow & Hseen2). rewrite <- app_assoc in Hs2, Hseen2. by split_and!.
  - done.
  - by rewrite <- app_assoc.
  - intros n' d' Hin. apply Hbn. by right.
  - done.
  - exact Hs'.
  - cbn [fst snd]. rewrite fmap_app, list_to_set_app_L. set_solver.
Qed.

Lemma matches_names manifest files V :
  enriched_of manifest files → matches manifest V → V.*1 ≡ₚ map mf_name files.
Proof.
  intros He Hm. rewrite (enriched_names _ _ He), <- Hm. replace ((map (λ v, (v.1, blen v.2)) V).*1) with (V.*1); [done|].
  clear. induction V; [done|]. cbn. by f_equal.
Qed.

Lemma records_declared manifest files V bid sender now :
  sm_files manifest ≠ [] → enriched_of manifest files → matches manifest V → NoDup (map mf_name files) →
  declares (uploaded_meta bid sender now (manifest_records files)) (written_of V).
Proof.
  intros Hne He Hm Hnd. pose proof (matches_names _ _ _ He Hm) as Hnames.
  exists (manifest_records files), (map mf_name files). split_and!; [done| | |done| |].
  - intros E%map_eq_nil. subst files. by apply Forall2_nil_inv_r in He.
  - apply mapM_Some. clear. induction files as [|f files IH]; [by constructor|]. by constructor.
  - rewrite dom_written_of. by apply list_to_set_perm_L.
  - assert (Hin : ∀ f, f ∈ files → written_of V !! mf_name f = Some (mf_size f)).
    { intros f Hf. assert (Hf' : (mf_name f, mf_size f) ∈ map (λ v : str * bytes, (v.1, blen v.2)) V).
      { rewrite Hm, <- (enriched_pairs _ _ He). apply list_elem_of_In, in_map_iff. exists f. split; [done|]. by apply list_elem_of_In. }
      apply list_elem_of_In, in_map_iff in Hf' as ([n d] & [= <- <-] & Hv). apply written_of_lookup.
      - by rewrite Hnames.
      - by apply list_elem_of_In. }
    clear -Hin. induction files as [|f files IH]; constructor.
    + exists (mf_size f). split; [done|]. apply Hin. by left.
    + apply IH. intros g Hg. apply Hin. by right.
Qed.

Lemma wp_stream_accepts p h0 s0 manifest files V w :
  enriched_of manifest files → matches manifest V → names_ok (map mf_name files) →
  Forall (λ v, blen v.2 <= effective_per_file_max)%Z V → bl_session p h0 [] s0 (w_store w) h0 →
  wp (stream_tar_into_writer (archive_of V) h0 (manifest_records files))
    (λ r w', bl_session p h0 V s0 (w_store w') r.1 ∧ w_now w' = w_now w) (λ _ _, False) w.
Proof.
  intros He Hm Hok Hcap Hs. pose proof (matches_names _ _ _ He Hm) as Hnames.
  destruct (by_name_of_records files) as (bn & Ebn & Hbn); [apply Hok|].
  pose proof (by_name_dom _ _ _ (declared_of_records files) Ebn) as Hdom.
  unfold stream_tar_into_writer. apply wp_bind, wp_of_res. rewrite Ebn. apply wp_bind.
  eapply wp_mono; [| |apply (wp_accepts p h0 s0 bn V [] (h0, ∅, 0%Z) w)]; [|done| |  |done|exact Hs|done].
  - intros [[h seen] total] w' (Hs' & Hnow & Hseen). cbn [fst snd app] in *. subst seen.
    replace (elements (dom bn ∖ list_to_set V.*1)) with (@nil str); [done|].
    symmetry. apply elements_empty_iff. rewrite Hdom, (list_to_set_perm_L _ _ Hnames). set_solver.
  - cbn [app]. eapply names_ok_sub; [exact Hok| |].
    + rewrite Hnames. apply Hok.
    + intros n. by rewrite Hnames.
  - intros n d Hin. apply Hbn. rewrite (enriched_pairs _ _ He), <- Hm.
    apply list_elem_of_In, in_map_iff. exists (n, d). split; [done|]. by apply list_elem_of_In.
Qed.

(** The upload route, from verified claims on. *)
Lemma wp_upload_accepts tar_open rq bp claims p manifest files V bid sender w w1 :
  upload_claims_of rq bp w = (Ok (claims, p), w1) → w_store w1 = w_store w → w_now w1 = w_now w →
  manifest_files_of claims = Ok (manifest_records files) → dict_get "bundle_id" claims = Some (JStr bid) →
  dict_get "sender" claims = Some sender →
  utf8_valid bid = true → json_wf sender = true → forallb json_wf (manifest_records files) = true →
  sm_files manifest ≠ [] → enriched_of manifest files → matches manifest V → names_ok (map mf_name files) →
  Forall (λ v, blen v.2 <= effective_per_file_max)%Z V → rq_body_error rq = None →
  tar_open (bool_decide (lower (rq_content_encoding rq) = "gzip")) (body_of rq) = archive_of V →
  bl_inv (w_store w) → key_ok p → bl_free (w_store w) p →
  wp (upload_bundle tar_open rq bp)
    (λ rsp w', rsp = json_response 201 (JDict [("bundle_id", JStr bid); ("ok", JBool true)]) [] ∧
       same_reads_outside p (w_store w) (w_store w') ∧
       stored (w_store w') p (uploaded_meta bid sender (w_now w) (manifest_records files)) V)
    (λ _ _, False) w.
Proof.
  intros Hcl Es Ew Hfiles Hid Hsender Hb Hsw Hrw Hne He Hm Hok Hcap Hbody Htar Hi Hp Hfree.
  unfold upload_bundle. apply wp_bind. unfold wp at 1. rewrite Hcl. rewrite <- Es in Hi, Hfree |- *.
  apply wp_bind, wp_of_res. rewrite Hfiles. apply wp_bind, wp_of_res. unfold dict_item. rewrite Hid.
  cbv zeta. cbn [py_str]. apply wp_bind, wp_struct_log, wp_bind. unfold open_or_409. apply wp_catch, wp_on_store.
  cbn [w_store add_events]. destruct (bl_open_free p _ Hi Hp Hfree) as (h0 & s & Eo).
  pose proof (bl_open p _ Hi Hp) as Hs. unfold wp in Hs |- * at 1. rewrite Eo in Hs |- *.
  rewrite Htar. apply wp_bind, wp_catch, wp_bind.
  eapply wp_mono; [| |by apply (wp_stream_accepts p h0 (w_store w1) manifest files V)]; [|done].
  intros [h total] w2 [Hs2 Hnow]. cbn [fst] in Hs2. cbn [w_now set_store add_events] in Hnow.
  apply wp_bind. unfold read_body. rewrite Hbody. apply wp_ret, wp_ret, wp_bind, wp_get, wp_bind.
  rewrite Hsender. cbn [default from_option id]. rewrite Hnow.
  pose proof (matches_names _ _ _ He Hm) as Hnames.
  assert (Hdecl : declares (uploaded_meta bid sender (w_now w1) (manifest_records files)) (written_of V)).
  { apply (records_declared manifest); [done..|apply Hok]. }
  destruct (bl_commit p h0 V (w_store w1) (w_store w2) h
    (uploaded_meta bid sender (w_now w1) (manifest_records files))) as (h' & s' & Ec & _ & Hst & Hout).
  - exact Hs2.
  - eapply names_ok_sub; [exact Hok|rewrite Hnames; apply Hok|intros n; by rewrite Hnames].
  - apply bundle_meta_wf; [done..| |done]. by destruct (_ <? _)%nat.
  - done.
  - apply wp_catch, wp_on_store. unfold wp at 1. rewrite Ec.
    apply wp_bind, wp_struct_log, wp_bind, wp_safe_emit. intros evs. apply wp_bind, wp_safe_emit. intros evs'.
    apply wp_ret. rewrite <- Ew. by split_and!.
Qed.
End send.

(** ** Properties *)


(** A send of two files to [bob], and the archive as the body itself. *)
#[local] Existing Instances Demo.storage Demo.claims Demo.keys ToyJwt demo_bundle_laws.
#[local] Instance open_server : App KeyStore := Demo.core true.

Definition demo_manifest : SendManifest := {|
  sm_files := [{| sf_name := "a.txt"; sf_size := 5; sf_mime := None |};
               {| sf_name := "sub/b"; sf_size := 0; sf_mime := Some "text/plain" |}];
  sm_file_count := None |}.
Definition demo_send := prepare_send_init "bob" "m1" demo_manifest dev_identity (Some "alice") (Some app_alias) false
  (Demo.world 0).
Definition demo_result : SendInitResult :=
  match demo_send.1 with
  | Ok r => r
  | Raise _ => {| sr_bundle_id := ""; sr_mode := SendInline; sr_token := ""; sr_expires_at := ""; sr_upload_url := None |}
  end.
Definition demo_archive : list (str * bytes) := [("sub/b", ""); ("a.txt", "hello")].
Definition demo_upload : HttpRequest := {|
  rq_x_setup_token := None; rq_credentials := None; rq_authorization := "Bearer " +:+ sr_token demo_result;
  rq_x_sender := None; rq_raw_path := ""; rq_content_type := ""; rq_content_encoding := ""; rq_body := [];
  rq_body_error := None; rq_form := []; rq_client := "127.0.0.1" |}.

Lemma demo_send_Ok : demo_send = (Ok demo_result, demo_send.2).
Proof.
  unfold demo_result. destruct demo_send as [[r|e] w] eqn:E; [done|].
  assert (Hok : match demo_send.1 with Ok _ => true | Raise _ => false end = true) by by vm_compute.
  by rewrite E in Hok.
Qed.

Lemma demo_send_store : w_store demo_send.2 = fs_init.
Proof. by vm_compute. Qed.

