(* ===== verification/Deliver.v ===== *)
(** * From a reference pick to the last byte

    The life of a download claim over any stores that keep the contracts: a
    reference pick mints a credential and persists its claim, a second pick is
    refused, each file is served with the credential and recorded, and the last
    one ends the claim and the bundle. *)

From Stdlib Require Import Ascii String.
From stdpp Require Import pretty.
From S2P Require Import Prelude PyStr PyCodec Json DateTime Effects PyNum Paths Limits Config.
From S2P Require Import Claims KeyStore Jwt FsModel Storage World Frame Backends ClaimLaws Bundles Downloads Inbox Files RoundTrips.
From S2P Require Import SendInit Upload Download TwoPhase.
Local Open Scope string_scope.
Local Open Scope list_scope.
Local Open Scope effect_scope.

(** ** The records of a bundle *)

(** The records of the files, in their order, with their types. *)
Definition recorded (V : list (str * bytes)) (recs : list json) : Prop :=
  Forall2 (λ v r, ∃ m, r = file_record v.1 (blen v.2) m ∧ utf8_valid m = true) V recs.

Lemma recorded_names V recs : recorded V recs → manifest_names recs = Ok V.*1.
Proof.
  intros Hr. apply map_res_Ok. induction Hr as [|v r V recs (m & -> & _) Hr IH]; by constructor.
Qed.
Lemma recorded_record_names V recs : recorded V recs → map_res record_name recs = Ok V.*1.
Proof.
  intros Hr. apply map_res_Ok. induction Hr as [|v r V recs (m & -> & _) Hr IH]; by constructor.
Qed.
Lemma recorded_file_names V recs : recorded V recs → Forall2 (λ r f, record_file_name r = Ok f.1) recs V.
Proof. induction 1 as [|v r V recs (m & -> & _) Hr IH]; by constructor. Qed.
Lemma recorded_total V recs : recorded V recs → total_size_of recs = Ok (sumZ (map (λ f, blen f.2) V)).
Proof.
  intros Hr. unfold total_size_of.
  assert (map_res size_of_record recs = Ok (map (λ f, blen f.2) V)) as ->; [|done].
  apply map_res_Ok. induction Hr as [|v r V recs (m & -> & _) Hr IH]; by constructor.
Qed.
Lemma recorded_entry V recs name data :
  recorded V recs → NoDup V.*1 → (name, data) ∈ V →
  ∃ m, find_entry name recs = Ok (Some [("name", JStr name); ("size", JInt (blen data)); ("mime", JStr m)]).
Proof.
  induction 1 as [|[n d] r V recs (m & -> & _) Hr IH]; intros Hnd Hin; [by apply not_elem_of_nil in Hin|].
  change (((n, d) :: V).*1) with (n :: V.*1) in Hnd. apply NoDup_cons in Hnd as [Hn Hnd].
  cbn [find_entry file_record as_dict res_bind]. change (default JNull (dict_get "name" _)) with (JStr n). cbn [py_str].
  apply elem_of_cons in Hin as [[= -> ->]|Hin]; [rewrite decide_True by done; by exists m|].
  rewrite decide_False; [by apply IH|]. intros ->. apply Hn, list_elem_of_fmap. by exists (name, data).
Qed.

(** ** The credential *)

Definition download_credential (p bid recipient : str) (names : list str) (now ttl : Z) : dict :=
  [("bundle_path", JStr p); ("bundle_id", JStr bid); ("recipient", JStr recipient);
   ("file_names", JList (map JStr names)); ("iat", JInt now); ("nbf", JInt now); ("exp", JInt (now + ttl))].

Lemma build_claims_recorded p meta recs V agent ttl now :
  get_list "files" meta = Ok recs → recorded V recs →
  build_claims p meta agent ttl now = Ok (download_credential p (get_str "bundle_id" "" meta) agent V.*1 now ttl).
Proof. intros Hf Hr. unfold build_claims, res_bind. by rewrite Hf, (recorded_record_names _ _ Hr). Qed.

(** A record of a file in the reference envelope. *)
Definition link (url : str → str) (v : str * bytes) (j : json) : Prop :=
  ∃ m, j = JDict [("name", JStr v.1); ("size", JInt (blen v.2)); ("mime", JStr m); ("url", JStr (url v.1))].

Lemma recorded_links url V recs :
  recorded V recs → ∃ links, map_res (reference_file url) recs = Ok links ∧ Forall2 (link url) V links.
Proof.
  induction 1 as [|v r V recs (m & -> & _) Hr (links & E & Hl)]; [by exists []|].
  cbn [map_res]. rewrite E.
  exists (JDict [("name", JStr v.1); ("size", JInt (blen v.2)); ("mime", JStr (mime_or_default [("name", JStr v.1);
    ("size", JInt (blen v.2)); ("mime", JStr m)])); ("url", JStr (url v.1))] :: links).
  split; [done|]. constructor; [|done]. by eexists.
Qed.

Section credential.
Variables (p bid recipient fresh : str) (names : list str) (now ttl : Z).
Hypothesis Htext : utf8_valid p = true ∧ utf8_valid bid = true ∧ utf8_valid recipient = true ∧
  utf8_valid fresh = true ∧ Forall (λ n, utf8_valid n = true) names.
Let claims := download_credential p bid recipient names now ttl.

Lemma download_unsigned : unsigned_ok claims = true.
Proof.
  destruct Htext as (Hp & Hb & Hr & _ & Hn). unfold unsigned_ok. apply andb_true_iff. split; [|done].
  assert (Hns : forallb json_wf (map JStr names) = true).
  { apply forallb_forall. intros j (n & <- & Hin)%in_map_iff. rewrite Forall_forall in Hn. by apply Hn, list_elem_of_In. }
  change (bool_decide (NoDup ["bundle_path"; "bundle_id"; "recipient"; "file_names"; "iat"; "nbf"; "exp"])
    && (utf8_valid p && (utf8_valid bid && (utf8_valid recipient && (forallb json_wf (map JStr names) && true)))) = true).
  rewrite Hp, Hb, Hr, Hns. by vm_compute.
Qed.

Definition download_payload : dict := dict_set "jti" (JStr fresh) claims.

Lemma download_payload_gets :
  get_or_empty "jti" download_payload = fresh ∧ get_str "bundle_path" "" download_payload = p ∧
  get_str "recipient" "" download_payload = recipient ∧
  dict_get "file_names" download_payload = Some (JList (map JStr names)) ∧
  require_claims ["bundle_path"; "bundle_id"; "recipient"; "file_names"] download_payload = Ok tt.
Proof.
  clear Htext. unfold download_payload, get_or_empty, get_str. cbn [require_claims]. rewrite !dict_get_set.
  rewrite (decide_True (P := "jti" = "jti")) by done. rewrite !decide_False by done.
  split_and!; try done. by destruct fresh.
Qed.

Context `{PyJwtLaws}.

Lemma download_jti key : extract_jti (sign fresh claims key) = fresh.
Proof.
  unfold extract_jti, sign. destruct (signed_payload_valid fresh claims download_unsigned) as [E Hv]; [apply Htext|].
  unfold signed_payload in E, Hv. rewrite E in Hv |- *. rewrite unverified_encode by done. apply download_payload_gets.
Qed.

Lemma download_timed t : (now <= t < now + ttl)%Z → token_error_of (timed_result download_payload t) = Ok download_payload.
Proof.
  clear Htext. intros Ht. unfold timed_result, claim_int, download_payload. rewrite !dict_get_set, !decide_False by done.
  change (dict_get "exp" claims) with (Some (JInt (now + ttl))). change (dict_get "nbf" claims) with (Some (JInt now)).
  change (dict_get "iat" claims) with (Some (JInt now)). cbv beta iota.
  by rewrite (proj2 (Z.ltb_ge _ now)), (proj2 (Z.leb_gt (now + ttl) _)) by lia.
Qed.

Lemma download_verifies rc t slots m key :
  (∀ jti, rc jti = Ok tt) → (now <= t < now + ttl)%Z → key = primary slots →
  verify_with_slots rc t m slots (sign fresh claims key) = (Ok download_payload, (resolve_secondary m slots).2).
Proof.
  intros Hrc Ht ->. unfold verify_with_slots. destruct (resolve_secondary m slots) as [s sl]. f_equal.
  rewrite verify_signed by (apply download_unsigned || apply Htext). rewrite decide_True by by left.
  fold download_payload. rewrite download_timed by done. by rewrite Hrc.
Qed.
End credential.

Lemma resolve_primary m slots : primary (resolve_secondary m slots).2 = primary slots.
Proof. unfold resolve_secondary. by repeat case_match. Qed.

Section deliver.
Context {S C K : Type} `{StorageReads S, !BundleLaws S, !ClaimStorage C, !ClaimLaws C, KeyStoreProtocol K, !App K, PyJwtLaws}.
Abbreviation W := (World S C K).
Implicit Types (w : W).

(** ** Lemmas: authentication only touches the keys *)

Definition core w : S * C * JWTKeySlots * Z * Z := (w_store w, w_claims w, w_slots w, w_now w, w_mono w).
Definition core_kept w w' : Prop := core w' = core w.
#[local] Instance core_kept_preorder : PreOrder core_kept.
Proof. split; [done|]. unfold core_kept. intros ???; congruence. Qed.

Lemma core_events evs w : core (add_events evs w) = core w.
Proof. done. Qed.
Lemma core_on_keys {A} (m : M K A) : frames core_kept (on_keys m : M W A).
Proof. intros w. unfold on_keys, lift. by destruct (m (w_keys w)). Qed.
Lemma core_struct_log level name : frames core_kept (struct_log level name : M W unit).
Proof. by intros w. Qed.
Lemma core_metric e : frames core_kept (emit_metric e : M W unit).
Proof. intros w. unfold emit_metric. by destruct (app_metric_fails e). Qed.
Lemma core_auth_failure source reason hint : frames core_kept (emit_auth_failure source reason hint : M W unit).
Proof.
  intros w. unfold emit_auth_failure. case_match; [done|].
  destruct (attempt_emits (struct_log WARNING "auth.failure";;;
     emit_metric (Increment "cassetta.auth.failures" 1 [("source", source); ("reason", reason)]))
    (struct_log ERROR "auth observability emission failed") w) as [evs ->]; [| |done].
  - intros w'. unfold bind, struct_log, modify. destruct (emit_metric_cases
      (Increment "cassetta.auth.failures" 1 [("source", source); ("reason", reason)])
      (add_events [Log WARNING "auth.failure"] w')) as (r & evs & E).
    eexists r, _. by rewrite E, add_events_app.
  - intros w'. apply struct_log_emits.
Qed.
#[local] Hint Resolve core_on_keys core_struct_log core_metric core_auth_failure : cassetta.

Lemma core_identity rq : frames core_kept (get_current_identity rq : M W Identity).
Proof. unfold get_current_identity, http_error. frame. Qed.

Lemma wp_identity_core rq id (Q : Identity → W → Prop) X w :
  (get_current_identity rq w).1 = Ok id → (∀ w', core w' = core w → Q id w') → wp (get_current_identity rq) Q X w.
Proof.
  intros E HQ. pose proof (core_identity rq w) as Hf. unfold wp. destruct (get_current_identity rq w) as [[i|e] w']; [|done].
  cbn in *. simplify_eq. by apply HQ.
Qed.

(** ** Lemmas: a reference pick *)

(** The envelope of a pick: the credential, and a link for every file. *)
Definition envelope_of (p : str) (V : list (str * bytes)) (token : str) (j : json) : Prop :=
  ∃ meta links expires, j = JDict [("mode", JStr "reference"); ("bundle", JDict meta); ("files", JList links);
    ("download_token", JStr token); ("expires_at", JStr expires)] ∧
  Forall2 (link (λ name, app_transport p name token)) V links.

(** The claim on [p] with the files fetched so far, and the credential that
    goes with it. *)
Record holds (p agent : str) (V : list (str * bytes)) (fetched : list str) (token : str) (w : W) (c : ClaimRecord) : Prop := {
  ho_inv : cl_inv (w_claims w);
  ho_claim : cl_claim (w_claims w) (cr_jti c) = Some c;
  ho_path : cr_bundle_path c = p;
  ho_fetched : cr_files_fetched c = fetched;
  ho_token : ∃ bid now ttl, utf8_valid bid = true ∧ (now <= now_seconds w < now + ttl)%Z ∧
    token = sign (cr_jti c) (download_credential p bid agent V.*1 now ttl) (cf_jwt_primary_key app_config);
}.

Definition live w (p : str) (meta : dict) (recs : list json) (V : list (str * bytes)) : Prop :=
  stored (w_store w) p meta V ∧ get_list "files" meta = Ok recs ∧ recorded V recs.

Lemma manifest_live w p meta recs V :
  live w p meta recs V → get_int "file_count" 1 meta = Ok (Z.of_nat (length V)) → manifest_of meta recs V.
Proof. intros (_ & Hf & Hr) Hc. split; [done|done|by apply recorded_total|by apply recorded_file_names]. Qed.

Lemma claim_record_ok jti p meta agent now :
  utf8_valid jti = true → utf8_valid p = true → utf8_valid (get_str "bundle_id" "" meta) = true → utf8_valid agent = true →
  claim_ok (claim_record jti p meta agent now) = true.
Proof.
  intros Hj Hp Hb Ha. unfold claim_ok. cbn. rewrite Hj, Hp, Hb, Ha, isoformat_utf8. done.
Qed.

(** Minting a reference for the inbox: either the claim is new and held, or
    somebody holds the bundle. *)
Lemma wp_reference identity p meta recs V agent w :
  live w p meta recs V → cl_inv (w_claims w) → uuid_text → Forall (λ v, utf8_valid v.1 = true) V →
  utf8_valid p = true → utf8_valid (get_str "bundle_id" "" meta) = true → utf8_valid agent = true →
  (0 < download_ttl identity)%Z →
  wp (build_reference_payload_for_inbox identity p meta agent true)
    (λ j w', w_store w' = w_store w ∧ w_slots w' = w_slots w ∧ ∃ token c, envelope_of p V token j ∧ holds p agent V [] token w' c)
    (λ e w', e = BundleClaimedError p ∧ w_store w' = w_store w ∧ cl_inv (w_claims w') ∧
       ∀ j, cl_claim (w_claims w') j = cl_claim (w_claims w) j) w.
Proof.
  intros (Hs & Hfiles & Hrec) Hi Hu Hnames Hp Hb Ha Httl. unfold build_reference_payload_for_inbox.
  apply wp_bind, wp_get. cbv zeta. apply wp_bind. unfold mint_download_token. apply wp_bind, wp_get.
  apply wp_bind, wp_of_res. rewrite (build_claims_recorded _ _ _ _ _ _ _ Hfiles Hrec).
  apply wp_bind. unfold new_uuid. apply wp_bind, wp_get, wp_bind, wp_modify, wp_ret. cbv zeta. apply wp_ret.
  set (fresh := app_uuid (w_uuids w)). set (bid := get_str "bundle_id" "" meta).
  assert (Hf : utf8_valid fresh = true) by apply ascii_utf8, Hu.
  assert (Htext : utf8_valid p = true ∧ utf8_valid bid = true ∧ utf8_valid agent = true ∧ utf8_valid fresh = true ∧
    Forall (λ n, utf8_valid n = true) V.*1).
  { split_and!; [done..|]. by rewrite Forall_fmap. }
  rewrite (download_jti p bid agent fresh V.*1 (now_seconds w) (download_ttl identity) Htext).
  set (token := sign fresh _ _). unfold when. apply wp_bind, wp_bind. unfold on_claims.
  pose proof (cl_issue (w_claims w) (claim_record fresh p meta agent (w_now w)) Hi
    (claim_record_ok _ _ _ _ _ Hf Hp Hb Ha)) as Hw.
  unfold wp at 1, lift. unfold wp in Hw. cbn [w_claims set_uuids].
  destruct (cs_issue (claim_record fresh p meta agent (w_now w)) (w_claims w)) as [[[]|e] cs].
  2: { destruct Hw as (-> & ? & ?). done. }
  destruct Hw as [Hi' Hcl]. apply wp_modify. apply wp_of_res. unfold build_reference_envelope_with_path.
  rewrite Hfiles. cbn [res_bind].
  destruct (recorded_links (λ name, app_transport p name token) V recs Hrec) as (links & -> & Hl). cbn [res_bind].
  split_and!; [done|done|]. exists token, (claim_record fresh p meta agent (w_now w)).
  split; [by eexists _, _, _|]. split; [done| |done|done|].
  - cbn. by rewrite Hcl, decide_True.
  - exists bid, (now_seconds w), (download_ttl identity). split_and!; [done| | |done]; unfold now_seconds; cbn; lia.
Qed.

Lemma core_parts w w' : core w' = core w →
  w_store w' = w_store w ∧ w_claims w' = w_claims w ∧ w_slots w' = w_slots w ∧ w_now w' = w_now w.
Proof. unfold core. intros E. by injection E. Qed.

(** A pick of a live bundle, up to the envelope. *)
Lemma wp_pick_reference rq agent path identity meta recs V w (Q : Response → W → Prop) X :
  path ≠ "latest" → (get_current_identity rq w).1 = Ok identity →
  ap_check app_access identity ("inbox:" +:+ agent) "pick" = Ok true →
  live w (inbox_path agent path) meta recs V → get_int "file_count" 1 meta = Ok (Z.of_nat (length V)) → fresh w meta →
  evaluate_download app_limits identity
    {| de_file_count := Z.of_nat (length V); de_total_size := sumZ (map (λ f, blen f.2) V) |} = Ok Reference →
  (∀ w1, core w1 = core w →
    wp (build_reference_payload_for_inbox identity (inbox_path agent path) meta agent true)
      (λ j w', ∀ rsp, rsp_status rsp = 200%Z → rsp_body rsp = j → Q rsp w')
      (λ e w', match e with BundleClaimedError _ => X (HTTPException 404 (DText ("File not found: " +:+ path))) w' | _ => X e w' end) w1) →
  wp (pick_inbox_file rq agent path) Q X w.
Proof.
  intros Hl Hid Hacc Hlive Hcount Hfresh Heval Hk. pose proof (manifest_live _ _ _ _ _ Hlive Hcount) as Hm.
  unfold pick_inbox_file. apply wp_bind. eapply wp_identity_core; [done|]. intros w1 Hc.
  destruct (core_parts _ _ Hc) as (Es & _ & _ & En).
  assert (Hs1 : stored (w_store w1) (inbox_path agent path) meta V) by (rewrite Es; apply Hlive).
  assert (Hf1 : RoundTrips.fresh w1 meta) by (unfold RoundTrips.fresh in *; by rewrite En).
  apply wp_bind. unfold wp at 1. rewrite enforce_allowed by done.
  apply wp_bind, wp_safe_emit. intros evs. apply wp_bind. unfold pick_target. rewrite decide_False by done.
  cbv zeta. apply wp_bind. unfold wp at 1. rewrite live_meta_stored by done. apply wp_ret.
  apply wp_bind. unfold wp at 1. rewrite (download_mode_manifest identity Reference _ Hm Heval). cbv zeta.
  apply wp_bind, wp_catch. eapply wp_mono; [| |apply Hk; by rewrite !core_events].
  - intros j w' HQ. apply wp_ret. by apply HQ.
  - intros e w' HX. by destruct e.
Qed.

(** ** Lemmas: one download *)

(** The client's request for a file. *)
Record download_request (rq : HttpRequest) (p name agent token : str) : Prop := {
  dr_auth : extract_bearer_token (rq_authorization rq) = Some token;
  dr_path : split_raw_path (rq_raw_path rq) = Ok (p, name);
  dr_sender : cf_dev_mode app_config = true ∨ agent ≠ "" ∧ rq_x_sender rq = Some agent;
}.

Lemma download_claims_run rq p agent (V : list (str * bytes)) token bid now ttl fresh w name :
  download_request rq p name agent token →
  token = sign fresh (download_credential p bid agent V.*1 now ttl) (cf_jwt_primary_key app_config) →
  utf8_valid p = true → utf8_valid bid = true → utf8_valid agent = true → utf8_valid fresh = true →
  Forall (λ v, utf8_valid v.1 = true) V → (∀ jti, app_revocation jti = Ok tt) →
  (now <= now_seconds w < now + ttl)%Z → primary (w_slots w) = cf_jwt_primary_key app_config →
  download_claims rq w = (Ok (download_payload p bid agent fresh V.*1 now ttl), set_slots (resolve_secondary (w_mono w) (w_slots w)).2 w).
Proof.
  intros [Ha _ _] -> Hp Hb Hag Hf Hn Hrc Ht Hk. unfold download_claims, bind, ret. rewrite Ha.
  unfold catch. rewrite verify_token_eq. cbv zeta.
  rewrite (download_verifies p bid agent fresh V.*1 now ttl); try done.
  split_and!; [done..|]. by rewrite Forall_fmap.
Qed.

Lemma authorize_run rq p agent (V : list (str * bytes)) bid now ttl fresh token w name data :
  download_request rq p name agent token → (name, data) ∈ V →
  authorize_download rq (download_payload p bid agent fresh V.*1 now ttl) w = (Ok (p, name), w).
Proof.
  intros [_ Hp Hs] Hin. destruct (download_payload_gets p bid agent fresh V.*1 now ttl) as (_ & Ebp & Er & En & Ereq).
  unfold authorize_download, bind, of_res. rewrite Ereq, Hp, Ebp. rewrite bool_decide_true by done. cbn [negb].
  rewrite En. change (py_truthy (JList (map JStr V.*1))) with (match map JStr V.*1 with [] => false | _ => true end).
  assert (Hnames : map py_str (map JStr V.*1) = V.*1) by apply map_py_str.
  assert (Hname : name ∈ V.*1) by (apply list_elem_of_fmap; by exists (name, data)).
  destruct (map JStr V.*1) as [|j l] eqn:El.
  { rewrite <- Hnames in Hname. cbn in Hname. by apply not_elem_of_nil in Hname. }
  unfold get_list. rewrite En. rewrite Hnames, bool_decide_true by done. cbn [negb].
  unfold resolve_identity_label. destruct Hs as [->|[Hne Hs]]; [done|]. rewrite Hs, Er.
  destruct (cf_dev_mode app_config); [done|]. rewrite decide_False by done.
  rewrite (bool_decide_false (agent ≠ agent)) by (intros E; by apply E). by rewrite andb_false_r.
Qed.

Lemma open_run p name data meta recs V w :
  live w p meta recs V → NoDup V.*1 → (name, data) ∈ V →
  ∃ stream, open_download p name w = (Ok (stream, recs), w) ∧ fs_bytes stream = data.
Proof.
  intros (Hs & Hf & Hr) Hnd Hin. destruct (recorded_entry _ _ _ _ Hr Hnd Hin) as (m & Em).
  unfold open_download, bind at 1. rewrite (try_read_meta_stored (files := V)) by done.
  unfold bind, of_res. rewrite Hf, Em. change (get_int "size" 0 _) with (Ok (blen data)). unfold catch, on_store, lift.
  rewrite (proj2 Hs _ _ Hin). rewrite set_store_id. by eexists.
Qed.

(** ** Lemmas: the accounting after the last byte *)

(** The claim is over: it and the bundle are gone. *)
Definition completed (p jti : str) w w' : Prop :=
  bl_inv (w_store w') ∧ absent (w_store w') p ∧ same_reads_outside p (w_store w) (w_store w') ∧
  cl_inv (w_claims w') ∧ cl_claim (w_claims w') jti = None ∧
  ∀ j, j ≠ jti → cl_claim (w_claims w') j = cl_claim (w_claims w) j.

(** The fetched files after another one. *)
Definition with_name (fetched : list str) (name : str) : list str :=
  if bool_decide (name ∈ fetched) then fetched else fetched ++ [name].

Lemma with_name_new fetched name : name ∉ fetched → with_name fetched name = fetched ++ [name].
Proof. intros Hn. unfold with_name. by rewrite bool_decide_false. Qed.
Lemma elem_of_with_name fetched name n : n ∈ with_name fetched name ↔ n ∈ fetched ∨ n = name.
Proof. unfold with_name. case_bool_decide; set_solver. Qed.
Lemma fetch_file_parts c name :
  cr_files_fetched (fetch_file c name) = with_name (cr_files_fetched c) name ∧
  cr_jti (fetch_file c name) = cr_jti c ∧ cr_bundle_path (fetch_file c name) = cr_bundle_path c.
Proof. unfold fetch_file, with_name. by case_bool_decide. Qed.

Lemma accounting_step p agent V token w c meta recs fetched name data :
  holds p agent V fetched token w c → live w p meta recs V → (name, data) ∈ V → utf8_valid name = true →
  (∃ n, n ∈ V.*1 ∧ n ∉ with_name fetched name) →
  ∃ w' c', post_stream_claim_accounting (cr_jti c) p name recs w = (Ok tt, w') ∧ w_store w' = w_store w ∧
    w_slots w' = w_slots w ∧ cr_jti c' = cr_jti c ∧
    (∀ j, j ≠ cr_jti c → cl_claim (w_claims w') j = cl_claim (w_claims w) j) ∧ holds p agent V (with_name fetched name) token w' c'.
Proof.
  intros [Hi Hc Hp Hf Ht] (_ & _ & Hrec) Hin Hn (n & Hnin & Hnot).
  destruct (cl_mark (w_claims w) (cr_jti c) c name Hi Hc Hn) as (s' & Em & Hi' & Hcl).
  destruct (fetch_file_parts c name) as (Ef & Ej & Ep). rewrite Hf in Ef.
  exists (set_claims s' w), (fetch_file c name).
  unfold post_stream_claim_accounting, bind, catch, on_claims, lift, of_res.
  rewrite (cl_get _ _ Hi), Hc. assert (Ew : set_claims (w_claims w) w = w) by by destruct w. rewrite Ew, Em.
  cbn [ret]. rewrite (recorded_names _ _ Hrec), Ef.
  assert (forallb (λ n, bool_decide (n ∈ with_name fetched name)) V.*1 = false) as ->.
  { apply not_true_iff_false. rewrite forallb_forall. intros Hall. apply Hnot.
    by apply (bool_decide_unpack _), Is_true_true, Hall, list_elem_of_In. }
  split_and!; [done..| |].
  { intros j Hj. cbn. by rewrite Hcl, decide_False. }
  split; cbn; [done|by rewrite Hcl, Ej, decide_True|by rewrite Ep|done|by rewrite Ej].
Qed.

Lemma accounting_last p agent V token w c meta recs fetched name data :
  holds p agent V fetched token w c → live w p meta recs V → (name, data) ∈ V → utf8_valid name = true →
  (∀ n, n ∈ V.*1 → n ∈ with_name fetched name) → bl_inv (w_store w) → key_ok p →
  ∃ w', post_stream_claim_accounting (cr_jti c) p name recs w = (Ok tt, w') ∧ completed p (cr_jti c) w w' ∧
    w_slots w' = w_slots w.
Proof.
  intros [Hi Hc Hp Hf Ht] (_ & _ & Hrec) Hin Hn Hall Hbi Hk.
  destruct (cl_mark (w_claims w) (cr_jti c) c name Hi Hc Hn) as (s' & Em & Hi' & Hcl).
  destruct (fetch_file_parts c name) as (Ef & Ej & Ep). rewrite Hf in Ef. unfold post_stream_claim_accounting.
  set (w1 := set_claims s' w). assert (Ew : set_claims (w_claims w) w = w) by by destruct w.
  pose proof (wp_delete_quiet p (λ _ w2, ∃ s, w2 = set_store s w1 ∧ bl_inv s ∧ absent s p ∧ same_reads_outside p (w_store w) s)
    (λ _ _, False) w1 Hbi Hk) as Hdel. unfold wp in Hdel.
  unfold bind at 1, on_claims at 1, lift at 1. rewrite (cl_get _ _ Hi), Hc, Ew.
  unfold bind at 1, catch at 1, bind at 1, on_claims at 1, lift at 1. rewrite Em. fold w1. cbn [ret].
  unfold bind at 1, of_res at 1. rewrite (recorded_names _ _ Hrec), Ef.
  assert (forallb (λ n, bool_decide (n ∈ with_name fetched name)) V.*1 = true) as ->.
  { apply forallb_forall. intros n Hn'. apply bool_decide_true, Hall. by apply list_elem_of_In. }
  unfold bind at 1. destruct (delete_bundle_quiet p w1) as [[[]|e] w2].
  2: { exfalso. apply Hdel. intros s ???. by exists s. }
  destruct Hdel as (s2 & -> & Hbi2 & Habs & Hout); [intros s ???; by exists s|].
  destruct (cl_delete s' (cr_jti c) Hi') as (s3 & Ed & Hi3 & Hcl3).
  unfold bind at 1, on_claims at 1, lift at 1. cbn [w_claims set_store w1 set_claims]. rewrite Ed.
  unfold bind at 1, of_res at 1. rewrite (recorded_total _ _ Hrec).
  eexists. split; [done|]. split; [|done]. split_and!; [done..| |].
  - cbn. by rewrite Hcl3, decide_True.
  - intros j Hj. cbn. by rewrite Hcl3, Hcl, !decide_False.
Qed.

(** The whole route: a client that leaves early gets no accounting. *)
Definition stays (client : option nat) (data : bytes) : bool :=
  match client with Some n => (chunk_count data <=? n)%nat | None => true end.

Lemma download_until_run client rq p name agent V token w c meta recs fetched data :
  download_request rq p name agent token → holds p agent V fetched token w c → live w p meta recs V →
  NoDup V.*1 → (name, data) ∈ V → startswith INBOX_PREFIX p = true →
  utf8_valid p = true → utf8_valid agent = true → Forall (λ v, utf8_valid v.1 = true) V →
  (∀ jti, app_revocation jti = Ok tt) → primary (w_slots w) = cf_jwt_primary_key app_config →
  ∃ w1 stream, w_store w1 = w_store w ∧ w_claims w1 = w_claims w ∧ w_now w1 = w_now w ∧
    primary (w_slots w1) = primary (w_slots w) ∧ fs_bytes stream = data ∧
    if stays client data then
      ∀ w2, post_stream_claim_accounting (cr_jti c) p name recs w1 = (Ok tt, w2) → download_until client rq w = (Ok stream, w2)
    else download_until client rq w = (Ok stream, w1).
Proof.
  intros Hrq [Hi Hc Hpath Hf (bid & now & ttl & Hb & Ht & Etok)] Hlive Hnd Hin Hinbox Hp Hag Hn Hrc Hk.
  destruct (cl_wf _ _ _ Hi Hc) as [_ Hok].
  assert (Hj : utf8_valid (cr_jti c) = true).
  { unfold claim_ok in Hok. bool_to_prop. done. }
  set (w0 := set_slots (resolve_secondary (w_mono w) (w_slots w)).2 w).
  assert (Hlive0 : live w0 p meta recs V) by done.
  destruct (open_run p name data meta recs V w0 Hlive0 Hnd Hin) as (stream & Eo & Eb).
  assert (Hrun : download_until client rq w = bind (match (if stays client data then Some (blen data) else None) with
      | Some total => body_sent total (cr_jti c) p name recs true | None => ret tt end) (λ _, ret stream) w0).
  { unfold download_until, bind at 1.
    rewrite (download_claims_run rq p agent V token bid now ttl (cr_jti c) w name) by done. fold w0.
    unfold bind at 1. rewrite (authorize_run rq p agent V bid now ttl (cr_jti c) token w0 name data) by done.
    unfold bind at 1. rewrite Eo. destruct (download_payload_gets p bid agent (cr_jti c) V.*1 now ttl) as (-> & _).
    unfold body_generator, bind, of_res. by rewrite stream_file, Eb, Hinbox. }
  rewrite Hrun. destruct (stays client data).
  2:{ exists w0, stream. split_and!; [done..|apply resolve_primary|done|done]. }
  unfold body_sent, when.
  destruct (safe_emit_ok None (Some (count_event "cassetta.download.operations" "result" "ok"))
    (add_events [Log DEBUG "download_file_fetched"] w0)) as [evs1 E1].
  destruct (safe_emit_ok None (Some (Increment "cassetta.download.bytes" (blen data) []))
    (add_events evs1 (add_events [Log DEBUG "download_file_fetched"] w0))) as [evs2 E2].
  exists (add_events evs2 (add_events evs1 (add_events [Log DEBUG "download_file_fetched"] w0))), stream.
  split_and!; [done..|apply resolve_primary|done|].
  intros w2 E. unfold bind at 1, bind at 1, struct_log at 1, modify at 1. unfold bind at 1, count_download. rewrite E1.
  unfold bind at 1. rewrite E2, E. done.
Qed.

(** *** A bundle that is claimed *)

Lemma wp_reference_taken identity p meta recs V agent w c :
  live w p meta recs V → cl_inv (w_claims w) → cl_claim (w_claims w) (cr_jti c) = Some c → cr_bundle_path c = p →
  wp (build_reference_payload_for_inbox identity p meta agent true) (λ _ _, False)
    (λ e w', e = BundleClaimedError p ∧ w_store w' = w_store w ∧
       ∀ j, cl_claim (w_claims w') j = cl_claim (w_claims w) j) w.
Proof.
  intros (Hs & Hfiles & Hrec) Hi Hc Hp. unfold build_reference_payload_for_inbox.
  apply wp_bind, wp_get. cbv zeta. apply wp_bind. unfold mint_download_token. apply wp_bind, wp_get.
  apply wp_bind, wp_of_res. rewrite (build_claims_recorded _ _ _ _ _ _ _ Hfiles Hrec).
  apply wp_bind. unfold new_uuid. apply wp_bind, wp_get, wp_bind, wp_modify, wp_ret. cbv zeta. apply wp_ret.
  set (rec := claim_record _ _ _ _ _). apply wp_bind. unfold when. apply wp_bind. unfold on_claims.
  destruct (cl_issue_taken (w_claims w) rec c Hi Hc Hp) as (s' & E & _ & Hcl).
  unfold wp, lift. cbn [w_claims set_uuids]. rewrite E. done.
Qed.
End deliver.

(** ** Properties *)

(** C5: a reference pick claims its bundle: it either answers 200 with the
    envelope, whose links carry a credential for exactly the files of the
    bundle, and the claim of that credential is persisted with no file
    fetched, or somebody holds the bundle, it answers 404 and no claim
    changes; the bundle stays where it is; and while the claim is there every
    further pick of the path is a 404 that changes neither bundles nor
    claims. *)
Theorem reference_pick_claims {S C K} `{StorageReads S, !BundleLaws S, !ClaimStorage C, !ClaimLaws C,
    KeyStoreProtocol K, !App K, PyJwtLaws} rq agent path identity meta recs V (w : World S C K) :
  let p := inbox_path agent path in
  let reference id := evaluate_download app_limits id
    {| de_file_count := Z.of_nat (length V); de_total_size := sumZ (map (λ f, blen f.2) V) |} = Ok Reference in
  let may_pick rq id w := (get_current_identity rq w).1 = Ok id ∧
    ap_check app_access id ("inbox:" +:+ agent) "pick" = Ok true ∧ reference id ∧ fresh w meta in
  path ≠ "latest" → cl_inv (w_claims w) → uuid_text → may_pick rq identity w → (0 < download_ttl identity)%Z →
  live w p meta recs V → get_int "file_count" 1 meta = Ok (Z.of_nat (length V)) →
  Forall (λ v, utf8_valid v.1 = true) V → utf8_valid p = true → utf8_valid agent = true →
  utf8_valid (get_str "bundle_id" "" meta) = true →
  match pick_inbox_file rq agent path w with
  | (Ok rsp, w1) =>
      rsp_status rsp = 200%Z ∧ w_store w1 = w_store w ∧
      ∃ token c, envelope_of p V token (rsp_body rsp) ∧ holds p agent V [] token w1 c ∧
        ∀ rq' identity' (w2 : World S C K),
          w_store w2 = w_store w1 → w_claims w2 = w_claims w1 → may_pick rq' identity' w2 →
          ∃ w3, pick_inbox_file rq' agent path w2
              = (Raise (HTTPException 404 (DText ("File not found: " +:+ path))), w3) ∧
            w_store w3 = w_store w2 ∧ ∀ j, cl_claim (w_claims w3) j = cl_claim (w_claims w2) j
  | (Raise e, w1) =>
      e = HTTPException 404 (DText ("File not found: " +:+ path)) ∧ w_store w1 = w_store w ∧
      ∀ j, cl_claim (w_claims w1) j = cl_claim (w_claims w) j
  end.
Proof.
  intros p reference may_pick Hl Hi Hu (Hid & Hacc & Href & Hfresh) Httl Hlive Hcount Hn Hp Ha Hb.
  set (X := λ e (w1 : World S C K), e = HTTPException 404 (DText ("File not found: " +:+ path)) ∧ w_store w1 = w_store w ∧
    ∀ j, cl_claim (w_claims w1) j = cl_claim (w_claims w) j).
  set (Q := λ rsp (w1 : World S C K), rsp_status rsp = 200%Z ∧ w_store w1 = w_store w ∧
    ∃ token c, envelope_of p V token (rsp_body rsp) ∧ holds p agent V [] token w1 c).
  assert (Hw : wp (pick_inbox_file rq agent path) Q X w).
  { eapply wp_pick_reference; try done. intros w1 Hc. destruct (core_parts _ _ Hc) as (Es & Ec & _ & _).
    eapply wp_mono; [| |apply (wp_reference identity p meta recs V agent w1)]; try done.
    - intros j w' (Es' & _ & token & c & He & Hh) rsp Hst Hbody. split_and!; [done|congruence|].
      exists token, c. by rewrite Hbody.
    - intros e w' (-> & Es' & _ & Hcl). split_and!; [done|congruence|]. intros j. by rewrite Hcl, Ec.
    - unfold live. rewrite Es. exact Hlive.
    - by rewrite Ec. }
  unfold wp in Hw. destruct (pick_inbox_file rq agent path w) as [[rsp|e] w1]; [|exact Hw].
  destruct Hw as (Hst & Es & token & c & He & Hh). split_and!; [done..|]. exists token, c. split_and!; [done..|].
  intros rq' identity' w2 Es2 Ec2 (Hid' & Hacc' & Href' & Hfresh').
  assert (Hw : wp (pick_inbox_file rq' agent path) (λ _ _, False)
    (λ e w3, e = HTTPException 404 (DText ("File not found: " +:+ path)) ∧ w_store w3 = w_store w2 ∧
       ∀ j, cl_claim (w_claims w3) j = cl_claim (w_claims w2) j) w2).
  { eapply (wp_pick_reference rq' agent path identity' meta recs V); try done.
    { unfold live. rewrite Es2, Es. exact Hlive. }
    intros w3 Hc. destruct (core_parts _ _ Hc) as (Es3 & Ec3 & _ & _).
    eapply wp_mono; [| |apply (wp_reference_taken identity' p meta recs V agent w3 c)]; try done.
    - intros e w' (-> & Es' & Hcl). split_and!; [done|congruence|]. intros j. by rewrite Hcl, Ec3.
    - unfold live. rewrite Es3, Es2, Es. exact Hlive.
    - rewrite Ec3, Ec2. apply Hh.
    - rewrite Ec3, Ec2. apply Hh.
    - apply Hh. }
  unfold wp in Hw. destruct (pick_inbox_file rq' agent path w2) as [[rsp'|e] w3]; [done|].
  destruct Hw as (-> & ? & ?). by exists w3.
Qed.

(** The demo server with a small inline maximum. *)
Definition with_limits (limits : LimitsConfig) (c : AppConfig) : AppConfig := {|
  cf_setup_token := cf_setup_token c; cf_dev_mode := cf_dev_mode c; cf_storage_path := cf_storage_path c;
  cf_keys_file := cf_keys_file c; cf_default_ttl := cf_default_ttl c; cf_allowed_path_chars := cf_allowed_path_chars c;
  cf_mcp_allowed_hosts := cf_mcp_allowed_hosts c; cf_jwt_primary_key := cf_jwt_primary_key c;
  cf_public_base_url := cf_public_base_url c; cf_jwt_secondary_key := cf_jwt_secondary_key c;
  cf_jwt_primary_key_source := cf_jwt_primary_key_source c; cf_log_format := cf_log_format c;
  cf_limits := limits; cf_rate_limit_broadcast := cf_rate_limit_broadcast c;
  cf_broadcast_max_targets := cf_broadcast_max_targets c; cf_jwt_key_overlap_ttl := cf_jwt_key_overlap_ttl c |}.
Definition small_limits : LimitsConfig := ({|
  lc_per_file_max := None; lc_per_bundle_total_max := None; lc_per_bundle_file_count_max := Some 25;
  lc_max_inline_size := Some 1; lc_upload_token_ttl := 300; lc_download_claim_ttl := 300;
  lc_passive_gc_min_age := 0; lc_passive_gc_interval := 60 |})%Z.

#[local] Existing Instances Demo.storage Demo.claims Demo.keys ToyJwt demo_bundle_laws.
#[local] Instance small_server : App KeyStore :=
  build_core_defaults (with_limits small_limits (Demo.config true)) Demo.uuid (λ _, None) (λ _, false) (λ _ _ _, true).

Lemma demo_healthy : healthy Demo.sha (fresh_dir []).
Proof.
  split; [done| |done]. split; [apply exclusive_empty|]. intros name body c [=].
Qed.

Lemma demo_live : live demo_inbox (inbox_path "bob" "m1") demo_message demo_records (parts_data demo_parts).
Proof.
  split; [exact demo_inbox_stored|]. split; [done|]. repeat constructor; by eexists.
Qed.

Definition demo_pick_run := pick_inbox_file (Demo.request "") "bob" "m1".
Definition demo_pick := demo_pick_run demo_inbox.

Lemma reference_pick_claims_witness :
  ∃ rsp w1 w3, demo_pick = (Ok rsp, w1) ∧ rsp_status rsp = 200%Z ∧
    pick_inbox_file (Demo.request "") "bob" "m1" w1 = (Raise (HTTPException 404 (DText "File not found: m1")), w3).
Proof.
  assert (Hok : match demo_pick.1 with Ok _ => true | Raise _ => false end = true) by (vm_compute; reflexivity).
  pose proof (reference_pick_claims (Demo.request "") "bob" "m1" dev_identity demo_message demo_records
    (parts_data demo_parts) demo_inbox) as H. cbv zeta in H. fold demo_pick_run in H. fold demo_pick in H.
  destruct demo_pick as [[rsp|e] w1]; [|discriminate Hok].
  destruct H as (Hst & Es & token & c & _ & _ & Hagain).
  - intros [=].
  - exact demo_healthy.
  - exact (demo_uuid_text true).
  - split; [reflexivity|]. split; [reflexivity|]. split; reflexivity.
  - reflexivity.
  - exact demo_live.
  - reflexivity.
  - repeat constructor.
  - reflexivity.
  - reflexivity.
  - reflexivity.
  - destruct (Hagain (Demo.request "") dev_identity w1 eq_refl eq_refl) as (w3 & E & _).
    + split; [reflexivity|]. split; [reflexivity|]. split; reflexivity.
    + exists rsp, w1, w3. split; [reflexivity|]. split; [exact Hst|exact E].
Defined.
