(* ===== verification/Retry.v ===== *)
(** * Downloads that are interrupted and repeated

    [_body_generator] accounts for a file only after its last byte went out.
    Over any stores that keep the contracts: the requests of a recipient, in
    any order, repeated, and left early by the client, end the claim and the
    bundle exactly when every file was sent to its end, and never before. *)

From Stdlib Require Import Ascii String.
From S2P Require Import Prelude PyStr PyCodec Json DateTime Effects PyNum Paths Limits Config.
From S2P Require Import Claims KeyStore Jwt FsModel Storage World Frame Backends ClaimLaws Bundles Downloads Inbox Files RoundTrips.
From S2P Require Import SendInit Upload Download TwoPhase Deliver.
Local Open Scope string_scope.
Local Open Scope list_scope.
Local Open Scope effect_scope.

(** ** Attempts *)

(** A request for a file at a time, by a client that leaves after some number
    of chunks, or stays. *)
Record Attempt := { at_request : HttpRequest; at_name : str; at_client : option nat; at_time : Z }.

Definition at_clock {S C K} (now : Z) (w : World S C K) : World S C K :=
  mkWorld (w_store w) (w_claims w) (w_keys w) (w_slots w) now (w_mono w) (w_uuids w) (w_hits w) (w_log w).

Definition attempt_run {S C K} `{StorageBackend S, ClaimStorage C, KeyStoreProtocol K, !App K, PyJwt}
    (a : Attempt) (w : World S C K) : res FileStream * World S C K :=
  download_until (at_client a) (at_request a) (at_clock (at_time a) w).
Definition attempts_run {S C K} `{StorageBackend S, ClaimStorage C, KeyStoreProtocol K, !App K, PyJwt}
    (l : list Attempt) (w : World S C K) : World S C K :=
  foldl (λ w a, (attempt_run a w).2) w l.

(** The attempt sends the file to its end. *)
Definition finishes (V : list (str * bytes)) (a : Attempt) : Prop :=
  ∃ data, (at_name a, data) ∈ V ∧ stays (at_client a) data = true.

(** Every file was sent to its end by some attempt. *)
Definition all_sent (V : list (str * bytes)) (l : list Attempt) : Prop :=
  ∀ n, n ∈ V.*1 → ∃ a, a ∈ l ∧ at_name a = n ∧ finishes V a.

Section retry.
Context {S C K : Type} `{StorageReads S, !BundleLaws S, !ClaimStorage C, !ClaimLaws C, KeyStoreProtocol K, !App K, PyJwtLaws}.
Abbreviation W := (World S C K).
Implicit Types (w : W) (a : Attempt) (l : list Attempt).

(** The bundle, and the credential of its claim. *)
Variables (p agent token bid jti : str) (V : list (str * bytes)) (meta : dict) (recs : list json) (now ttl : Z).
Hypothesis Hkey : key_ok p.
Hypothesis Hinbox : startswith INBOX_PREFIX p = true.
Hypothesis Htext : utf8_valid p = true ∧ utf8_valid agent = true ∧ utf8_valid bid = true ∧
  utf8_valid jti = true ∧ Forall (λ v, utf8_valid v.1 = true) V.
Hypothesis Hnd : NoDup V.*1.
Hypothesis Hne : V ≠ [].
Hypothesis Hrevocation : ∀ jti, app_revocation jti = Ok tt.
Hypothesis Htoken : token = sign jti (download_credential p bid agent V.*1 now ttl) (cf_jwt_primary_key app_config).

(** An attempt with the credential, for one of the files, while it is valid. *)
Record permitted a : Prop := {
  pm_request : download_request (at_request a) p (at_name a) agent token;
  pm_name : at_name a ∈ V.*1;
  pm_time : (now <= at_time a / 1000000 < now + ttl)%Z;
}.

(** The claim is there, with the files fetched so far, and so is the bundle. *)
Record pending (fetched : list str) w0 w : Prop := {
  pd_store : w_store w = w_store w0;
  pd_claims : cl_inv (w_claims w);
  pd_claim : ∃ c, cl_claim (w_claims w) jti = Some c ∧ cr_bundle_path c = p ∧ cr_files_fetched c = fetched;
  pd_others j : j ≠ jti → cl_claim (w_claims w) j = cl_claim (w_claims w0) j;
  pd_slots : primary (w_slots w) = cf_jwt_primary_key app_config;
}.
(** Both are gone. *)
Record over w0 w : Prop := {
  ov_done : completed p jti w0 w;
  ov_slots : primary (w_slots w) = cf_jwt_primary_key app_config;
}.

Lemma finishes_data a data :
  (at_name a, data) ∈ V → finishes V a ↔ stays (at_client a) data = true.
Proof.
  intros Hin. split; [|by exists data]. intros (d & Hd & Hs).
  by rewrite <- (NoDup_fst_inj V _ _ _ Hnd Hd Hin).
Qed.

(** While files are missing, an attempt is answered with the file, and moves
    the claim on only if it sends it to its end. *)
Lemma attempt_pending fetched a w0 w :
  bl_inv (w_store w0) → live w0 p meta recs V → pending fetched w0 w → permitted a →
  ∃ stream w', attempt_run a w = (Ok stream, w') ∧ (at_name a, fs_bytes stream) ∈ V ∧
    ((¬ finishes V a ∧ pending fetched w0 w') ∨
     (finishes V a ∧ (∃ n, n ∈ V.*1 ∧ n ∉ with_name fetched (at_name a)) ∧ pending (with_name fetched (at_name a)) w0 w') ∨
     (finishes V a ∧ (∀ n, n ∈ V.*1 → n ∈ with_name fetched (at_name a)) ∧ over w0 w')).
Proof.
  intros Hbi Hlive [Es Hi (c & Hc & Hp & Hf) Hothers Hs] [Hrq Hname Htime]. destruct Htext as (Htp & Hta & Htb & Htj & Htn).
  apply list_elem_of_fmap in Hname as ([name data] & En & Hin). cbn in En.
  assert (Hin' : (at_name a, data) ∈ V) by by rewrite En. pose proof (finishes_data a data Hin') as Hfin.
  destruct (cl_wf _ _ _ Hi Hc) as [Ej _]. set (wt := at_clock (at_time a) w).
  assert (Hn : utf8_valid (at_name a) = true) by (rewrite Forall_forall in Htn; by apply (Htn _ Hin')).
  assert (Hh : holds p agent V fetched token wt c).
  { split; [done|by rewrite Ej|done|done|]. exists bid, now, ttl. by rewrite Ej. }
  assert (Hl : live wt p meta recs V) by (unfold live; cbn; by rewrite Es).
  destruct (download_until_run (at_client a) (at_request a) p (at_name a) agent V token wt c meta recs fetched data)
    as (w1 & stream & Es1 & Ec1 & En1 & Ek1 & Eb & Hrun); try done.
  assert (Hh1 : holds p agent V fetched token w1 c).
  { destruct Hh as [A B D E F]. split; rewrite ?Ec1; try done. unfold now_seconds in *. by rewrite En1. }
  assert (Hl1 : live w1 p meta recs V) by (unfold live in *; by rewrite Es1).
  exists stream. unfold attempt_run. fold wt. rewrite Eb. destruct (stays (at_client a) data) eqn:Est.
  2:{ exists w1. split_and!; [done..|]. left. split; [by rewrite Hfin|].
      split; rewrite ?Es1, ?Ec1, ?Ek1; try done. by exists c. }
  destruct (decide (Forall (λ n, n ∈ with_name fetched (at_name a)) V.*1)) as [Hall|Hsome].
  - rewrite Forall_forall in Hall.
    destruct (accounting_last p agent V token w1 c meta recs fetched (at_name a) data Hh1 Hl1 Hin' Hn Hall) as (w2 & E & Hd & Ek2).
    { rewrite Es1. cbn. by rewrite Es. } { done. }
    exists w2. split_and!; [by apply Hrun|done|]. right; right. split_and!; [by apply Hfin|done|]. split; [|by rewrite Ek2, Ek1].
    destruct Hd as (A & B & D & E' & F & G). rewrite Es1, Ej in *. cbn in D. rewrite Es in D.
    split_and!; try done. intros j Hj. rewrite (G j Hj), Ec1. by apply Hothers.
  - apply not_Forall_Exists, Exists_exists in Hsome as (n & Hn' & Hnot); [|apply _].
    destruct (accounting_step p agent V token w1 c meta recs fetched (at_name a) data Hh1 Hl1 Hin' Hn)
      as (w2 & c2 & E & Es2 & Ek2 & Ej2 & Hother & Hh2); [by exists n|].
    exists w2. split_and!; [by apply Hrun|done|]. right; left. split_and!; [by apply Hfin|by exists n|].
    destruct Hh2 as [A B D E' F]. split.
    + by rewrite Es2, Es1.
    + done.
    + exists c2. by rewrite <- Ej, <- Ej2.
    + intros j Hj. rewrite Ej in Hother. rewrite (Hother j Hj), Ec1. by apply Hothers.
    + by rewrite Ek2, Ek1.
Qed.

(** Once the bundle is gone, an attempt finds nothing. *)
Lemma attempt_over a w0 w :
  over w0 w → permitted a →
  ∃ w', attempt_run a w = (Raise (not_found_error "bundle_gone"), w') ∧ over w0 w'.
Proof.
  intros [Hd Hs] [Hrq Hname Htime]. destruct Htext as (Htp & Hta & Htb & Htj & Htn).
  apply list_elem_of_fmap in Hname as ([name data] & En & Hin). cbn in En. rewrite <- En in Hin.
  set (wt := at_clock (at_time a) w). set (w1 := set_slots (resolve_secondary (w_mono wt) (w_slots wt)).2 wt).
  destruct (Hd) as (_ & Habs & _).
  unfold attempt_run, download_until, bind at 1. fold wt.
  rewrite (download_claims_run (at_request a) p agent V token bid now ttl jti wt (at_name a)) by done. fold w1.
  unfold bind at 1. rewrite (authorize_run (at_request a) p agent V bid now ttl jti token w1 (at_name a) data) by done.
  unfold bind at 1, open_download, bind at 1. rewrite (try_read_meta_absent w1) by exact Habs.
  unfold gone, bind at 1, count_download.
  destruct (safe_emit_ok None (Some (count_event "cassetta.download.operations" "result" "not_found")) w1) as [evs ->].
  eexists. split; [done|]. split; [done|]. cbn. by rewrite resolve_primary.
Qed.

(** ** Histories *)

(** Where a history of attempts has brought the claim. *)
Definition reached l w0 w : Prop :=
  (all_sent V l ∧ over w0 w) ∨
  (¬ all_sent V l ∧ ∃ fetched, pending fetched w0 w ∧
    ∀ n, n ∈ fetched ↔ ∃ a, a ∈ l ∧ at_name a = n ∧ finishes V a).

Lemma all_sent_app l a : all_sent V l → all_sent V (l ++ [a]).
Proof. intros Hl n Hn. destruct (Hl n Hn) as (b & Hb & ?). exists b. split; [|done]. apply elem_of_app. by left. Qed.

(** What another attempt adds to the names sent. *)
Lemma sent_app l a n :
  (∃ b, b ∈ l ++ [a] ∧ at_name b = n ∧ finishes V b) ↔
  (∃ b, b ∈ l ∧ at_name b = n ∧ finishes V b) ∨ n = at_name a ∧ finishes V a.
Proof.
  split.
  - intros (b & [Hb| ->%list_elem_of_singleton]%elem_of_app & En & Hf); [left; by exists b|by right].
  - intros [(b & Hb & ?)|[-> Hf]]; [exists b|exists a]; (split; [apply elem_of_app|done]); [by left|right; by left].
Qed.

Lemma reached_step l a w0 w :
  bl_inv (w_store w0) → live w0 p meta recs V → permitted a → reached l w0 w → reached (l ++ [a]) w0 (attempt_run a w).2.
Proof.
  intros Hbi Hlive Ha [[Hall Hover]|[Hnot (fetched & Hp & Hf)]].
  - destruct (attempt_over a w0 w Hover Ha) as (w' & -> & Hover'). left. split; [by apply all_sent_app|done].
  - destruct (attempt_pending fetched a w0 w Hbi Hlive Hp Ha) as (stream & w' & -> & _ & Hcase).
    destruct Hcase as [[Hno Hp']|[(Hyes & (n & Hn & Hmissing) & Hp')|(Hyes & Hcomplete & Hover)]]; cbn [snd].
    + right. split.
      * intros Hall. apply Hnot. intros n Hn. destruct (proj1 (sent_app l a n) (Hall n Hn)) as [?|[_ ?]]; done.
      * exists fetched. split; [done|]. intros n. rewrite Hf, sent_app. tauto.
    + assert (Hf' : ∀ n, n ∈ with_name fetched (at_name a) ↔ ∃ b, b ∈ l ++ [a] ∧ at_name b = n ∧ finishes V b).
      { intros n'. rewrite elem_of_with_name, Hf, sent_app. tauto. }
      right. split; [|by exists (with_name fetched (at_name a))].
      intros Hall. apply Hmissing, Hf', (Hall n Hn).
    + left. split; [|done]. intros n Hn. apply sent_app.
      destruct (proj1 (elem_of_with_name _ _ _) (Hcomplete n Hn)) as [Hin| ->]; [left; by apply Hf|by right].
Qed.

Lemma history_reached l w0 :
  bl_inv (w_store w0) → live w0 p meta recs V → pending [] w0 w0 → Forall permitted l →
  reached l w0 (attempts_run l w0).
Proof.
  intros Hbi Hlive Hstart. induction l as [|a l IH] using rev_ind; intros Hl.
  - right. split.
    + intros Hall. destruct V as [|[n d] V'] eqn:EV; [done|].
      destruct (Hall n) as (a & Ha & _); [by left|]. by apply not_elem_of_nil in Ha.
    + exists []. split; [done|]. intros n. split; [intros Hn|intros (a & Hn & _)]; by apply not_elem_of_nil in Hn.
  - apply Forall_app in Hl as [Hl Ha%Forall_inv]. unfold attempts_run. rewrite foldl_app. cbn [foldl].
    apply reached_step; try done. by apply IH.
Qed.
End retry.

(** ** Properties *)

(** C6: an inbox bundle that was picked by reference survives every download
    that breaks off, and only those: after any number of requests with its
    credential, for any of its files, in any order, repeated, each left by the
    client after any number of chunks, the claim and the bundle are gone, and
    nothing else is, exactly when every file was sent to its end by one of
    them, and every further request is then a 404 [bundle_gone]; as long as
    one file was not, the bundles are untouched, the claim lists exactly the
    files that were sent, and every further request is answered with the bytes
    of its file. *)
Theorem interrupted_downloads_complete {S C K} `{StorageReads S, !BundleLaws S, !ClaimStorage C, !ClaimLaws C,
    KeyStoreProtocol K, !App K, PyJwtLaws} p agent token bid jti V meta recs now ttl l next (w0 : World S C K) :
  let w := attempts_run l w0 in
  key_ok p → startswith INBOX_PREFIX p = true →
  utf8_valid p = true ∧ utf8_valid agent = true ∧ utf8_valid bid = true ∧ utf8_valid jti = true ∧
    Forall (λ v, utf8_valid v.1 = true) V →
  NoDup V.*1 → V ≠ [] → (∀ jti, app_revocation jti = Ok tt) →
  token = sign jti (download_credential p bid agent V.*1 now ttl) (cf_jwt_primary_key app_config) →
  bl_inv (w_store w0) → live w0 p meta recs V → pending p jti [] w0 w0 →
  Forall (permitted p agent token V now ttl) (l ++ [next]) →
  (all_sent V l ∧ over p jti w0 w ∧ (attempt_run next w).1 = Raise (not_found_error "bundle_gone")) ∨
  (¬ all_sent V l ∧ w_store w = w_store w0 ∧
    (∃ c, cl_claim (w_claims w) jti = Some c ∧
      ∀ n, n ∈ cr_files_fetched c ↔ ∃ a, a ∈ l ∧ at_name a = n ∧ finishes V a) ∧
    ∃ stream, (attempt_run next w).1 = Ok stream ∧ (at_name next, fs_bytes stream) ∈ V).
Proof.
  intros w Hkey Hinbox Htext Hnd Hne Hrev Htok Hbi Hlive Hstart [Hl Hnext%Forall_inv]%Forall_app.
  destruct (history_reached p agent token bid jti V meta recs now ttl Hkey Hinbox Htext Hnd Hne Hrev Htok l w0)
    as [[Hall Hover]|[Hnot (fetched & Hp & Hf)]]; try done; [left|right].
  - destruct (attempt_over p agent token bid jti V now ttl Htext Hrev Htok next w0 w Hover Hnext) as (w' & E & _).
    by rewrite E.
  - destruct (attempt_pending p agent token bid jti V meta recs now ttl Hkey Hinbox Htext Hnd Hrev Htok fetched next w0 w)
      as (stream & w' & E & Hin & _); try done.
    rewrite E. destruct Hp as [Es _ (c & Hc & _ & <-) _ _]. split_and!; [done..|by exists c|by exists stream].
Qed.

(** A download of the demo bundle that is left before its first chunk, then
    repeated to its end, and asked for again. *)
#[local] Existing Instances Demo.storage Demo.claims Demo.keys ToyJwt demo_bundle_laws.
#[local] Instance open_server : App KeyStore := Demo.core true.

Definition demo_claim : ClaimRecord := claim_record "j2" "inbox/bob/m1" demo_message "bob" 0.
Definition demo_claimed : World Fs ClaimDir KeyStore := set_claims (cs_issue demo_claim (w_claims demo_inbox)).2 demo_inbox.
Definition demo_attempt (client : option nat) : Attempt :=
  {| at_request := demo_download; at_name := "a.txt"; at_client := client; at_time := 0 |}.
Definition demo_files : list (str * bytes) := parts_data demo_parts.

Lemma demo_claimed_pending : pending "inbox/bob/m1" "j2" [] demo_claimed demo_claimed.
Proof.
  assert (Hi : cl_inv (w_claims demo_inbox)) by exact demo_healthy.
  pose proof (cl_issue (w_claims demo_inbox) demo_claim Hi eq_refl) as Hw. unfold wp in Hw.
  assert (Hok : match (cs_issue demo_claim (w_claims demo_inbox)).1 with Ok _ => true | Raise _ => false end = true)
    by (vm_compute; reflexivity).
  unfold demo_claimed. destruct (cs_issue demo_claim (w_claims demo_inbox)) as [[[]|e] s]; [|discriminate Hok].
  destruct Hw as [Hi' Hcl]. split; cbn [w_claims set_claims snd].
  - reflexivity.
  - exact Hi'.
  - exists demo_claim. rewrite Hcl, decide_True by reflexivity. done.
  - done.
  - reflexivity.
Qed.

Lemma demo_permitted client :
  permitted "inbox/bob/m1" "bob" (sign "j2" demo_download_claims "primary") demo_files 0 60 (demo_attempt client).
Proof.
  split.
  - split; [vm_compute; reflexivity|vm_compute; reflexivity|left; reflexivity].
  - left.
  - cbn. lia.
Qed.

Lemma demo_finishes client : finishes demo_files (demo_attempt client) ↔ stays client "hello" = true.
Proof.
  apply finishes_data; [|left]. apply (bool_decide_unpack _); vm_compute; exact I.
Qed.

Lemma interrupted_downloads_complete_witness :
  let w := attempts_run [demo_attempt (Some 0%nat); demo_attempt None] demo_claimed in
  (∃ c, cl_claim (w_claims w) "j2" = Some c ∧ "a.txt" ∈ cr_files_fetched c ∧ "sub/b" ∉ cr_files_fetched c) ∧
  ∃ stream, (attempt_run (demo_attempt None) w).1 = Ok stream.
Proof.
  intros w.
  destruct (interrupted_downloads_complete "inbox/bob/m1" "bob" (sign "j2" demo_download_claims "primary") "id" "j2"
    demo_files demo_message demo_records 0 60 [demo_attempt (Some 0%nat); demo_attempt None] (demo_attempt None) demo_claimed)
    as [(Hall & _)|(_ & _ & (c & Hc & Hf) & (stream & E & _))].
  - apply key_okb_sound. vm_compute. reflexivity.
  - reflexivity.
  - split; [reflexivity|]. split; [reflexivity|]. split; [reflexivity|]. split; [reflexivity|]. repeat constructor.
  - apply (bool_decide_unpack _); vm_compute; exact I.
  - discriminate.
  - reflexivity.
  - reflexivity.
  - apply fs_wfb_sound. vm_compute. reflexivity.
  - exact demo_live.
  - exact demo_claimed_pending.
  - repeat constructor; apply demo_permitted.
  - exfalso. destruct (Hall "sub/b") as (a & Ha & En & _); [right; left|].
    apply elem_of_cons in Ha as [->|[->|Ha%not_elem_of_nil]%elem_of_cons]; [discriminate En|discriminate En|destruct Ha].
  - split; [exists c; split; [exact Hc|split]|exists stream; exact E].
    + apply Hf. exists (demo_attempt None). split; [right; left|]. split; [reflexivity|].
      apply demo_finishes. reflexivity.
    + intros (a & Ha & En & _)%Hf.
      apply elem_of_cons in Ha as [->|[->|Ha%not_elem_of_nil]%elem_of_cons]; [discriminate En|discriminate En|destruct Ha].
Defined.
