(* ===== verification/Gc.v ===== *)
(** * Background cleaning

    [gc.py] (the reaper of orphan bundles and expired claims) and the
    lifetime sweep of [app.py].  The reaper's endless loop is the iteration of
    its body, the clock advanced by the interval each time.  What the reaper
    removes is in [Reaper]. *)

From Stdlib Require Import Ascii String.
From S2P Require Import Prelude PyStr PyCodec Json DateTime Effects PyNum Paths Limits Config.
From S2P Require Import Claims KeyStore Jwt FsModel Storage World Downloads Inbox Files SendInit Upload Download.
Local Open Scope string_scope.
Local Open Scope list_scope.
Local Open Scope effect_scope.

Definition NAMESPACES : list str := ["inbox/"; "store/"].
Definition BUNDLE_NAMESPACES : list str := ["store/"; "inbox/"].

Section gc.
Context {S C K : Type} `{StorageBackend S} `{ClaimStorage C} `{KeyStoreProtocol K}
  `{App K} `{PyJwt}.
Abbreviation W := (World S C K).

(** [try: m except FileNotFoundError: missing except Exception: failed]; the
    result says which way it went. *)
Inductive delete_outcome := DeletedBundle | MissingBundle | FailedDelete.
Definition try_delete (p : str) : M W delete_outcome :=
  catch (on_store (sb_delete_bundle p);;; ret DeletedBundle)
    (λ e, Some (ret (if is_FileNotFoundError e then MissingBundle else FailedDelete))).

(** ** [sweep] *)

Definition sweep_ref (now min_age_s : Z) (ref : BundleRef) : M W unit :=
  if br_has_meta ref then ret tt
  else if decide (now - br_mtime ref < min_age_s * 1000000)%Z then ret tt
  else
    r <- try_delete (br_path ref);;
    match r with
    | MissingBundle => ret tt
    | FailedDelete => struct_log WARNING "gc_delete_failed"
    | DeletedBundle => struct_log INFO "gc_reaped"
    end.

Definition sweep_namespace (now min_age_s : Z) (prefix : str) : M W unit :=
  refs <- catch (refs <- list_bundles_w prefix true;; ret (Some refs))
    (λ _, Some (struct_log ERROR "gc_list_failed";;; ret None));;
  match refs with
  | Some refs => for_each refs (sweep_ref now min_age_s)
  | None => ret tt
  end.

Definition sweep (min_age_s : Z) : M W unit :=
  w <- get;; for_each NAMESPACES (sweep_namespace (w_now w) min_age_s).

(** ** [sweep_claims] *)

(** [bool(manifest_names) and manifest_names.issubset(fetched)]. *)
Definition claim_complete (names fetched : list str) : bool :=
  negb (bool_decide (names = [])) && forallb (λ n, bool_decide (n ∈ fetched)) names.

(** [storage.read_bundle_meta] under the three clauses of the sweep. *)
Inductive read_outcome := ReadMeta (meta : dict) | ReadMissing | ReadFailed.
Definition try_read (p : str) : M W read_outcome :=
  catch (meta <- on_store (sb_read_bundle_meta p);; ret (ReadMeta meta))
    (λ e, Some (ret (if is_FileNotFoundError e then ReadMissing else ReadFailed))).

Definition expire_claim (claim : ClaimRecord) (meta : dict) : M W unit :=
  files <- of_res (get_list "files" meta);;
  names <- of_res (manifest_names files);;
  if claim_complete names (cr_files_fetched claim) && startswith "inbox/" (cr_bundle_path claim) then
    _ <- of_res (total_size_of files);;
    r <- try_delete (cr_bundle_path claim);;
    match r with
    | FailedDelete => struct_log WARNING "gc_claims_delete_bundle_failed"
    | _ => ret tt
    end;;;
    on_claims (cs_delete (cr_jti claim));;;
    struct_log INFO "download_claim_completed"
  else
    on_claims (cs_delete (cr_jti claim));;;
    struct_log INFO "download_claim_expired".

Definition sweep_claim (now ttl_s : Z) (claim : ClaimRecord) : M W unit :=
  match iso_to_epoch (cr_created_at claim) with
  | Raise _ => on_claims (cs_delete (cr_jti claim))
  | Ok created =>
      if decide (now - created < ttl_s * 1000000)%Z then ret tt
      else
        r <- try_read (cr_bundle_path claim);;
        match r with
        | ReadMissing =>
            on_claims (cs_delete (cr_jti claim));;; struct_log INFO "download_claim_expired"
        | ReadFailed => struct_log WARNING "gc_claims_read_meta_failed"
        | ReadMeta meta => expire_claim claim meta
        end
  end.

Definition sweep_claims (ttl_s : Z) : M W unit :=
  claims <- catch (l <- on_claims cs_iter_all;; ret (Some l))
    (λ _, Some (struct_log ERROR "gc_claims_list_failed";;; ret None));;
  match claims with
  | None => ret tt
  | Some claims => w <- get;; for_each claims (sweep_claim (w_now w) ttl_s)
  end.

(** ** The loops *)

Definition advance_clock (seconds : Z) : M W unit :=
  modify (λ w, mkWorld (w_store w) (w_claims w) (w_keys w) (w_slots w)
    (w_now w + seconds * 1000000)%Z (w_mono w + seconds * 1000000)%Z
    (w_uuids w) (w_hits w) (w_log w)).

Definition reaper_iteration (min_age_s download_claim_ttl_s : Z) : M W unit :=
  catch (sweep min_age_s;;; sweep_claims download_claim_ttl_s)
    (λ _, Some (struct_log ERROR "gc_loop_error")).

Fixpoint reaper_loop (iterations : nat) (interval_s min_age_s download_claim_ttl_s : Z) : M W unit :=
  match iterations with
  | 0 => ret tt
  | Datatypes.S n =>
      advance_clock interval_s;;;
      reaper_iteration min_age_s download_claim_ttl_s;;;
      reaper_loop n interval_s min_age_s download_claim_ttl_s
  end.

(** [schedule_reaper]: the settings of the loop. *)
Definition schedule_reaper (iterations : nat) : M W unit :=
  let t := ttls app_limits {| id_label := "gc"; id_extra := [] |} in
  struct_log INFO "gc_scheduled";;;
  reaper_loop iterations (ttl_gc_interval t) (ttl_gc_min_age t) (ttl_download_claim t).

(** ** The lifetime sweep of [app.py] *)

Definition cleanup_ref (now : Z) (deleted_count : Z) (ref : BundleRef) : M W Z :=
  meta <- try_read_meta (br_path ref);;
  match meta with
  | None => ret deleted_count
  | Some meta =>
      match fromisoformat (get_str "created_at" "" meta) with
      | None => ret deleted_count
      | Some created =>
          if decide (cf_default_ttl app_config * 1000000 < now - created)%Z then
            r <- try_delete (br_path ref);;
            match r with
            | DeletedBundle => struct_log INFO "ttl.file_deleted";;; ret (deleted_count + 1)%Z
            | MissingBundle => ret deleted_count
            | FailedDelete => struct_log ERROR "ttl.file_error";;; ret deleted_count
            end
          else ret deleted_count
      end
  end.

(** A loop that counts until its body raises: the count, and whether it
    reached the end. *)
Fixpoint count_until_error {A} (f : Z → A → M W Z) (count : Z) (l : list A) : M W (Z * bool) :=
  match l with
  | [] => ret (count, true)
  | x :: l' =>
      r <- catch (c <- f count x;; ret (Some c)) (λ _, Some (ret None));;
      match r with
      | Some c => count_until_error f c l'
      | None => ret (count, false)
      end
  end.

(** The body of the outer [try], with the count at its end. *)
Fixpoint cleanup_namespaces (now : Z) (deleted_count : Z) (prefixes : list str) : M W (Z * bool) :=
  match prefixes with
  | [] => ret (deleted_count, true)
  | prefix :: rest =>
      refs <- catch (r <- list_bundles_w prefix false;; ret (Some r)) (λ _, Some (ret None));;
      match refs with
      | None => ret (deleted_count, false)
      | Some refs =>
          r <- count_until_error (cleanup_ref now) deleted_count refs;;
          if r.2 : bool then cleanup_namespaces now r.1 rest else ret r
      end
  end.

End gc.
