(* ===== verification/Reaper.v ===== *)
(** * What the reaper removes

    The sweep of [gc.py] over the filesystem backend: one pass removes the
    orphan directories that have reached the minimum age, whole, and touches
    nothing else; and the loop, left to itself, gets every orphan in the end.
    An orphan is what [list_bundles] reports without a manifest. *)

From Stdlib Require Import Ascii String.
From S2P Require Import Prelude PyStr PyCodec Json DateTime Effects PyNum Paths Limits Config.
From S2P Require Import Claims KeyStore Jwt FsModel Storage World Frame Backends Downloads Inbox Files SendInit.
From S2P Require Import Upload Download Gc.
Local Open Scope string_scope.
Local Open Scope list_scope.
Local Open Scope effect_scope.

(** ** Names on disk *)

(** What a directory entry can be called. *)
Definition plain_name (c : str) : Prop := (c ≠ "" ∧ c ≠ "." ∧ c ≠ "..") ∧ has_char "/" c = false.
Definition plain_tree (fs : Fs) : Prop :=
  ∀ q n, nodes fs !! q = Some n → Forall plain_name q.

#[local] Instance plain_name_dec c : Decision (plain_name c).
Proof. unfold plain_name. apply _. Defined.
Definition plain_treeb (fs : Fs) : bool :=
  forallb (λ kn, bool_decide (Forall plain_name kn.1)) (map_to_list (nodes fs)).
Lemma plain_treeb_sound fs : plain_treeb fs = true → plain_tree fs.
Proof.
  unfold plain_treeb. rewrite forallb_forall. intros H q n Hq%elem_of_map_to_list.
  apply list_elem_of_In, H in Hq. by bool_to_prop.
Qed.

Lemma plain_lexical q : Forall plain_name q → lexical q.
Proof. intros H Hin. rewrite Forall_forall in H. apply H in Hin as [(_ & _ & ?) _]. done. Qed.

(** A path of plain names is what its string parses to. *)
Lemma parse_as_posix q : q ≠ [] → Forall plain_name q → parse_path (as_posix q) = q.
Proof.
  intros Hne Hq. unfold parse_path, as_posix. destruct q as [|c q]; [done|].
  rewrite split_join; [|done|by eapply Forall_impl; [exact Hq|intros ? []]].
  clear Hne. induction Hq as [|x l [(H1 & H2 & _) _] _ IH]; [done|].
  rewrite filter_cons_True by done. by rewrite IH.
Qed.

Lemma as_posix_relative q : q ≠ [] → Forall plain_name q → startswith "/" (as_posix q) = false.
Proof.
  intros Hne Hq. destruct q as [|c q]; [done|]. apply Forall_cons in Hq as [[(Hc & _) Hs] _].
  unfold as_posix. destruct c as [|a c]; [done|].
  assert (Ha : a ≠ "/"%char) by (intros ->; by cbn in Hs).
  assert (∀ t, startswith "/" (String a t) = false) as Hst.
  { intros t. cbn [startswith]. by rewrite decide_False. }
  destruct q; cbn [join]; [apply Hst|]. rewrite app_cons. apply Hst.
Qed.

(** ** Directories without files *)

Definition no_files (fs : Fs) (d : path) : Prop :=
  ∀ c b, nodes fs !! (d ++ [c]) ≠ Some (NFile b).

Lemma child_files_nil fs d : child_files fs d = [] ↔ no_files fs d.
Proof.
  unfold no_files. split.
  - intros H c b Hc. assert (Hin : c ∈ child_files fs d) by (apply elem_of_child_files; by eexists).
    rewrite H in Hin. by apply not_elem_of_nil in Hin.
  - intros H. apply elem_of_nil_inv. intros c [b Hc]%elem_of_child_files. by eapply H.
Qed.

(** ** Orphans *)

Section orphans.
Context (root : path).
Implicit Types (fs : Fs) (ns : str) (k d q : path).

(** [data/<ns>], for the two names of [NAMESPACES] without their slash. *)
Definition swept_ns : list str := ["inbox"; "store"].
Definition ns_dir ns : path := root ++ ["data"; ns].

(** [k] below the namespace is an orphan: the outermost directory with files
    on its path, and none of them the manifest. *)
Record orphan_in fs ns k : Prop := {
  or_below : k ≠ [];
  or_dir : nodes fs !! (ns_dir ns ++ k) = Some NDir;
  or_outer : ∀ i, i `prefix_of` k → i ≠ [] → i ≠ k → no_files fs (ns_dir ns ++ i);
  or_files : ¬ no_files fs (ns_dir ns ++ k);
  or_meta : ∀ b, nodes fs !! (ns_dir ns ++ k ++ [BUNDLE_MANIFEST]) ≠ Some (NFile b);
}.
Definition orphan fs d : Prop := ∃ ns k, ns ∈ swept_ns ∧ d = ns_dir ns ++ k ∧ orphan_in fs ns k.

(** Last changed at least [min_age_s] seconds before [now]. *)
Definition stale (now min_age_s : Z) fs d : Prop := (min_age_s * 1000000 ≤ now - mtime fs d)%Z.

Lemma ns_dir_prefix ns ns' k k' :
  ns_dir ns ++ k `prefix_of` ns_dir ns' ++ k' → ns = ns' ∧ k `prefix_of` k'.
Proof.
  unfold ns_dir. rewrite <- !app_assoc. intros H%prefix_app_inv. cbn in H.
  apply prefix_cons_inv_2 in H. split; [by eapply prefix_cons_inv_1|by eapply prefix_cons_inv_2].
Qed.

(** Orphans are not nested. *)
Lemma orphan_in_outermost fs ns k k' :
  orphan_in fs ns k → orphan_in fs ns k' → k `prefix_of` k' → k = k'.
Proof.
  intros Hk Hk' Hp. destruct (decide (k = k')) as [|Hne]; [done|].
  destruct (or_files _ _ _ Hk). by eapply or_outer; [| |apply Hk|].
Qed.
Lemma orphans_apart fs d d' : orphan fs d → orphan fs d' → d `prefix_of` d' → d = d'.
Proof.
  intros (ns & k & _ & -> & Hk) (ns' & k' & _ & -> & Hk') [-> Hp]%ns_dir_prefix.
  f_equal. by eapply orphan_in_outermost.
Qed.

(** No orphan appears inside another one. *)
Lemma orphan_parent fs d d' : orphan fs d → orphan fs d' → parent d' ≠ d.
Proof.
  intros Hd Hd' E. assert (d = d') as <-.
  { eapply orphans_apart; [done..|]. rewrite <- E. apply under_parent. by rewrite E. }
  destruct (parent_cases d) as [->|(q & c & -> & E')].
  - destruct Hd as (ns & k & _ & E2 & _). unfold ns_dir in E2. by destruct root.
  - rewrite E' in E. apply (f_equal length) in E. rewrite length_app in E. simpl in E. lia.
Qed.
End orphans.

(** ** Removing directories *)

(** [fs'] is [fs] without the trees under the directories of [V]. *)
Record swept (V : path → Prop) (fs fs' : Fs) : Prop := {
  sw_wf : fs_wf fs';
  sw_gone : ∀ q d, V d → under d q → nodes fs' !! q = None;
  sw_kept : ∀ q, (∀ d, V d → ¬ under d q) → nodes fs' !! q = nodes fs !! q;
  sw_mtime : ∀ q, (∀ d, V d → parent d ≠ q) → mtime fs' q = mtime fs q;
}.

Lemma swept_sub V fs fs' q n : swept V fs fs' → nodes fs' !! q = Some n → nodes fs !! q = Some n.
Proof.
  intros Hs Hq. destruct (nodes fs !! q) as [m|] eqn:E.
  - destruct (decide (m = n)) as [->|Hne]; [done|]. exfalso.
    assert (∀ d, V d → ¬ under d q) as Hn.
    { intros d Hd Hu. rewrite (sw_gone _ _ _ Hs q d Hd Hu) in Hq. done. }
    rewrite (sw_kept _ _ _ Hs q Hn) in Hq. congruence.
  - exfalso. assert (∀ d, V d → ¬ under d q) as Hn.
    { intros d Hd Hu. rewrite (sw_gone _ _ _ Hs q d Hd Hu) in Hq. done. }
    rewrite (sw_kept _ _ _ Hs q Hn) in Hq. congruence.
Qed.

Lemma swept_plain V fs fs' : swept V fs fs' → plain_tree fs → plain_tree fs'.
Proof. intros Hs Hp q n Hq. eapply Hp. by eapply swept_sub. Qed.

Lemma swept_refl fs : fs_wf fs → swept (λ _, False) fs fs.
Proof. by split. Qed.

Lemma swept_iff V V' fs fs' : (∀ d, V d ↔ V' d) → swept V fs fs' → swept V' fs fs'.
Proof. intros HV []. split; naive_solver. Qed.

Lemma swept_trans V V' fs1 fs2 fs3 :
  swept V fs1 fs2 → swept V' fs2 fs3 → swept (λ d, V d ∨ V' d) fs1 fs3.
Proof.
  intros H1 H2. split.
  - apply H2.
  - intros q d [Hd|Hd] Hu; [|by eapply sw_gone].
    destruct (nodes fs3 !! q) as [n|] eqn:E; [|done].
    apply (swept_sub _ _ _ _ _ H2) in E. by rewrite (sw_gone _ _ _ H1 q d Hd Hu) in E.
  - intros q Hq. rewrite (sw_kept _ _ _ H2), (sw_kept _ _ _ H1); naive_solver.
  - intros q Hq. rewrite (sw_mtime _ _ _ H2), (sw_mtime _ _ _ H1); naive_solver.
Qed.

(** [delete_bundle] of a directory that is there or has gone. *)
Definition drop_dir (fs : Fs) (d : path) : Fs :=
  match nodes fs !! d with Some NDir => remove_tree d fs | _ => fs end.

Lemma swept_drop_dir fs d :
  fs_wf fs → d ≠ [] → (∀ b, nodes fs !! d ≠ Some (NFile b)) →
  swept (λ d', d' = d) fs (drop_dir fs d).
Proof.
  intros Hwf Hd Hf. unfold drop_dir. destruct (nodes fs !! d) as [[b|]|] eqn:E.
  - by destruct (Hf b).
  - split.
    + by apply fs_wf_remove_tree.
    + intros q ? -> Hu. by rewrite nodes_remove_tree, decide_True.
    + intros q Hq. rewrite nodes_remove_tree, decide_False; [done|]. by apply Hq.
    + intros q Hq. unfold mtime, remove_tree. cbn. rewrite lookup_insert_ne; [done|]. by apply Hq.
  - split; [done| |done|done]. intros q ? -> Hu. by eapply fs_wf_absent.
Qed.

Lemma swept_drop_dirs fs l :
  fs_wf fs → (∀ d, d ∈ l → d ≠ [] ∧ ∀ b, nodes fs !! d ≠ Some (NFile b)) →
  swept (λ d, d ∈ l) fs (foldl drop_dir fs l).
Proof.
  revert fs. induction l as [|d l IH]; intros fs Hwf Hl; cbn [foldl].
  { eapply swept_iff; [|by apply swept_refl]. intros d. by rewrite elem_of_nil. }
  destruct (Hl d) as [Hd Hf]; [by left|].
  pose proof (swept_drop_dir fs d Hwf Hd Hf) as Hs.
  eapply swept_iff; [|eapply swept_trans; [exact Hs|apply IH]].
  - intros d'. by rewrite elem_of_cons.
  - apply Hs.
  - intros d' Hd'. destruct (Hl d') as [Hne Hf']; [by right|]. split; [done|].
    intros b Hb. eapply Hf'. by eapply swept_sub.
Qed.

(** ** One sweep *)

Section sweep.
Context {C K : Type} `{ClaimStorage C} `{KeyStoreProtocol K} `{App K} (root : path).
Hypothesis Hroot : lexical root.
#[local] Instance backend : StorageBackend Fs := FilesystemBackend root.
Abbreviation W := (World Fs C K).
Implicit Types (w : W) (fs : Fs) (ref : BundleRef) (now min_age_s : Z).

(** Only the store and the log differ. *)
Definition store_only w w' : Prop := ∃ l, w' = add_events l (set_store (w_store w') w).
#[local] Instance store_only_preorder : PreOrder store_only.
Proof.
  split.
  - intros w. exists []. rewrite add_events_nil. by destruct w.
  - intros w1 w2 w3 [l1 E1] [l2 E2]. exists (l1 ++ l2). rewrite E2 at 1. rewrite E1.
    unfold add_events, set_store. cbn. by rewrite app_assoc.
Qed.
Lemma store_only_log l w : store_only w (add_events l w).
Proof. exists l. by destruct w. Qed.
Lemma store_only_set s w : store_only w (set_store s w).
Proof. exists []. by rewrite add_events_nil. Qed.
#[local] Hint Resolve store_only_log store_only_set : core.

(** What a reference makes the sweep delete. *)
Definition victim now min_age_s ref : Prop :=
  br_has_meta ref = false ∧ (min_age_s * 1000000 ≤ now - br_mtime ref)%Z.
#[local] Instance victim_dec now min_age_s ref : Decision (victim now min_age_s ref).
Proof. unfold victim. apply _. Defined.
Definition victims now min_age_s (refs : list BundleRef) : list path :=
  resolve root ∘ br_path <$> filter (victim now min_age_s) refs.

Lemma wp_try_delete p w :
  lexical (resolve root p) →
  wp (try_delete p)
    (λ r w', (r = DeletedBundle ∨ r = MissingBundle) ∧
             w' = set_store (drop_dir (w_store w) (resolve root p)) w) (λ _ _, False) w.
Proof.
  intros Hl. unfold try_delete. apply wp_catch, wp_bind, wp_on_store. cbn [sb_delete_bundle backend FilesystemBackend].
  unfold wp at 1. rewrite delete_bundle_lexical by done. unfold drop_dir.
  destruct (nodes (w_store w) !! resolve root p) as [[]|]; cbn [is_FileNotFoundError]; wp_steps; auto.
Qed.

Lemma wp_sweep_ref now min_age_s ref w :
  lexical (resolve root (br_path ref)) →
  wp (sweep_ref now min_age_s ref)
    (λ _ w', store_only w w' ∧
       w_store w' = if decide (victim now min_age_s ref)
                    then drop_dir (w_store w) (resolve root (br_path ref)) else w_store w)
    (λ _ _, False) w.
Proof.
  intros Hl. unfold sweep_ref. destruct (br_has_meta ref) eqn:Em.
  { apply wp_ret. rewrite decide_False by (intros []; congruence). by split. }
  destruct (decide (now - br_mtime ref < min_age_s * 1000000)%Z) as [Hage|Hage].
  { apply wp_ret. rewrite decide_False by (intros []; lia). by split. }
  rewrite (decide_True (P := victim now min_age_s ref)) by (split; [done|lia]).
  apply wp_bind. eapply wp_mono; [| |by apply wp_try_delete]; [|done].
  intros r w' [Hr ->]. destruct Hr as [-> | ->].
  - unfold struct_log. apply wp_modify. split; [|done]. etrans; [by apply store_only_set|by apply store_only_log].
  - apply wp_ret. by split.
Qed.

Lemma wp_sweep_refs now min_age_s refs w :
  (∀ ref, ref ∈ refs → lexical (resolve root (br_path ref))) →
  wp (for_each refs (sweep_ref now min_age_s))
    (λ _ w', store_only w w' ∧
       w_store w' = foldl drop_dir (w_store w) (victims now min_age_s refs))
    (λ _ _, False) w.
Proof.
  revert w. induction refs as [|ref refs IH]; intros w Hl; cbn [for_each].
  { apply wp_ret. by split. }
  apply wp_bind. eapply wp_mono; [| |apply wp_sweep_ref; apply Hl; by left]; [|done].
  intros _ w1 [Hw1 E1]. eapply wp_mono; [| |apply IH; intros; apply Hl; by right]; [|done].
  intros _ w2 [Hw2 E2]. split; [by etrans|]. rewrite E2, E1. unfold victims.
  destruct (decide (victim now min_age_s ref)); [by rewrite filter_cons_True|by rewrite filter_cons_False].
Qed.

Lemma resolve_ns ns : ns ∈ swept_ns → key_ok (ns +:+ "/") ∧ resolve root (ns +:+ "/") = ns_dir root ns.
Proof.
  intros Hns. assert (Hk : key_ok (ns +:+ "/") ∧ parse_path (ns +:+ "/") = [ns]).
  { unfold swept_ns in Hns. repeat (apply elem_of_cons in Hns as [->|Hns]; [split; [by apply key_okb_sound|done]|]).
    by apply not_elem_of_nil in Hns. }
  destruct Hk as [Hk E]. split; [done|]. by rewrite resolve_key, E by done.
Qed.

(** The path of a listed directory resolves to the directory. *)
Lemma resolve_listed ns k :
  ns ∈ swept_ns → Forall plain_name k → resolve root (as_posix (ns :: k)) = ns_dir root ns ++ k.
Proof.
  intros Hns Hk. assert (Hp : Forall plain_name (ns :: k)).
  { apply Forall_cons. split; [|done]. unfold swept_ns in Hns.
    repeat (apply elem_of_cons in Hns as [->|Hns]; [split_and!; done|]). by apply not_elem_of_nil in Hns. }
  rewrite resolve_key.
  - rewrite parse_as_posix by done. unfold ns_dir. by rewrite <- app_assoc.
  - split_and!; [by apply as_posix_relative|rewrite parse_as_posix by done; by apply plain_lexical|].
    by rewrite parse_as_posix.
Qed.

Lemma plain_below fs ns k n :
  plain_tree fs → nodes fs !! (ns_dir root ns ++ k) = Some n → Forall plain_name k.
Proof. intros Hp Hn. apply Hp, Forall_app in Hn. apply Hn. Qed.

Lemma orphan_in_ns fs ns k : fs_wf fs → orphan_in root fs ns k → nodes fs !! ns_dir root ns = Some NDir.
Proof.
  intros Hwf Hk. apply (fs_wf_prefix fs _ k NDir Hwf); [apply Hk|apply Hk].
Qed.

Definition condemned now min_age_s fs ns d : Prop :=
  ∃ k, d = ns_dir root ns ++ k ∧ orphan_in root fs ns k ∧ stale now min_age_s fs d.

(** The listing of a namespace names exactly the directories to remove. *)
Lemma victims_condemned now min_age_s fs ns refs :
  ns ∈ swept_ns → fs_wf fs → plain_tree fs → nodes fs !! ns_dir root ns = Some NDir →
  (list_bundles root (ns +:+ "/") true fs).1 = Ok refs →
  (∀ ref, ref ∈ refs → lexical (resolve root (br_path ref))) ∧
  ∀ d, d ∈ victims now min_age_s refs ↔ condemned now min_age_s fs ns d.
Proof.
  intros Hns Hwf Hplain Hdir. destruct (resolve_ns ns Hns) as [Hkey Eb].
  assert (Ep : parse_path (ns +:+ "/") = [ns]).
  { pose proof (resolve_key root _ Hkey) as E. rewrite Eb in E. unfold ns_dir in E.
    by apply app_inv_head in E as [= <-]. }
  rewrite list_bundles_walk by (by rewrite ?Eb). intros [= <-].
  pose proof (λ ref, listed_refs root (ns +:+ "/") true fs ref Hwf Hroot Hkey
    ltac:(by rewrite Eb)) as Hl.
  rewrite Eb, Ep in Hl. cbn zeta in Hl. rewrite Eb. split.
  - intros ref (k & _ & Hk & _ & _ & _ & Er & _)%Hl. rewrite Er. cbn [app].
    rewrite resolve_listed; [|done|by eapply plain_below]. apply plain_lexical. by eapply Hplain.
  - intros d. unfold victims. rewrite list_elem_of_fmap. setoid_rewrite list_elem_of_filter.
    setoid_rewrite Hl. cbn [app]. unfold condemned. split.
    + intros (ref & -> & [Hm Hage] & k & Hne & Hk & Hout & Hf & Hkind & Er & Em).
      exists k. cbn [compose]. unfold compose. rewrite Er, resolve_listed; [|done|by eapply plain_below].
      unfold stale. rewrite <- Em. split_and!; [done| |done]. rewrite child_files_nil in Hf.
      destruct Hkind as [[Hm' _]|(_ & _ & Hno)]; [congruence|]. split; [done|done| |done|].
      * intros i Hi Hi0 Hik. by apply child_files_nil, Hout.
      * intros b Hb. apply Hno, elem_of_child_files. exists b. by rewrite <- app_assoc.
    + intros (k & -> & Hk & Hage). destruct Hk as [Hne Hd Hout Hf Hno].
      eexists {| br_path := as_posix (ns :: k); br_has_meta := false; br_mtime := _ |}.
      unfold compose, victim. cbn [br_path br_has_meta br_mtime].
      rewrite resolve_listed by (done || by eapply plain_below).
      split_and!; [done|done|exact Hage|]. exists k. split_and!; try done.
      * intros i Hi Hi0 Hik. by apply child_files_nil, Hout.
      * by rewrite child_files_nil.
      * right. split_and!; [done|done|]. intros [b Hb]%elem_of_child_files.
        rewrite <- app_assoc in Hb. by eapply Hno.
Qed.

(** Removing the condemned directories of one namespace. *)
Lemma swept_condemned now min_age_s fs ns refs :
  ns ∈ swept_ns → fs_wf fs → plain_tree fs → nodes fs !! ns_dir root ns = Some NDir →
  (list_bundles root (ns +:+ "/") true fs).1 = Ok refs →
  swept (condemned now min_age_s fs ns) fs (foldl drop_dir fs (victims now min_age_s refs)).
Proof.
  intros Hns Hwf Hplain Hdir Hrefs.
  destruct (victims_condemned now min_age_s fs ns refs) as [_ Hv]; [done..|].
  eapply swept_iff; [exact Hv|]. apply swept_drop_dirs; [done|].
  intros d (k & -> & Hk & _)%Hv. split.
  - unfold ns_dir. by destruct root.
  - intros b. by rewrite (or_dir _ _ _ _ Hk).
Qed.

Lemma wp_list_bundles prefix io w :
  wp (list_bundles_w prefix io)
    (λ refs w', (list_bundles root prefix io (w_store w)).1 = Ok refs ∧ store_only w w' ∧ w_store w' = w_store w)
    (λ e w', (list_bundles root prefix io (w_store w)).1 = Raise e) w.
Proof.
  unfold list_bundles_w. apply wp_bind, wp_get. cbn [sb_list_bundles backend FilesystemBackend].
  destruct (list_bundles root prefix io (w_store w)) as [r events]. apply wp_bind, wp_modify, wp_of_res.
  cbn. destruct r; [|done]. split_and!; [done|by apply store_only_log|done].
Qed.

Lemma wp_sweep_namespace now min_age_s ns w :
  ns ∈ swept_ns → fs_wf (w_store w) → plain_tree (w_store w) →
  wp (sweep_namespace now min_age_s (ns +:+ "/"))
    (λ _ w', store_only w w' ∧
       swept (condemned now min_age_s (w_store w) ns) (w_store w) (w_store w'))
    (λ _ _, False) w.
Proof.
  intros Hns Hwf Hplain. destruct (resolve_ns ns Hns) as [Hkey Eb].
  unfold sweep_namespace. apply wp_bind, wp_catch, wp_bind.
  destruct (decide (nodes (w_store w) !! ns_dir root ns = Some NDir)) as [Hdir|Hdir].
  - eapply wp_mono; [| |apply wp_list_bundles].
    + intros refs w1 (Hrefs & Hw1 & E1). apply wp_ret.
      destruct (victims_condemned now min_age_s (w_store w) ns refs) as [Hl _]; [done..|].
      eapply wp_mono; [| |by apply wp_sweep_refs]; [|done]. intros _ w2 [Hw2 E2].
      split; [by etrans|]. rewrite E2, E1. by apply swept_condemned.
    + intros e w1 He. by rewrite list_bundles_walk in He by (by rewrite ?Eb).
  - assert (Hnil : list_bundles root (ns +:+ "/") true (w_store w) = (Ok [], [])).
    { assert (Hl : lexical (ns_dir root ns)) by (rewrite <- Eb; by apply resolve_lexical).
      unfold list_bundles. rewrite Eb, namei_lexical by done. cbn [app].
      destruct (is_dir (w_store w) (ns_dir root ns)) eqn:E; [|done].
      by apply is_dir_lexical in E. }
    assert (Hnone : ∀ d, False ↔ condemned now min_age_s (w_store w) ns d).
    { intros d. split; [done|]. intros (k & _ & Hk & _). by eapply Hdir, orphan_in_ns. }
    eapply wp_mono; [| |apply wp_list_bundles].
    + intros refs w1 (Hrefs & Hw1 & E1). apply wp_ret. rewrite Hnil in Hrefs. injection Hrefs as <-.
      apply wp_ret. split; [done|]. rewrite E1. eapply swept_iff; [exact Hnone|by apply swept_refl].
    + intros e w1 He. by rewrite Hnil in He.
Qed.

(** Trees that agree below a namespace have the same orphans in it. *)
Lemma orphan_in_ext fs fs' ns k :
  (∀ j, nodes fs' !! (ns_dir root ns ++ j) = nodes fs !! (ns_dir root ns ++ j)) →
  orphan_in root fs ns k → orphan_in root fs' ns k.
Proof.
  intros Hn [Hk Hd Hout Hf Hm].
  assert (Hnf : ∀ j, no_files fs' (ns_dir root ns ++ j) ↔ no_files fs (ns_dir root ns ++ j)).
  { intros j. unfold no_files. setoid_rewrite <- app_assoc. by setoid_rewrite Hn. }
  split; [done|by rewrite Hn| | |].
  - intros i Hi Hi0 Hik. apply Hnf. by apply Hout.
  - by rewrite Hnf.
  - intros b. rewrite Hn. apply Hm.
Qed.

Lemma condemned_ext now min_age_s fs fs' ns ns' d :
  ns ≠ ns' → swept (condemned now min_age_s fs ns) fs fs' →
  condemned now min_age_s fs' ns' d ↔ condemned now min_age_s fs ns' d.
Proof.
  intros Hne Hs.
  assert (Hn : ∀ j, nodes fs' !! (ns_dir root ns' ++ j) = nodes fs !! (ns_dir root ns' ++ j)).
  { intros j. apply (sw_kept _ _ _ Hs). intros ? (k & -> & _) [-> _]%ns_dir_prefix. done. }
  assert (Ht : ∀ j, j ≠ [] → mtime fs' (ns_dir root ns' ++ j) = mtime fs (ns_dir root ns' ++ j)).
  { intros j Hj. apply (sw_mtime _ _ _ Hs). intros ? (k & -> & Hk & _) E.
    rewrite parent_app in E by apply Hk.
    assert (Hp : ns_dir root ns ++ parent k `prefix_of` ns_dir root ns' ++ j) by by rewrite E.
    by apply ns_dir_prefix in Hp as [? _]. }
  unfold condemned, stale. f_equiv. intros k. split; intros (-> & Hk & Hage);
    (split_and!; [done|eapply orphan_in_ext; [|exact Hk]; done|]).
  - by rewrite <- Ht by apply Hk.
  - by rewrite Ht by apply Hk.
Qed.

(** One pass: the old orphans go, nothing else changes. *)
Lemma wp_sweep min_age_s w :
  fs_wf (w_store w) → plain_tree (w_store w) →
  wp (sweep min_age_s)
    (λ _ w', store_only w w' ∧
       swept (λ d, orphan root (w_store w) d ∧ stale (w_now w) min_age_s (w_store w) d)
         (w_store w) (w_store w'))
    (λ _ _, False) w.
Proof.
  intros Hwf Hplain. unfold sweep. apply wp_bind, wp_get. unfold NAMESPACES. cbn [for_each].
  apply wp_bind. eapply wp_mono; [| |by apply (wp_sweep_namespace _ _ "inbox"); [left|..]]; [|done].
  intros _ w1 [Hw1 Hs1]. apply wp_bind.
  eapply wp_mono; [| |apply (wp_sweep_namespace _ _ "store"); [right; left|apply Hs1|by eapply swept_plain]]; [|done].
  intros _ w2 [Hw2 Hs2]. apply wp_ret. split; [by etrans|].
  eapply swept_iff; [|eapply swept_trans; [exact Hs1|exact Hs2]].
  intros d. cbn beta. rewrite (condemned_ext _ _ _ _ "inbox" "store" d) by done.
  unfold condemned, orphan, swept_ns. setoid_rewrite elem_of_cons. setoid_rewrite elem_of_cons.
  setoid_rewrite elem_of_nil. naive_solver.
Qed.

(** ** The loop *)

(** The orphans that a removal of orphans leaves. *)
Lemma swept_files V fs fs' x c b :
  fs_wf fs → (∀ v, V v → orphan root fs v) → swept V fs fs' → nodes fs' !! x = Some NDir →
  nodes fs' !! (x ++ [c]) = Some (NFile b) ↔ nodes fs !! (x ++ [c]) = Some (NFile b).
Proof.
  intros Hwf HV Hs Hx. split; [by eapply swept_sub|]. intros Hc.
  rewrite (sw_kept _ _ _ Hs); [done|]. intros v Hv [->|Hu]%prefix_snoc_inv.
  - apply HV in Hv as (ns & k & _ & E & Hk). pose proof (or_dir _ _ _ _ Hk) as Hd.
    rewrite <- E in Hd. congruence.
  - by rewrite (sw_gone _ _ _ Hs x v Hv Hu) in Hx.
Qed.

Lemma orphan_swept V fs fs' d :
  fs_wf fs → (∀ v, V v → orphan root fs v) → swept V fs fs' →
  orphan root fs' d ↔ orphan root fs d ∧ ¬ V d.
Proof.
  intros Hwf HV Hs.
  assert (Hnf : ∀ x, nodes fs' !! x = Some NDir → no_files fs' x ↔ no_files fs x).
  { intros x Hx. unfold no_files. split; intros Hn c b Hc; apply (Hn c b);
      by eapply (swept_files V fs fs'). }
  assert (Ho : ∀ ns k, nodes fs' !! (ns_dir root ns ++ k) = Some NDir →
    orphan_in root fs' ns k ↔ orphan_in root fs ns k).
  { intros ns k Hk.
    assert (Hi : ∀ i, i `prefix_of` k → nodes fs' !! (ns_dir root ns ++ i) = Some NDir).
    { intros i [[|c j] ->]; [by rewrite app_nil_r in Hk|]. rewrite app_assoc in Hk.
      eapply fs_wf_prefix; [apply Hs|exact Hk|done]. }
    assert (Hm : ∀ b, nodes fs' !! (ns_dir root ns ++ k ++ [BUNDLE_MANIFEST]) = Some (NFile b)
                    ↔ nodes fs !! (ns_dir root ns ++ k ++ [BUNDLE_MANIFEST]) = Some (NFile b)).
    { intros b. rewrite app_assoc. by eapply swept_files. }
    assert (Hf : ∀ i, i `prefix_of` k → i ≠ [] → i ≠ k →
      no_files fs' (ns_dir root ns ++ i) ↔ no_files fs (ns_dir root ns ++ i)) by auto.
    split; intros [Hk1 Hk2 Hk3 Hk4 Hk5].
    - split; [done|by eapply swept_sub| |by rewrite <- Hnf|by setoid_rewrite <- Hm]. naive_solver.
    - split; [done|done| |by rewrite Hnf|by setoid_rewrite Hm]. naive_solver. }
  split.
  - intros (ns & k & Hns & -> & Hk). pose proof (or_dir _ _ _ _ Hk) as Hd. split.
    + exists ns, k. split_and!; [done..|]. by apply Ho.
    + intros Hv. by rewrite (sw_gone _ _ _ Hs _ _ Hv (reflexivity _)) in Hd.
  - intros [Hd Hv]. pose proof Hd as (ns & k & Hns & -> & Hk). exists ns, k. split_and!; [done..|].
    apply Ho; [|done]. rewrite (sw_kept _ _ _ Hs); [apply Hk|].
    intros v Hv' Hu. apply Hv. by rewrite <- (orphans_apart root fs v _ (HV _ Hv') Hd Hu).
Qed.

(** No claim is pending, so the second half of an iteration has nothing to do. *)
Definition no_claims w : Prop := cs_iter_all (w_claims w) = (Ok [], w_claims w).

Lemma wp_reaper_iteration min_age_s ttl_s w :
  fs_wf (w_store w) → plain_tree (w_store w) → no_claims w →
  wp (reaper_iteration min_age_s ttl_s)
    (λ _ w', store_only w w' ∧
       swept (λ d, orphan root (w_store w) d ∧ stale (w_now w) min_age_s (w_store w) d)
         (w_store w) (w_store w'))
    (λ _ _, False) w.
Proof.
  intros Hwf Hplain Hclaims. unfold reaper_iteration. apply wp_catch, wp_bind.
  eapply wp_mono; [| |by apply wp_sweep]; [|done]. intros _ w1 [Hw1 Hs].
  assert (E : cs_iter_all (w_claims w1) = (Ok [], w_claims w1)).
  { destruct Hw1 as [l ->]. exact Hclaims. }
  unfold sweep_claims. apply wp_bind, wp_catch, wp_bind. unfold wp at 1, on_claims, lift. rewrite E.
  apply wp_ret, wp_bind, wp_get, wp_ret. cbn [w_store set_claims]. split; [|done]. etrans; [done|].
  exists []. rewrite add_events_nil. by destruct w1.
Qed.

Lemma wp_reaper_loop n interval_s min_age_s ttl_s w :
  fs_wf (w_store w) → plain_tree (w_store w) → no_claims w →
  wp (reaper_loop n interval_s min_age_s ttl_s)
    (λ _ w', ∃ V, swept V (w_store w) (w_store w') ∧ (∀ d, V d → orphan root (w_store w) d) ∧
       ∀ d, orphan root (w_store w) d → (1 ≤ n)%nat →
         stale (w_now w + Z.of_nat n * (interval_s * 1000000))%Z min_age_s (w_store w) d → V d)
    (λ _ _, False) w.
Proof.
  revert w. induction n as [|n IH]; intros w Hwf Hplain Hclaims; cbn [reaper_loop].
  { apply wp_ret. exists (λ _, False). split_and!; [by apply swept_refl|done|]. intros; lia. }
  apply wp_bind, wp_modify, wp_bind.
  eapply wp_mono; [| |by apply wp_reaper_iteration]; [|done]. cbn [w_store w_now].
  intros _ w1 [[l El] Hs1]. cbn [w_store] in Hs1.
  assert (En : w_now w1 = (w_now w + interval_s * 1000000)%Z) by by rewrite El.
  eapply wp_mono; [| |apply IH]; [|done|apply Hs1|by eapply swept_plain|].
  2:{ unfold no_claims. rewrite El. exact Hclaims. }
  intros _ w2 (V & Hs2 & HV & Hall). eexists. split_and!; [by eapply swept_trans| |].
  - intros d [[Hd _]|Hd]; [done|]. apply HV in Hd.
    by apply (orphan_swept _ _ _ d Hwf (λ v Hv, proj1 Hv) Hs1) in Hd as [? _].
  - intros d Hd _ Hst. unfold stale in Hst |- *. cbn [w_now].
    destruct (decide (min_age_s * 1000000 ≤ w_now w + interval_s * 1000000 - mtime (w_store w) d)%Z)
      as [|Hyoung]; [by left|right].
    assert (E : (Z.of_nat (S n) * (interval_s * 1000000)
             = interval_s * 1000000 + Z.of_nat n * (interval_s * 1000000))%Z) by lia.
    apply Hall; [|destruct n; lia|].
    + apply (orphan_swept _ _ _ d Hwf (λ v Hv, proj1 Hv) Hs1). split; [done|]. by intros [_ ?].
    + unfold stale. rewrite En, (sw_mtime _ _ _ Hs1); [lia|].
      intros v [Hv _]. by eapply orphan_parent.
Qed.
End sweep.

(** ** Properties *)

(** One pass of the reaper removes exactly the orphan directories of the two
    namespaces that have reached the minimum age.  It always returns; below an
    orphan that was last changed [min_age_s] seconds ago or earlier nothing is
    left; every path that is not below such an orphan is as before, committed
    bundles and younger orphans included; and the claims, the keys and the
    clock do not change. *)
Theorem sweep_removes_old_orphans {C K} `{ClaimStorage C, KeyStoreProtocol K, !App K}
    root min_age_s (w : World Fs C K) :
  let old d := orphan root (w_store w) d ∧ stale (w_now w) min_age_s (w_store w) d in
  lexical root → fs_wf (w_store w) → plain_tree (w_store w) →
  ∃ w', @sweep Fs C K (FilesystemBackend root) min_age_s w = (Ok tt, w') ∧
    w_claims w' = w_claims w ∧ w_keys w' = w_keys w ∧ w_now w' = w_now w ∧
    ∀ q, ((∃ d, old d ∧ under d q) → nodes (w_store w') !! q = None) ∧
         ((∀ d, old d → ¬ under d q) → nodes (w_store w') !! q = nodes (w_store w) !! q).
Proof.
  intros old Hroot Hwf Hplain. pose proof (wp_sweep root Hroot min_age_s w Hwf Hplain) as Hs.
  unfold wp, backend in Hs. destruct (sweep min_age_s w) as [[[]|e] w']; [|done].
  destruct Hs as [[l E] Hs]. exists w'. split; [done|].
  split_and!; [by rewrite E at 1..|]. intros q. split.
  - intros (d & Hd & Hu). by eapply (sw_gone _ _ _ Hs).
  - intros Hn. by apply (sw_kept _ _ _ Hs).
Qed.

(** C32: the reaper gets every orphan in the end.  On a server that nothing else
    writes to and with no claim pending, for every positive interval there is
    a number of iterations after which, however much longer the loop runs, the
    orphan has gone with all that was below it, whatever its age at the start;
    and what is not below an orphan has not changed. *)
Theorem reaper_collects_orphans {C K} `{ClaimStorage C, KeyStoreProtocol K, !App K}
    root interval_s min_age_s ttl_s (w : World Fs C K) d :
  lexical root → fs_wf (w_store w) → plain_tree (w_store w) → no_claims w →
  (0 < interval_s)%Z → orphan root (w_store w) d →
  ∃ N, ∀ n, (N ≤ n)%nat → ∃ w',
    @reaper_loop Fs C K (FilesystemBackend root) _ n interval_s min_age_s ttl_s w = (Ok tt, w') ∧
    (∀ q, under d q → nodes (w_store w') !! q = None) ∧
    (∀ q, (∀ d', orphan root (w_store w) d' → ¬ under d' q) →
      nodes (w_store w') !! q = nodes (w_store w) !! q).
Proof.
  intros Hroot Hwf Hplain Hclaims Hint Hd.
  exists (S (Z.to_nat (min_age_s * 1000000 + mtime (w_store w) d - w_now w))). intros n Hn.
  pose proof (wp_reaper_loop root Hroot n interval_s min_age_s ttl_s w Hwf Hplain Hclaims) as Hl.
  unfold wp, backend in Hl. destruct (reaper_loop n interval_s min_age_s ttl_s w) as [[[]|e] w']; [|done].
  destruct Hl as (V & Hs & HV & Hall). exists w'. split_and!; [done| |].
  - intros q. apply (sw_gone _ _ _ Hs), Hall; [done|lia|]. unfold stale. nia.
  - intros q Hq. apply (sw_kept _ _ _ Hs). intros v Hv. by apply Hq, HV.
Qed.

(** *** An upload that was cut off *)

#[local] Existing Instances Demo.storage Demo.claims Demo.keys ToyJwt.
#[local] Instance open_server : App KeyStore := Demo.core true.

(** [demo_fs] with a second bundle that never reached its commit. *)
Definition abandoned_fs : Fs :=
  ((w <- open_bundle_write [] "inbox/bob/m2";; write_file w "a.txt" (bytes_io "x"))%eff demo_fs).2.
Definition abandoned_dir : path := ["data"; "inbox"; "bob"; "m2"].
Definition abandoned_world (now : Z) : Demo.World := set_store abandoned_fs (Demo.world now).

Lemma abandoned_wf : fs_wf abandoned_fs.
Proof. apply fs_wfb_sound. vm_compute. reflexivity. Qed.
Lemma abandoned_plain : plain_tree abandoned_fs.
Proof. apply plain_treeb_sound. vm_compute. reflexivity. Qed.
Lemma abandoned_orphan : orphan [] abandoned_fs abandoned_dir.
Proof.
  exists "inbox", ["bob"; "m2"]. split_and!; [by left|done|]. split.
  - done.
  - by vm_compute.
  - intros i Hi Hi0 Hik. apply child_files_nil. destruct i as [|c [|c' i]]; [done| |].
    + apply prefix_cons_inv_1 in Hi as ->. by vm_compute.
    + pose proof (prefix_cons_inv_1 _ _ _ _ Hi) as ->. apply prefix_cons_inv_2 in Hi.
      pose proof (prefix_cons_inv_1 _ _ _ _ Hi) as ->. apply prefix_cons_inv_2 in Hi.
      by apply prefix_nil_inv in Hi as ->.
  - rewrite <- child_files_nil. by vm_compute.
  - intros b. by vm_compute.
Qed.

Lemma sweep_removes_old_orphans_witness :
  ∃ w', sweep 60 (abandoned_world 100) = (Ok tt, w')
    ∧ nodes (w_store w') !! (abandoned_dir ++ ["a.txt"]) = None.
Proof.
  destruct (sweep_removes_old_orphans [] 60 (abandoned_world 100)) as (w' & E & _ & _ & _ & H).
  - exact lexical_nil.
  - exact abandoned_wf.
  - exact abandoned_plain.
  - exists w'. split; [exact E|]. apply (H (abandoned_dir ++ ["a.txt"])). exists abandoned_dir.
    split; [split; [exact abandoned_orphan|]|by eexists]. vm_compute. discriminate.
Defined.

Lemma reaper_collects_orphans_witness :
  ∃ N, ∀ n, (N ≤ n)%nat → ∃ w', reaper_loop n 60 3600 600 (abandoned_world 100) = (Ok tt, w')
    ∧ nodes (w_store w') !! abandoned_dir = None.
Proof.
  destruct (reaper_collects_orphans [] 60 3600 600 (abandoned_world 100) abandoned_dir) as [N H].
  - exact lexical_nil.
  - exact abandoned_wf.
  - exact abandoned_plain.
  - vm_compute. reflexivity.
  - reflexivity.
  - exact abandoned_orphan.
  - exists N. intros n Hn. destruct (H n Hn) as (w' & E & Hg & _). exists w'.
    split; [exact E|apply Hg; reflexivity].
Defined.

(** A bundle in flight with a file in a subdirectory does not count as a
    bundle for the collision check: another one can be committed below it, and
    when the outer one is given up the sweep takes the committed one with it. *)
Definition nested_fs : Fs :=
  ((w <- open_bundle_write [] "store/a";;
    '(w, _) <- write_file w "a.txt" (bytes_io "x");;
    _ <- write_file w "sub/b.txt" (bytes_io "y");;
    store_bundle [] "store/a/c" demo_files demo_meta)%eff fs_init).2.

Example sweep_takes_nested_bundle :
  (read_bundle_meta [] "store/a/c" nested_fs).1 = Ok demo_meta ∧
  (sweep 60 (set_store nested_fs (Demo.world 100))).1 = Ok tt ∧
  nodes (w_store (sweep 60 (set_store nested_fs (Demo.world 100))).2) !! ["data"; "store"; "a"] = None.
Proof. split_and!; vm_compute; reflexivity. Qed.
