(* ===== verification/Expiry.v ===== *)
(** * What the lifetime sweep removes

    The sweep of [app.py] over the filesystem backend: one pass removes the
    committed bundles whose [created_at] is older than the lifetime, whole,
    and touches nothing else.  A manifest that is not UTF-8 ends the pass. *)

From Stdlib Require Import Ascii String.
From S2P Require Import Prelude PyStr PyCodec Json DateTime Effects PyNum Paths Limits Config.
From S2P Require Import Claims KeyStore Jwt FsModel Storage World Frame Backends Bundles Downloads Inbox.
From S2P Require Import Files SendInit Upload Download Gc Reaper.
Local Open Scope string_scope.
Local Open Scope list_scope.
Local Open Scope effect_scope.

(** ** Bundles and their age *)

(** The creation time a manifest file gives its bundle. *)
Definition body_created (body : bytes) : option Z :=
  match utf8_decode body ≫= json_loads with
  | Some (JDict meta) => fromisoformat (get_str "created_at" "" meta)
  | _ => None
  end.
Definition created_time (fs : Fs) (d : path) : option Z :=
  match nodes fs !! (d ++ [BUNDLE_MANIFEST]) with
  | Some (NFile body) => body_created body
  | _ => None
  end.

(** Older than the lifetime, in seconds. *)
Definition outlived (now ttl : Z) (fs : Fs) (d : path) : Prop :=
  match created_time fs d with Some created => ttl * 1000000 < now - created | None => False end%Z.
#[export] Instance outlived_dec now ttl fs d : Decision (outlived now ttl fs d).
Proof. unfold outlived. case_match; apply _. Defined.

(** The manifests of a tree are UTF-8. *)
Definition manifests_decode (fs : Fs) : Prop :=
  ∀ d body, nodes fs !! (d ++ [BUNDLE_MANIFEST]) = Some (NFile body) → is_Some (utf8_decode body).

Lemma outlived_manifest now ttl fs d :
  outlived now ttl fs d → ∃ body, nodes fs !! (d ++ [BUNDLE_MANIFEST]) = Some (NFile body).
Proof. unfold outlived, created_time. destruct (nodes fs !! _) as [[body|]|]; [by eexists|done..]. Qed.
Lemma outlived_ext now ttl fs fs' d :
  nodes fs' !! (d ++ [BUNDLE_MANIFEST]) = nodes fs !! (d ++ [BUNDLE_MANIFEST]) →
  outlived now ttl fs' d ↔ outlived now ttl fs d.
Proof. unfold outlived, created_time. by intros ->. Qed.
Lemma swept_decode V fs fs' : swept V fs fs' → manifests_decode fs → manifests_decode fs'.
Proof. intros Hs Hd d body Hb. eapply Hd. by eapply swept_sub. Qed.

Section bundles.
Context (root : path).

(** [k] below the namespace is a bundle: the outermost directory with files on
    its path, one of them the manifest. *)
Record bundle_in (fs : Fs) (ns : str) (k : path) : Prop := {
  bn_below : k ≠ [];
  bn_dir : nodes fs !! (ns_dir root ns ++ k) = Some NDir;
  bn_outer : ∀ i, i `prefix_of` k → i ≠ [] → i ≠ k → no_files fs (ns_dir root ns ++ i);
  bn_meta : ∃ b, nodes fs !! (ns_dir root ns ++ k ++ [BUNDLE_MANIFEST]) = Some (NFile b);
}.
Definition listed_bundle (fs : Fs) (d : path) : Prop :=
  ∃ ns k, ns ∈ swept_ns ∧ d = ns_dir root ns ++ k ∧ bundle_in fs ns k.

Lemma bundle_in_outermost fs ns k k' :
  bundle_in fs ns k → bundle_in fs ns k' → k `prefix_of` k' → k = k'.
Proof.
  intros Hk Hk' Hp. destruct (decide (k = k')) as [|Hne]; [done|].
  destruct (bn_meta _ _ _ Hk) as [b Hb]. rewrite app_assoc in Hb.
  by destruct (bn_outer _ _ _ Hk' k Hp (bn_below _ _ _ Hk) Hne BUNDLE_MANIFEST b).
Qed.

Lemma bundle_in_ext fs fs' ns k :
  (∀ j, nodes fs' !! (ns_dir root ns ++ j) = nodes fs !! (ns_dir root ns ++ j)) →
  bundle_in fs ns k → bundle_in fs' ns k.
Proof.
  intros Hn [Hk Hd Hout Hm]. split; [done|by rewrite Hn| |by setoid_rewrite Hn].
  intros i Hi Hi0 Hik c b. rewrite <- app_assoc, Hn, app_assoc. by apply Hout.
Qed.
End bundles.

(** ** Dropping the outlived among some directories *)

Definition drop_outlived (now ttl : Z) (fs : Fs) (d : path) : Fs :=
  if decide (outlived now ttl fs d) then drop_dir fs d else fs.

Lemma swept_drop_outlived now ttl fs l :
  fs_wf fs → (∀ d, d ∈ l → d ≠ [] ∧ ∀ b, nodes fs !! d ≠ Some (NFile b)) →
  (∀ d d', d ∈ l → d' ∈ l → d `prefix_of` d' → d = d') →
  swept (λ d, d ∈ l ∧ outlived now ttl fs d) fs (foldl (drop_outlived now ttl) fs l).
Proof.
  revert fs. induction l as [|d l IH]; intros fs Hwf Hl Hap; cbn [foldl].
  { eapply swept_iff; [|by apply swept_refl]. intros d. rewrite elem_of_nil. tauto. }
  destruct (Hl d) as [Hd Hf]; [by left|]. unfold drop_outlived at 2.
  destruct (decide (outlived now ttl fs d)) as [Ho|Ho].
  2:{ eapply swept_iff; [|apply IH; [done|intros; apply Hl; by right|intros; apply Hap; by try right]].
      intros d'. rewrite elem_of_cons. naive_solver. }
  pose proof (swept_drop_dir fs d Hwf Hd Hf) as Hs.
  assert (Hout : ∀ d', d' ∈ l → outlived now ttl (drop_dir fs d) d' ↔ outlived now ttl fs d' ∧ d' ≠ d).
  { intros d' Hd'. destruct (decide (d' = d)) as [->|Hne].
    - split; [|by intros []]. intros [b Hb]%outlived_manifest.
      rewrite (sw_gone _ _ _ Hs _ d) in Hb; [done|done|by apply prefix_app_r].
    - rewrite outlived_ext; [by split; [|intros []]|]. apply (sw_kept _ _ _ Hs). intros ? -> Hu.
      apply prefix_snoc_inv in Hu as [->|Hu].
      + destruct Hne. apply Hap; [by right|by left|by apply prefix_app_r].
      + destruct Hne. symmetry. apply Hap; [by left|by right|done]. }
  eapply swept_iff; [|eapply swept_trans; [exact Hs|apply IH]].
  - intros d'. rewrite elem_of_cons. cbn beta. split.
    + intros [->|[Hd' Ho']]; [by split; [left|]|]. apply Hout in Ho' as [? _]; [|done]. split; [by right|done].
    + intros [[->|Hd'] Ho']; [by left|]. destruct (decide (d' = d)) as [->|Hne]; [by left|right].
      split; [done|]. by apply Hout.
  - apply Hs.
  - intros d' Hd'. destruct (Hl d') as [Hne Hf']; [by right|]. split; [done|].
    intros b Hb. eapply Hf'. by eapply swept_sub.
  - intros d1 d2 H1 H2. apply Hap; by right.
Qed.

(** ** One sweep *)

Section sweep.
Context {C K : Type} `{ClaimStorage C} `{KeyStoreProtocol K} `{App K} (root : path).
Hypothesis Hroot : lexical root.
#[local] Instance backend : StorageBackend Fs := FilesystemBackend root.
#[local] Existing Instance store_only_preorder.
Abbreviation W := (World Fs C K).
Abbreviation lifetime := (cf_default_ttl app_config).
Implicit Types (w : W) (fs : Fs) (ref : BundleRef) (now : Z).

Lemma wp_try_read_created p w :
  lexical (resolve root p) → manifests_decode (w_store w) →
  wp (try_read_meta p)
    (λ meta w', w' = w ∧
       created_time (w_store w) (resolve root p)
       = match meta with Some meta => fromisoformat (get_str "created_at" "" meta) | None => None end)
    (λ _ _, False) w.
Proof.
  intros Hl Hdec. pose proof (manifest_lexical _ Hl) as Hm.
  unfold try_read_meta. apply wp_catch, wp_bind, wp_on_store.
  assert (E : set_store (w_store w) w = w) by by destruct w.
  cbn [sb_read_bundle_meta backend FilesystemBackend]. unfold wp at 1, read_bundle_meta, bind at 1, get, created_time.
  rewrite is_file_at by done. unfold file_at.
  destruct (nodes (w_store w) !! (resolve root p ++ [BUNDLE_MANIFEST])) as [[body|]|] eqn:En; try by (split; [rewrite E|]).
  unfold bind. rewrite (read_bytes_at _ _ body) by (done || by (unfold file_at; rewrite En)).
  destruct (Hdec _ _ En) as [text Et]. unfold body_created. rewrite Et. cbn [mbind option_bind].
  destruct (json_loads text) as [[]|]; split; try done; by rewrite ?E.
Qed.

Lemma wp_cleanup_ref now count ref w :
  lexical (resolve root (br_path ref)) → manifests_decode (w_store w) →
  wp (cleanup_ref now count ref)
    (λ _ w', store_only w w' ∧
       w_store w' = drop_outlived now lifetime (w_store w) (resolve root (br_path ref)))
    (λ _ _, False) w.
Proof.
  intros Hl Hdec. unfold cleanup_ref, drop_outlived. apply wp_bind.
  eapply wp_mono; [| |by apply wp_try_read_created]; [|done]. intros meta ? [-> Et].
  assert (Hnone : created_time (w_store w) (resolve root (br_path ref)) = None →
    ¬ outlived now lifetime (w_store w) (resolve root (br_path ref))).
  { unfold outlived. intros ->. by intros []. }
  destruct meta as [meta|]; [destruct (fromisoformat _) as [created|]|];
    [|by apply wp_ret; rewrite decide_False by auto..].
  assert (Ho : outlived now lifetime (w_store w) (resolve root (br_path ref)) ↔ (lifetime * 1000000 < now - created)%Z).
  { unfold outlived. by rewrite Et. }
  destruct (decide (lifetime * 1000000 < now - created)%Z) as [Hage|Hage].
  2:{ apply wp_ret. rewrite decide_False; [done|]. by rewrite Ho. }
  rewrite (decide_True (P := outlived _ _ _ _)) by by apply Ho.
  apply wp_bind. eapply wp_mono; [| |by apply wp_try_delete]; [|done].
  intros r w' [Hr ->]. destruct Hr as [-> | ->].
  - unfold struct_log. apply wp_bind, wp_modify, wp_ret.
    split; [|done]. etrans; [by apply store_only_set|by apply store_only_log].
  - apply wp_ret. split; [|done]. apply store_only_set.
Qed.

Lemma drop_outlived_decode now ttl fs d :
  manifests_decode fs → manifests_decode (drop_outlived now ttl fs d).
Proof.
  intros Hdec. unfold drop_outlived, drop_dir. repeat case_match; try done.
  intros q body Hb. eapply (Hdec q). rewrite nodes_remove_tree in Hb. by case_decide.
Qed.

Lemma wp_cleanup_refs now count refs w :
  (∀ ref, ref ∈ refs → lexical (resolve root (br_path ref))) → manifests_decode (w_store w) →
  wp (count_until_error (cleanup_ref now) count refs)
    (λ r w', r.2 = true ∧ store_only w w' ∧
       w_store w' = foldl (drop_outlived now lifetime) (w_store w) (resolve root ∘ br_path <$> refs))
    (λ _ _, False) w.
Proof.
  revert count w. induction refs as [|ref refs IH]; intros count w Hl Hdec; cbn [count_until_error].
  { by apply wp_ret. }
  apply wp_bind, wp_catch, wp_bind.
  eapply wp_mono; [| |apply wp_cleanup_ref; [apply Hl; by left|done]]; [|done].
  intros c w1 [Hw1 E1]. apply wp_ret. cbn iota beta.
  eapply wp_mono; [| |apply IH]; [|done|intros; apply Hl; by right|].
  - intros r w2 (Hr & Hw2 & E2). split_and!; [done|by etrans|]. by rewrite E2, E1.
  - rewrite E1. by apply drop_outlived_decode.
Qed.

(** The outlived bundles of a namespace. *)
Definition doomed now fs ns d : Prop :=
  ∃ k, d = ns_dir root ns ++ k ∧ bundle_in root fs ns k ∧ outlived now lifetime fs d.

(** What the listing of a namespace names are its bundles. *)
Lemma listing_bundles fs ns refs :
  ns ∈ swept_ns → fs_wf fs → plain_tree fs → nodes fs !! ns_dir root ns = Some NDir →
  (list_bundles root (ns +:+ "/") false fs).1 = Ok refs →
  (∀ ref, ref ∈ refs → lexical (resolve root (br_path ref))) ∧
  ∀ d, d ∈ (resolve root ∘ br_path <$> refs) ↔ ∃ k, d = ns_dir root ns ++ k ∧ bundle_in root fs ns k.
Proof.
  intros Hns Hwf Hplain Hdir. destruct (resolve_ns root ns Hns) as [Hkey Eb].
  assert (Ep : parse_path (ns +:+ "/") = [ns]).
  { pose proof (resolve_key root _ Hkey) as E. rewrite Eb in E. unfold ns_dir in E.
    by apply app_inv_head in E as [= <-]. }
  rewrite list_bundles_walk by (by rewrite ?Eb). intros [= <-].
  pose proof (λ ref, listed_refs root (ns +:+ "/") false fs ref Hwf Hroot Hkey
    ltac:(by rewrite Eb)) as Hl.
  rewrite Eb, Ep in Hl. cbn zeta in Hl. rewrite Eb. split.
  - intros ref (k & _ & Hk & _ & _ & _ & Er & _)%Hl. rewrite Er. cbn [app].
    rewrite (resolve_listed root); [|done|by eapply plain_below]. apply plain_lexical. by eapply Hplain.
  - intros d. rewrite list_elem_of_fmap. setoid_rewrite Hl. cbn [app]. split.
    + intros (ref & -> & k & Hne & Hk & Hout & _ & Hkind & Er & _).
      exists k. unfold compose. rewrite Er, (resolve_listed root); [|done|by eapply plain_below].
      split; [done|]. destruct Hkind as [[_ [b Hb]%elem_of_child_files]|(_ & ? & _)]; [|done].
      rewrite <- app_assoc in Hb. split; [done|done| |by exists b].
      intros i Hi Hi0 Hik. by apply child_files_nil, Hout.
    + intros (k & -> & [Hne Hd Hout [b Hb]]). rewrite app_assoc in Hb.
      assert (Hin : BUNDLE_MANIFEST ∈ child_files fs (ns_dir root ns ++ k)).
      { apply elem_of_child_files. by exists b. }
      eexists {| br_path := as_posix (ns :: k); br_has_meta := true; br_mtime := _ |}.
      unfold compose. cbn [br_path br_has_meta br_mtime].
      rewrite (resolve_listed root) by (done || by eapply plain_below).
      split; [done|]. exists k. split_and!; try done.
      * intros i Hi Hi0 Hik. by apply child_files_nil, Hout.
      * intros E. rewrite E in Hin. by apply not_elem_of_nil in Hin.
      * by left.
Qed.

Lemma swept_doomed now fs ns refs :
  ns ∈ swept_ns → fs_wf fs → plain_tree fs → nodes fs !! ns_dir root ns = Some NDir →
  (list_bundles root (ns +:+ "/") false fs).1 = Ok refs →
  swept (doomed now fs ns) fs (foldl (drop_outlived now lifetime) fs (resolve root ∘ br_path <$> refs)).
Proof.
  intros Hns Hwf Hplain Hdir Hrefs.
  destruct (listing_bundles fs ns refs) as [_ Hv]; [done..|].
  apply (swept_iff (λ d, d ∈ (resolve root ∘ br_path <$> refs) ∧ outlived now lifetime fs d));
    [|apply swept_drop_outlived; [done| |]].
  - intros d. rewrite Hv. unfold doomed. naive_solver.
  - intros d (k & -> & Hk)%Hv. split; [unfold ns_dir; by destruct root|].
    intros b. by rewrite (bn_dir _ _ _ _ Hk).
  - intros d d' (k & -> & Hk)%Hv (k' & -> & Hk')%Hv [_ Hp]%ns_dir_prefix.
    f_equal. by eapply bundle_in_outermost.
Qed.

Lemma listing_absent fs ns :
  ns ∈ swept_ns → nodes fs !! ns_dir root ns ≠ Some NDir →
  list_bundles root (ns +:+ "/") false fs = (Ok [], []).
Proof.
  intros Hns Hdir. destruct (resolve_ns root ns Hns) as [Hkey Eb].
  assert (Hl : lexical (ns_dir root ns)) by (rewrite <- Eb; by apply resolve_lexical).
  unfold list_bundles. rewrite Eb, namei_lexical by done. cbn [app].
  destruct (is_dir fs (ns_dir root ns)) eqn:E; [|done]. by apply is_dir_lexical in E.
Qed.

Lemma wp_cleanup_namespace now ns count w :
  ns ∈ swept_ns → fs_wf (w_store w) → plain_tree (w_store w) → manifests_decode (w_store w) →
  wp (list_bundles_w (ns +:+ "/") false)
    (λ refs w1, wp (count_until_error (cleanup_ref now) count refs)
      (λ r w', r.2 = true ∧ store_only w w' ∧ swept (doomed now (w_store w) ns) (w_store w) (w_store w'))
      (λ _ _, False) w1)
    (λ _ _, False) w.
Proof.
  intros Hns Hwf Hplain Hdec. destruct (resolve_ns root ns Hns) as [Hkey Eb].
  destruct (decide (nodes (w_store w) !! ns_dir root ns = Some NDir)) as [Hdir|Hdir].
  - eapply wp_mono; [| |apply wp_list_bundles].
    2:{ intros e w1 He. by rewrite list_bundles_walk in He by (by rewrite ?Eb). }
    intros refs w1 (Hrefs & Hw1 & E1).
    destruct (listing_bundles (w_store w) ns refs) as [Hl _]; [done..|].
    eapply wp_mono; [| |apply wp_cleanup_refs; [exact Hl|by rewrite E1]]; [|done].
    intros r w2 (Hr & Hw2 & E2). split_and!; [done|by etrans|]. rewrite E2, E1. by apply swept_doomed.
  - pose proof (listing_absent _ _ Hns Hdir) as Hnil. eapply wp_mono; [| |apply wp_list_bundles].
    2:{ intros e w1 He. by rewrite Hnil in He. }
    intros refs w1 (Hrefs & Hw1 & E1). rewrite Hnil in Hrefs. injection Hrefs as <-.
    cbn [count_until_error]. apply wp_ret. split_and!; [done..|]. rewrite E1.
    apply (swept_iff (λ _, False)); [|by apply swept_refl].
    intros d. split; [done|]. intros (k & _ & Hk & _). apply Hdir.
    eapply (fs_wf_prefix _ _ k NDir Hwf); [apply Hk|apply Hk].
Qed.

Lemma doomed_ext now fs fs' ns ns' d :
  ns ≠ ns' → swept (doomed now fs ns) fs fs' → doomed now fs' ns' d ↔ doomed now fs ns' d.
Proof.
  intros Hne Hs.
  assert (Hn : ∀ j, nodes fs' !! (ns_dir root ns' ++ j) = nodes fs !! (ns_dir root ns' ++ j)).
  { intros j. apply (sw_kept _ _ _ Hs). intros ? (k & -> & _) [-> _]%ns_dir_prefix. done. }
  assert (Ho : ∀ k, outlived now lifetime fs' (ns_dir root ns' ++ k) ↔ outlived now lifetime fs (ns_dir root ns' ++ k)).
  { intros k. apply outlived_ext. by rewrite <- app_assoc. }
  unfold doomed. f_equiv. intros k.
  split; intros (-> & Hk & Hage); (split_and!; [done|eapply bundle_in_ext; [|exact Hk]; done|by apply Ho]).
Qed.

(** The pass over both namespaces: the outlived bundles go, nothing else
    changes, and the pass reaches its end. *)
Lemma wp_cleanup_namespaces now w :
  fs_wf (w_store w) → plain_tree (w_store w) → manifests_decode (w_store w) →
  wp (cleanup_namespaces now 0 BUNDLE_NAMESPACES)
    (λ r w', r.2 = true ∧ store_only w w' ∧
       swept (λ d, listed_bundle root (w_store w) d ∧ outlived now lifetime (w_store w) d)
         (w_store w) (w_store w'))
    (λ _ _, False) w.
Proof.
  intros Hwf Hplain Hdec. unfold BUNDLE_NAMESPACES. cbn [cleanup_namespaces].
  apply wp_bind, wp_catch, wp_bind.
  eapply wp_mono; [| |by apply (wp_cleanup_namespace now "store" 0); [right; left|..]]; [|done].
  intros refs w1 Hrun1. apply wp_ret, wp_bind. eapply wp_mono; [| |exact Hrun1]; [|done].
  intros [n b] w2 (Eb & Hw2 & Hs2). cbn [snd fst] in *. subst b.
  apply wp_bind, wp_catch, wp_bind.
  eapply wp_mono; [| |apply (wp_cleanup_namespace now "inbox" n);
    [left|apply Hs2|by eapply swept_plain|by eapply swept_decode]]; [|done].
  intros refs' w3 Hrun3. apply wp_ret, wp_bind. eapply wp_mono; [| |exact Hrun3]; [|done].
  intros [m b] w4 (Eb & Hw4 & Hs4). cbn [snd fst] in *. subst b. apply wp_ret.
  split_and!; [done|by etrans|]. eapply swept_iff; [|eapply swept_trans; [exact Hs2|exact Hs4]].
  intros d. cbn beta. rewrite (doomed_ext _ _ _ "store" "inbox" d) by done.
  unfold doomed, listed_bundle, swept_ns. setoid_rewrite elem_of_cons. setoid_rewrite elem_of_cons.
  setoid_rewrite elem_of_nil. naive_solver.
Qed.
End sweep.
