(* ===== verification/Lifespan.v ===== *)
(** * The lifetime loop and its lease

    The rest of [_ttl_cleanup_loop] of [app.py]: the lease that keeps the
    sweeps of several processes apart, its renewal while a sweep runs, and the
    loop.  The loop sees the lease operations of its backend through
    [LeaseBackend]; [LeaseLaws] says what it relies on, and the leases of the
    filesystem backend keep it.

    The state of the loop is the world of its process and the lease table.
    Renewals read and write the lease table and the log alone, so the ones
    that fall into a sweep are placed after its body; [ticks] says how many. *)

From Stdlib Require Import Ascii String.
From S2P Require Import Prelude PyStr PyCodec Json DateTime Effects PyNum Paths Limits Config.
From S2P Require Import Claims KeyStore Jwt FsModel Storage Leases World Frame Backends Bundles Downloads.
From S2P Require Import Inbox Files SendInit Upload Download Gc Reaper Expiry.
Local Open Scope string_scope.
Local Open Scope list_scope.
Local Open Scope effect_scope.

(** ** The lease operations of a backend *)

(** [acquire_lease], [renew_lease] and [release_lease] of [StorageBackend]. *)
Class LeaseBackend (L : Type) := {
  lb_acquire : str → Z → M L (option str);
  lb_renew : str → str → M L bool;
  lb_release : str → str → M L bool;
}.

(** A backend whose leases can be [lease_free] or held by the caller. *)
Class LeaseLaws (L : Type) `{LeaseBackend L} := {
  lease_free : str → L → Prop;
  lease_held : str → str → L → Prop;
  acquire_law key ttl l : ∃ r l', lb_acquire key ttl l = (Ok r, l') ∧
    (∀ k, k ≠ key → lease_free k l' ↔ lease_free k l) ∧
    match r with
    | Some id => lease_free key l ∧ lease_held key id l'
    | None => ¬ lease_free key l ∧ ¬ lease_free key l'
    end;
  renew_law key id l : lease_held key id l → ∃ l', lb_renew key id l = (Ok true, l') ∧
    lease_held key id l' ∧ ∀ k, k ≠ key → lease_free k l' ↔ lease_free k l;
  release_law key id l : lease_held key id l → ∃ l', lb_release key id l = (Ok true, l') ∧
    lease_free key l' ∧ ∀ k, k ≠ key → lease_free k l' ↔ lease_free k l;
}.

(** The filesystem backend of the process [p]. *)
Definition FilesystemLeases (uuid_hex : nat → str) (open_ok : str → bool) (p : nat) : LeaseBackend LeaseSys := {|
  lb_acquire := acquire_lease uuid_hex open_ok p;
  lb_renew := renew_lease p;
  lb_release := release_lease false p;
|}.

#[export] Instance filesystem_lease_laws uuid_hex open_ok p :
  @LeaseLaws LeaseSys (FilesystemLeases uuid_hex open_ok p).
Proof.
  refine (@Build_LeaseLaws _ (FilesystemLeases uuid_hex open_ok p)
    (λ key l, open_ok key = true ∧ table p l !! key = None ∧ ls_flocks l !! key = None)
    (λ key id l, open_ok key = true ∧ table p l !! key = Some {| li_lease_id := id |}) _ _ _);
    cbn [lb_acquire lb_renew lb_release FilesystemLeases].
  - intros key ttl l. unfold acquire_lease, bind, get.
    destruct (table p l !! key) as [i|] eqn:Et; [by eexists _, _; split; [done|]; split; [done|]; split; unfold table in *; cbn in *; intros (? & ? & ?); congruence|].
    destruct (open_ok key) eqn:Eo; [|by eexists _, _; split; [done|]; split; [done|]; split; unfold table in *; cbn in *; intros (? & ? & ?); congruence]. cbn [negb].
    destruct (ls_flocks l !! key) as [q|] eqn:Ef; [by eexists _, _; split; [done|]; split; [done|]; split; unfold table in *; cbn in *; intros (? & ? & ?); congruence|].
    eexists _, _. split; [done|]. split_and!; try done.
    + intros k Hk. unfold table. cbn. rewrite lookup_insert_eq. cbn. by rewrite !lookup_insert_ne by done.
    + unfold table. cbn. rewrite lookup_insert_eq. cbn. by rewrite lookup_insert_eq.
  - intros key id l [Ho Ht]. unfold renew_lease, bind, get, holds. rewrite Ht. cbn [li_lease_id].
    rewrite bool_decide_true by done. by eexists.
  - intros key id l [Ho Ht]. unfold release_lease, bind, get, holds. rewrite Ht. cbn [li_lease_id].
    rewrite bool_decide_true by done. eexists. split; [done|].
    unfold table. cbn. rewrite lookup_insert_eq. cbn. split_and!; [done|apply lookup_delete_eq..|].
    intros k Hk. unfold table. cbn. by rewrite !lookup_delete_ne by done.
Defined.

(** ** The loop *)

Section loop.
Context {S C K L : Type} `{StorageBackend S} `{ClaimStorage C} `{KeyStoreProtocol K} `{App K}
  `{LeaseBackend L}.
Abbreviation W := (World S C K).
Abbreviation Pod := (W * L)%type.

Definition on_world {A} (m : M W A) : M Pod A := λ s, let '(r, w) := m s.1 in (r, (w, s.2)).
Definition on_leases {A} (m : M L A) : M Pod A := λ s, let '(r, l) := m s.2 in (r, (s.1, l)).
Definition pod_log (level : log_level) (name : str) : M Pod unit := on_world (struct_log level name).

(** [_lease_renewal_task], cancelled after [ticks] intervals. *)
Fixpoint lease_renewal_task (ticks : nat) (key lease_id : str) : M Pod unit :=
  match ticks with
  | 0 => ret tt
  | Datatypes.S n =>
      renewed <- on_leases (lb_renew key lease_id);;
      if renewed : bool then pod_log DEBUG "ttl.lease_renewed";;; lease_renewal_task n key lease_id
      else pod_log WARNING "ttl.lease_renewal_failed"
  end.

Definition lease_key : str := "ttl-cleanup".
Definition lease_ttl : Z := 60.

(** The [finally] block: the end of the renewal task, the metric, and the
    release.  An error of the renewal task is an error of [await renewal],
    which only a cancellation does not raise. *)
Definition finish_sweep (ticks : nat) (lease_id : str) (deleted_count : Z) : M Pod unit :=
  lease_renewal_task ticks lease_key lease_id;;;
  when (0 <? deleted_count)%Z
    (on_world (safe_emit None (Some (Increment "cassetta.ttl.cleanup.files_deleted" deleted_count []))));;;
  pod_log INFO "ttl.cleanup";;;
  released <- on_leases (lb_release lease_key lease_id);;
  if released : bool then pod_log INFO "ttl.lease_released"
  else pod_log WARNING "ttl.lease_release_failed".

(** One iteration. *)
Definition ttl_cleanup_iteration (ticks : nat) : M Pod unit :=
  if decide (cf_default_ttl app_config <= 0)%Z then ret tt
  else
    lease_id <- on_leases (lb_acquire lease_key lease_ttl);;
    match lease_id with
    | None => pod_log DEBUG "ttl.lease_skipped"
    | Some lease_id =>
        pod_log INFO "ttl.sweep_started";;;
        w <- gets fst;;
        r <- on_world (cleanup_namespaces (w_now w) 0 BUNDLE_NAMESPACES);;
        when (negb r.2) (pod_log ERROR "ttl.sweep_error");;;
        finish_sweep ticks lease_id r.1
    end.

(** [_ttl_cleanup_loop]: an entry of [sweeps] for each iteration. *)
Fixpoint ttl_cleanup_loop (sweeps : list nat) : M Pod unit :=
  match sweeps with
  | [] => ret tt
  | ticks :: rest =>
      on_world (advance_clock 60);;;
      ttl_cleanup_iteration ticks;;;
      ttl_cleanup_loop rest
  end.
End loop.

(** ** Lemmas *)

Section laws.
Context {S C K L : Type} `{StorageBackend S} `{ClaimStorage C} `{KeyStoreProtocol K} `{App K}
  `{LeaseLaws L}.
Abbreviation W := (World S C K).
Abbreviation Pod := (W * L)%type.
Implicit Types (w : W) (l : L) (s : Pod).

Lemma wp_on_world {A} (m : M W A) (Q : A → Pod → Prop) X s :
  wp m (λ a w, Q a (w, s.2)) (λ e w, X e (w, s.2)) s.1 → wp (on_world m) Q X s.
Proof. unfold wp, on_world. by destruct (m s.1) as [[] ?]. Qed.
Lemma wp_pod_log level name (Q : unit → Pod → Prop) X s :
  Q tt (add_events [Log level name] s.1, s.2) → wp (pod_log level name) Q X s.
Proof. intros HQ. by apply wp_on_world, wp_modify. Qed.
Lemma wp_on_leases {A} (m : M L A) (Q : A → Pod → Prop) X s :
  wp m (λ a l, Q a (s.1, l)) (λ e l, X e (s.1, l)) s.2 → wp (on_leases m) Q X s.
Proof. unfold wp, on_leases. by destruct (m s.2) as [[] ?]. Qed.

(** An attempt to acquire a key tells whether it is free. *)
Lemma lease_free_cases key l : lease_free key l ∨ ¬ lease_free key l.
Proof. destruct (acquire_law key 0 l) as ([id|] & l' & _ & _ & Hr); [left|right]; apply Hr. Qed.

(** The lease tables differ at most at the key of the sweep. *)
Definition other_leases l l' : Prop := ∀ k, k ≠ lease_key → lease_free k l' ↔ lease_free k l.
Lemma other_leases_trans l1 l2 l3 : other_leases l1 l2 → other_leases l2 l3 → other_leases l1 l3.
Proof. intros H12 H23 k Hk. etrans; [by apply H23|by apply H12]. Qed.

(** The world of a pod up to what it has logged. *)
Definition logged w w' : Prop := ∃ evs, w' = add_events evs w.
Lemma logged_refl w : logged w w.
Proof. exists []. by rewrite add_events_nil. Qed.
Lemma logged_trans w1 w2 w3 : logged w1 w2 → logged w2 w3 → logged w1 w3.
Proof. intros [e1 ->] [e2 ->]. exists (e1 ++ e2). by rewrite add_events_app. Qed.
Lemma logged_add evs w1 w2 : logged w1 w2 → logged w1 (add_events evs w2).
Proof. intros Hw. eapply logged_trans; [exact Hw|by exists evs]. Qed.

Lemma wp_lease_renewal ticks id s :
  lease_held lease_key id s.2 →
  wp (lease_renewal_task ticks lease_key id)
    (λ _ s', logged s.1 s'.1 ∧ lease_held lease_key id s'.2 ∧ other_leases s.2 s'.2) (λ _ _, False) s.
Proof.
  revert s. induction ticks as [|n IH]; intros s Hid; cbn [lease_renewal_task].
  { apply wp_ret. split_and!; [apply logged_refl|done|done]. }
  apply wp_bind, wp_on_leases. destruct (renew_law _ _ _ Hid) as (l' & E & Hid' & Ho).
  unfold wp at 1. rewrite E. cbn iota beta. apply wp_bind, wp_pod_log. cbn [fst snd].
  eapply wp_mono; [| |by apply IH]; [|done]. cbn [fst snd]. intros _ s' (Hw & Hl & Ho').
  split_and!; [|done|by eapply other_leases_trans].
  eapply logged_trans; [|exact Hw]. apply logged_add, logged_refl.
Qed.

(** The [finally] block gives the lease back. *)
Lemma wp_finish_sweep ticks id count s :
  lease_held lease_key id s.2 →
  wp (finish_sweep ticks id count)
    (λ _ s', logged s.1 s'.1 ∧ lease_free lease_key s'.2 ∧ other_leases s.2 s'.2) (λ _ _, False) s.
Proof.
  intros Hid. unfold finish_sweep. apply wp_bind.
  eapply wp_mono; [| |by apply wp_lease_renewal]; [|done]. intros _ s1 (Hw1 & Hid1 & Ho1).
  assert (Hrest : ∀ w2, logged s.1 w2 →
    wp (pod_log INFO "ttl.cleanup";;;
        released <- on_leases (lb_release lease_key id);;
        if released : bool then pod_log INFO "ttl.lease_released" else pod_log WARNING "ttl.lease_release_failed")
      (λ _ s', logged s.1 s'.1 ∧ lease_free lease_key s'.2 ∧ other_leases s.2 s'.2) (λ _ _, False) (w2, s1.2)).
  { intros w2 Hw2. apply wp_bind, wp_pod_log. cbn [fst snd]. apply wp_bind, wp_on_leases.
    destruct (release_law _ _ _ Hid1) as (l' & E & Hfree & Ho2). cbn [snd]. unfold wp at 1. rewrite E.
    cbn iota beta. apply wp_pod_log. cbn [fst snd]. split_and!; [by do 2 apply logged_add|done|].
    by eapply other_leases_trans. }
  apply wp_bind. destruct (0 <? count)%Z; cbn [when].
  - apply wp_on_world, wp_safe_emit. intros evs. apply Hrest. by apply logged_add.
  - apply wp_ret. destruct s1. by apply Hrest.
Qed.

Lemma count_until_error_total {A} (f : Z → A → M W Z) count (x : list A) w :
  wp (count_until_error f count x) (λ _ _, True) (λ _ _, False) w.
Proof.
  revert count w. induction x as [|a x IH]; intros count w; cbn [count_until_error]; [done|].
  apply wp_bind, wp_catch, wp_bind. unfold wp at 1. destruct (f count a w) as [[c|e] w'].
  - apply wp_ret. apply IH.
  - done.
Qed.

(** The pass over the namespaces never raises, whatever the storage does. *)
Lemma cleanup_namespaces_total now count prefixes w :
  wp (cleanup_namespaces now count prefixes) (λ _ _, True) (λ _ _, False) w.
Proof.
  revert count w. induction prefixes as [|p prefixes IH]; intros count w; cbn [cleanup_namespaces]; [done|].
  apply wp_bind, wp_catch, wp_bind. unfold wp at 1. destruct (list_bundles_w p false w) as [[refs|e] w']; [|done].
  apply wp_ret, wp_bind. eapply wp_mono; [| |apply count_until_error_total]; [|done].
  intros [c b] w2 _. cbn [snd fst]. destruct b; [apply IH|done].
Qed.

(** An iteration that gets the lease, by what its pass does to the world. *)
Lemma wp_iteration_swept ticks s (P : W → Prop) :
  (0 < cf_default_ttl app_config)%Z → lease_free lease_key s.2 →
  (∀ w, logged s.1 w → wp (cleanup_namespaces (w_now s.1) 0 BUNDLE_NAMESPACES)
     (λ r w', ∀ w'', logged w' w'' → P w'') (λ _ _, False) w) →
  wp (ttl_cleanup_iteration ticks)
    (λ _ s', P s'.1 ∧ ∀ k, lease_free k s'.2 ↔ lease_free k s.2) (λ _ _, False) s.
Proof.
  intros Httl Hfree Hpass. unfold ttl_cleanup_iteration. rewrite decide_False by lia.
  apply wp_bind, wp_on_leases. destruct (acquire_law lease_key lease_ttl s.2) as (r & l1 & E & Ho1 & Hr).
  unfold wp at 1. rewrite E. cbn iota beta. destruct r as [id|]; [|by destruct Hr].
  destruct Hr as [_ Hid]. apply wp_bind, wp_pod_log. cbn [fst snd]. apply wp_bind. unfold gets. unfold wp at 1.
  cbn iota beta. apply wp_bind, wp_on_world. cbn [fst snd].
  eapply wp_mono; [| |apply Hpass; by eexists]; [|done]. intros [n b] w2 HP. apply wp_bind.
  assert (Hfinish : ∀ w3, logged w2 w3 →
    wp (finish_sweep ticks id n) (λ _ s', P s'.1 ∧ ∀ k, lease_free k s'.2 ↔ lease_free k s.2) (λ _ _, False) (w3, l1)).
  { intros w3 Hw3. eapply wp_mono; [| |by apply wp_finish_sweep]; [|done]. cbn [fst snd].
    intros _ s' (Hw & Hl & Ho2). split; [apply HP; by eapply logged_trans|]. intros k.
    destruct (decide (k = lease_key)) as [->|Hk]; [done|]. etrans; [by apply Ho2|by apply Ho1]. }
  cbn [fst snd]. destruct b; cbn [negb when].
  - apply wp_ret. apply Hfinish, logged_refl.
  - apply wp_pod_log. apply Hfinish. by eexists.
Qed.

(** An iteration that does not get it. *)
Lemma wp_iteration_skipped ticks s :
  ¬ lease_free lease_key s.2 ∨ (cf_default_ttl app_config <= 0)%Z →
  wp (ttl_cleanup_iteration ticks)
    (λ _ s', logged s.1 s'.1 ∧ ∀ k, lease_free k s'.2 ↔ lease_free k s.2) (λ _ _, False) s.
Proof.
  intros Hskip. unfold ttl_cleanup_iteration. case_decide as Httl.
  { apply wp_ret. split; [apply logged_refl|done]. }
  apply wp_bind, wp_on_leases. destruct (acquire_law lease_key lease_ttl s.2) as (r & l1 & E & Ho1 & Hr).
  unfold wp at 1. rewrite E. cbn iota beta. destruct Hskip as [Hskip|]; [|done].
  destruct r as [id|]; [by destruct Hr|]. apply wp_pod_log. split; [by eexists|]. cbn [snd]. intros k.
  destruct (decide (k = lease_key)) as [->|Hk]; [tauto|by apply Ho1].
Qed.

Lemma wp_iteration ticks s :
  wp (ttl_cleanup_iteration ticks) (λ _ s', ∀ k, lease_free k s'.2 ↔ lease_free k s.2) (λ _ _, False) s.
Proof.
  assert (Hskip : ¬ lease_free lease_key s.2 ∨ (cf_default_ttl app_config <= 0)%Z →
    wp (ttl_cleanup_iteration ticks) (λ _ s', ∀ k, lease_free k s'.2 ↔ lease_free k s.2) (λ _ _, False) s).
  { intros Hs. eapply wp_mono; [| |by apply wp_iteration_skipped]; [|done]. by intros _ s' [_ ?]. }
  destruct (decide (cf_default_ttl app_config <= 0)%Z) as [Httl|Httl]; [apply Hskip; by right|].
  destruct (lease_free_cases lease_key s.2) as [Hf|Hf]; [|apply Hskip; by left].
  eapply wp_mono; [| |apply (wp_iteration_swept _ _ (λ _, True)); [lia|done|]]; [by intros _ s' [_ ?]|done|].
  intros w _. eapply wp_mono; [| |apply cleanup_namespaces_total]; done.
Qed.
End laws.

(** ** Properties *)

(** The sweeps of a process give back the lease they take.  Whatever the
    storage does, errors of the listing, of the reads and of the deletions
    included, and however many renewals fall into each sweep, the loop never
    raises, and after every run the leases that can be acquired are exactly
    those that could be before it. *)
Theorem ttl_loop_keeps_leases {S C K L} `{StorageBackend S, ClaimStorage C, KeyStoreProtocol K, !App K, LeaseLaws L}
    (sweeps : list nat) (s : World S C K * L) :
  ∃ s', ttl_cleanup_loop sweeps s = (Ok tt, s') ∧ ∀ k, lease_free k s'.2 ↔ lease_free k s.2.
Proof.
  enough (Hwp : wp (ttl_cleanup_loop sweeps) (λ _ s', ∀ k, lease_free k s'.2 ↔ lease_free k s.2) (λ _ _, False) s).
  { unfold wp in Hwp. destruct (ttl_cleanup_loop sweeps s) as [[[]|e] s']; [by eexists|done]. }
  revert s. induction sweeps as [|ticks sweeps IH]; intros s; cbn [ttl_cleanup_loop]; [by apply wp_ret|].
  apply wp_bind, wp_on_world, wp_modify, wp_bind.
  eapply wp_mono; [| |apply wp_iteration]; [|done]. cbn [fst snd]. intros _ s1 Hs1.
  eapply wp_mono; [| |apply IH]; [|done]. cbn beta. intros _ s2 Hs2 k. by rewrite Hs2, Hs1.
Qed.

(** C33: one iteration of the lifetime loop over the filesystem backend removes
    exactly the expired bundles.  When a lifetime is configured and the lease
    is free, the iteration returns; below a committed bundle of [store/] or
    [inbox/] that is older than the lifetime nothing is left, and every other
    path is as before, younger bundles and bundles in flight included; when
    another holder has the lease, or no lifetime is configured, the world only
    gains log records.  The claims, the keys and the clock never change. *)
Theorem ttl_sweep_removes_expired {C K L} `{ClaimStorage C, KeyStoreProtocol K, !App K, LeaseLaws L}
    root ticks (w : World Fs C K) (l : L) :
  let gone d := (0 < cf_default_ttl app_config)%Z ∧ lease_free lease_key l ∧
    listed_bundle root (w_store w) d ∧ outlived (w_now w) (cf_default_ttl app_config) (w_store w) d in
  lexical root → fs_wf (w_store w) → plain_tree (w_store w) → manifests_decode (w_store w) →
  ∃ w' l', @ttl_cleanup_iteration Fs C K L (FilesystemBackend root) _ _ ticks (w, l) = (Ok tt, (w', l')) ∧
    w_claims w' = w_claims w ∧ w_keys w' = w_keys w ∧ w_now w' = w_now w ∧
    ∀ q, ((∃ d, gone d ∧ under d q) → nodes (w_store w') !! q = None) ∧
         ((∀ d, gone d → ¬ under d q) → nodes (w_store w') !! q = nodes (w_store w) !! q).
Proof.
  intros gone Hroot Hwf Hplain Hdec.
  set (P := λ w' : World Fs C K, w_claims w' = w_claims w ∧ w_keys w' = w_keys w ∧ w_now w' = w_now w ∧
    ∃ V, (∀ d, V d ↔ gone d) ∧ swept V (w_store w) (w_store w')).
  enough (Hwp : wp (@ttl_cleanup_iteration Fs C K L (FilesystemBackend root) _ _ ticks)
    (λ _ s', P s'.1) (λ _ _, False) (w, l)).
  { unfold wp in Hwp. destruct (ttl_cleanup_iteration ticks (w, l)) as [[[]|e] [w' l']]; [|done].
    destruct Hwp as (? & ? & ? & V & HV & Hs). exists w', l'. split_and!; [done..|]. intros q. split.
    - intros (d & Hd & Hu). eapply (sw_gone _ _ _ Hs); [by apply HV|done].
    - intros Hn. apply (sw_kept _ _ _ Hs). intros d Hd%HV. by apply Hn. }
  assert (Hskip : ¬ lease_free lease_key l ∨ (cf_default_ttl app_config <= 0)%Z →
    wp (@ttl_cleanup_iteration Fs C K L (FilesystemBackend root) _ _ ticks) (λ _ s', P s'.1) (λ _ _, False) (w, l)).
  { intros Hskip. eapply wp_mono; [| |by apply wp_iteration_skipped]; [|done].
    intros _ s' [[evs Es] _]. cbn [fst] in Es. rewrite Es. split_and!; [done..|]. exists (λ _, False).
    split; [|by apply swept_refl]. intros d. split; [done|]. intros (? & ? & _). destruct Hskip; [done|lia]. }
  destruct (lease_free_cases lease_key l) as [Hf|Hf]; [|apply Hskip; by left].
  destruct (decide (cf_default_ttl app_config <= 0)%Z) as [Httl|Httl]; [apply Hskip; by right|].
  eapply wp_mono; [| |apply (wp_iteration_swept ticks (w, l) P); [lia|exact Hf|]]; [by intros _ s' [Hs _]|done|].
  intros ? [evs ->]. cbn [fst].
  eapply wp_mono; [| |apply (wp_cleanup_namespaces root Hroot); done]; [|done].
  intros r' w2 (_ & [evs2 E2] & Hs) ? [evs3 ->]. rewrite E2. split_and!; [done..|].
  eexists. split; [|exact Hs]. intros d. unfold gone. split; [|by intros (_ & _ & ?)].
  intros [??]. split_and!; [lia|exact Hf|done..].
Qed.

(** *** Two bundles, one of them old *)

Definition manifests_decodeb (fs : Fs) : bool :=
  forallb (λ kn, match kn.2 with
                 | NFile body => negb (bool_decide (last kn.1 = Some BUNDLE_MANIFEST))
                                 || bool_decide (is_Some (utf8_decode body))
                 | NDir => true
                 end) (map_to_list (nodes fs)).
Lemma manifests_decodeb_sound fs : manifests_decodeb fs = true → manifests_decode fs.
Proof.
  unfold manifests_decodeb. rewrite forallb_forall. intros H d body Hb%elem_of_map_to_list.
  apply list_elem_of_In, H in Hb. cbn [fst snd] in Hb. rewrite last_snoc in Hb.
  rewrite (bool_decide_true (_ = _)) in Hb by done. by apply bool_decide_eq_true in Hb.
Qed.

#[local] Existing Instances Demo.storage Demo.claims Demo.keys.
Definition ttl_config : AppConfig :=
  let c := Demo.config true in {|
  cf_setup_token := cf_setup_token c; cf_dev_mode := cf_dev_mode c; cf_storage_path := cf_storage_path c;
  cf_keys_file := cf_keys_file c; cf_default_ttl := 60; cf_allowed_path_chars := cf_allowed_path_chars c;
  cf_mcp_allowed_hosts := cf_mcp_allowed_hosts c; cf_jwt_primary_key := cf_jwt_primary_key c;
  cf_public_base_url := cf_public_base_url c; cf_jwt_secondary_key := cf_jwt_secondary_key c;
  cf_jwt_primary_key_source := cf_jwt_primary_key_source c; cf_log_format := cf_log_format c;
  cf_limits := cf_limits c; cf_rate_limit_broadcast := cf_rate_limit_broadcast c;
  cf_broadcast_max_targets := cf_broadcast_max_targets c;
  cf_jwt_key_overlap_ttl := cf_jwt_key_overlap_ttl c |}.
#[local] Instance ttl_server : App KeyStore :=
  build_core_defaults ttl_config Demo.uuid (λ _, None) (λ _, false) (λ _ _ _, true).
#[local] Instance ttl_leases : LeaseBackend LeaseSys := FilesystemLeases demo_uuid (λ _, true) 1.

Definition dated (created : str) : dict := demo_meta ++ [("created_at", JStr created)].
(** Created at the epoch, and sixteen minutes later. *)
Definition dated_fs : Fs :=
  ((store_bundle [] "store/old" demo_files (dated "1970-01-01T00:00:00+00:00");;;
    store_bundle [] "store/young" demo_files (dated "1970-01-01T00:16:00+00:00"))%eff fs_init).2.
Definition dated_world : Demo.World := set_store dated_fs (Demo.world 1000).

Lemma ttl_loop_keeps_leases_witness :
  ∃ s', ttl_cleanup_loop [0; 3] (dated_world, lease_init) = (Ok tt, s')%nat
    ∧ ls_flocks s'.2 !! lease_key = None.
Proof.
  destruct (ttl_loop_keeps_leases [0; 3] (dated_world, lease_init))%nat as (s' & E & H).
  exists s'. split; [exact E|]. refine (proj2 (proj2 (proj2 (H lease_key) _))). split_and!; reflexivity.
Defined.

Lemma ttl_sweep_removes_expired_witness :
  ∃ w' l', ttl_cleanup_iteration 0 (dated_world, lease_init) = (Ok tt, (w', l'))
    ∧ nodes (w_store w') !! ["data"; "store"; "old"] = None
    ∧ nodes (w_store w') !! ["data"; "store"; "young"] = Some NDir.
Proof.
  destruct (ttl_sweep_removes_expired [] 0 dated_world lease_init) as (w' & l' & E & _ & _ & _ & H).
  - exact lexical_nil.
  - apply fs_wfb_sound. vm_compute. reflexivity.
  - apply plain_treeb_sound. vm_compute. reflexivity.
  - apply manifests_decodeb_sound. vm_compute. reflexivity.
  - exists w', l'. split; [exact E|]. clear H.
    assert (Ew : w' = (ttl_cleanup_iteration 0 (dated_world, lease_init)).2.1)
      by exact (eq_sym (f_equal (λ x, fst (snd x)) E)).
    rewrite Ew. split; vm_compute; reflexivity.
Defined.

(** One manifest that is not UTF-8 ends every sweep: the error of its read is
    not a [FileNotFoundError], so the clause around the whole pass takes it,
    and an expired bundle listed later stays. *)
Definition spoilt_fs : Fs :=
  (put [] "store/bad/meta.json" (String "255"%char EmptyString) dated_fs).2.
Example bad_manifest_stops_sweep :
  let s := ttl_cleanup_iteration 0 (set_store spoilt_fs dated_world, lease_init) in
  s.1 = Ok tt ∧ nodes (w_store s.2.1) !! ["data"; "store"; "old"] = Some NDir ∧
  Log ERROR "ttl.sweep_error" ∈ w_log s.2.1.
Proof.
  split_and!; [vm_compute; reflexivity..|]. apply list_elem_of_In. vm_compute. tauto.
Qed.
