(* ===== verification/Startup.v ===== *)
(** * Starting the application

    [create_app] and [lifespan] of [app.py], with [init_jwt_key_slots] and
    [init_jwt_hot_reload] on the state of an application, and the globals of
    [mcp_server.py] that [configure] sets.  The holder of the token keys is one
    object that the application, the globals and the signal handler share, so
    a process keeps its holders in a list and the others refer to it by index.
    The routers, the FastMCP server and the session manager are the
    frameworks'; what they run is in [Server] and [Mcp]. *)

From Stdlib Require Import Ascii String.
From S2P Require Import Prelude PyStr PyCodec Json DateTime Effects Logging PyNum Paths Limits Config.
From S2P Require Import Claims KeyStore Jwt FsModel Storage World Backends.
Local Open Scope string_scope.
Local Open Scope list_scope.
Local Open Scope effect_scope.

(** [app.state]; the limiter and the back ends are the same for every
    application of a process. *)
Record AppState := {
  st_config : AppConfig;
  st_dev_mode : bool;
  st_setup_token : str;
  st_jwt_keys : nat;
}.

(** The globals of [mcp_server.py] that depend on the configuration; the back
    ends are those of [World.App]. *)
Record McpGlobals := { mg_config : AppConfig; mg_jwt_keys : option nat }.

(** A process: the holders its applications allocated, the globals, the
    application whose handler SIGHUP runs, the loggers and the log. *)
Record Process := mkProcess {
  pr_holders : list JWTKeySlots;
  pr_mcp : option McpGlobals;
  pr_sighup : option AppState;
  pr_loggers : Registry;
  pr_log : list event;
}.

Definition set_holders (h : list JWTKeySlots) (p : Process) : Process :=
  mkProcess h (pr_mcp p) (pr_sighup p) (pr_loggers p) (pr_log p).
Definition set_mcp (g : McpGlobals) (p : Process) : Process :=
  mkProcess (pr_holders p) (Some g) (pr_sighup p) (pr_loggers p) (pr_log p).
Definition set_sighup (a : AppState) (p : Process) : Process :=
  mkProcess (pr_holders p) (pr_mcp p) (Some a) (pr_loggers p) (pr_log p).
Definition set_loggers (r : Registry) (p : Process) : Process :=
  mkProcess (pr_holders p) (pr_mcp p) (pr_sighup p) r (pr_log p).
Definition log_all (l : list event) (p : Process) : Process :=
  mkProcess (pr_holders p) (pr_mcp p) (pr_sighup p) (pr_loggers p) (pr_log p ++ l).

(** ** The holders *)

(** A reference to a holder; one is never freed. *)
Definition deref (holder : nat) : M Process JWTKeySlots := λ p,
  match pr_holders p !! holder with
  | Some slots => (Ok slots, p)
  | None => (Raise AssertionError, p)
  end.
Definition assign (holder : nat) (slots : JWTKeySlots) : M Process unit :=
  modify (λ p, set_holders (<[holder := slots]> (pr_holders p)) p).

(** [slots.primary, _resolve_secondary(slots)]. *)
Definition read_keys (monotonic : Z) (holder : nat) : M Process (bytes * option bytes) :=
  slots <- deref holder;;
  let '(secondary, slots') := resolve_secondary monotonic slots in
  assign holder slots';;;
  ret (primary slots, secondary).

(** ** [mcp_server.py] *)

(** [configure]. *)
Definition configure (config : AppConfig) (jwt_keys : option nat) : M Process unit :=
  modify (set_mcp {| mg_config := config; mg_jwt_keys := jwt_keys |}).

(** [_verify_keys]. *)
Definition mcp_verify_keys (monotonic : Z) : M Process (bytes * option bytes) :=
  p <- get;;
  match pr_mcp p with
  | Some {| mg_config := _; mg_jwt_keys := Some holder |} => read_keys monotonic holder
  | Some {| mg_config := config; mg_jwt_keys := None |} =>
      ret (cf_jwt_primary_key config, cf_jwt_secondary_key config)
  | None => raise AssertionError
  end.

(** The keys the routes of an application verify with. *)
Definition rest_verify_keys (monotonic : Z) (app : AppState) : M Process (bytes * option bytes) :=
  read_keys monotonic (st_jwt_keys app).

(** The names [create_mcp_server] registers, in order. *)
Definition mcp_tool_names : list str :=
  ["cassetta_put"; "cassetta_get"; "cassetta_delete"; "cassetta_list"; "cassetta_send_init";
   "cassetta_send_inline"; "cassetta_inbox"; "cassetta_pick"; "cassetta_peek";
   "cassetta_capabilities"; "cassetta_agents"; "cassetta_broadcast"].

(** ** [create_app] *)

(** [create_app]: the configuration given or loaded, the loggers, and a new
    holder with the keys of the configuration. *)
Definition create_app (load : res AppConfig) (config : option AppConfig) (extra_log_trees : list str)
    : M Process AppState :=
  config <- match config with Some config => ret config | None => of_res load end;;
  modify (λ p, set_loggers (configure_logging (cf_log_format config) extra_log_trees (pr_loggers p)) p);;;
  p <- get;;
  let slots := init_jwt_key_slots (cf_jwt_primary_key config) (cf_jwt_secondary_key config)
                 (cf_jwt_key_overlap_ttl config) in
  modify (set_holders (pr_holders p ++ [slots]));;;
  ret {| st_config := config; st_dev_mode := cf_dev_mode config;
         st_setup_token := cf_setup_token config; st_jwt_keys := length (pr_holders p) |}.

(** ** [lifespan] *)

(** The tasks [lifespan] starts. *)
Record Tasks := { ts_cleanup : bool; ts_reaper : bool }.

(** The part of [lifespan] before its [yield], with the variables and the event
    loop [init_jwt_hot_reload] looks at; the core back ends have no
    [initialize]. *)
Definition lifespan_startup (app : AppState) (vars : list (option (option Z))) (handler_available : bool)
    : M Process Tasks :=
  let config := st_config app in
  modify (log_all [Log INFO "config_loaded"]);;;
  let '(installed, events) :=
    init_jwt_hot_reload (cf_jwt_key_overlap_ttl config) (cf_limits config) vars handler_available in
  modify (log_all events);;;
  when installed (modify (set_sighup app));;;
  when (st_dev_mode app) (modify (log_all [Log WARNING "dev_mode_enabled"]));;;
  modify (log_all [Log INFO "claim_storage_backend"]);;;
  configure config (Some (st_jwt_keys app));;;
  ret {| ts_cleanup := bool_decide (0 < cf_default_ttl config)%Z; ts_reaper := true |}.

(** ** The running process *)

(** SIGHUP: the body of the installed handler, with what [CASSETTA_JWT_KEY_FILE]
    names and what reading it gives. *)
Definition sighup (file_path : str) (read : FileRead) (monotonic : Z) : M Process unit :=
  p <- get;;
  match pr_sighup p with
  | None => ret tt
  | Some app =>
      slots <- deref (st_jwt_keys app);;
      let '(slots', events) :=
        handle_rotation (cf_jwt_key_overlap_ttl (st_config app)) file_path read monotonic slots in
      assign (st_jwt_keys app) slots';;;
      modify (log_all events)
  end.

(** What happens in a process between the start of an application and a
    verification: rotations, verifications by the routes of any application
    and by the tools, and further applications. *)
Inductive ProcStep :=
  | SighupStep (file_path : str) (read : FileRead) (monotonic : Z)
  | RestStep (monotonic : Z) (app : AppState)
  | McpStep (monotonic : Z)
  | CreateStep (load : res AppConfig) (config : option AppConfig) (extra_log_trees : list str).

Definition run_step (p : Process) (s : ProcStep) : Process :=
  match s with
  | SighupStep file_path read t => (sighup file_path read t p).2
  | RestStep t app => (rest_verify_keys t app p).2
  | McpStep t => (mcp_verify_keys t p).2
  | CreateStep load config extra => (create_app load config extra p).2
  end.

(** ** Lemmas *)

(** The slots of one application, as the steps change them; [installed] says
    whether SIGHUP rotates them. *)
Definition slots_step (installed : bool) (app : AppState) (slots : JWTKeySlots) (s : ProcStep) : JWTKeySlots :=
  match s with
  | SighupStep file_path read t =>
      if installed then (handle_rotation (cf_jwt_key_overlap_ttl (st_config app)) file_path read t slots).1
      else slots
  | RestStep t a => if decide (st_jwt_keys a = st_jwt_keys app) then (resolve_secondary t slots).2 else slots
  | McpStep t => (resolve_secondary t slots).2
  | CreateStep _ _ _ => slots
  end.

Definition keys_of (monotonic : Z) (slots : JWTKeySlots) : bytes * option bytes :=
  (primary slots, (resolve_secondary monotonic slots).1).

(** The process serves the application: the tools have its holder, which
    contains [slots], and SIGHUP rotates it or another one. *)
Record serves (installed : bool) (app : AppState) (slots : JWTKeySlots) (p : Process) : Prop := {
  sv_holder : pr_holders p !! st_jwt_keys app = Some slots;
  sv_mcp : pr_mcp p = Some {| mg_config := st_config app; mg_jwt_keys := Some (st_jwt_keys app) |};
  sv_installed : installed = true → pr_sighup p = Some app;
  sv_other : installed = false → ∀ a, pr_sighup p = Some a → st_jwt_keys a ≠ st_jwt_keys app;
}.

Lemma read_keys_serves installed app slots t p :
  serves installed app slots p →
  ∃ p', read_keys t (st_jwt_keys app) p = (Ok (keys_of t slots), p') ∧
    serves installed app (resolve_secondary t slots).2 p'.
Proof.
  intros [Hh Hm Hi Ho]. unfold read_keys, bind, deref, keys_of. rewrite Hh.
  destruct (resolve_secondary t slots) as [k slots']. eexists. split; [done|].
  split; [|done..]. cbn. apply list_lookup_insert_eq. by eapply lookup_lt_Some.
Qed.

(** Another holder can be changed or replaced. *)
Lemma serves_assign installed app slots holder slots' p :
  holder ≠ st_jwt_keys app → serves installed app slots p →
  serves installed app slots (set_holders (<[holder := slots']> (pr_holders p)) p).
Proof. intros Hne [Hh Hm Hi Ho]. split; [|done..]. cbn. by rewrite list_lookup_insert_ne. Qed.
Lemma read_keys_other installed app slots t holder p :
  holder ≠ st_jwt_keys app → serves installed app slots p →
  serves installed app slots (read_keys t holder p).2.
Proof.
  intros Hne Hs. unfold read_keys, bind, deref. destruct (pr_holders p !! holder) as [s|]; [|done].
  destruct (resolve_secondary t s) as [k s']. cbn. by apply serves_assign.
Qed.
Lemma serves_log installed app slots evs p :
  serves installed app slots p → serves installed app slots (log_all evs p).
Proof. by intros []. Qed.

Lemma serves_step installed app slots p s :
  serves installed app slots p → serves installed app (slots_step installed app slots s) (run_step p s).
Proof.
  intros Hs. destruct s as [file_path read t|t a|t|load config extra]; cbn [run_step slots_step].
  - unfold sighup, bind at 1, get. destruct (pr_sighup p) as [a|] eqn:Ea.
    2:{ destruct installed; [|done]. by rewrite (sv_installed _ _ _ _ Hs) in Ea. }
    unfold bind at 1, deref. destruct (decide (st_jwt_keys a = st_jwt_keys app)) as [E|Hne].
    + destruct installed; [|by destruct (sv_other _ _ _ _ Hs eq_refl a Ea)].
      rewrite (sv_installed _ _ _ _ Hs) in Ea by done. injection Ea as <-.
      rewrite (sv_holder _ _ _ _ Hs). destruct (handle_rotation _ _ _ _ _) as [slots' evs]. cbn.
      destruct Hs as [Hh Hm Hi Ho]. split; [|done..]. cbn. apply list_lookup_insert_eq. by eapply lookup_lt_Some.
    + destruct installed; [by rewrite (sv_installed _ _ _ _ Hs) in Ea by done; injection Ea as <-|].
      destruct (pr_holders p !! st_jwt_keys a) as [s'|]; [|done].
      destruct (handle_rotation _ _ _ _ _) as [slots' evs]. cbn. by apply serves_log, serves_assign.
  - unfold rest_verify_keys. case_decide as E; [rewrite E|by apply read_keys_other].
    by destruct (read_keys_serves _ _ _ t _ Hs) as (p' & -> & ?).
  - unfold mcp_verify_keys, bind at 1, get. rewrite (sv_mcp _ _ _ _ Hs).
    by destruct (read_keys_serves _ _ _ t _ Hs) as (p' & -> & ?).
  - unfold create_app, bind at 1, of_res, ret. destruct Hs as [Hh Hm Hi Ho].
    destruct config as [c|]; [|destruct load as [c|]; [|done]];
      (split; [|done..]; cbn; by apply lookup_app_l_Some).
Qed.

Lemma startup_serves load config extra vars ok p0 app p1 tasks p2 :
  (∀ a, pr_sighup p0 = Some a → (st_jwt_keys a < length (pr_holders p0))%nat) →
  create_app load config extra p0 = (Ok app, p1) →
  lifespan_startup app vars ok p1 = (Ok tasks, p2) →
  let c := st_config app in
  serves (init_jwt_hot_reload (cf_jwt_key_overlap_ttl c) (cf_limits c) vars ok).1 app
    (init_jwt_key_slots (cf_jwt_primary_key c) (cf_jwt_secondary_key c) (cf_jwt_key_overlap_ttl c)) p2.
Proof.
  intros Hwf Hc Hl. cbv zeta.
  assert (Hp1 : ∃ c, app = {| st_config := c; st_dev_mode := cf_dev_mode c; st_setup_token := cf_setup_token c;
                              st_jwt_keys := length (pr_holders p0) |} ∧
    pr_holders p1 = pr_holders p0 ++ [init_jwt_key_slots (cf_jwt_primary_key c) (cf_jwt_secondary_key c)
      (cf_jwt_key_overlap_ttl c)] ∧ pr_sighup p1 = pr_sighup p0).
  { unfold create_app, bind at 1, of_res, ret in Hc.
    destruct config as [c|]; [|destruct load as [c|]; [|done]]; injection Hc as <- <-; by exists c. }
  destruct Hp1 as (c & -> & Eh & Es). cbn [st_config st_jwt_keys] in *.
  unfold lifespan_startup in Hl. cbn [st_config st_dev_mode st_jwt_keys] in Hl.
  destruct (init_jwt_hot_reload _ _ _ _) as [installed evs]. cbn [fst].
  destruct installed, (cf_dev_mode c); injection Hl as _ <-; split; cbn; try done;
    try (rewrite Eh; by apply list_lookup_middle); intros _ a Ha; rewrite Es in Ha; apply Hwf in Ha; lia.
Qed.

Lemma serves_steps installed app slots p steps :
  serves installed app slots p →
  serves installed app (foldl (slots_step installed app) slots steps) (foldl run_step p steps).
Proof.
  revert slots p. induction steps as [|s steps IH]; intros slots p Hs; cbn [foldl]; [done|].
  by apply IH, serves_step.
Qed.

(** ** Properties *)

(** C31: the tools verify with the keys of the application.  After an
    application is created and started, whatever rotations, verifications and
    new applications follow, [_verify_keys] of the tools and the routes of the
    application give the same keys, and these are what the steps make of the
    keys of the configuration: rotated when the handler is installed, with the
    old key active during the overlap and no longer. *)
Theorem mcp_keys_follow_rotations load config extra vars ok p0 app p1 tasks p2 steps now :
  let c := st_config app in
  let installed := (init_jwt_hot_reload (cf_jwt_key_overlap_ttl c) (cf_limits c) vars ok).1 in
  let boot := init_jwt_key_slots (cf_jwt_primary_key c) (cf_jwt_secondary_key c) (cf_jwt_key_overlap_ttl c) in
  let slots := foldl (slots_step installed app) boot steps in
  let p := foldl run_step p2 steps in
  (∀ a, pr_sighup p0 = Some a → (st_jwt_keys a < length (pr_holders p0))%nat) →
  create_app load config extra p0 = (Ok app, p1) →
  lifespan_startup app vars ok p1 = (Ok tasks, p2) →
  (mcp_verify_keys now p).1 = Ok (keys_of now slots) ∧
  (rest_verify_keys now app p).1 = Ok (keys_of now slots).
Proof.
  intros c installed boot slots p Hwf Hc Hl.
  assert (Hs : serves installed app slots p) by (by apply serves_steps; eapply startup_serves).
  destruct (read_keys_serves _ _ _ now _ Hs) as (p' & E & _). split.
  - unfold mcp_verify_keys, bind at 1, get. by rewrite (sv_mcp _ _ _ _ Hs), E.
  - unfold rest_verify_keys. by rewrite E.
Qed.

(** *** A process *)

Definition blank : Process := mkProcess [] None None (mkRegistry ∅ 0) [].
Definition started (config : AppConfig) (p : Process) : AppState * Process :=
  match create_app (Raise AssertionError) (Some config) [] p with
  | (Ok app, p1) => (app, (lifespan_startup app [] true p1).2)
  | (Raise _, p1) => ({| st_config := config; st_dev_mode := false; st_setup_token := ""; st_jwt_keys := 0 |}, p1)
  end.
Definition rotation : ProcStep := SighupStep "/key" (ReadOk demo_key_file) 10000000.

Lemma mcp_keys_follow_rotations_witness :
  let '(app, p) := started (Demo.config false) blank in
  let keys t := (mcp_verify_keys t (run_step p rotation)).1 in
  keys 11000000%Z = (rest_verify_keys 11000000 app (run_step p rotation)).1 ∧
  keys 11000000%Z ≠ Ok ("primary", None) ∧
  (∃ k, keys 11000000%Z = Ok (k, Some "primary")) ∧ ∃ k, keys 610000000%Z = Ok (k, None).
Proof.
  pose proof (λ now, mcp_keys_follow_rotations (Raise AssertionError) (Some (Demo.config false)) [] [] true blank
    (started (Demo.config false) blank).1 (create_app (Raise AssertionError) (Some (Demo.config false)) [] blank).2
    {| ts_cleanup := false; ts_reaper := true |} (started (Demo.config false) blank).2 [rotation] now) as H.
  assert (Hk := λ now, H now ltac:(intros a Ha; discriminate Ha) eq_refl eq_refl). clear H.
  cbn [foldl] in Hk. change (started (Demo.config false) blank) with
    ((started (Demo.config false) blank).1, (started (Demo.config false) blank).2). cbv beta iota zeta.
  destruct (Hk 11000000%Z) as [E1 E2], (Hk 610000000%Z) as [E3 _]. split_and!.
  - exact (eq_trans E1 (eq_sym E2)).
  - intros E. pose proof (eq_trans (eq_sym E1) E) as E'. vm_compute in E'. discriminate E'.
  - eexists. rewrite E1. vm_compute. reflexivity.
  - eexists. rewrite E3. vm_compute. reflexivity.
Defined.

(** The globals and the handler are those of the application started last: the
    tools of the first one then verify with the keys of the second. *)
Example second_start_takes_over :
  let '(a1, p1) := started (Demo.config false) blank in
  let '(a2, p2) := started (Demo.config true) (run_step p1 rotation) in
  (mcp_verify_keys 11000000 p2).1 = (rest_verify_keys 11000000 a2 p2).1 ∧
  (mcp_verify_keys 11000000 p2).1 ≠ (rest_verify_keys 11000000 a1 p2).1.
Proof. vm_compute. split; [reflexivity|discriminate]. Qed.
