(* ===== verification/Shutdown.v ===== *)
(** * Stopping the application

    The part of [lifespan] of [app.py] after its [yield].  A cancellation is
    delivered at an [await], so the loop of [Lifespan] is taken apart at the
    places where it can be suspended; [loop_in_steps] puts it together again.
    The lease operations do not suspend, as those of the filesystem backend. *)

From Stdlib Require Import Ascii String.
From S2P Require Import Prelude PyStr PyCodec Json DateTime Effects PyNum Paths Limits Config.
From S2P Require Import Claims KeyStore Jwt FsModel Storage Leases World Frame Backends Bundles Downloads.
From S2P Require Import Inbox Files SendInit Upload Download Gc Reaper Expiry Lifespan Startup.
Local Open Scope string_scope.
Local Open Scope list_scope.
Local Open Scope effect_scope.

(** ** The task of the lifetime loop *)

(** Where the task is suspended: in [asyncio.sleep], in an operation of the
    storage inside the [try] block, or in the [await renewal] of the [finally]
    block, with the count and whether the block was cancelled; or it ended
    with a [CancelledError]. *)
Inductive CleanupTask :=
  | Sleeping
  | Sweeping (lease_id : str)
  | Joining (lease_id : str) (deleted_count : Z) (cancelled : bool)
  | Ended.

Section shutdown.
Context {S C K L : Type} `{StorageBackend S} `{ClaimStorage C} `{KeyStoreProtocol K} `{!App K}
  `{LeaseBackend L}.
Abbreviation W := (World S C K).
Abbreviation Pod := (W * L)%type.

(** The task runs until it is suspended again; [ticks] renewals fell into the
    sweep. *)
Definition to_next_await (ticks : nat) (t : CleanupTask) : M Pod CleanupTask :=
  match t with
  | Sleeping =>
      on_world (advance_clock 60);;;
      if decide (cf_default_ttl app_config <= 0)%Z then ret Sleeping
      else
        lease_id <- on_leases (lb_acquire lease_key lease_ttl);;
        match lease_id with
        | None => pod_log DEBUG "ttl.lease_skipped";;; ret Sleeping
        | Some lease_id => pod_log INFO "ttl.sweep_started";;; ret (Sweeping lease_id)
        end
  | Sweeping lease_id =>
      w <- gets fst;;
      r <- on_world (cleanup_namespaces (w_now w) 0 BUNDLE_NAMESPACES);;
      when (negb r.2) (pod_log ERROR "ttl.sweep_error");;;
      ret (Joining lease_id r.1 false)
  | Joining lease_id deleted_count cancelled =>
      finish_sweep ticks lease_id deleted_count;;;
      ret (if cancelled : bool then Ended else Sleeping)
  | Ended => ret Ended
  end.

Fixpoint run_task (schedule : list nat) (t : CleanupTask) : M Pod CleanupTask :=
  match schedule with
  | [] => ret t
  | ticks :: rest => t <- to_next_await ticks t;; run_task rest t
  end.

(** [cleanup_task.cancel()], with what the [try] block had done to the world
    when its operation was cut short, and its count.  [except Exception] lets
    the [CancelledError] pass to the [finally] block; a second one, in [await
    renewal], is swallowed there. *)
Definition cancel_cleanup (cut : W → W * Z) (t : CleanupTask) : M Pod CleanupTask :=
  match t with
  | Sleeping => ret Ended
  | Sweeping lease_id =>
      s <- get;;
      on_world (modify (λ _, (cut s.1).1));;;
      ret (Joining lease_id (cut s.1).2 true)
  | Joining lease_id deleted_count cancelled => ret (Joining lease_id deleted_count cancelled)
  | Ended => ret Ended
  end.

(** The reaper has no [await] but in its [try] block, and raises a
    [CancelledError] again, so the first [await] returns.  [None]: after the
    schedule the second one still waits for the task.  The core backend has no
    [close]. *)
Definition lifespan_shutdown (tasks : Tasks) (cut : W → W * Z) (t : CleanupTask) (schedule : list nat)
    : M Pod (option Tasks) :=
  let stopped := {| ts_cleanup := false; ts_reaper := false |} in
  if ts_cleanup tasks then
    t <- cancel_cleanup cut t;;
    t <- run_task schedule t;;
    ret (match t with Ended => Some stopped | _ => None end)
  else ret (Some stopped).
End shutdown.

(** ** Lemmas *)

Section laws.
Context {S C K L : Type} `{StorageBackend S} `{ClaimStorage C} `{KeyStoreProtocol K} `{!App K}
  `{LeaseLaws L}.
Abbreviation W := (World S C K).
Abbreviation Pod := (W * L)%type.
Implicit Types (s : Pod) (t : CleanupTask).

Lemma run_task_app l1 l2 t s :
  run_task (l1 ++ l2) t s = (t <- run_task l1 t;; run_task l2 t) s.
Proof.
  revert t s. induction l1 as [|ticks l1 IH]; intros t s; [done|]. cbn [app run_task]. unfold bind.
  destruct (to_next_await ticks t s) as [[t1|e] s1]; [|done]. rewrite IH. unfold bind. done.
Qed.

(** The suspended task is the loop of [Lifespan]: an iteration is one or three
    runs to the next suspension. *)
Lemma iteration_in_steps ticks s :
  ∃ schedule, run_task schedule Sleeping s
    = (on_world (advance_clock 60);;; ttl_cleanup_iteration ticks;;; ret Sleeping) s.
Proof.
  unfold ttl_cleanup_iteration. destruct (decide (cf_default_ttl app_config <= 0)%Z) as [Httl|Httl].
  { exists [0%nat]. cbn [run_task to_next_await]. by rewrite decide_True. }
  destruct (acquire_law lease_key lease_ttl s.2) as ([id|] & l1 & E & _).
  - exists [0; 0; ticks]%nat. cbn [run_task to_next_await]. rewrite decide_False by done.
    unfold bind, on_world, on_leases, advance_clock, modify, pod_log, gets, struct_log, ret. cbn [fst snd].
    rewrite E. cbv beta iota. unfold on_world, modify. cbn [fst snd to_next_await].
    unfold bind, on_world, gets, pod_log, on_world, ret. cbn [fst snd].
    match goal with |- context [cleanup_namespaces ?now ?n ?ps ?w] =>
      destruct (cleanup_namespaces now n ps w) as [[[m b]|e] w1]; [|done] end.
    destruct b; cbn [negb when fst snd to_next_await]; unfold struct_log, modify, ret; cbn [fst snd to_next_await];
      unfold bind, ret; match goal with |- context [finish_sweep ticks id ?c ?x] => by destruct (finish_sweep ticks id c x) as [[]] end.
  - exists [0%nat]. cbn [run_task to_next_await]. rewrite decide_False by done.
    unfold bind, on_world, on_leases, advance_clock, modify, pod_log, gets, struct_log, ret. cbn [fst snd]. by rewrite E.
Qed.

Lemma loop_in_steps sweeps s :
  ∃ schedule, run_task schedule Sleeping s = (ttl_cleanup_loop sweeps;;; ret Sleeping) s.
Proof.
  revert s. induction sweeps as [|ticks sweeps IH]; intros s; [by exists []|].
  destruct (iteration_in_steps ticks s) as [l1 E1].
  set (m := (on_world (advance_clock 60);;; ttl_cleanup_iteration ticks) : M Pod unit).
  assert (Ea : ∀ {A} (k : M Pod A), (on_world (advance_clock 60);;; ttl_cleanup_iteration ticks;;; k) s = (m;;; k) s).
  { intros A k. unfold m, bind. by destruct (on_world _ s) as [[]]. }
  rewrite Ea in E1.
  assert (El : (ttl_cleanup_loop (ticks :: sweeps);;; ret Sleeping) s = (m;;; ttl_cleanup_loop sweeps;;; ret Sleeping) s).
  { cbn [ttl_cleanup_loop]. unfold bind at 1. rewrite Ea. unfold bind. by destruct (m s) as [[]]. }
  rewrite El. unfold bind in E1 |- * at 1. destruct (m s) as [[[]|e] s1].
  - destruct (IH s1) as [l2 E2]. exists (l1 ++ l2). rewrite run_task_app. unfold bind at 1. by rewrite E1.
  - by exists l1.
Qed.

(** *** The lease at every suspension *)

Definition leases_same l l' : Prop := ∀ k, lease_free k l' ↔ lease_free k l.

Definition lease_kept (l : L) t (l' : L) : Prop :=
  match t with
  | Sleeping | Ended => leases_same l l'
  | Sweeping id | Joining id _ _ => lease_free lease_key l ∧ lease_held lease_key id l' ∧ other_leases l l'
  end.
(** The tasks that were not cancelled. *)
Definition uncancelled t : Prop :=
  match t with Sleeping | Sweeping _ | Joining _ _ false => True | _ => False end.

Lemma wp_finish_kept ticks id n l0 s :
  lease_free lease_key l0 → lease_held lease_key id s.2 → other_leases l0 s.2 →
  wp (finish_sweep ticks id n) (λ _ s', leases_same l0 s'.2) (λ _ _, False) s.
Proof.
  intros Hf Hid Ho. eapply wp_mono; [| |by apply wp_finish_sweep]; [|done].
  intros _ s' (_ & Hl & Ho') k. destruct (decide (k = lease_key)) as [->|Hk]; [done|].
  etrans; [by apply Ho'|by apply Ho].
Qed.

Lemma wp_to_next_await ticks t l0 s :
  uncancelled t → lease_kept l0 t s.2 →
  wp (to_next_await ticks t) (λ t' s', uncancelled t' ∧ lease_kept l0 t' s'.2) (λ _ _, False) s.
Proof.
  intros Hu Hk. destruct t as [|id|id n [|]|]; try done; cbn [to_next_await].
  - apply wp_bind, wp_on_world, wp_modify. cbn [fst snd]. case_decide; [by apply wp_ret|].
    apply wp_bind, wp_on_leases. destruct (acquire_law lease_key lease_ttl s.2) as (r & l1 & E & Ho & Hr).
    cbn [snd]. unfold wp at 1. rewrite E. cbn iota beta. destruct r as [id|]; apply wp_bind, wp_pod_log, wp_ret.
    + split; [done|]. destruct Hr as [Hf Hid]. cbn. split_and!; [by apply Hk|done|].
      intros k Hne. etrans; [by apply Ho|apply Hk].
    + split; [done|]. intros k. cbn [snd]. rewrite <- (Hk k).
      destruct (decide (k = lease_key)) as [->|Hne]; [tauto|by apply Ho].
  - apply wp_bind. unfold gets. unfold wp at 1. cbn iota beta. apply wp_bind, wp_on_world.
    eapply wp_mono; [| |apply cleanup_namespaces_total]; [|done]. intros [n b] w' _. apply wp_bind.
    destruct b; cbn [negb snd when]; [apply wp_ret|apply wp_pod_log]; by apply wp_ret.
  - destruct Hk as (Hf & Hid & Ho). apply wp_bind. eapply wp_mono; [| |exact (wp_finish_kept ticks id n l0 s Hf Hid Ho)]; [|done].
    intros [] s' Hs. apply wp_ret. split; [exact I|exact Hs].
Qed.

Lemma wp_run_task schedule t l0 s :
  uncancelled t → lease_kept l0 t s.2 →
  wp (run_task schedule t) (λ t' s', uncancelled t' ∧ lease_kept l0 t' s'.2) (λ _ _, False) s.
Proof.
  revert t s. induction schedule as [|ticks rest IH]; intros t s Hu Hk; cbn [run_task]; [by apply wp_ret|].
  apply wp_bind. eapply wp_mono; [| |by apply wp_to_next_await]; [|done]. intros t' s' [Hu' Hk']. by apply IH.
Qed.

Lemma run_ended schedule s : run_task schedule Ended s = (Ok Ended, s).
Proof. induction schedule as [|ticks rest IH]; [done|exact IH]. Qed.
End laws.

(** ** Properties *)

(** C34: the lifetime loop gives back every lease it takes and stops when it is
    told to, but for one window.  Whatever the storage does and however long it
    has run, it has not raised; when the application then shuts down, in the
    sleep of the loop or anywhere in a sweep, whatever of it was done, the
    shutdown completes at the next step of the task and the leases that can be
    acquired are exactly those that could be at the start; in the window
    between a sweep and the end of its renewal task the cancellation is lost:
    the loop goes on as if nothing had happened, and the shutdown never
    completes. *)
Theorem shutdown_gives_back_leases {S C K L} `{StorageBackend S, ClaimStorage C, KeyStoreProtocol K, !App K, LeaseLaws L}
    before tasks cut (s : World S C K * L) :
  ts_cleanup tasks = true →
  ∃ t s1, run_task before Sleeping s = (Ok t, s1) ∧
  match t with
  | Joining _ _ _ =>
      ∀ after, ∃ s2, lifespan_shutdown tasks cut t after s1 = (Ok None, s2) ∧ (run_task after t s1).2 = s2
  | _ =>
      ∀ after, after ≠ [] → ∃ s2,
        lifespan_shutdown tasks cut t after s1 = (Ok (Some {| ts_cleanup := false; ts_reaper := false |}), s2) ∧
        ∀ k, lease_free k s2.2 ↔ lease_free k s.2
  end.
Proof.
  intros Ht. pose proof (wp_run_task before Sleeping s.2 s I (λ k, reflexivity _)) as Hw. unfold wp in Hw.
  destruct (run_task before Sleeping s) as [[t|e] s1]; [|done]. destruct Hw as [Hu Hk]. exists t, s1. split; [done|].
  unfold lifespan_shutdown. rewrite Ht. destruct t as [|id|id n [|]|]; try done.
  - intros after _. exists s1. cbn [cancel_cleanup]. unfold bind, ret. by rewrite run_ended.
  - intros [|ticks after] Hne; [done|]. destruct Hk as (Hf & Hid & Ho). cbn [cancel_cleanup run_task].
    unfold bind, get, on_world, modify, ret. cbn [fst snd to_next_await]. unfold bind, ret.
    pose proof (wp_finish_kept ticks id (cut s1.1).2 s.2 ((cut s1.1).1, s1.2) Hf Hid Ho) as Hw. unfold wp in Hw.
    destruct (finish_sweep ticks id _ _) as [[[]|e] s2]; [|done]. rewrite run_ended. by exists s2.
  - intros after. cbn [cancel_cleanup]. unfold bind, ret.
    pose proof (wp_run_task after (Joining id n false) s.2 s1 Hu Hk) as Hw. unfold wp in Hw.
    destruct (run_task after (Joining id n false) s1) as [[t'|e] s2]; [|done]. exists s2.
    destruct Hw as [Hu' _]. by destruct t'.
Qed.

(** The application is stopped in its second sweep, before it removed
    anything, and between a sweep and the end of its renewals. *)
#[local] Existing Instances Demo.storage Demo.claims Demo.keys.
#[local] Instance ttl_app : App KeyStore := ttl_server.
#[local] Instance ttl_locks : LeaseBackend LeaseSys := FilesystemLeases demo_uuid (λ _, true) 1.
Definition both_tasks : Tasks := {| ts_cleanup := true; ts_reaper := true |}.

Lemma shutdown_gives_back_leases_witness :
  (∃ t s1, run_task [0; 0; 2; 0]%nat Sleeping (dated_world, lease_init) = (Ok t, s1) ∧
     ∃ s2, lifespan_shutdown both_tasks (λ w, (w, 0%Z)) t [1%nat] s1
         = (Ok (Some {| ts_cleanup := false; ts_reaper := false |}), s2) ∧
       ls_flocks s2.2 !! lease_key = None) ∧
  ∃ t s1, run_task [0; 0]%nat Sleeping (dated_world, lease_init) = (Ok t, s1) ∧
    ∃ s2, lifespan_shutdown both_tasks (λ w, (w, 0%Z)) t [0; 0; 0; 0]%nat s1 = (Ok None, s2).
Proof.
  split.
  - assert (Ht : match (run_task [0; 0; 2; 0]%nat Sleeping (dated_world, lease_init)).1 with
      Ok (Sweeping _) => true | _ => false end = true) by (vm_compute; reflexivity).
    destruct (shutdown_gives_back_leases [0; 0; 2; 0]%nat both_tasks (λ w, (w, 0%Z)) (dated_world, lease_init) eq_refl)
      as (t & s1 & E & Hcase). rewrite E in Ht. exists t, s1. split; [exact E|].
    destruct t as [|id|id n c|]; try discriminate Ht.
    destruct (Hcase [1%nat]) as (s2 & E2 & Hl); [discriminate|]. exists s2. split; [exact E2|].
    refine (proj2 (proj2 (proj2 (Hl lease_key) _))). split_and!; reflexivity.
  - assert (Ht : match (run_task [0; 0]%nat Sleeping (dated_world, lease_init)).1 with
      Ok (Joining _ _ _) => true | _ => false end = true) by (vm_compute; reflexivity).
    destruct (shutdown_gives_back_leases [0; 0]%nat both_tasks (λ w, (w, 0%Z)) (dated_world, lease_init) eq_refl)
      as (t & s1 & E & Hcase). rewrite E in Ht. exists t, s1. split; [exact E|].
    destruct t as [|id|id n c|]; try discriminate Ht.
    destruct (Hcase [0; 0; 0; 0]%nat) as (s2 & E2 & _). exists s2. exact E2.
Defined.
