(* ===== verification/Agents.v ===== *)
(** * Agents, broadcasts and key management

    [routes/agents.py], [routes/keys.py] and [rate_limit/limiter.py]: the
    visible agents, the fan-out of a broadcast with its per-recipient
    outcomes, the rate limit, and the API-key routes. *)

From Stdlib Require Import Ascii String.
From stdpp Require Import pretty.
From S2P Require Import Prelude PyStr PyCodec Json DateTime Effects PyNum Paths Limits Config.
From S2P Require Import Claims KeyStore Jwt FsModel Storage World Downloads Inbox Files.
Local Open Scope string_scope.
Local Open Scope list_scope.
Local Open Scope effect_scope.

(** ** [rate_limit/limiter.py] *)

Definition check_fanout_cap (target_count max_targets : Z) : res unit :=
  if (max_targets <? target_count)%Z then Raise (FanoutCapExceeded max_targets) else Ok tt.

(** What became of one recipient of a broadcast. *)
Inductive outcome := Delivered | DeniedBy (reason : str) | FailedWith (error : str).

Definition delivered_of (l : list (str * outcome)) : list str :=
  omap (λ o, match o.2 with Delivered => Some o.1 | _ => None end) l.
Definition denied_of (l : list (str * outcome)) : list (str * str) :=
  omap (λ o, match o.2 with DeniedBy r => Some (o.1, r) | _ => None end) l.
Definition failed_of (l : list (str * outcome)) : list (str * str) :=
  omap (λ o, match o.2 with FailedWith e => Some (o.1, e) | _ => None end) l.

(** The result tag of a broadcast. *)
Definition broadcast_result (visibility_failed : bool) (visible : list str)
    (outcomes : list (str * outcome)) : str :=
  let delivered := delivered_of outcomes in
  let others := bool_decide (denied_of outcomes ≠ []) || bool_decide (failed_of outcomes ≠ []) in
  if visibility_failed then "error"
  else if decide (visible = []) then "noop"
  else if bool_decide (delivered ≠ []) && others then "partial"
  else if decide (delivered ≠ []) then "success"
  else "error".

Section agents.
Context {S C K : Type} `{StorageBackend S} `{ClaimStorage C} `{KeyStoreProtocol K}
  `{App K} `{PyJwt}.
Abbreviation W := (World S C K).

(** [check_rate_limit_imperative]; the window the exception carries is left to
    the library. *)
Definition check_rate_limit_imperative (rq : HttpRequest) (rate_string : str) : M W unit :=
  w <- get;;
  let allowed := app_rate_allows (w_hits w) rate_string (rq_client rq) in
  modify (set_hits (w_hits w ++ [(rate_string, rq_client rq)]));;;
  if allowed : bool then ret tt else raise (RateLimitExceeded None).

Definition record_rate_limit_hit (route reason : str) : M W unit :=
  safe_emit None (Some (Increment "cassetta.rate_limit.hits" 1 [("route", route); ("reason", reason)])).

(** ** [routes/agents.py] *)

Definition sender_from_identity (identity : Identity) : option str :=
  if extra_get "dev" identity || extra_get "operator" identity then None
  else Some (id_label identity).

Definition sender_json (sender : option str) : json := opt_json JStr sender.

(** [_write_inbox_bundle]. *)
Definition write_inbox_bundle (bundle_path : str) (files : list (str * bytes * option str))
    (sender : option str) (bundle_id : str) : M W unit :=
  write_bundle bundle_path files (sender_json sender) "application/octet-stream" bundle_id;;; ret tt.

(** [access_policy.visible_agents], closed on failure: the labels, and whether
    it failed. *)
Definition visible_labels (identity : Identity) (labels : list str) (failure_event : str)
    : M W (list str * bool) :=
  match ap_visible_agents app_access identity labels with
  | Ok l => ret (l, false)
  | Raise _ => struct_log ERROR failure_event;;; ret ([], true)
  end.

Definition agent_json (k : KeyInfo) : json :=
  JDict [("label", JStr (ki_label k)); ("created_at", JStr (isoformat (ki_created_at k)))].

Definition list_agents (rq : HttpRequest) : M W Response :=
  identity <- get_current_identity rq;;
  keys <- on_keys kp_list_keys;;
  let active := filter (λ k, ki_is_active k = true) keys in
  let labels := map ki_label active in
  '(visible, _) <- visible_labels identity labels "agents.visibility_failed";;
  let agents := map agent_json (filter (λ k, ki_label k ∈ visible) active) in
  safe_emit None (Some (count_event "cassetta.agents.list" "result"
    (if bool_decide (length visible = length labels) then "unfiltered" else "filtered")));;;
  ret (json_response 200 (JDict [("agents", JList agents)]) []).

(** The delivery to one inbox: the old bundle goes, the new one is written. *)
Definition deliver_to (path : str) (parts : list (str * bytes * option str)) (sender : option str)
    (target : str) : M W unit :=
  let bundle_path := rstrip "/" target +:+ "/" +:+ path in
  delete_bundle_quiet bundle_path;;;
  bundle_id <- new_bundle_id;;
  write_inbox_bundle bundle_path parts sender bundle_id.

Definition exn_text (e : exn) : str :=
  match e with
  | ValueError _ m | KeyError m | OSError _ m | TarError m | OtherError m => m
  | BundlePathConflictError p k =>
      "bundle_path_conflict at " +:+ p +:+ " (" +:+ conflict_kind_name k +:+ ")"
  | _ => ""
  end.

(** One recipient: resolve, check, write. *)
Definition deliver (identity : Identity) (path : str) (parts : list (str * bytes * option str))
    (sender : option str) (label : str) : M W outcome :=
  resolved <- catch (r <- on_keys (ar_resolve app_alias label sender);; ret (inl r))
    (λ e, Some (ret (inr ("resolver_error: " +:+ exn_text e))));;
  match resolved with
  | inr error => ret (FailedWith error)
  | inl None => ret (FailedWith "resolver_unknown")
  | inl (Some r) =>
      match ap_check app_access identity ("inbox:" +:+ label) "write" with
      | Raise _ => ret (DeniedBy "check_error")
      | Ok false =>
          safe_emit (Some (INFO, "policy.denied"))
            (Some (Increment "cassetta.policy.decisions" 1
              [("result", "denied"); ("action", "write");
               ("policy_kind", (policy_kind_fields app_access).2)]));;;
          ret (DeniedBy "access_denied")
      | Ok true =>
          catch (for_each (inbox_targets r) (deliver_to path parts sender);;; ret Delivered)
            (λ e, Some (ret (FailedWith ("write_error: " +:+ exn_text e))))
      end
  end.

Definition pairs_json (k : str) (l : list (str * str)) : json :=
  JList (map (λ p : str * str, JDict [("target", JStr p.1); (k, JStr p.2)]) l).
Definition count_json {A} (l : list A) : json := JInt (Z.of_nat (length l)).

(** The capacity check of a broadcast: any accepted mode will do. *)
Definition check_capacity (identity : Identity) (parts : list (str * bytes * option str)) : M W unit :=
  decision <- of_res (evaluate_upload app_limits identity (manifest_of_parts parts));;
  match decision with
  | Rejected error constraint limit observed =>
      raise (LimitsRejection error constraint limit observed
               (format_reason error constraint limit observed None))
  | Accepted _ => ret tt
  end.

(** Active labels without the sender's own. *)
Definition candidate_labels (sender : option str) (keys : list KeyInfo) : list str :=
  map ki_label (filter (λ k, ki_is_active k = true ∧ Some (ki_label k) ≠ sender) keys).

(** The fan-out: the outcome of every visible recipient, in order. *)
Definition fan_out (identity : Identity) (path : str) (parts : list (str * bytes * option str))
    (sender : option str) (visible : list str) : M W (list (str * outcome)) :=
  map_m (λ label, o <- deliver identity path parts sender label;; ret (label, o)) visible.

Definition broadcast (rq : HttpRequest) (path : str) : M W Response :=
  identity <- get_current_identity rq;;
  check_rate_limit_imperative rq (cf_rate_limit_broadcast app_config);;;
  catch (of_res (validate_path path (Some (cf_allowed_path_chars app_config)))) (λ e,
    match e with
    | ValueError PathValidationError msg => Some (http_error 400 ("Invalid path: " +:+ msg))
    | _ => None
    end);;;
  let sender := sender_from_identity identity in
  parts <- parts_of rq path;;
  check_capacity identity parts;;;
  keys <- on_keys kp_list_keys;;
  let candidates := candidate_labels sender keys in
  of_res (check_fanout_cap (Z.of_nat (length candidates)) (cf_broadcast_max_targets app_config));;;
  '(visible, visibility_failed) <- visible_labels identity candidates "broadcast.visibility_failed";;
  outcomes <- fan_out identity path parts sender visible;;
  safe_emit (Some (INFO, "broadcast.sent"))
    (Some (count_event "cassetta.broadcast.operations" "result"
             (broadcast_result visibility_failed visible outcomes)));;;
  ret (json_response 200
    (JDict [("path", JStr path);
            ("delivered_to", JList (map JStr (delivered_of outcomes)));
            ("denied", pairs_json "reason" (denied_of outcomes));
            ("failed", pairs_json "error" (failed_of outcomes));
            ("total_delivered", count_json (delivered_of outcomes));
            ("total_denied", count_json (denied_of outcomes));
            ("total_failed", count_json (failed_of outcomes))]) []).

(** ** [routes/keys.py] *)

Definition key_event (action : str) (log : str) : M W unit :=
  safe_emit (Some (INFO, log)) (Some (count_event "cassetta.keys.operations" "action" action)).

(** The [cassetta.active_keys] gauge. *)
Definition refresh_gauge : M W unit :=
  keys <- on_keys kp_list_keys;;
  safe_emit None (Some (Gauge "cassetta.active_keys"
    (Z.of_nat (length (filter (λ k, ki_is_active k = true) keys))))).

Definition created_response (status : Z) (raw_key : str) (info : KeyInfo) : Response :=
  json_response status
    (JDict [("label", JStr (ki_label info)); ("api_key", JStr raw_key);
            ("created_at", JStr (isoformat (ki_created_at info)))]) [].

(** [try: ... except ValueError: 409] and [except KeyError: 404]. *)
Definition value_error_409 {A} (m : M W A) : M W A :=
  catch m (λ e, match e with ValueError _ msg => Some (http_error 409 msg) | _ => None end).
Definition key_error_404 {A} (m : M W A) : M W A :=
  catch m (λ e, match e with KeyError msg => Some (http_error 404 (repr msg)) | _ => None end).

Definition setup_route (rq : HttpRequest) (label : str) : M W Response :=
  identity <- get_current_identity rq;;
  enforce identity ("keys:" +:+ label) "create";;;
  '(raw_key, info) <- value_error_409 (on_keys (kp_setup label));;
  key_event "create" "key.created";;;
  refresh_gauge;;;
  ret (created_response 201 raw_key info).

Definition create_key_route (rq : HttpRequest) (label : str) : M W Response :=
  identity <- get_current_identity rq;;
  enforce identity ("keys:" +:+ label) "create";;;
  '(raw_key, info) <- value_error_409 (on_keys (kp_create_key label));;
  key_event "create" "key.created";;;
  refresh_gauge;;;
  ret (created_response 201 raw_key info).

Definition key_json (k : KeyInfo) : json :=
  JDict [("label", JStr (ki_label k)); ("key_prefix", JStr (ki_key_prefix k));
         ("created_at", JStr (isoformat (ki_created_at k))); ("is_active", JBool (ki_is_active k))].

Definition list_keys_route (rq : HttpRequest) : M W Response :=
  identity <- get_current_identity rq;;
  enforce identity "keys:*" "list";;;
  keys <- on_keys kp_list_keys;;
  ret (json_response 200 (JDict [("keys", JList (map key_json keys))]) []).

Definition rotate_key_route (rq : HttpRequest) (label : str) : M W Response :=
  identity <- get_current_identity rq;;
  enforce identity ("keys:" +:+ label) "rotate";;;
  '(raw_key, info) <- key_error_404 (on_keys (kp_rotate_key label));;
  key_event "rotate" "key.rotated";;;
  refresh_gauge;;;
  ret (created_response 200 raw_key info).

Definition revoke_key_route (rq : HttpRequest) (label : str) : M W Response :=
  identity <- get_current_identity rq;;
  enforce identity ("keys:" +:+ label) "revoke";;;
  key_error_404 (on_keys (kp_revoke_key label));;;
  key_event "revoke" "key.revoked";;;
  refresh_gauge;;;
  ret (json_response 200 (JDict [("revoked", JStr label)]) []).
End agents.
