(* ===== verification/Server.v ===== *)
(** * The server

    [app.py], [middleware.py] and [routes/capabilities.py]: the routes put
    together, the exception handlers that turn what a route raises into a
    response, and the middleware around them.  The response FastAPI itself
    gives to an [HTTPException] is the argument [http_exception_handler]; what
    no handler catches is the raised exception, which the framework answers
    with a 500. *)

From Stdlib Require Import Ascii String.
From stdpp Require Import pretty.
From S2P Require Import Prelude PyStr PyCodec Json DateTime Effects PyNum Paths Limits Config.
From S2P Require Import Claims KeyStore Jwt FsModel Storage World Frame Backends Downloads Inbox Files SendInit Upload Download Gc Agents.
Local Open Scope string_scope.
Local Open Scope list_scope.
Local Open Scope effect_scope.

(** The routes, with the parameters of their paths, queries and JSON bodies. *)
Inductive Route :=
  | RCapabilities
  | RHealth
  | RAgents
  | RBroadcast (path : str)
  | RListInbox (agent prefix : str)
  | RPeekInbox (agent path : str)
  | RGetInbox (agent path : str)
  | RPickInbox (agent path : str)
  | RDeleteInbox (agent path : str)
  | RSendRemoved (agent path : str)
  | RUploadFile (path : str)
  | RListFiles (prefix : str)
  | RPeekFile (path : str)
  | RDownloadFile (path : str)
  | RDeleteFile (path : str)
  | RUploads (to path : str) (manifest : SendManifest)
  | RUpload (bundle_path : str)
  | RDownload
  | RSetup (label : str)
  | RCreateKey (label : str)
  | RListKeys
  | RRotateKey (label : str)
  | RRevokeKey (label : str).

Inductive Reply := ReplyJson (r : Response) | ReplyStream (f : FileStream).
Definition reply_status (r : Reply) : Z :=
  match r with ReplyJson r => rsp_status r | ReplyStream _ => 200 end.

(** The capabilities document on the wire. *)
Definition limits_json (l : LimitsAdvertisement) : json :=
  JDict [("per_file_max", opt_json JInt (la_per_file_max l));
         ("per_bundle_total_max", opt_json JInt (la_per_bundle_total_max l));
         ("per_bundle_file_count_max", opt_json JInt (la_per_bundle_file_count_max l));
         ("max_inline_size", opt_json JInt (la_max_inline_size l))].
Definition ttls_json (t : TTLSettings) : json :=
  JDict [("upload_token_ttl", JInt (ttl_upload_token t));
         ("download_claim_ttl", JInt (ttl_download_claim t));
         ("passive_gc_min_age", JInt (ttl_gc_min_age t));
         ("passive_gc_interval", JInt (ttl_gc_interval t))].
Definition capabilities_json (d : CapabilitiesDocument) : json :=
  JDict [("schema_version", JInt (cd_schema_version d)); ("server_version", JStr (cd_server_version d));
         ("supported_modes", JList (map JStr (cd_supported_modes d)));
         ("limits", limits_json (cd_limits d)); ("ttls", ttls_json (cd_ttls d));
         ("features", JList (map JStr (cd_features d)))].

(** [_retry_after_seconds]. *)
Definition retry_after_seconds (expiry : option Z) : Z := default 60%Z expiry.

(** [recorded_rate_limit_route] of the route recorded in the request's state. *)
Definition recorded_rate_limit_route (recorded : option str) : str :=
  match recorded with
  | Some route => if bool_decide (route = "onboard" ∨ route = "broadcast") then route else "broadcast"
  | None => "broadcast"
  end.

(** [LimitsRejectionBody]. *)
Definition limits_rejection_body (error : limits_error) (constraint : limits_constraint)
    (limit : option Z) (observed : Z) : json :=
  JDict [("error", JStr (error_name error)); ("constraint", JStr (constraint_name constraint));
         ("limit", opt_json JInt limit); ("observed", JInt observed)].
Definition limits_status (error : limits_error) : Z :=
  match error with cap_exceeded => 413 | batch_required => 422 end.

Definition pairs_dict (l : list (str * str)) : json :=
  JDict (map (λ p : str * str, (p.1, JStr p.2)) l).

Section server.
Context {S C K : Type} `{StorageBackend S} `{ClaimStorage C} `{KeyStoreProtocol K}
  `{App K} `{PyJwt}.
Abbreviation W := (World S C K).
Variable tar_open : bool → bytes → list (res TarInfo).
Variable server_version : str.
Variable http_exception_handler : Z → detail → Response.

(** [get_capabilities]. *)
Definition get_capabilities (rq : HttpRequest) : M W Response :=
  identity <- get_current_identity rq;;
  let doc := build_capabilities_document server_version app_limits identity in
  struct_log DEBUG "capabilities.queried";;;
  safe_emit None (Some (count_event "cassetta.capabilities.queries" "via" "rest"));;;
  ret (json_response 200 (capabilities_json doc) []).

(** [health]. *)
Definition health : M W Response :=
  w <- get;;
  if kp_is_healthy (w_keys w)
  then ret (json_response 200
    (JDict [("status", JStr "ok"); ("dev_mode", JBool (cf_dev_mode app_config))]) [])
  else ret (json_response 503
    (JDict [("status", JStr "unhealthy"); ("reason", JStr "key_store_unreachable");
            ("dev_mode", JBool (cf_dev_mode app_config))]) []).

(** The routers that [create_app] includes. *)
Definition route_handler (rq : HttpRequest) (r : Route) : M W Response :=
  match r with
  | RCapabilities => get_capabilities rq
  | RHealth => health
  | RAgents => list_agents rq
  | RBroadcast path => broadcast rq path
  | RListInbox agent prefix => list_inbox rq agent prefix
  | RPeekInbox agent path => peek_inbox_file rq agent path
  | RGetInbox agent path => get_inbox_file rq agent path
  | RPickInbox agent path => pick_inbox_file rq agent path
  | RDeleteInbox agent path => delete_inbox_file rq agent path
  | RSendRemoved agent path => send_to_inbox_removed agent path
  | RUploadFile path => upload_file rq path
  | RListFiles prefix => list_files rq prefix
  | RPeekFile path => peek_store_file rq path
  | RDownloadFile path => download_file rq path
  | RDeleteFile path => delete_file rq path
  | RUploads to path manifest => create_upload_session rq to path manifest
  | RUpload bundle_path => upload_bundle tar_open rq bundle_path
  | RSetup label => setup_route rq label
  | RCreateKey label => create_key_route rq label
  | RListKeys => list_keys_route rq
  | RRotateKey label => rotate_key_route rq label
  | RRevokeKey label => revoke_key_route rq label
  | RDownload => raise AssertionError
  end.
Definition handler (rq : HttpRequest) (r : Route) : M W Reply :=
  match r with
  | RDownload => f <- download_route rq;; ret (ReplyStream f)
  | _ => x <- route_handler rq r;; ret (ReplyJson x)
  end.

(** The exception handlers of [create_app].  [broadcast], the only route here
    that drives the limiter, records its own name. *)
Definition exception_handler (e : exn) : option (M W Reply) :=
  match e with
  | BundlePathConflictError p kind => Some (ret (ReplyJson (build_bundle_conflict_response p kind)))
  | LimitsRejection error constraint limit observed _ =>
      Some (ret (ReplyJson (json_response (limits_status error)
        (limits_rejection_body error constraint limit observed) [])))
  | RateLimitExceeded expiry =>
      let retry_after := retry_after_seconds expiry in
      Some (record_rate_limit_hit (recorded_rate_limit_route (Some "broadcast")) "rate";;;
            ret (ReplyJson (json_response 429
              (JDict [("error", JStr "rate_limit"); ("retry_after", JInt retry_after)])
              [("Retry-After", pretty retry_after)])))
  | FanoutCapExceeded max_targets =>
      Some (record_rate_limit_hit "broadcast" "fanout_cap";;;
            ret (ReplyJson (json_response 429
              (JDict [("error", JStr "rate_limit"); ("reason", JStr "fanout_cap");
                      ("max_targets", JInt max_targets)])
              [("Retry-After", "0")])))
  | DownloadError status body headers =>
      Some (ret (ReplyJson (json_response status (pairs_dict body) headers)))
  | HTTPException status d => Some (ret (ReplyJson (http_exception_handler status d)))
  | _ => None
  end.

(** The application: a route under the exception handlers. *)
Definition app (rq : HttpRequest) (r : Route) : M W Reply := catch (handler rq r) exception_handler.

(** [f"{status_code // 100}xx"]. *)
Definition status_class (status : Z) : str := pretty (status / 100)%Z +:+ "xx".

(** The [finally] block of [RequestIdMiddleware]. *)
Definition request_metrics (method path : str) (status : Z) : M W unit :=
  let tags := [("method", method); ("path", path)] in
  safe_emit None (Some (Increment "cassetta.requests.total" 1 tags));;;
  attempt (emit_metric (Observe "cassetta.request.duration_seconds")) (ret tt);;;
  if (400 <=? status)%Z
  then safe_emit None (Some (Increment "cassetta.request.errors" 1
         (tags ++ [("status", status_class status)])))
  else ret tt.

(** [RequestIdMiddleware.__call__]: the status stays 200 when the application
    raises. *)
Definition RequestIdMiddleware (method path : str) (inner : M W Reply) : M W Reply :=
  _ <- new_uuid;;
  w <- get;;
  let '(r, w') := inner w in
  modify (λ _, w');;;
  request_metrics method path (match r with Ok reply => reply_status reply | Raise _ => 200 end);;;
  of_res r.

(** A request to the server. *)
Definition serve (method path : str) (rq : HttpRequest) (r : Route) : M W Reply :=
  RequestIdMiddleware method path (app rq r).
End server.

(** ** Lemmas: a failing metrics provider *)

(** The application with another metrics provider. *)
Definition with_metric_failures {K} (fails : event → bool) (a : App K) : App K := {|
  app_config := app_config; app_access := app_access; app_alias := app_alias;
  app_identity := app_identity; app_limits := app_limits; app_transport := app_transport;
  app_metric_fails := fails; app_uuid := app_uuid; app_mime := app_mime;
  app_revocation := app_revocation; app_rate_allows := app_rate_allows;
|}.

Ltac run_unfold :=
  cbv [now_seconds get_current_identity enforce check_policy http_error new_uuid new_bundle_id infer_mime pick_mime
    verify_token read_body count_inbox file_not_found
    download_ttl mint_download_token build_reference_payload_for_inbox build_reference_payload_for_store
    try_read_meta delete_bundle_quiet is_expired collect_bundle_files list_step list_inbox peek_inbox_file
    live_meta download_mode get_inbox_file newest_step find_newest pick_target pick_inbox_file delete_inbox_file
    send_to_inbox_removed
    part_step write_bundle write_store_bundle reject_limits evaluate_or_raise parts_of validate_or_400 upload_file
    list_files_step list_files peek_store_file download_file delete_file
    enrich_entry enrich_manifest_mimes manifest_error parse_manifest check_leaf_path resolve_recipient check_access
    decide_mode prepare_send_init create_upload_session value_error
    extract_bearer effective_per_file_max violation tar_step stream_tar_into_writer count_upload upload_failed
    conflict_409 upload_claims_of open_or_409 upload_bundle
    count_download download_claims resolve_identity_label authorize_download gone post_stream_claim_accounting
    body_sent body_generator open_download download_until download_route
    check_rate_limit_imperative record_rate_limit_hit write_inbox_bundle visible_labels list_agents deliver_to
    deliver check_capacity fan_out broadcast key_event refresh_gauge value_error_409 key_error_404
    setup_route create_key_route list_keys_route rotate_key_route revoke_key_route
    get_capabilities health route_handler handler exception_handler app];
  cbn [app_config app_access app_alias app_identity app_limits app_transport app_uuid app_mime
    app_revocation app_rate_allows with_metric_failures].

Section metrics.
Context {S C K : Type} `{StorageBackend S} `{ClaimStorage C} `{KeyStoreProtocol K} `{PyJwt}.
Variable a : App K.
Variable tar_open : bool → bytes → list (res TarInfo).
Variable server_version : str.
Variable http_exception_handler : Z → detail → Response.
Variables fails fails' : event → bool.

Lemma app_metrics rq r :
  same_run (S := S) (C := C)
    (app (H2 := with_metric_failures fails a) tar_open server_version http_exception_handler rq r)
    (app (H2 := with_metric_failures fails' a) tar_open server_version http_exception_handler rq r).
Proof.
  destruct r.
  all: run_unfold; cbv beta zeta.
  all: same_run.
Qed.

Lemma run_request_metrics (a1 a2 : App K) method path status :
  same_run (S := S) (C := C) (request_metrics (H2 := a1) method path status)
    (request_metrics (H2 := a2) method path status).
Proof.
  unfold request_metrics. apply run_bind; [apply run_safe_emit|intros _].
  apply run_bind; [|intros _; case_match; [apply run_safe_emit|apply run_ret]].
  intros w1 w2 Hw.
  assert (Hq : ∀ (b : App K) (w : World S C K), ∃ evs,
    attempt (emit_metric (H := b) (Observe "cassetta.request.duration_seconds")) (ret tt) w = (Ok tt, add_events evs w)).
  { intros b w. apply attempt_emits; [apply emit_metric_cases|]. intros w'. exists (Ok tt), []. by rewrite add_events_nil. }
  destruct (Hq a1 w1) as [? ->], (Hq a2 w2) as [? ->]. by split; [|apply eqv_events].
Qed.

Definition after_reply (b : App K) (method path : str) (r : res Reply) : M (World S C K) Reply :=
  request_metrics (H2 := b) method path (match r with Ok reply => reply_status reply | Raise _ => 200%Z end);;;
  of_res r.

Lemma middleware_eq (b : App K) method path (m : M (World S C K) Reply) w :
  RequestIdMiddleware (H2 := b) method path m w
  = (new_uuid (H := b);;; λ w, after_reply b method path (m w).1 (m w).2) w.
Proof.
  unfold RequestIdMiddleware, after_reply, bind, get, modify.
  destruct (new_uuid w) as [[u|e] w1]; [|done]. by destruct (m w1) as [r w2].
Qed.

Lemma run_middleware method path (m1 m2 : M (World S C K) Reply) :
  same_run m1 m2 →
  same_run (RequestIdMiddleware (H2 := with_metric_failures fails a) method path m1)
    (RequestIdMiddleware (H2 := with_metric_failures fails' a) method path m2).
Proof.
  intros Hm w1 w2 Hw. rewrite !middleware_eq. revert w1 w2 Hw. apply run_bind.
  { unfold new_uuid. cbn [app_uuid with_metric_failures]. same_run. }
  intros _ w1 w2 Hw. destruct (Hm w1 w2 Hw) as [-> Hw']. revert Hw'. generalize (m1 w1).2 (m2 w2).2.
  apply run_bind; [apply run_request_metrics|intros; apply run_of_res].
Qed.
End metrics.

(** ** Properties *)

(** C27: a metrics provider can fail in any way on any event: the reply to a
    request, or what it raises, and the state it leaves behind, logs aside,
    are the same as with any other provider, on every route. *)
Theorem metrics_failures_are_invisible {S C K} `{StorageBackend S} `{ClaimStorage C} `{KeyStoreProtocol K}
    `{PyJwt} (a : App K) tar_open version http_handler (fails fails' : event → bool) method path rq r
    (w : World S C K) :
  let run f := serve (H2 := with_metric_failures f a) tar_open version http_handler method path rq r w in
  (run fails).1 = (run fails').1 ∧ eqv (run fails).2 (run fails').2.
Proof. apply run_middleware; [apply app_metrics|done]. Qed.

(** ** Lemmas: reads and denials *)

(** The routes that only read. *)
Definition reads_only (r : Route) : bool :=
  match r with
  | RCapabilities | RHealth | RAgents | RListInbox _ _ | RPeekInbox _ _ | RSendRemoved _ _
  | RListFiles _ | RPeekFile _ | RListKeys => true
  | _ => false
  end.

(** The routes whose effects need the access policy: the two byte streams are
    authorised by their credential instead. *)
Definition policy_guarded (r : Route) : bool :=
  match r with RUpload _ | RDownload => false | _ => true end.

Ltac frame_unfold :=
  cbv [get_current_identity http_error new_uuid new_bundle_id infer_mime pick_mime
    count_inbox file_not_found try_read_meta is_expired list_step list_inbox peek_inbox_file
    get_inbox_file pick_inbox_file delete_inbox_file
    send_to_inbox_removed parts_of validate_or_400 upload_file
    list_files_step list_files peek_store_file download_file delete_file reject_limits
    enrich_entry enrich_manifest_mimes manifest_error parse_manifest check_leaf_path resolve_recipient check_access
    decide_mode prepare_send_init create_upload_session value_error
    check_rate_limit_imperative record_rate_limit_hit visible_labels list_agents
    deliver check_capacity fan_out broadcast
    setup_route create_key_route list_keys_route rotate_key_route revoke_key_route
    get_capabilities health route_handler handler].

Section inert.
Context {S C K : Type} `{StorageReads S, ClaimReads C, KeyReads K, !App K, !AliasReads K, PyJwt}.
Abbreviation W := (World S C K).
Variable tar_open : bool → bytes → list (res TarInfo).
Variable server_version : str.

Lemma frames_resolve_alias to sender : frames same_data (on_keys (ar_resolve app_alias to sender) : M W _).
Proof. apply frames_on_keys. apply ar_reads. Qed.
#[local] Hint Resolve frames_resolve_alias : cassetta.


Lemma reads_only_frames rq r :
  reads_only r = true → frames same_data (handler tar_open server_version rq r : M W Reply).
Proof. destruct r; try done; intros _; frame_unfold; cbv beta zeta; frame. Qed.

(** A policy that denies everything. *)
Section denied.
Hypothesis Hdeny : ∀ i r a, ap_check app_access i r a = Ok false.

Lemma check_policy_denied i r a (w : W) : ∃ evs, check_policy i r a w = (Ok false, add_events evs w).
Proof.
  unfold check_policy. rewrite Hdeny. unfold bind, of_res. cbv beta iota.
  match goal with |- context [safe_emit ?l ?m w] => destruct (safe_emit_ok l m w) as [evs ->] end.
  by eexists.
Qed.
Lemma frames_check_denied {A} i r a (k : bool → M W A) :
  frames same_data (k false) → frames same_data (bind (check_policy i r a) k).
Proof.
  intros Hk w. pose proof (frames_check_policy i r a w) as Hf. unfold bind.
  destruct (check_policy_denied i r a w) as [evs E]. rewrite E in *. etrans; [done|apply Hk].
Qed.
Lemma frames_denied {A} i r a (k : unit → M W A) : frames same_data (bind (enforce i r a) k).
Proof.
  intros w. pose proof (frames_enforce i r a w) as Hf. revert Hf. unfold enforce, bind at 1 2 3.
  destruct (check_policy_denied i r a w) as [evs E]. by rewrite E.
Qed.

Lemma denied_frames rq r :
  policy_guarded r = true → frames same_data (handler tar_open server_version rq r : M W Reply).
Proof.
  intros Hg. destruct (reads_only r) eqn:Er; [by apply reads_only_frames|].
  destruct r; try done; frame_unfold; cbv beta zeta.
  all: repeat first
    [ match goal with H : ap_check _ _ _ _ = _ |- _ => rewrite Hdeny in H; discriminate H end
    | match goal with |- frames _ (bind (enforce _ _ _) _) => apply frames_denied end
    | match goal with |- frames _ (bind (check_policy _ _ _) _) => apply frames_check_denied end
    | frame_step; cbv beta zeta ].
Qed.
End denied.
End inert.

(** ** Lemmas: requests without a credential *)

Definition exn_status (e : exn) : option Z :=
  match e with HTTPException s _ | DownloadError s _ _ => Some s | _ => None end.

(** The routes that need no credential, and those that take a signed token. *)
Definition is_public (r : Route) : bool :=
  match r with RHealth | RSendRemoved _ _ => true | _ => false end.
Definition takes_token (r : Route) : bool :=
  match r with RUpload _ | RDownload => true | _ => false end.

Section unauthenticated.
Context {S C K : Type} `{StorageReads S, ClaimReads C, KeyReads K, !App K, !AliasReads K, PyJwt}.
Abbreviation W := (World S C K).
Variable tar_open : bool → bytes → list (res TarInfo).
Variable server_version : str.

(** No dev mode, not the setup token, and no key that validates. *)
Record unauthenticated (rq : HttpRequest) (w : W) : Prop := {
  un_mode : cf_dev_mode app_config = false;
  un_setup : rq_x_setup_token rq ≠ Some (cf_setup_token app_config);
  un_key c : rq_credentials rq = Some c → (kp_validate c (w_keys w)).1 = Ok None;
}.

(** No bearer token, or one that does not verify. *)
Definition bad_token (rq : HttpRequest) (w : W) : Prop :=
  ∀ token, extract_bearer_token (rq_authorization rq) = Some token →
    ∃ t, (verify_with_slots app_revocation (now_seconds w) (w_mono w) (w_slots w) token).1
         = Raise (TokenError t).

Lemma bind_raises {St A B} (m : M St A) (k : A → M St B) s e s' :
  m s = (Raise e, s') → bind m k s = (Raise e, s').
Proof. unfold bind. by intros ->. Qed.

Lemma current_identity_fails rq w :
  unauthenticated rq w →
  (get_current_identity rq w).1
    = Raise (HTTPException 401 (DText "Missing or invalid authentication credentials")).
Proof.
  intros [Hm Hs Hk]. unfold get_current_identity. rewrite Hm, decide_False by done. cbv zeta.
  assert (Hi : ∃ w', (match rq_credentials rq with
    | Some credentials => on_keys (kp_validate credentials) | None => ret None end) w = (Ok None, w')).
  { destruct (rq_credentials rq) as [c|]; [|by eexists]. specialize (Hk c eq_refl).
    unfold on_keys, lift. destruct (kp_validate c (w_keys w)) as [r k]. cbn in Hk. subst. by eexists. }
  destruct Hi as [w' Hi]. unfold bind at 1. rewrite Hi.
  assert (He : ∀ s r h w0, hint_ok h = true → ∃ w1, emit_auth_failure (S := S) (C := C) s r h w0 = (Ok tt, w1)).
  { intros s r h w0 Hh. destruct (emit_auth_failure_ok s r h w0 Hh) as [evs ->]. by eexists. }
  unfold bind at 1. destruct (rq_x_setup_token rq) as [x|]; [|destruct (rq_credentials rq) as [c|]].
  - destruct (He "rest" "invalid_setup_token" None w' eq_refl) as [w1 ->]. done.
  - destruct (He "rest" "invalid_key" _ w' (hint_ok_credentials c)) as [w1 ->]. done.
  - destruct (He "rest" "missing_bearer" None w' eq_refl) as [w1 ->]. done.
Qed.

Lemma identity_first rq r (w : W) :
  is_public r = false → takes_token r = false → unauthenticated rq w →
  ∃ w', handler tar_open server_version rq r w
    = (Raise (HTTPException 401 (DText "Missing or invalid authentication credentials")), w')
    ∧ get_current_identity rq w
    = (Raise (HTTPException 401 (DText "Missing or invalid authentication credentials")), w').
Proof.
  intros Hp Ht Hu. pose proof (current_identity_fails rq w Hu) as Hi.
  destruct (get_current_identity rq w) as [x w'] eqn:E. cbn in Hi. subst x. exists w'. split; [|done].
  destruct r; try done; unfold handler; apply bind_raises; by apply bind_raises.
Qed.

Lemma verify_token_fails token t (w : W) :
  (verify_with_slots app_revocation (now_seconds w) (w_mono w) (w_slots w) token).1 = Raise (TokenError t) →
  ∃ w', verify_token token w = (Raise (TokenError t), w').
Proof.
  intros Hv. unfold verify_token, bind at 1, get. destruct (verify_with_slots _ _ _ _ _) as [r sl].
  cbn in Hv. subst. by eexists.
Qed.

(** The start of the two byte routes: the bearer token, then [verify]. *)
Lemma token_first {A} rq (missing : exn) (k : str → M W A) (w : W) :
  bad_token rq w →
  let m := bind (match extract_bearer_token (rq_authorization rq) with
                 | Some t => ret t | None => raise missing end) k in
  m w = (Raise missing, w) ∨
  ∃ token t w', verify_token token w = (Raise (TokenError t), w') ∧ same_data w w' ∧ m w = k token w.
Proof.
  intros Hb m. subst m. unfold bind.
  destruct (extract_bearer_token (rq_authorization rq)) as [token|] eqn:E; [|by left].
  right. destruct (Hb token E) as [t Ht]. destruct (verify_token_fails token t w Ht) as [w' Hw].
  pose proof (frames_verify (S := S) (C := C) token w) as Hf. rewrite Hw in Hf. by exists token, t, w'.
Qed.

Lemma upload_token_first rq p (w : W) :
  bad_token rq w →
  ∃ e w', upload_claims_of rq p w = (Raise e, w') ∧ exn_status e = Some 401%Z ∧ same_data w w'.
Proof.
  intros Hb. unfold upload_claims_of, extract_bearer.
  match goal with |- context [bind _ ?k w] =>
    destruct (token_first rq (reject_unauth "missing_bearer") k w Hb) as [E|(token & t & w' & Hv & Hd & E)]
  end; rewrite E.
  - by exists (reject_unauth "missing_bearer"), w.
  - exists (upload_jwt_error t), w'. split_and!; [|by destruct t|done].
    apply bind_raises. unfold catch. by rewrite Hv.
Qed.

Lemma download_token_first rq (w : W) :
  bad_token rq w →
  ∃ e w', download_claims rq w = (Raise e, w') ∧ exn_status e = Some 401%Z ∧ same_data w w'.
Proof.
  intros Hb. unfold download_claims.
  destruct (token_first rq (unauth "missing_bearer" []) (λ token, catch (verify_token token) (λ e,
    match e with
    | TokenError t => Some (emit_auth_failure "download" (jwt_error_to_reason t) None;;; raise (download_jwt_error t))
    | _ => None
    end)) w Hb) as [E|(token & t & w' & Hv & Hd & E)].
  - rewrite E. by exists (unauth "missing_bearer" []), w.
  - rewrite E. unfold catch. rewrite Hv. unfold bind.
    destruct (emit_auth_failure_ok (S := S) (C := C) "download" (jwt_error_to_reason t) None w' eq_refl) as [evs ->].
    exists (download_jwt_error t), (add_events evs w'). split_and!; [done|by destruct t|].
    etrans; [exact Hd|by split].
Qed.
End unauthenticated.

(** C17: a request without a valid credential, that is an API key or the setup
    token, and a signed token on the two byte routes, is refused with a 401
    on every route but the two public ones, and no bundle, claim or key
    changes. *)
Theorem unauthenticated_requests_are_inert {S C K} `{StorageReads S, ClaimReads C, KeyReads K, !App K,
    !AliasReads K, PyJwt} tar_open version rq r (w : World S C K) :
  is_public r = false →
  (takes_token r = false → unauthenticated rq w) → (takes_token r = true → bad_token rq w) →
  ∃ e, (handler tar_open version rq r w).1 = Raise e ∧ exn_status e = Some 401%Z ∧
    same_data w (handler tar_open version rq r w).2.
Proof.
  intros Hp Hu Hb. destruct (takes_token r) eqn:Et.
  - specialize (Hb eq_refl).
    assert (∃ e w', handler tar_open version rq r w = (Raise e, w') ∧ exn_status e = Some 401%Z ∧ same_data w w')
      as (e & w' & -> & ? & ?); [|by exists e].
    destruct r; try done.
    + destruct (upload_token_first rq bundle_path w Hb) as (e & w' & He & Hs & Hd). exists e, w'.
      split_and!; [|done|done]. by do 2 apply bind_raises.
    + destruct (download_token_first rq w Hb) as (e & w' & He & Hs & Hd). exists e, w'.
      split_and!; [|done|done]. by do 2 apply bind_raises.
  - destruct (identity_first tar_open version rq r w Hp Et (Hu eq_refl)) as (w' & -> & Hi).
    eexists. split_and!; [done|done|]. pose proof (frames_current_identity rq w) as Hf. by rewrite Hi in Hf.
Qed.

#[local] Existing Instances Demo.storage Demo.claims Demo.keys ToyJwt.
#[local] Instance closed_server : App KeyStore := Demo.core false.
Definition no_entries (_ : bool) (_ : bytes) : list (res TarInfo) := [].

Lemma unauthenticated_requests_are_inert_witness :
  let run := handler no_entries "1" (Demo.request "body") (RUploadFile "a.txt") (Demo.world 0) in
  (∃ e, run.1 = Raise e ∧ exn_status e = Some 401%Z ∧ same_data (Demo.world 0) run.2) ∧
  w_store run.2 = fs_init.
Proof.
  intros run.
  assert (H : ∃ e, run.1 = Raise e ∧ exn_status e = Some 401%Z ∧ same_data (Demo.world 0) run.2).
  { apply (unauthenticated_requests_are_inert no_entries "1" (Demo.request "body") (RUploadFile "a.txt") (Demo.world 0)).
    - reflexivity.
    - intros _. by constructor.
    - intros [=]. }
  split; [exact H|]. destruct H as (e & _ & _ & Hd). exact (sd_store _ _ Hd).
Defined.

(** C26: the reading routes change no bundle, claim or key whatever the
    request, and under a policy that denies everything neither does any route
    but the two that a signed token authorises. *)
Theorem reads_and_denials_change_nothing {S C K} `{StorageReads S, ClaimReads C, KeyReads K, !App K,
    !AliasReads K, PyJwt} tar_open version rq r (w : World S C K) :
  reads_only r = true ∨
    policy_guarded r = true ∧ (∀ i resource action, ap_check app_access i resource action = Ok false) →
  same_data w (handler tar_open version rq r w).2.
Proof. intros [Hr|[Hg Hd]]; [by apply reads_only_frames|by apply denied_frames]. Qed.

(** A server in dev mode with a policy that denies everything. *)
Definition deny_all : AccessPolicy :=
  {| ap_kind := "core"; ap_check := λ _ _ _, Ok false; ap_visible_agents := λ _ l, Ok l |}.
Definition denying_server : App KeyStore :=
  let c := Demo.core true in
  {| app_config := app_config; app_access := deny_all; app_alias := app_alias; app_identity := app_identity;
     app_limits := app_limits; app_transport := app_transport; app_metric_fails := app_metric_fails;
     app_uuid := app_uuid; app_mime := app_mime; app_revocation := app_revocation;
     app_rate_allows := app_rate_allows |}.
#[local] Instance denying_reads : @AliasReads KeyStore _ _ denying_server.
Proof. intros name sender. apply (default_alias_reads (K := KeyStore)). Defined.

Lemma reads_and_denials_change_nothing_witness :
  let run := handler (H2 := denying_server) no_entries "1" (Demo.request "body") (RUploadFile "a.txt") (Demo.world 0) in
  same_data (Demo.world 0) run.2 ∧ run.1 = Raise (HTTPException 403 (DText "Forbidden")).
Proof.
  split; [|vm_compute; reflexivity].
  apply (@reads_and_denials_change_nothing Fs ClaimDir KeyStore _ _ _ _ _ _ denying_server _ _
    no_entries "1" (Demo.request "body") (RUploadFile "a.txt") (Demo.world 0)).
  right. split; [reflexivity|intros; reflexivity].
Defined.
