(* ===== verification/CliFlow.v ===== *)
(** * The command line against the server

    [Cli] and [Server] put together: the network of the commands is the
    modelled server behind HTTP.  A request of the client becomes an
    [HttpRequest] and a [Route], the reply goes back in one piece.  What the
    web framework adds (the validation of a JSON body, the rendering of
    responses and errors) is the record [Framework] with the laws
    [FrameworkLaws]. *)

From Stdlib Require Import Ascii String.
From stdpp Require Import pretty.
From S2P Require Import Prelude PyStr PyCodec Json DateTime Effects PyNum Paths Limits Config.
From S2P Require Import Claims KeyStore Jwt FsModel Storage World Frame Cli CliLaws Backends Bundles Downloads Inbox Files RoundTrips.
From S2P Require Import SendInit Upload Download TwoPhase SendFlow Gc Agents Server.
Local Open Scope string_scope.
Local Open Scope list_scope.
Local Open Scope effect_scope.

(** ** HTTP between the two *)

(** The body a client sends: the chunks before a failure, and the failure. *)
Fixpoint sent (pieces : list (res bytes)) : list bytes * option exn :=
  match pieces with
  | [] => ([], None)
  | Ok b :: rest => let '(l, e) := sent rest in (b :: l, e)
  | Raise e :: _ => ([], Some e)
  end.

(** FastAPI: [UploadSessionRequest] of a JSON body, the credentials of an
    [Authorization] header, a JSON response as bytes, and the replies to a
    request that no route takes, to an exception no handler takes and to an
    [HTTPException]. *)
Record Framework := {
  fw_session_request : json → option (str * str * SendManifest);
  fw_credentials : str → option str;
  fw_render : json → bytes;
  fw_invalid : HttpReply;
  fw_internal_error : HttpReply;
  fw_http_exception : Z → detail → Response;
}.

(** A body with the fields of the model in their types is that model, and what
    is rendered reads back. *)
Definition session_body (to path : str) (files : list (str * Z)) : json :=
  JDict [("to", JStr to); ("path", JStr path);
    ("manifest", JDict [("file_count", JInt (Z.of_nat (length files)));
       ("files", JList (map (λ f : str * Z, JDict [("name", JStr f.1); ("size", JInt f.2)]) files))])].
Definition session_manifest (files : list (str * Z)) : SendManifest :=
  {| sm_files := map (λ f : str * Z, {| sf_name := f.1; sf_size := f.2; sf_mime := None |}) files;
     sm_file_count := Some (Z.of_nat (length files)) |}.
Record FrameworkLaws (fw : Framework) : Prop := {
  fl_session to path files :
    fw_session_request fw (session_body to path files) = Some (to, path, session_manifest files);
  fl_render j : json_wf j = true → loads_body (fw_render fw j) = Ok j;
}.

Definition header (name : str) (c : HttpCall) : option str :=
  snd <$> find_first (λ h, bool_decide (h.1 = name)) (hc_headers c).

Section network.
Context {S C K : Type} `{StorageBackend S} `{ClaimStorage C} `{KeyStoreProtocol K} `{App K} `{PyJwt}.
Abbreviation W := (World S C K).
Variable fw : Framework.
Variable tar_open : bool → bytes → list (res TarInfo).
Variable server_version : str.

Definition request_of (c : HttpCall) : HttpRequest :=
  let '(chunks, failure) := match hc_body c with StreamBody pieces => sent pieces | _ => ([], None) end in {|
  rq_x_setup_token := None;
  rq_credentials := header "Authorization" c ≫= fw_credentials fw;
  rq_authorization := default "" (header "Authorization" c);
  rq_x_sender := header "X-Sender" c;
  rq_raw_path := url_path (hc_url c);
  rq_content_type := default "" (header "Content-Type" c);
  rq_content_encoding := default "" (header "Content-Encoding" c);
  rq_body := chunks;
  rq_body_error := (λ _, OtherError "ClientDisconnect") <$> failure;
  rq_form := [];
  rq_client := "client" |}.

(** The routes the commands use; the framework decodes the path. *)
Definition route_of (c : HttpCall) : option Route :=
  let path := url_path (hc_url c) in
  if bool_decide (hc_method c = "POST" ∧ path = "/uploads") then
    match hc_body c with
    | JsonBody j =>
        match fw_session_request fw j with
        | Some (to, p, manifest) => Some (RUploads to p manifest)
        | None => None
        end
    | _ => None
    end
  else if bool_decide (hc_method c = "POST") && startswith "/upload/" path then
    Some (RUpload (unquote (str_drop 8 path)))
  else if bool_decide (hc_method c = "GET") && startswith "/download/" path then Some RDownload
  else if bool_decide (hc_method c = "GET" ∧ path = "/capabilities") then Some RCapabilities
  else None.

Definition reply_of (r : Reply) : HttpReply :=
  match r with
  | ReplyJson r => {| hr_status := rsp_status r; hr_pieces := [Ok (fw_render fw (rsp_body r))] |}
  | ReplyStream f => {| hr_status := 200; hr_pieces := [Ok (fs_bytes f)] |}
  end.

(** A request: a body that fails breaks the request off at both ends. *)
Definition network (c : HttpCall) : M W HttpReply :=
  reply <- match route_of c with
    | None => ret (fw_invalid fw)
    | Some r =>
        catch
          (reply <- serve tar_open server_version (fw_http_exception fw) (hc_method c) (url_path (hc_url c))
             (request_of c) r;;
           ret (reply_of reply))
          (λ _, Some (ret (fw_internal_error fw)))
    end;;
  match hc_body c with
  | StreamBody pieces => match (sent pieces).2 with Some e => raise e | None => ret reply end
  | _ => ret reply
  end.
End network.

(** ** Lemmas: URLs *)

(** A URL without a path of its own. *)
Definition host_char (a : ascii) : bool :=
  negb (byte_in 9 10 a || byte_in 13 13 a) && negb (bool_decide (a ∈ ["/"; "?"; "#"]%char)).
Definition origin (url : str) : Prop :=
  ∃ scheme host, url = scheme +:+ "://" +:+ host ∧ is_scheme scheme = true ∧ str_forall host_char host = true.

Lemma drop_unsafe_id s : str_forall (λ a, negb (byte_in 9 10 a || byte_in 13 13 a)) s = true → drop_unsafe s = s.
Proof.
  induction s as [|a s IH]; [done|]. cbn [str_forall drop_unsafe]. intros [Ha Hs]%andb_true_iff.
  apply negb_true_iff in Ha. rewrite Ha. by rewrite IH.
Qed.

Lemma split1_app c s t : has_char c s = false → split1 c (s +:+ String c t) = Some (s, t).
Proof.
  induction s as [|a s IH]; intros Hs.
  - change ("" +:+ String c t) with (String c t). cbn [split1]. by destruct (decide (c = c)).
  - change (String a s +:+ String c t) with (String a (s +:+ String c t)). cbn [split1]. cbn in Hs.
    destruct (decide (a = c)); [done|]. by rewrite IH.
Qed.

Lemma split1_None c s : has_char c s = false → split1 c s = None.
Proof. induction s as [|a s IH]; [done|]. cbn. case_decide; [done|]. intros Hs. by rewrite IH. Qed.
Lemma before_id c s : has_char c s = false → before c s = s.
Proof. intros Hs. unfold before. by rewrite split1_None. Qed.

Lemma take_netloc_app host rest :
  str_forall host_char host = true → startswith "/" rest = true → take_netloc (host +:+ rest) = host.
Proof.
  intros Hh Hr. induction host as [|a host IH].
  - apply startswith_spec in Hr as [t ->]. done.
  - change (String a host +:+ rest) with (String a (host +:+ rest)). cbn [str_forall] in Hh.
    apply andb_true_iff in Hh as [Ha Hh]. cbn [take_netloc]. rewrite decide_False, IH; [done|done|].
    unfold host_char in Ha. bool_to_prop. set_solver.
Qed.

(** The characters of the paths the server builds. *)
Definition path_char (a : ascii) : bool := unreserved a || bool_decide (a = "/"%char) || bool_decide (a = percent).
Lemma path_no_char c s : path_char c = false → str_forall path_char s = true → has_char c s = false.
Proof. intros Hc Hs. by eapply str_forall_has_char. Qed.
Lemma quote_path s : str_forall path_char (quote s) = true.
Proof.
  apply quote_forall.
  - intros a Ha. unfold path_char. by rewrite Ha.
  - reflexivity.
Qed.

Lemma rsplit1_Some c s x y : rsplit1 c s = Some (x, y) → s = x +:+ String c y.
Proof.
  revert x. induction s as [|a s IH]; intros x; [done|]. cbn [rsplit1].
  destruct (rsplit1 c s) as [[x' y']|].
  - intros [= <- <-]. by rewrite (IH x').
  - destruct (decide (a = c)); [|done]. by intros [= <- <-]; subst.
Qed.

Lemma is_scheme_chars s : is_scheme s = true → str_forall scheme_char s = true.
Proof.
  destruct s as [|a s]; [done|]. cbn [is_scheme str_forall]. intros [Ha Hs]%andb_true_iff.
  apply andb_true_iff. split; [|done]. unfold scheme_char, scheme_start in *.
  by apply orb_true_iff in Ha as [-> | ->]; rewrite ?orb_true_r.
Qed.

(** A fact of every character, by trying all of them. *)
Lemma ascii_impl (p q : ascii → bool) :
  forallb (λ n, implb (p (ascii_of_nat n)) (q (ascii_of_nat n))) (seq 0 256) = true →
  ∀ a, p a = true → q a = true.
Proof.
  intros Hall a Ha. rewrite forallb_forall in Hall. specialize (Hall (nat_of_ascii a)).
  rewrite ascii_nat_embedding, Ha in Hall. apply Hall, in_seq. pose proof (nat_ascii_bounded a). lia.
Qed.

(** The part of [url_path] after the host, on a path the server builds. *)
Lemma path_tail rest :
  str_forall path_char rest = true →
  match rsplit1 "/" (before "?" (before "#" rest)) with
  | Some (dir, leaf) => dir +:+ "/" +:+ before ";" leaf
  | None => before ";" (before "?" (before "#" rest))
  end = rest.
Proof.
  intros Hrest.
  rewrite (before_id "#") by (by apply path_no_char). rewrite (before_id "?") by (by apply path_no_char).
  destruct (rsplit1 "/" rest) as [[dir leaf]|] eqn:E; [|by apply before_id, path_no_char].
  apply rsplit1_Some in E as E'. rewrite before_id; [by rewrite E'|].
  rewrite E', str_forall_app in Hrest. apply andb_true_iff in Hrest as [_ Hl]. cbn in Hl.
  apply andb_true_iff in Hl as [_ Hl]. by apply path_no_char.
Qed.

(** [urlparse(url).path] of a URL the server hands out. *)
Lemma url_path_origin base rest :
  origin base → startswith "/" rest = true → str_forall path_char rest = true → url_path (base +:+ rest) = rest.
Proof.
  intros (scheme & host & -> & Hs & Hh) Hstart Hrest. rewrite <- !app_str_assoc. unfold url_path.
  pose proof (is_scheme_chars _ Hs) as Hscheme.
  rewrite drop_unsafe_id.
  2: { rewrite !str_forall_app. apply andb_true_iff. split; [|apply andb_true_iff; split; [done|apply andb_true_iff; split]].
       - eapply str_forall_mono; [|exact Hscheme]. apply ascii_impl. by vm_compute.
       - eapply str_forall_mono; [|exact Hh]. intros a Ha. unfold host_char in Ha. by apply andb_true_iff in Ha as [-> _].
       - eapply str_forall_mono; [|exact Hrest]. apply ascii_impl. by vm_compute. }
  change ("://" +:+ host +:+ rest) with (String ":" ("//" +:+ host +:+ rest)).
  rewrite split1_app by (eapply str_forall_has_char; [exact Hscheme|reflexivity]). rewrite Hs.
  rewrite startswith_app.
  assert (Ed : str_drop 2 ("//" +:+ host +:+ rest) = host +:+ rest) by apply (str_drop_app "//").
  rewrite Ed, take_netloc_app by done.
  assert (Er : str_drop (2 + String.length host) ("//" +:+ host +:+ rest) = rest).
  { rewrite app_str_assoc. change (2 + String.length host)%nat with (String.length ("//" +:+ host)). apply str_drop_app. }
  rewrite Er. by apply path_tail.
Qed.

Lemma path_unsafe rest : str_forall path_char rest = true → drop_unsafe rest = rest.
Proof. intros Hrest. apply drop_unsafe_id. eapply str_forall_mono; [|exact Hrest]. apply ascii_impl. by vm_compute. Qed.

(** A path alone. *)
Lemma url_path_path rest :
  str_forall path_char rest = true → startswith "//" rest = false → url_path rest = rest.
Proof.
  intros Hrest Hs. unfold url_path. rewrite path_unsafe by done.
  rewrite split1_None by by apply path_no_char. rewrite Hs. by apply path_tail.
Qed.

(** ** Lemmas: archives *)

Definition stripped (name : str) (data : bytes) : MemberInfo :=
  {| mi_name := name; mi_size := blen data; mi_isreg := true; mi_uid := 0; mi_gid := 0; mi_uname := "";
     mi_gname := ""; mi_mode := 420 |}.

(** What the writer makes of these files. *)
Fixpoint archive_from (tar_writer : TarWriter) (tw : tw_state tar_writer) (V : list (str * bytes)) : bytes :=
  match V with
  | [] => tw_close tar_writer tw
  | (name, data) :: V =>
      let '(tw, chunk) := tw_add tar_writer tw (stripped name data) data in
      chunk +:+ archive_from tar_writer tw V
  end.
Definition archive_bytes (tar_writer : TarWriter) (compress : bool) (V : list (str * bytes)) : bytes :=
  archive_from tar_writer (tw_open tar_writer compress) V.

(** The local files [V]. *)
Definition local_files (fs : Fs) (cwd : path) (V : list (str * bytes)) : Prop :=
  Forall (λ v, node_at fs (local cwd v.1) = Some (NFile v.2)) V.

(** The pieces are sent without a failure and are together [data]. *)
Definition sends (pieces : list (res bytes)) (data : bytes) : Prop :=
  (sent pieces).2 = None ∧ join_str "" (sent pieces).1 = data.

Lemma join_str_cons b l : join_str "" (b :: l) = b +:+ join_str "" l.
Proof. destruct l; [by rewrite app_empty_r|done]. Qed.

Lemma sends_cons b pieces data : sends pieces data → sends (Ok b :: pieces) (b +:+ data).
Proof.
  intros [Hf Hd]. unfold sends. cbn [sent]. destruct (sent pieces) as [l e]. cbn [fst snd] in *.
  split; [done|]. rewrite join_str_cons. by rewrite Hd.
Qed.

Section archive.
Variables (tar_writer : TarWriter) (owner : path → Z * Z * str * str * Z) (cwd : path) (fs : Fs).

Lemma tar_members_sends tw V :
  local_files fs cwd V → sends (tar_members tar_writer owner cwd fs tw V.*1) (archive_from tar_writer tw V).
Proof.
  intros HV. revert tw. induction HV as [|[name data] V Hn HV IH]; intros tw; cbn [tar_members archive_from fmap list_fmap fst].
  { destruct (tw_close tar_writer tw) as [|a s]; [done|]. by split. }
  cbn [fst snd] in Hn. rewrite Hn. destruct (owner (local cwd name)) as [[[[uid gid] uname] gname] mode].
  unfold strip_owner. cbn [mi_isreg mi_name mi_size]. fold (stripped name data).
  destruct (tw_add tar_writer tw (stripped name data) data) as [tw' chunk].
  destruct chunk as [|a chunk]; [apply IH|]. apply (sends_cons (String a chunk)), IH.
Qed.

Lemma tar_chunks_sends V compress :
  local_files fs cwd V → sends (tar_chunks tar_writer owner cwd fs V.*1 compress) (archive_bytes tar_writer compress V).
Proof. apply tar_members_sends. Qed.
End archive.

(** ** Lemmas: a request through the middleware *)

Section served.
Context {S C K : Type} `{StorageReads S, !BundleLaws S, ClaimReads C, KeyReads K, !App K, !AliasReads K, PyJwt}.
Abbreviation W := (World S C K).
Implicit Types (w : W).
Variable tar_open : bool → bytes → list (res TarInfo).
Variable server_version : str.
Variable http_exception_handler : Z → detail → Response.

Lemma request_metrics_ok method path status w : ∃ evs, request_metrics method path status w = (Ok tt, add_events evs w).
Proof.
  unfold request_metrics. cbv zeta. unfold bind at 1. destruct (safe_emit_ok None
    (Some (Increment "cassetta.requests.total" 1 [("method", method); ("path", path)])) w) as [e1 ->].
  unfold bind at 1. destruct (attempt_emits (emit_metric (Observe "cassetta.request.duration_seconds")) (ret tt)
    (add_events e1 w)) as [e2 ->].
  { apply emit_metric_cases. } { intros w'. exists (Ok tt), []. by rewrite add_events_nil. }
  case_match.
  - match goal with |- context [safe_emit None ?m ?w'] => destruct (safe_emit_ok None m w') as [e3 ->] end.
    eexists. by rewrite !add_events_app.
  - eexists. by rewrite add_events_app.
Qed.

(** The state a handler starts from: the middleware has drawn the request
    identifier. *)
Definition next_request w : W := set_uuids (Datatypes.S (w_uuids w)) w.

Lemma serve_run method path rq r reply w w' :
  handler tar_open server_version rq r (next_request w) = (Ok reply, w') →
  ∃ evs, serve tar_open server_version http_exception_handler method path rq r w = (Ok reply, add_events evs w').
Proof.
  intros Hh. unfold serve, RequestIdMiddleware, app, catch, new_uuid, bind, get, modify, ret, of_res.
  fold (next_request w). rewrite Hh. destruct (request_metrics_ok method path (reply_status reply) w') as [evs ->].
  by exists evs.
Qed.
End served.

(** ** Lemmas: a send *)

Lemma str_app_inj_r (s t u : str) : s +:+ u = t +:+ u → s = t.
Proof.
  revert t. induction s as [|a s IH]; intros t E.
  - destruct t as [|b t]; [done|]. apply (f_equal String.length) in E. rewrite !string_length_app in E. cbn in E. lia.
  - destruct t as [|b t].
    + apply (f_equal String.length) in E. rewrite !string_length_app in E. cbn in E. lia.
    + change (String a (s +:+ u) = String b (t +:+ u)) in E. injection E as -> E. by rewrite (IH t).
Qed.

Lemma inbox_path_inj a b path : inbox_path a path = inbox_path b path → a = b.
Proof. unfold inbox_path. intros E. rewrite !app_str_assoc in E.
  do 2 apply str_app_inj_r in E. by apply (inj (String.append (INBOX_NAMESPACE +:+ "/"))) in E. Qed.

Lemma quote_inj p q : quote p = quote q → p = q.
Proof. intros E. by rewrite <- (unquote_quote p), E, unquote_quote. Qed.

Lemma upload_url_inj base p q :
  Some (JStr (base +:+ "/upload/" +:+ quote p)) = Some (JStr (base +:+ "/upload/" +:+ quote q)) → p = q.
Proof. intros [= E]. do 2 apply (inj (String.append _)) in E. by apply quote_inj. Qed.

(** The entries a client declares. *)
Definition sizes (V : list (str * bytes)) : list (str * Z) := map (λ v : str * bytes, (v.1, blen v.2)) V.

Lemma session_declared V : matches (session_manifest (sizes V)) V.
Proof.
  unfold matches, declared, session_manifest, sizes. cbn [sm_files]. rewrite !map_map. apply reflexive_eq.
  by apply map_ext.
Qed.
Lemma session_names V : map sf_name (sm_files (session_manifest (sizes V))) = V.*1.
Proof. unfold session_manifest, sizes. cbn [sm_files]. rewrite !map_map. by apply map_ext. Qed.

Lemma declared_names_of manifest : (declared manifest).*1 = map sf_name (sm_files manifest).
Proof. unfold declared. induction (sm_files manifest); [done|]. cbn. by f_equal. Qed.

Lemma session_text V : Forall (λ v, utf8_valid v.1 = true) V → manifest_text (session_manifest (sizes V)).
Proof.
  intros HV. unfold manifest_text, session_manifest, sizes. cbn [sm_files].
  induction HV as [|v V Hv HV IH]; cbn [map]; constructor; [|done]. by split.
Qed.

(** A reply that opens a session for [p], with the credential [token]. *)
Record session_reply {K} `{App K} (rsp : Response) (p token : str) : Prop := {
  sy_status : is_success (rsp_status rsp) = true;
  sy_text : json_wf (rsp_body rsp) = true;
  sy_body : ∃ d bid, rsp_body rsp = JDict d ∧ dict_get "batch_token" d = Some (JStr token) ∧
    dict_get "bundle_id" d = Some (JStr bid) ∧
    dict_get "upload_url" d = Some (JStr (rstrip "/" (cf_public_base_url app_config) +:+ "/upload/" +:+ quote p));
  sy_strip : strip token = token;
}.

Section flow.
Context {S C K : Type} `{StorageReads S, !BundleLaws S, ClaimReads C, KeyReads K, !App K, !AliasReads K, PyJwtLaws}.
Abbreviation W := (World S C K).
Implicit Types (w : W).
Variable fw : Framework.
Variable tar_open : bool → bytes → list (res TarInfo).
Variable server_version : str.
Hypothesis Hfw : FrameworkLaws fw.

(** The two requests of a send. *)
Definition session_call (base key to path : str) (V : list (str * bytes)) : HttpCall :=
  {| hc_method := "POST"; hc_base := base; hc_url := "/uploads"; hc_headers := [bearer key];
     hc_body := JsonBody (session_body to path (sizes V)) |}.
Definition upload_call (base p token : str) (pieces : list (res bytes)) : HttpCall :=
  {| hc_method := "POST"; hc_base := base; hc_url := "/upload/" +:+ quote p;
     hc_headers := tar_headers token true; hc_body := StreamBody pieces |}.

Lemma session_route base key to path V :
  route_of fw (session_call base key to path V) = Some (RUploads to path (session_manifest (sizes V))).
Proof.
  unfold route_of, session_call. cbn [hc_method hc_url hc_body]. change (url_path "/uploads") with "/uploads".
  rewrite bool_decide_true by done. by rewrite (fl_session fw Hfw).
Qed.

Lemma network_session base key to path V rsp w w1 :
  create_upload_session (request_of fw (session_call base key to path V)) to path (session_manifest (sizes V))
    (next_request w) = (Ok rsp, w1) →
  ∃ evs, network fw tar_open server_version (session_call base key to path V) w
    = (Ok {| hr_status := rsp_status rsp; hr_pieces := [Ok (fw_render fw (rsp_body rsp))] |}, add_events evs w1).
Proof.
  intros E. unfold network. rewrite session_route.
  destruct (serve_run tar_open server_version (fw_http_exception fw) "POST" (url_path "/uploads")
    (request_of fw (session_call base key to path V)) (RUploads to path (session_manifest (sizes V)))
    (ReplyJson rsp) w w1) as [evs Es].
  { cbn [handler route_handler]. unfold bind. by rewrite E. }
  exists evs. unfold bind at 1, catch, bind at 1. cbn [hc_method hc_url session_call] in Es |- *. by rewrite Es.
Qed.

(** The path of an upload is decoded once by the framework. *)
Lemma upload_path p : url_path ("/upload/" +:+ quote p) = "/upload/" +:+ quote p.
Proof.
  apply url_path_path; [|done]. rewrite str_forall_app. by rewrite quote_path.
Qed.

Lemma upload_route base p token pieces :
  route_of fw (upload_call base p token pieces) = Some (RUpload p).
Proof.
  unfold route_of, upload_call. cbn [hc_method hc_url hc_body]. rewrite upload_path.
  rewrite bool_decide_false by (intros [_ E]; discriminate E). rewrite bool_decide_true, startswith_app by done.
  cbn [andb]. change 8%nat with (String.length "/upload/"). by rewrite str_drop_app, unquote_quote.
Qed.

Lemma sender_own identity : sender_or_label (Some (id_label identity)) identity = id_label identity.
Proof. unfold sender_or_label. by case_decide. Qed.

(** What a granted session says. *)
Lemma session_inv rq to path manifest identity recipient token rsp w w1 :
  mime_text → uuid_text → manifest_text manifest → (get_current_identity rq w).1 = Ok identity →
  create_upload_session rq to path manifest w = (Ok rsp, w1) → session_reply rsp (inbox_path recipient path) token →
  same_data w w1 ∧ ∃ bid fresh count files, enriched_of manifest files ∧ utf8_valid bid = true ∧ utf8_valid fresh = true ∧
    (∀ d, rsp_body rsp = JDict d → dict_get "bundle_id" d = Some (JStr bid)) ∧
    token = sign fresh (credential SendBatch recipient path bid (id_label identity) count files (now_seconds w)
      (upload_ttl identity)) (cf_jwt_primary_key app_config).
Proof.
  intros Hmt Hu Ht Hid E Hrep. revert E. unfold create_upload_session, bind at 1.
  pose proof (wp_identity rq identity (λ i w', i = identity ∧ same_data w w') (λ _ _, False) w Hid) as Hi.
  unfold wp in Hi. destruct (get_current_identity rq w) as [[i|e] w']; [|done]. destruct Hi as [-> Hd]; [by intros|].
  unfold bind, catch. pose proof (wp_prepare to path manifest identity (Some (id_label identity)) false w' Hmt Hu Ht) as Hp.
  unfold wp in Hp. destruct (prepare_send_init _ _ _ _ _ _ _ w') as [[r|e] w2].
  2: { destruct e; try done. by destruct c. }
  destruct Hp as (Hd2 & Hmode & recipient' & bid & fresh & count & files & _ & He & Hb & Hf & Ebid & Eurl & Etok).
  specialize (Hmode eq_refl). rewrite Hmode in Etok. rewrite (Eurl Hmode). intros [= <- <-]. destruct Hrep as [_ _ (d & bid' & Ed & Edt & _ & Eup) _].
  cbn [rsp_body json_response] in Ed. injection Ed as <-.
  change (Some (JStr (sr_token r)) = Some (JStr token)) in Edt. injection Edt as <-.
  apply (upload_url_inj _ (inbox_path recipient' path)), inbox_path_inj in Eup as ->.
  split; [by etrans|]. exists bid, fresh, count, files. split_and!; [done..| |].
  - intros d [= <-]. cbn. by rewrite Ebid.
  - rewrite Etok, sender_own. unfold now_seconds. by rewrite (sd_now _ _ Hd).
Qed.

Lemma bearer_token token : extract_bearer_token ("Bearer " +:+ token) = Some (strip token).
Proof.
  unfold extract_bearer_token. change (startswith "bearer " (lower ("Bearer " +:+ token))) with true.
  by change ("Bearer " +:+ token) with ("Bearer" +:+ String " " token); rewrite split1_app.
Qed.

Lemma upload_request base p token pieces data :
  sends pieces data →
  let rq := request_of fw (upload_call base p token pieces) in
  rq_body_error rq = None ∧ body_of rq = data ∧ rq_authorization rq = "Bearer " +:+ token ∧
  rq_content_encoding rq = "gzip".
Proof.
  intros [Hf Hd]. unfold body_of, request_of, upload_call. cbn [hc_body]. destruct (sent pieces) as [l e].
  cbn [fst snd] in Hf, Hd. by subst.
Qed.

(** The second phase, with the session's credential. *)
Lemma network_upload base recipient path bid identity fresh count files V pieces data w w0 :
  let p := inbox_path recipient path in
  let token := sign fresh (credential SendBatch recipient path bid (id_label identity) count files (now_seconds w0)
    (upload_ttl identity)) (cf_jwt_primary_key app_config) in
  V ≠ [] → enriched_of (session_manifest (sizes V)) files → Forall (λ v, utf8_valid v.1 = true) V →
  names_ok V.*1 → Forall (λ v, blen v.2 <= effective_per_file_max)%Z V →
  utf8_valid bid = true → utf8_valid fresh = true → utf8_valid (id_label identity) = true →
  utf8_valid recipient = true → utf8_valid p = true → has_char percent p = false →
  (∀ jti, app_revocation jti = Ok tt) → (0 < upload_ttl identity)%Z → now_seconds w = now_seconds w0 →
  primary (w_slots w) = cf_jwt_primary_key app_config → strip token = token →
  key_ok p → bl_inv (w_store w) → bl_free (w_store w) p →
  sends pieces data → tar_open true data = archive_of V →
  ∃ w' meta, network fw tar_open server_version (upload_call base p token pieces) w
    = (Ok {| hr_status := 201; hr_pieces := [Ok (fw_render fw (JDict [("bundle_id", JStr bid); ("ok", JBool true)]))] |}, w') ∧
    stored (w_store w') p meta V ∧ same_reads_outside p (w_store w) (w_store w') ∧
    dict_get "sender" meta = Some (JStr (id_label identity)) ∧ dict_get "bundle_id" meta = Some (JStr bid).
Proof.
  intros p token HV He Htext Hnames Hcap Hb Hf Hl Hr Hp Hpct Hrev Httl Hnow Hslot Hstrip Hkey Hinv Hfree [Hsent Hjoin] Htar.
  destruct (upload_request base p token pieces data (conj Hsent Hjoin)) as (Hbody & Hdata & Hauth & Henc).
  set (rq := request_of fw (upload_call base p token pieces)) in *.
  assert (Hmt : manifest_text (session_manifest (sizes V))) by by apply session_text.
  pose proof (manifest_records_wf _ _ Hmt He) as Hrw.
  assert (Hbear : extract_bearer_token (rq_authorization rq) = Some token).
  { by rewrite Hauth, bearer_token, Hstrip. }
  destruct (upload_claims_accepted SendBatch recipient path bid (id_label identity) fresh count files (now_seconds w0)
    (upload_ttl identity) Hrw (conj Hb (conj Hf (conj Hl (conj Hr Hp)))) rq p (next_request w)
    (cf_jwt_primary_key app_config)) as (w2 & Ecl & Es & Ew).
  { done. } { unfold next_request, now_seconds in *. cbn. lia. } { left. by rewrite <- Hslot. } { exact Hbear. }
  { by apply unquote_id. } { done. }
  destruct (payload_claims SendBatch recipient path bid (id_label identity) fresh count files (now_seconds w0) (upload_ttl identity)
    Hrw (conj Hb (conj Hf (conj Hl (conj Hr Hp))))) as (_ & Hid & Hsd & _ & _ & Hfiles).
  assert (Hne : sm_files (session_manifest (sizes V)) ≠ []) by by destruct V.
  assert (Hnf : names_ok (map mf_name files)).
  { rewrite (enriched_names _ _ He), declared_names_of. by rewrite session_names. }
  rewrite <- Hdata in Htar.
  pose proof (wp_upload_accepts tar_open rq p _ _ (session_manifest (sizes V)) files V bid _ (next_request w) w2 Ecl Es Ew
    Hfiles Hid Hsd Hb Hl Hrw Hne He (session_declared V) Hnf Hcap Hbody) as Hw.
  rewrite Henc in Hw. specialize (Hw Htar Hinv Hkey Hfree).
  unfold wp in Hw. destruct (upload_bundle tar_open rq p (next_request w)) as [[rsp|e] w3] eqn:E; [|done].
  destruct Hw as (-> & Hout & Hst).
  destruct (serve_run tar_open server_version (fw_http_exception fw) "POST" ("/upload/" +:+ quote p) rq (RUpload p)
    (ReplyJson (json_response 201 (JDict [("bundle_id", JStr bid); ("ok", JBool true)]) [])) w w3) as [evs Es3].
  { cbn [handler route_handler]. unfold bind. by rewrite E. }
  exists (add_events evs w3). eexists. split_and!; [|exact Hst|exact Hout|done|done].
  unfold network. rewrite upload_route. unfold bind at 1, catch, bind at 1. fold rq.
  cbn [hc_method hc_url hc_body upload_call]. rewrite upload_path, Es3. cbn [ret]. by rewrite Hsent.
Qed.
End flow.

(** *** The command *)

Section command.
Context {N : Type} `{PyJwt}.
Implicit Types (t : Terminal N).
Variable send_request : HttpCall → M N HttpReply.
Variable tar_writer : TarWriter.
Variable owner : path → Z * Z * str * str * Z.
Variable dir_size : Z.
Variable decode_replace : bytes → str.
Variable environ : gmap str str.
Variable cwd : path.

Lemma entries_run V t :
  local_files (tm_fs t) cwd V →
  map_m (manifest_entry dir_size cwd) V.*1 t
  = (Ok (map (λ f : str * Z, JDict [("name", JStr f.1); ("size", JInt f.2)]) (sizes V)), t).
Proof.
  induction 1 as [|[name data] V Hn HV IH]; [done|]. cbn [fst snd] in Hn.
  change ((((name, data) :: V).*1)) with (name :: V.*1). cbn [map_m].
  erewrite bind_Ok. 2: { unfold manifest_entry. erewrite bind_Ok; [done|]. unfold getsize, bind, get. by rewrite Hn. }
  erewrite bind_Ok by exact IH. done.
Qed.

Lemma exchange_run method base url headers body reply content n' t :
  send_request {| hc_method := method; hc_base := base; hc_url := url; hc_headers := headers; hc_body := body |} (tm_net t)
    = (Ok reply, n') → gather (hr_pieces reply) = Ok content →
  exchange send_request method base url headers body t = (Ok (hr_status reply, content), set_net n' t).
Proof.
  intros Hs Hg. unfold exchange. erewrite bind_Ok by (unfold request; apply on_net_run; exact Hs).
  erewrite bind_Ok by (unfold of_res; by rewrite Hg). done.
Qed.

(** A send whose two requests are answered. *)
Lemma send_run files to path url api_key V d1 p token bid d2 r1 c1 n1 r2 c2 n2 t :
  let base := option_or_env environ url "CASSETTA_URL" in
  let key := option_or_env environ api_key "CASSETTA_API_KEY" in
  is_configured environ url api_key = true → map_res normalise_arg files = Ok V.*1 →
  local_files (tm_fs t) cwd V →
  send_request (session_call base key to path V) (tm_net t) = (Ok r1, n1) →
  is_success (hr_status r1) = true → gather (hr_pieces r1) = Ok c1 → loads_body c1 = Ok (JDict d1) →
  (∃ u, dict_get "upload_url" d1 = Some (JStr u) ∧ url_path u = "/upload/" +:+ quote p) →
  dict_get "batch_token" d1 = Some (JStr token) → dict_get "bundle_id" d1 = Some (JStr bid) →
  send_request (upload_call base p token (tar_chunks tar_writer owner cwd (tm_fs t) V.*1 true)) n1 = (Ok r2, n2) →
  is_success (hr_status r2) = true → gather (hr_pieces r2) = Ok c2 → loads_body c2 = Ok (JDict d2) →
  dict_get "bundle_id" d2 = Some (JStr bid) →
  send send_request tar_writer owner dir_size decode_replace environ cwd files to path url api_key t
  = (Ok tt, mkTerminal (tm_fs t) (tm_out t ++ ["bundle_id=" +:+ bid]) (tm_err t) n2).
Proof.
  intros base key Hcfg Hn Hloc E1 S1 G1 L1 (u & Hu & Hup) Ht Hb E2 S2 G2 L2 Hb2. unfold send. cbv zeta.
  fold base key. rewrite bool_decide_false.
  2: { unfold is_configured in Hcfg. apply andb_true_iff in Hcfg as [A B]. bool_to_prop. tauto. }
  erewrite bind_Ok by (unfold of_res; by rewrite Hn).
  assert (E : send_async send_request tar_writer owner dir_size decode_replace cwd base to path V.*1 key true t
    = (Ok bid, set_net n2 (set_net n1 t))).
  { unfold send_async. erewrite bind_Ok by by apply entries_run. cbv zeta.
    replace (length V.*1) with (length (sizes V)) by (unfold sizes; by rewrite length_map, length_fmap).
    erewrite bind_Ok by (apply exchange_run; [exact E1|exact G1]).
    unfold raise_for_send at 1. rewrite S1. erewrite bind_Ok by done.
    erewrite bind_Ok by (unfold of_res; by rewrite L1). unfold dict_item. rewrite Hu, Ht, Hb.
    do 3 (erewrite bind_Ok by done). erewrite bind_Ok by done. erewrite bind_Ok by done. rewrite Hup. cbn [py_str].
    erewrite bind_Ok by (apply exchange_run; [exact E2|exact G2]).
    unfold raise_for_send. rewrite S2. erewrite bind_Ok by done.
    erewrite bind_Ok by (unfold of_res; by rewrite L2). by rewrite Hb2. }
  erewrite bind_Ok by (unfold catch; by rewrite E). done.
Qed.
End command.

(** ** Properties *)


(** *** The demo server behind HTTP *)

#[local] Existing Instances Demo.storage Demo.claims Demo.keys ToyJwt demo_bundle_laws.
#[local] Instance open_server : App KeyStore := Demo.core true.

Module Wire.
Definition entry (j : json) : option (str * Z) :=
  match j with JDict [(_, JStr name); (_, JInt size)] => Some (name, size) | _ => None end.
Definition session_request (j : json) : option (str * str * SendManifest) :=
  match j with
  | JDict [(_, JStr to); (_, JStr path); (_, JDict [_; (_, JList files)])] =>
      match mapM entry files with
      | Some files => Some (to, path, session_manifest files)
      | None => None
      end
  | _ => None
  end.
Definition response (status : Z) (_ : detail) : Response := json_response status JNull [].
Definition framework : Framework := {|
  fw_session_request := session_request;
  fw_credentials := λ h, if startswith "Bearer " h then Some (str_drop 7 h) else None;
  fw_render := json_dumps;
  fw_invalid := {| hr_status := 404; hr_pieces := [] |};
  fw_internal_error := {| hr_status := 500; hr_pieces := [] |};
  fw_http_exception := response |}.

Lemma entries_back (files : list (str * Z)) :
  mapM entry (map (λ f : str * Z, JDict [("name", JStr f.1); ("size", JInt f.2)]) files) = Some files.
Proof. induction files as [|[n z] files IH]; [done|]. cbn in *. by rewrite IH. Qed.

Lemma laws : FrameworkLaws framework.
Proof.
  split.
  - intros to path files. cbn [framework fw_session_request session_request session_body]. by rewrite entries_back.
  - intros j Hj. cbn. unfold loads_body, utf8_decode. rewrite json_dumps_utf8 by done. cbn.
    by rewrite json_loads_dumps.
Qed.

(** An archive format: names and contents between bars. *)
Definition writer : TarWriter := {|
  tw_state := unit;
  tw_open := λ _, tt;
  tw_add := λ _ info data, (tt, mi_name info +:+ "|" +:+ data +:+ "|");
  tw_close := λ _, "" |}.
Fixpoint pairs (l : list str) : list (str * bytes) :=
  match l with name :: data :: l => (name, data) :: pairs l | _ => [] end.
Definition reader (_ : bool) (body : bytes) : list (res TarInfo) := archive_of (pairs (split "|" body)).
End Wire.

Definition wire_files : list (str * bytes) := [("a.txt", "hello"); ("sub/b", "")].
Definition wire_disk : Fs :=
  mkFs {[ [] := NDir; ["home"] := NDir; ["home"; "a.txt"] := NFile "hello"; ["home"; "sub"] := NDir;
          ["home"; "sub"; "b"] := NFile "" ]} ∅ 0.
Definition wire_terminal : Terminal Demo.World := mkTerminal wire_disk [] [] (Demo.world 0).
Definition wire_send :=
  send (network Wire.framework Wire.reader "1.0") Wire.writer (λ _, (0, 0, "", "", 420)%Z) 4096 id ∅ demo_home
    ["./a.txt"; "sub/b"] "bob" "m1" (Some "http://h") (Some "key") wire_terminal.

Definition wire_session :=
  create_upload_session (request_of Wire.framework (session_call "http://h" "key" "bob" "m1" wire_files)) "bob" "m1"
    (session_manifest (sizes wire_files)) (next_request (Demo.world 0)).
Definition wire_reply : Response :=
  match wire_session.1 with Ok r => r | Raise _ => no_content end.
Definition wire_token : str :=
  match rsp_body wire_reply with JDict d => get_str "batch_token" "" d | _ => "" end.

Lemma wire_session_Ok : wire_session = (Ok wire_reply, wire_session.2).
Proof.
  unfold wire_reply. destruct wire_session as [[r|e] w] eqn:E; [done|].
  assert (Hok : match wire_session.1 with Ok _ => true | Raise _ => false end = true) by by vm_compute.
  by rewrite E in Hok.
Qed.

Lemma wire_session_reply : session_reply wire_reply (inbox_path "bob" "m1") wire_token.
Proof.
  split; [by vm_compute|by vm_compute| |by vm_compute].
  eexists _, _. split_and!; [by vm_compute|by vm_compute..].
Qed.

