(* ===== verification/CliReceive.v ===== *)
(** * A download against the server

    [cassetta download] with the envelope of a reference pick, on the network
    of [CliFlow]: every file arrives, and the claim and the bundle end. *)

From Stdlib Require Import Ascii String.
From stdpp Require Import pretty.
From S2P Require Import Prelude PyStr PyCodec Json DateTime Effects PyNum Paths Limits Config.
From S2P Require Import Claims KeyStore Jwt FsModel Storage World Frame Cli CliLaws Backends ClaimLaws Bundles Downloads Inbox Files RoundTrips.
From S2P Require Import SendInit Upload Download TwoPhase SendFlow Deliver Gc Agents Server CliFlow.
Local Open Scope string_scope.
Local Open Scope list_scope.
Local Open Scope effect_scope.

Section receive.
Context {S C K : Type} `{StorageReads S, !BundleLaws S, !ClaimStorage C, !ClaimLaws C, KeyStoreProtocol K, !App K, PyJwtLaws}.
Abbreviation W := (World S C K).
Implicit Types (w : W).
Variable fw : Framework.
Variable tar_open : bool → bytes → list (res TarInfo).
Variable server_version : str.

(** The path of a link. *)
Definition link_path (p name : str) : str := "/download/" +:+ quote p +:+ "/" +:+ quote name.

Lemma link_path_text p name : str_forall path_char (link_path p name) = true.
Proof.
  unfold link_path. rewrite !str_forall_app, !quote_path.
  by change (str_forall path_char "/" ) with true; change (str_forall path_char "/download/") with true.
Qed.

Lemma split_link p name : split_raw_path (link_path p name) = Ok (p, name).
Proof.
  unfold split_raw_path, utf8_decode.
  assert (Hascii : utf8_valid (link_path p name) = true).
  { apply ascii_utf8. eapply str_forall_mono; [|apply link_path_text]. apply ascii_impl. by vm_compute. }
  rewrite Hascii, split1_None by by apply path_no_char, link_path_text.
  unfold link_path. rewrite startswith_app, str_drop_app.
  change ("/" +:+ quote name) with (String "/" (quote name)).
  rewrite rsplit1_app by by apply quote_no_char. by rewrite !unquote_quote.
Qed.

(** The headers the client derives from the credential. *)
Lemma recipient_of_token p bid agent fresh names now ttl key :
  utf8_valid p = true ∧ utf8_valid bid = true ∧ utf8_valid agent = true ∧ utf8_valid fresh = true ∧
    Forall (λ n, utf8_valid n = true) names →
  agent ≠ "" →
  decode_recipient (sign fresh (download_credential p bid agent names now ttl) key) = Some agent.
Proof.
  intros Ht Ha. unfold decode_recipient, sign.
  destruct (signed_payload_valid fresh (download_credential p bid agent names now ttl)) as [E Hv].
  { by eapply download_unsigned. } { apply Ht. }
  unfold signed_payload in E, Hv. rewrite E in Hv |- *. rewrite unverified_encode by done.
  rewrite dict_get_set, decide_False by done. change (dict_get "recipient" _) with (Some (JStr agent)).
  by destruct agent.
Qed.

Section transfer.
Variables (base p agent token : str) (V : list (str * bytes)) (meta : dict) (recs : list json).
Hypothesis Hbase : origin base.
Hypothesis Hstrip : strip token = token.
Hypothesis Hinbox : startswith INBOX_PREFIX p = true.
Hypothesis Htext : utf8_valid p = true ∧ utf8_valid agent = true ∧ Forall (λ v, utf8_valid v.1 = true) V.
Hypothesis Hnd : NoDup V.*1.
Hypothesis Hagent : agent ≠ "".
Hypothesis Hrevocation : ∀ jti, app_revocation jti = Ok tt.

Definition link_url (name : str) : str := base +:+ link_path p name.

Lemma link_url_not_empty name : link_url name ≠ "".
Proof. clear. unfold link_url, link_path. by destruct base. Qed.

Lemma link_url_path name : url_path (link_url name) = link_path p name.
Proof. apply url_path_origin; [done|done|apply link_path_text]. Qed.

Definition transfer_headers : list (str * str) := [bearer token; ("X-Sender", agent)].
Definition transfer (name : str) : HttpCall := get_call (link_url name) transfer_headers.

Lemma transfer_route name : route_of fw (transfer name) = Some RDownload.
Proof.
  unfold route_of, transfer, get_call. cbn [hc_method hc_url hc_body]. rewrite link_url_path.
  rewrite bool_decide_false by (by intros [? _]). rewrite (bool_decide_false ("GET" = "POST")) by done.
  cbn [andb]. rewrite bool_decide_true by done. unfold link_path at 1. by rewrite startswith_app.
Qed.

Lemma transfer_request name : download_request (request_of fw (transfer name)) p name agent token.
Proof.
  split; unfold request_of, transfer, get_call; cbn [hc_body hc_url hc_headers rq_authorization rq_raw_path rq_x_sender].
  - change (default "" (header "Authorization" _)) with ("Bearer " +:+ token). by rewrite bearer_token, Hstrip.
  - rewrite link_url_path. apply split_link.
  - by right.
Qed.

Lemma network_transfer name data w w1 stream :
  download_route (request_of fw (transfer name)) (next_request w) = (Ok stream, w1) → fs_bytes stream = data →
  ∃ evs, network fw tar_open server_version (transfer name) w
    = (Ok {| hr_status := 200; hr_pieces := [Ok data] |}, add_events evs w1).
Proof.
  intros E <-. unfold network. rewrite transfer_route.
  destruct (serve_run tar_open server_version (fw_http_exception fw) "GET" (url_path (link_url name))
    (request_of fw (transfer name)) RDownload (ReplyStream stream) w w1) as [evs Es].
  { cbn [handler]. unfold bind. by rewrite E. }
  exists evs. unfold bind at 1, catch, bind at 1. cbn [hc_method hc_url hc_body transfer get_call]. by rewrite Es.
Qed.

(** What each file is to the client. *)
Definition wanted (F : list (str * bytes)) : list (str * str * bytes) :=
  map (λ v : str * bytes, (v.1, link_url v.1, v.2)) F.

(** The server between two transfers. *)
Record ready (fetched : list str) (w : W) (c : ClaimRecord) : Prop := {
  rd_holds : holds p agent V fetched token w c;
  rd_live : live w p meta recs V;
  rd_inv : bl_inv (w_store w);
  rd_slots : primary (w_slots w) = cf_jwt_primary_key app_config;
}.

Lemma transfers_served V1 V2 w c :
  key_ok p → V = V1 ++ V2 → V2 ≠ [] → ready V1.*1 w c →
  ∃ w', served (network fw tar_open server_version) transfer_headers (wanted V2) w w' ∧ completed p (cr_jti c) w w'.
Proof.
  intros Hp. revert V1 w c. induction V2 as [|[name data] V2 IH]; intros V1 w c HV Hne Hready; [done|].
  destruct Hready as [Hh Hl Hi Hs]. destruct Htext as (Htp & Hta & Htn).
  assert (Hin : (name, data) ∈ V) by (rewrite HV; apply elem_of_app; right; left).
  assert (Hname : utf8_valid name = true) by (rewrite Forall_forall in Htn; by apply (Htn _ Hin)).
  assert (Hnd' : NoDup (V1.*1 ++ name :: V2.*1)) by (by rewrite HV, fmap_app in Hnd).
  apply NoDup_app in Hnd' as (_ & Hdisj & Hnd2). apply NoDup_cons in Hnd2 as [Hnew _].
  assert (Hfresh : name ∉ V1.*1) by (intros Hn; apply (Hdisj _ Hn); by left).
  destruct (download_until_run None (request_of fw (transfer name)) p name agent V token (next_request w) c meta recs V1.*1 data)
    as (w1 & stream & Es & Ec & En & Ek & Eb & Hrun); try done.
  { apply transfer_request. } { by destruct Hh as [? ? ? ? ?]. }
  assert (Hh1 : holds p agent V V1.*1 token w1 c).
  { destruct Hh as [A B D E F]. split; rewrite ?Ec; try done. unfold now_seconds in *. by rewrite En. }
  assert (Hl1 : live w1 p meta recs V) by (unfold live in *; by rewrite Es).
  assert (Hi1 : bl_inv (w_store w1)) by by rewrite Es.
  destruct V2 as [|[name2 data2] V2].
  - destruct (accounting_last p agent V token w1 c meta recs V1.*1 name data Hh1 Hl1 Hin Hname) as (w2 & E & Hdone & _); try done.
    { intros n. rewrite with_name_new, HV, fmap_app by done. done. }
    destruct (network_transfer name data w w2 stream (Hrun _ E) Eb) as [evs Enet].
    exists (add_events evs w2). split.
    + cbn. eexists _, _. split_and!; [exact Enet|done| |done]. cbn. by rewrite app_empty_r.
    + destruct Hdone as (A & B & D & E' & F & G). rewrite Es in D. split_and!; try done. intros j Hj. cbn. by rewrite (G j Hj), Ec.
  - destruct (accounting_step p agent V token w1 c meta recs V1.*1 name data Hh1 Hl1 Hin Hname)
      as (w2 & c2 & E & Es2 & Ek2 & Ej2 & Hother & Hh2).
    { exists name2. rewrite with_name_new by done. split.
      - rewrite HV, fmap_app. apply elem_of_app. right. right. left.
      - rewrite not_elem_of_app, list_elem_of_singleton. split.
        + intros Hn. apply (Hdisj _ Hn). right. left.
        + intros ->. apply Hnew. left. }
    destruct (network_transfer name data w w2 stream (Hrun _ E) Eb) as [evs Enet].
    destruct (IH (V1 ++ [(name, data)]) (add_events evs w2) c2) as (w' & Hserved & Hdone).
    { by rewrite <- app_assoc. } { done. }
    { split.
      - rewrite fmap_app. rewrite with_name_new in Hh2 by done. destruct Hh2 as [A B D E' F]. by split.
      - unfold live in *. cbn. by rewrite Es2.
      - cbn. by rewrite Es2.
      - cbn. by rewrite Ek2, Ek. }
    exists w'. split.
    + cbn. eexists _, _. split_and!; [exact Enet|done| |exact Hserved]. cbn. by rewrite app_empty_r.
    + rewrite Ej2 in Hdone. destruct Hdone as (A & B & D & E' & F & G). cbn in D. rewrite Es2, Es in D. split_and!; try done.
      intros j Hj. rewrite (G j Hj). cbn. by rewrite (Hother j Hj), Ec.
Qed.
End transfer.
End receive.

(** ** Properties *)

(** C4: [cassetta download] receives what was picked: with the envelope of a
    reference pick, while its claim is held and its credential is valid, and
    an output directory with room for the names, the command succeeds, every
    file of the bundle is there with its bytes, and after the last one the
    claim and the bundle are gone, while no other claim and no bundle beside it
    has changed. *)
Theorem download_receives {S C K} `{StorageReads S, !BundleLaws S, !ClaimStorage C, !ClaimLaws C,
    KeyStoreProtocol K, !App K, PyJwtLaws} fw tar_open version decode_replace stdin cwd manifest_json out
    agent path token V meta recs envelope c (t : Terminal (World S C K)) :
  let w := tm_net t in
  let p := inbox_path agent path in
  FrameworkLaws fw → origin (rstrip "/" (cf_public_base_url app_config)) →
  (∀ p name token, app_transport p name token = CoreReferenceTransport (cf_public_base_url app_config) p name token) →
  (∀ jti, app_revocation jti = Ok tt) →
  envelope_of p V token envelope → json_wf envelope = true → token ≠ "" → strip token = token →
  manifest_source stdin cwd manifest_json (tm_fs t) (fw_render fw envelope) →
  ready p agent token V meta recs [] w c →
  key_ok p → utf8_valid p = true → utf8_valid agent = true → agent ≠ "" → Forall (λ v, utf8_valid v.1 = true) V →
  V ≠ [] → separate V.*1 → fs_wf (tm_fs t) → lexical (local cwd out) → no_file_above (tm_fs t) (local cwd out) →
  Forall (λ n, clear (tm_fs t) (dest (local cwd out) n)) V.*1 →
  let run := download (network fw tar_open version) decode_replace stdin cwd manifest_json out t in
  run.1 = Ok tt ∧
  (∀ name data, (name, data) ∈ V → nodes (tm_fs run.2) !! dest (local cwd out) name = Some (NFile data)) ∧
  completed p (cr_jti c) w (tm_net run.2).
Proof.
  intros w p Hfw Hbase Htransport Hrev Henv Hwf Htok Hstrip Hsrc Hready Hkey Hp Ha Hne Hn HV Hsep Hfs Hout Hfree Hclear.
  set (base := rstrip "/" (cf_public_base_url app_config)) in *.
  destruct Henv as (emeta & links & expires & -> & Hlinks).
  destruct (transfers_served fw tar_open version base p agent token V meta recs Hbase Hstrip eq_refl
    (conj Hp (conj Ha Hn)) (proj1 Hsep) Hne Hrev [] V w c Hkey eq_refl HV Hready) as (w' & Hserved & Hdone).
  assert (Hheaders : download_headers token = transfer_headers agent token).
  { unfold download_headers. destruct (rd_holds _ _ _ _ _ _ _ _ _ Hready) as [Hi Hc _ _ (bid & now & ttl & Hb & _ & Et)].
    destruct (cl_wf _ _ _ Hi Hc) as [_ Hok]. rewrite Et, recipient_of_token; [done| |done].
    split_and!; [done..| |by rewrite Forall_fmap]. unfold claim_ok in Hok. by bool_to_prop. }
  rewrite <- Hheaders in Hserved.
  assert (Hnames : names_of (wanted base p V) = V.*1).
  { unfold names_of, wanted. rewrite map_map. clear. induction V; [done|]. cbn. by f_equal. }
  destruct (download_run (network fw tar_open version) decode_replace stdin cwd manifest_json out
    (fw_render fw (JDict [("mode", JStr "reference"); ("bundle", JDict emeta); ("files", JList links);
      ("download_token", JStr token); ("expires_at", JStr expires)])) token links (wanted base p V) t w')
    as (fs' & E & _ & Hfs'); rewrite ?Hnames; try done.
  - pose proof (fl_render fw Hfw _ Hwf) as Hr. unfold loads_body in Hr.
    destruct (utf8_decode _ ≫= json_loads) as [j|] eqn:Ej; [|done]. injection Hr as ->.
    split; [|done|].
    + eexists. split_and!; [exact Ej|done|done|done].
    + intros ->. apply Forall2_nil_inv_r in Hlinks. done.
  - clear -Hlinks Htransport. unfold wanted. induction Hlinks as [|v j V links (m & ->) Hl IH]; [constructor|].
    constructor; [|done]. cbn [fst snd]. split.
    + apply link_url_not_empty.
    + eexists. split_and!; [done|done|]. cbn. by rewrite Htransport.
  - cbn zeta. rewrite E. split_and!; [done| |exact Hdone].
    intros name data Hin. cbn [snd tm_fs set_net set_fs]. rewrite Hfs'.
    apply (written_file _ _ _ (link_url base p name)); [by rewrite Hnames|].
    apply list_elem_of_In, in_map_iff. exists (name, data). split; [done|]. by apply list_elem_of_In.
Qed.

(** Two files picked from the demo server and downloaded. *)
#[local] Existing Instances Demo.storage Demo.claims Demo.keys ToyJwt demo_bundle_laws small_server.

Definition picked_json : json := match demo_pick.1 with Ok rsp => rsp_body rsp | Raise _ => JNull end.
Definition token_in (j : json) : str := match j with JDict d => get_str "download_token" "" d | _ => "" end.

Lemma demo_picked : ∃ c,
  envelope_of "inbox/bob/m1" (parts_data demo_parts) (token_in picked_json) picked_json ∧
  ready "inbox/bob/m1" "bob" (token_in picked_json) (parts_data demo_parts) demo_message demo_records [] demo_pick.2 c.
Proof.
  assert (Hw : wp demo_pick_run (λ rsp w1, w_store w1 = w_store demo_inbox ∧ w_slots w1 = w_slots demo_inbox ∧
    ∃ token c, envelope_of "inbox/bob/m1" (parts_data demo_parts) token (rsp_body rsp) ∧
      holds "inbox/bob/m1" "bob" (parts_data demo_parts) [] token w1 c) (λ _ _, True) demo_inbox).
  { apply (wp_pick_reference _ _ _ dev_identity demo_message demo_records (parts_data demo_parts));
      [discriminate|reflexivity|reflexivity|exact demo_live|reflexivity|reflexivity|reflexivity|].
    intros w1 Hc. destruct (core_parts _ _ Hc) as (Es & Ec & Ek & _).
    assert (Hl : live w1 "inbox/bob/m1" demo_message demo_records (parts_data demo_parts)).
    { unfold live. rewrite Es. exact demo_live. }
    assert (Hi : cl_inv (w_claims w1)) by (rewrite Ec; exact demo_healthy).
    assert (Ht : Forall (λ v : str * bytes, utf8_valid v.1 = true) (parts_data demo_parts)) by repeat constructor.
    assert (Hu : @uuid_text _ small_server) by exact (demo_uuid_text true).
    eapply wp_mono; [| |exact (wp_reference dev_identity "inbox/bob/m1" demo_message demo_records (parts_data demo_parts) "bob" w1
      Hl Hi Hu Ht eq_refl eq_refl eq_refl eq_refl)].
    - intros j w' (Es' & Ek' & token & c & He & Hh) rsp _ Hbody. split; [congruence|]. split; [congruence|].
      exists token, c. rewrite Hbody. split; [exact He|exact Hh].
    - intros [] w' _; exact I. }
  unfold wp in Hw. unfold picked_json. fold demo_pick in Hw.
  assert (Hok : match demo_pick.1 with Ok _ => true | Raise _ => false end = true) by (vm_compute; reflexivity).
  destruct demo_pick as [[rsp|e] w1]; [|discriminate Hok]. destruct Hw as (Es & Ek & token & c & He & Hh). cbn [fst snd].
  assert (Et : token_in (rsp_body rsp) = token) by (destruct He as (m & l & x & -> & _); done).
  rewrite Et. exists c. split; [exact He|]. split; [exact Hh| | |].
  - unfold live. rewrite Es. exact demo_live.
  - rewrite Es. apply fs_wfb_sound. vm_compute. reflexivity.
  - by rewrite Ek.
Qed.

Definition demo_receive :=
  download (network Wire.framework Wire.reader "1.0") id (json_dumps picked_json) demo_home "-" "in"
    (mkTerminal demo_disk [] [] demo_pick.2).

Lemma download_receives_witness :
  demo_receive.1 = Ok tt ∧
  nodes (tm_fs demo_receive.2) !! ["home"; "in"; "sub"; "b"] = Some (NFile (String "255" "")) ∧
  absent (w_store (tm_net demo_receive.2)) "inbox/bob/m1".
Proof.
  destruct demo_picked as (c & Henv & Hready).
  destruct (download_receives Wire.framework Wire.reader "1.0" id (json_dumps picked_json) demo_home "-" "in"
    "bob" "m1" (token_in picked_json) (parts_data demo_parts) demo_message demo_records picked_json c
    (mkTerminal demo_disk [] [] demo_pick.2)) as (E & Hin & Hdone).
  - exact Wire.laws.
  - exists "http", "h". split; [reflexivity|split; reflexivity].
  - reflexivity.
  - reflexivity.
  - exact Henv.
  - vm_compute. reflexivity.
  - vm_compute. discriminate.
  - vm_compute. reflexivity.
  - reflexivity.
  - exact Hready.
  - apply key_okb_sound. vm_compute. reflexivity.
  - reflexivity.
  - reflexivity.
  - discriminate.
  - repeat constructor.
  - discriminate.
  - split; [|split].
    + apply (bool_decide_unpack _). vm_compute. exact I.
    + repeat constructor; try reflexivity; try discriminate; apply (bool_decide_unpack _); vm_compute; exact I.
    + intros n m Hn Hm Hne. apply (bool_decide_unpack _). revert Hne.
      apply elem_of_cons in Hn as [->|[->|Hn%not_elem_of_nil]%elem_of_cons]; [..|destruct Hn];
      apply elem_of_cons in Hm as [->|[->|Hm%not_elem_of_nil]%elem_of_cons]; try (by destruct Hm);
      intros Hne; try (by destruct Hne); vm_compute; exact I.
  - exact demo_disk_wf.
  - apply (bool_decide_unpack _); vm_compute; exact I.
  - exact demo_in_free.
  - repeat constructor.
    + exact demo_in_free.
    + vm_compute. discriminate.
    + apply (no_file_snoc _ ["home"; "in"]); [exact demo_in_free|vm_compute; reflexivity].
    + vm_compute. discriminate.
  - split; [exact E|]. split.
    + apply (Hin "sub/b" (String "255" "")). right. left.
    + apply Hdone.
Defined.
