(* ===== verification/Fanout.v ===== *)
(** * What a broadcast delivers

    The fan-out of [routes/agents.py] over any bundle store that keeps the
    contract of [Bundles]: every visible recipient gets one outcome, and a
    recipient reported as delivered has the broadcast in its inbox, whatever
    happens to the recipients after it. *)

From Stdlib Require Import Ascii String.
From S2P Require Import Prelude PyStr PyCodec Json DateTime Effects PyNum Paths Limits Config.
From S2P Require Import Claims KeyStore Jwt FsModel Storage World Frame Backends Bundles Downloads Inbox.
From S2P Require Import Files RoundTrips SendInit Upload Download SendFlow Gc Reaper Agents.
Local Open Scope string_scope.
Local Open Scope list_scope.
Local Open Scope effect_scope.

(** ** Where a broadcast goes *)

(** The bundle of the recipient [label]. *)
Definition inbox_dest (path label : str) : str := "inbox/" +:+ label +:+ "/" +:+ path.

Lemma string_last t : t ≠ "" → ∃ s a, t = s +:+ String a "" ∧ has_char a t = true.
Proof.
  induction t as [|b t IH]; [done|]. intros _. destruct t as [|c t].
  - exists "", b. split; [done|]. cbn. by rewrite decide_True.
  - destruct IH as (s & a & E & Ha); [done|]. exists (String b s), a. rewrite E, app_cons. split; [done|].
    rewrite <- E. change (has_char a (String b "" +:+ String c t) = true). by rewrite has_char_app, Ha, orb_true_r.
Qed.

Lemma rstrip_target label : plain_name label → rstrip "/" ("inbox/" +:+ label +:+ "/") = "inbox/" +:+ label.
Proof.
  intros [(Hne & _) Hs]. destruct (string_last label Hne) as (s & a & E & Ha).
  rewrite app_str_assoc, rstrip_char. apply (rstrip_id "/" ("inbox/" +:+ s) _ a).
  - intros ->. congruence.
  - by rewrite E, app_str_assoc.
Qed.

Lemma inbox_dest_eq path label :
  plain_name label → rstrip "/" ("inbox/" +:+ label +:+ "/") +:+ "/" +:+ path = inbox_dest path label.
Proof. intros Hl. rewrite rstrip_target by done. unfold inbox_dest. by rewrite <- app_str_assoc. Qed.

Lemma parse_inbox_dest path label :
  plain_name label → parse_path (inbox_dest path label) = "inbox" :: label :: parse_path path.
Proof.
  intros [(H1 & H2 & _) Hs]. unfold parse_path, inbox_dest.
  change ("inbox/" +:+ label +:+ "/" +:+ path) with ("inbox" +:+ String "/" (label +:+ String "/" path)).
  rewrite !split_app_sep, (split_atom _ "inbox"), (split_atom _ label) by done.
  cbn [app]. rewrite !filter_cons_True by done. done.
Qed.

Lemma inbox_dest_key path label : plain_name label → key_ok path → key_ok (inbox_dest path label).
Proof.
  intros Hl (_ & Hp & _). unfold key_ok. rewrite parse_inbox_dest by done. split_and!; [done| |done].
  intros [?|[E|?]%elem_of_cons]%elem_of_cons; [done| |by apply Hp].
  destruct Hl as [(_ & _ & ?) _]. congruence.
Qed.

Lemma inbox_dest_apart path label label' :
  plain_name label → plain_name label' → label ≠ label' → apart (inbox_dest path label) (inbox_dest path label').
Proof.
  intros Hl Hl' Hne. unfold apart. rewrite !parse_inbox_dest by done.
  split; intros E%prefix_cons_inv_2%prefix_cons_inv_1; congruence.
Qed.

(** ** The fan-out *)

Section fanout.
Context {S C K : Type} `{StorageReads S, !BundleLaws S, ClaimReads C, KeyReads K, !App K, !AliasReads K, PyJwt}.
Abbreviation W := (World S C K).
Implicit Types (w : W) (s : S) (label : str).

(** The alias resolver names the inbox of a label, as the core one does. *)
Definition core_targets : Prop := ∀ label sender (k : K),
  match (ar_resolve app_alias label sender k).1 with
  | Ok (Some r) => inbox_targets r = ["inbox/" +:+ label +:+ "/"]
  | _ => True
  end.

(** The bundles beside those of the recipients read as before. *)
Definition beside_kept (path : str) (labels : list str) w w' : Prop :=
  bl_inv (w_store w') ∧ w_now w' = w_now w ∧
  ∀ q, key_ok q → (∀ label, label ∈ labels → apart (inbox_dest path label) q) →
    same_bundle q (w_store w) (w_store w').

(** The inbox of [label] holds the broadcast, dated [now]. *)
Definition delivered (path : str) (parts : list (str * bytes * option str)) (sender : option str) (now : Z)
    w label : Prop :=
  ∃ id recs, Forall2 record_of parts recs ∧
    stored (w_store w) (inbox_dest path label)
      (bundle_meta id (sender_json sender) now "application/octet-stream" recs) (parts_data parts).

Context (path : str) (parts : list (str * bytes * option str)) (sender : option str).
Hypothesis Hcore : core_targets.
Hypothesis Hmime : mime_text.
Hypothesis Huuid : uuid_text.
Hypothesis Hkey : key_ok path.
Hypothesis Htext : Forall part_text parts.
Hypothesis Hnames : names_ok (map part_name parts).
Hypothesis Hsender : json_wf (sender_json sender) = true.

Lemma wp_deliver_to label w :
  plain_name label → bl_inv (w_store w) →
  wp (deliver_to path parts sender ("inbox/" +:+ label +:+ "/"))
    (λ _ w', outside_kept (inbox_dest path label) w w' ∧ delivered path parts sender (w_now w) w' label)
    (λ _ w', outside_kept (inbox_dest path label) w w') w.
Proof.
  intros Hl Hi. pose proof (inbox_dest_key path label Hl Hkey) as Hk.
  unfold deliver_to. cbv zeta. rewrite inbox_dest_eq by done.
  apply wp_bind, wp_delete_quiet; [done..|]. intros s1 Hi1 _ Hs1. apply wp_bind. unfold wp at 1.
  destruct (new_bundle_id (set_store s1 w)) as [[id|e] w2] eqn:Eid; [|by injection Eid].
  pose proof (bundle_id_text _ _ _ Huuid Eid) as Hid. injection Eid as _ <-.
  unfold write_inbox_bundle. apply wp_bind.
  eapply wp_mono; [| |apply (wp_write_bundle (inbox_dest path label) parts (sender_json sender) _ id); done].
  - intros meta w3 (Hi3 & Hs3 & En & recs & -> & Hr & Hst). cbn [w_store w_now set_store set_uuids] in *.
    apply wp_ret. split; [|by exists id, recs]. split_and!; [done|by etrans|done].
  - intros e w3 (Hi3 & Hs3 & En & _). cbn [w_store w_now set_store set_uuids] in *. split_and!; [done| |done].
    etrans; [done|]. by apply same_reads_weaken.
Qed.

Lemma wp_deliver identity label w :
  plain_name label → bl_inv (w_store w) →
  wp (deliver identity path parts sender label)
    (λ o w', outside_kept (inbox_dest path label) w w' ∧
       (o = Delivered → delivered path parts sender (w_now w) w' label)) (λ _ _, False) w.
Proof.
  intros Hl Hi. unfold deliver. apply wp_bind, wp_catch, wp_bind.
  pose proof (frames_on_keys _ (ar_reads label sender) w) as Hf. pose proof (Hcore label sender (w_keys w)) as Ht.
  unfold wp at 1. unfold on_keys, lift in Hf |- *.
  destruct (ar_resolve app_alias label sender (w_keys w)) as [[o|e] k]; cbn in Hf, Ht.
  2:{ apply wp_ret, wp_ret. split; [|done]. by apply outside_quiet. }
  apply wp_ret. pose proof (outside_quiet (inbox_dest path label) _ _ Hi Hf) as Ho.
  destruct o as [r|]; [|by apply wp_ret].
  destruct (ap_check _ _ _ _) as [[]|e'].
  - apply wp_catch, wp_bind. rewrite Ht. cbn [for_each]. apply wp_bind.
    eapply wp_mono; [| |apply wp_deliver_to; [done|apply Ho]].
    + intros _ w' [Hk Hd]. apply wp_ret, wp_ret. split; [exact (outside_trans _ _ _ _ Ho Hk)|intros _; exact Hd].
    + intros e w' Hk. apply wp_ret. split; [exact (outside_trans _ _ _ _ Ho Hk)|by intros [=]].
  - apply wp_bind, wp_safe_emit. intros evs. apply wp_ret. by split.
  - by apply wp_ret.
Qed.

(** Every visible recipient has one outcome, and the delivered ones keep what
    they got. *)
Lemma wp_fan_out identity visible w :
  NoDup visible → Forall plain_name visible → bl_inv (w_store w) →
  wp (fan_out identity path parts sender visible)
    (λ outcomes w', outcomes.*1 = visible ∧ beside_kept path visible w w' ∧
       ∀ label, (label, Delivered) ∈ outcomes → delivered path parts sender (w_now w) w' label)
    (λ _ _, False) w.
Proof.
  intros Hnd Hpl. revert w. induction visible as [|label visible IH]; intros w Hi; cbn [fan_out map_m].
  { apply wp_ret. split_and!; [done|done|by intros ? ?%not_elem_of_nil]. }
  apply NoDup_cons in Hnd as [Hni Hnd]. apply Forall_cons in Hpl as [Hl Hpl].
  apply wp_bind, wp_bind. eapply wp_mono; [| |by apply wp_deliver]; [|done].
  intros o w1 [(Hi1 & Hs1 & En1) Hd]. apply wp_ret, wp_bind.
  eapply wp_mono; [| |by apply IH]; [|done]. intros outcomes w2 (Ev & (Hi2 & En2 & Hs2) & Hd2).
  apply wp_ret. split_and!.
  - cbn. by rewrite Ev.
  - split_and!; [done|congruence|]. intros q Hq Ha. etrans; [apply Hs1; [done|by apply Ha; left]|].
    apply Hs2; [done|]. intros l Hin. apply Ha. by right.
  - intros l [E|Hin]%elem_of_cons; [|rewrite <- En1; by apply Hd2]. injection E as -> <-.
    destruct (Hd eq_refl) as (id & recs & Hr & Hst). exists id, recs. split; [done|].
    eapply stored_same; [|apply Hs2|exact Hst].
    + intros n. by apply parts_key_ok.
    + by apply inbox_dest_key.
    + intros l Hin. apply inbox_dest_apart; [by eapply Forall_forall in Hpl|done|]. by intros ->.
Qed.

(** Every outcome is in one of the three lists. *)
Lemma outcomes_partition (outcomes : list (str * outcome)) :
  delivered_of outcomes ++ (denied_of outcomes).*1 ++ (failed_of outcomes).*1 ≡ₚ outcomes.*1.
Proof.
  induction outcomes as [|[label [|r|e]] outcomes IH]; [done|..]; cbn.
  - by f_equiv.
  - rewrite <- IH. by rewrite <- Permutation_middle.
  - rewrite <- IH. rewrite !app_assoc. by rewrite <- Permutation_middle.
Qed.
Lemma elem_of_delivered label (outcomes : list (str * outcome)) :
  label ∈ delivered_of outcomes → (label, Delivered) ∈ outcomes.
Proof.
  unfold delivered_of. rewrite list_elem_of_omap. intros ([l o] & Hin & E). by destruct o; simplify_eq/=.
Qed.
End fanout.

(** ** The route *)

(** The body of the reply. *)
Definition broadcast_body (path : str) (outcomes : list (str * outcome)) : json :=
  JDict [("path", JStr path);
         ("delivered_to", JList (map JStr (delivered_of outcomes)));
         ("denied", pairs_json "reason" (denied_of outcomes));
         ("failed", pairs_json "error" (failed_of outcomes));
         ("total_delivered", count_json (delivered_of outcomes));
         ("total_denied", count_json (denied_of outcomes));
         ("total_failed", count_json (failed_of outcomes))].

Section route.
Context {S C K : Type} `{StorageReads S, !BundleLaws S, ClaimReads C, KeyReads K, !App K, !AliasReads K, PyJwt}.
Abbreviation W := (World S C K).
Implicit Types (w : W).

(** What the policy shows a caller of the recipients is named once and can be
    a directory. *)
Definition proper_view (id : Identity) w : Prop :=
  ∀ w' keys labels, same_data w w' → (kp_list_keys (w_keys w')).1 = Ok keys →
    ap_visible_agents app_access id (candidate_labels (sender_from_identity id) keys) = Ok labels →
    NoDup labels ∧ Forall plain_name labels.

Lemma frames_rate rq rate : frames same_data (check_rate_limit_imperative rq rate : M W unit).
Proof.
  unfold check_rate_limit_imperative. frame.
Qed.

Lemma wp_broadcast rq path id w :
  core_targets → mime_text → uuid_text → bl_inv (w_store w) → key_ok path →
  Forall part_text (request_parts rq path) → names_ok (map part_name (request_parts rq path)) →
  (get_current_identity rq w).1 = Ok id → json_wf (sender_json (sender_from_identity id)) = true →
  proper_view id w →
  wp (broadcast rq path)
    (λ rsp w', ∃ outcomes, rsp = json_response 200 (broadcast_body path outcomes) [] ∧ NoDup (outcomes.*1) ∧
       beside_kept path (outcomes.*1) w w' ∧
       ∀ label, label ∈ delivered_of outcomes →
         delivered path (request_parts rq path) (sender_from_identity id) (w_now w) w' label)
    (λ _, same_data w) w.
Proof.
  intros Hcore Hmt Hu Hi Hk Ht Hok Hid Hsender Hview. unfold broadcast.
  eapply wp_same; [done|apply frames_current_identity|]. intros id' w1 E1 Hw1. rewrite E1 in Hid. injection Hid as ->.
  eapply wp_same; [done|apply frames_rate|]. intros [] w2 _ Hw2.
  eapply wp_same; [done|unfold http_error; frame|]. intros [] w3 _ Hw3. cbv zeta.
  eapply wp_same; [done|apply frames_parts_of|]. intros parts w4 ->%parts_of_Ok Hw4.
  eapply wp_same; [done|unfold check_capacity; frame|]. intros [] w5 _ Hw5.
  eapply wp_same; [done|apply frames_on_keys, kr_list|]. intros keys w6 E6 Hw6.
  eapply wp_same; [done|apply frames_of_res, _|]. intros [] w7 _ Hw7.
  eapply wp_same; [done|unfold visible_labels; frame|]. intros [visible vf] w8 E8 Hw8.
  assert (Hvis : NoDup visible ∧ Forall plain_name visible).
  { unfold visible_labels in E8. destruct (ap_visible_agents _ _ _) as [l|e] eqn:Ev.
    - injection E8 as <- _ _. eapply (Hview w5 keys); [done| |exact Ev].
      unfold on_keys, lift in E6. destruct (kp_list_keys (w_keys w5)) as [[]]; by simplify_eq/=.
    - injection E8 as <- _ _. split; constructor. }
  destruct Hvis as [Hnd Hpl]. apply wp_bind.
  eapply wp_mono; [| |apply wp_fan_out; try done]; [|done|by rewrite (sd_store _ _ Hw8)].
  intros outcomes w9 (Ev & (Hi9 & En9 & Hs9) & Hd). apply wp_bind, wp_safe_emit. intros evs. apply wp_ret.
  rewrite (sd_now _ _ Hw8), (sd_store _ _ Hw8) in *. exists outcomes. rewrite Ev. split_and!; [done|done|done|].
  intros label Hl%elem_of_delivered. by apply Hd.
Qed.
End route.

(** The core alias resolver names the inbox of a key's label. *)
Lemma default_core_targets {K} `{KeyStoreProtocol K} config uuid mime fails allows :
  @core_targets K (build_core_defaults config uuid mime fails allows).
Proof.
  intros label sender k. cbn [app_alias build_core_defaults DefaultAliasResolver ar_resolve].
  destruct (has_char ":" label); [|done]. unfold bind. destruct (kp_list_keys k) as [[keys|e] k']; [|done].
  cbn. by destruct (find_first _ keys).
Qed.

(** ** Properties *)


(** *** Two recipients *)

#[local] Existing Instances Demo.storage Demo.claims Demo.keys ToyJwt demo_bundle_laws.
#[local] Instance open_server : App KeyStore := Demo.core true.
Definition two_keys : KeyStore :=
  ((kp_create_key "hub:ann";;; kp_create_key "hub:bob")%eff (fresh_store [] 0)).2.
Definition hub : Demo.World := set_keystore two_keys (Demo.world 0).

Lemma map_of_res_state {St A B} (g : A → res B) (l : list A) (s s' : St) :
  (map_m (λ x, of_res (g x)) l s).1 = (map_m (λ x, of_res (g x)) l s').1.
Proof.
  induction l as [|x l IH]; [done|]. cbn [map_m]. unfold bind, of_res at 1 3. destruct (g x) as [y|e]; [|done].
  destruct (map_m (λ x, of_res (g x)) l s) as [r t], (map_m (λ x, of_res (g x)) l s') as [r' t'].
  cbn in IH. subst r'. by destruct r.
Qed.

Lemma hub_view : proper_view dev_identity hub.
Proof.
  intros w' keys labels Hw Ek [= <-].
  assert (E : (kp_list_keys (w_keys w')).1 = (kp_list_keys two_keys).1).
  { destruct (sd_keys _ _ Hw) as [E _]. cbn in E |- *. unfold list_keys, bind, get. rewrite E. apply map_of_res_state. }
  assert (El : candidate_labels (sender_from_identity dev_identity) keys = ["hub:ann"; "hub:bob"]).
  { rewrite E in Ek. vm_compute in Ek. injection Ek as <-. vm_compute. reflexivity. }
  rewrite El. split; [apply (bool_decide_unpack _); vm_compute; exact I|].
  by repeat (constructor; [split_and!; done|]).
Qed.

