(* ===== verification/Mcp.v ===== *)
(** * The MCP tools

    [mcp_server.py] and [mcp_auth.py]: the tools over the same storage, claims
    and policies as the REST routes.  The module globals are those [configure]
    sets; a call carries the identity and sender label its context variables
    hold.  A tool's text result is [JStr], a dictionary result the JSON value.
    Metrics that the code emits without [safe_emit] can raise here. *)

From Stdlib Require Import Ascii String.
From stdpp Require Import pretty.
From S2P Require Import Prelude PyStr PyCodec Json DateTime Effects PyNum Paths Limits Config.
From S2P Require Import Claims KeyStore Jwt FsModel Storage World Frame Backends Downloads Inbox Files SendInit Upload Agents Server.
Local Open Scope string_scope.
Local Open Scope list_scope.
Local Open Scope effect_scope.

(** The context variables of a call. *)
Record Caller := { mc_identity : option Identity; mc_sender : option str }.

(** [get_current_identity() or Identity("dev", ...)]. *)
Definition caller_identity (c : Caller) : Identity := default dev_identity (mc_identity c).

(** [_map_jwt_error]. *)
Definition mcp_jwt_error (e : token_error) : exn :=
  ValueError PlainValueError
    match e with
    | TokenExpired => "unauthenticated: reason=expired"
    | TokenNotYetValid => "unauthenticated: reason=immature"
    | TokenInvalidSignature => "unauthenticated: reason=bad_signature"
    | TokenMissingClaim claim => "unauthenticated: reason=missing_claim, claim=" +:+ repr claim
    | RevokedTokenError _ => "unauthenticated: reason=revoked"
    | TokenDecodeError => "unauthenticated: reason=invalid"
    end.

Definition manifest_violation (reason name : str) : exn :=
  ValueError PlainValueError ("manifest_violation: reason=" +:+ reason +:+ ", name=" +:+ repr name).

(** [_decode_inline_content]. *)
Definition decode_inline_content (content encoding name : str) : res bytes :=
  if decide (encoding = "utf8") then Ok content
  else if decide (encoding = "base64") then
    match b64decode content with
    | Some d => Ok d
    | None => Raise (manifest_violation "missing_or_bad_encoding" name)
    end
  else Raise (manifest_violation "missing_or_bad_encoding" name).

(** [_parse_files_arg]. *)
Definition parse_file_entry (entry : json) : res (str * bytes) :=
  match entry with
  | JDict d =>
      name <-? dict_item "name" d;;
      content <-? dict_item "content" d;;
      match name, content with
      | JStr n, JStr c => Ok (n, c)
      | _, _ => Raise (OtherError "TypeError")
      end
  | _ => Raise (OtherError "TypeError")
  end.
Definition parse_files_arg (files : str) : res (list (str * bytes)) :=
  match json_loads files with
  | None => Raise (ValueError PlainValueError "JSONDecodeError")
  | Some (JList l) => map_res parse_file_entry l
  | Some _ => Raise (OtherError "TypeError")
  end.

(** [SendInlineFile] of [models.py]. *)
Record SendInlineFile := { il_name : str; il_content : str; il_encoding : str }.

(** [_listing_entry(..., sender=...)]. *)
Definition mcp_listing_entry (now : Z) (path : str) (meta : dict) (ttl : Z) (sender : bool) : res dict :=
  files <-? get_list "files" meta;;
  total_size <-? total_size_of files;;
  let created_at := meta_or "created_at" (JStr "") meta in
  remaining <-? match created_at with
    | JStr s => compute_remaining_ttl now s ttl
    | _ => if decide (ttl <= 0)%Z then Ok None else Raise (OtherError "TypeError")
    end;;
  file_count <-? get_int "file_count" (Z.of_nat (length files)) meta;;
  version <-? get_int "schema_version" 1 meta;;
  listed <-? map_res listed_file files;;
  Ok ([("path", JStr path); ("bundle_id", meta_or "bundle_id" (JStr "") meta);
       ("size", JInt total_size); ("created_at", created_at);
       ("remaining_ttl", opt_json JInt remaining); ("file_count", JInt file_count);
       ("schema_version", JInt version); ("files", JList listed)]
      ++ if sender then [("sender", meta_or "sender" JNull meta)] else []).

Section mcp.
Context {S C K : Type} `{StorageBackend S} `{ClaimStorage C} `{KeyStoreProtocol K}
  `{App K} `{PyJwt}.
Abbreviation W := (World S C K).

(** A counter the code increments without [safe_emit]. *)
Definition raw_count (name action : str) : M W unit := emit_metric (count_event name "action" action).

(** [_enforce]. *)
Definition mcp_enforce (caller : Caller) (resource action : str) : M W unit :=
  allowed <- check_policy (caller_identity caller) resource action;;
  if allowed : bool then ret tt else value_error "Forbidden".

Definition no_mime (files : list (str * bytes)) : list (str * bytes * option str) :=
  map (λ f : str * bytes, (f, None)) files.

(** [except LimitsRejection as exc: raise ValueError(str(exc))]. *)
Definition limits_as_value_error {A} (m : M W A) : M W A :=
  catch m (λ e, match e with
    | LimitsRejection error _ _ _ reason => Some (value_error (rejection_str error reason))
    | _ => None
    end).

(** [_evaluate_upload_or_raise(_build_upload_manifest(files))] and its
    translation. *)
Definition evaluate_upload_or_raise (caller : Caller) (files : list (str * bytes)) : M W unit :=
  limits_as_value_error (evaluate_or_raise (caller_identity caller) (no_mime files)).

(** [_write_bundle]: the routes' writer, with every type inferred. *)
Definition mcp_write_bundle (bundle_path : str) (files : list (str * bytes)) (sender : json)
    (content_type bundle_id : str) : M W dict :=
  write_bundle bundle_path (no_mime files) sender content_type bundle_id.

Definition mcp_validate_path (path : str) : M W unit :=
  catch (of_res (validate_path path (Some (cf_allowed_path_chars app_config)))) (λ e,
    match e with
    | ValueError PathValidationError msg => Some (value_error ("Invalid path: " +:+ msg))
    | _ => None
    end).

Definition mcp_not_found {A} (path : str) : M W A := value_error ("File not found: " +:+ path).

(** The files of a call: exactly one of [content] and [files]. *)
Definition tool_files (path content files : str) : M W (list (str * bytes)) :=
  let has_content := negb (bool_decide (content = "")) in
  let has_files := negb (bool_decide (files = "")) in
  if has_content && has_files then value_error "Provide either 'content' or 'files', not both"
  else if negb has_content && negb has_files then value_error "Provide either 'content' or 'files'"
  else if has_files then of_res (parse_files_arg files)
  else ret [(last_segment "/" path, content)].

(** ** Sending *)

Definition cassetta_send_init (caller : Caller) (to path : str) (manifest : SendManifest) : M W json :=
  result <- limits_as_value_error
    (prepare_send_init to path manifest (caller_identity caller) (mc_sender caller) (Some app_alias) true);;
  ret match sr_mode result with
      | SendInline =>
          JDict [("bundle_id", JStr (sr_bundle_id result)); ("mode", JStr "inline");
                 ("inline_token", JStr (sr_token result)); ("expires_at", JStr (sr_expires_at result))]
      | SendBatch =>
          JDict [("bundle_id", JStr (sr_bundle_id result)); ("mode", JStr "batch");
                 ("upload_url", opt_json JStr (sr_upload_url result));
                 ("batch_token", JStr (sr_token result)); ("expires_at", JStr (sr_expires_at result))]
      end.

(** The decoding loop of [send_inline]: the contents by name. *)
Fixpoint decode_files (by_name : gmap str dict) (decoded_by_name : gmap str bytes)
    (files : list SendInlineFile) : res (gmap str bytes) :=
  match files with
  | [] => Ok decoded_by_name
  | f :: rest =>
      match by_name !! il_name f with
      | None => Raise (manifest_violation "extra_file" (il_name f))
      | Some declared =>
          decoded <-? decode_inline_content (il_content f) (il_encoding f) (il_name f);;
          size <-? get_int "size" 0 declared;;
          if decide (blen decoded = size)
          then decode_files by_name (<[il_name f := decoded]> decoded_by_name) rest
          else Raise (manifest_violation "wrong_size" (il_name f))
      end
  end.

Definition check_missing (by_name : gmap str dict) (decoded_by_name : gmap str bytes) : res unit :=
  match sorted (elements (dom by_name ∖ dom decoded_by_name)) with
  | first :: _ => Raise (manifest_violation "missing_file" first)
  | [] => Ok tt
  end.

Definition inline_step (decoded_by_name : gmap str bytes) (acc : sb_writer * Z) (entry : json)
    : M W (sb_writer * Z) :=
  name <- of_res (record_file_name entry);;
  match decoded_by_name !! name with
  | None => raise (KeyError name)
  | Some data =>
      '(writer, _) <- on_store (sb_write_file acc.1 name (bytes_io data));;
      ret (writer, acc.2 + blen data)%Z
  end.

Definition open_or_value_error (path : str) : M W sb_writer :=
  catch (on_store (sb_open_bundle_write path)) (λ e,
    match e with
    | BundlePathConflictError _ kind =>
        Some (value_error ("bundle_path_conflict: kind=" +:+ conflict_kind_name kind))
    | OSError EEXIST _ => Some (value_error "bundle_path_conflict: kind=occupied")
    | _ => None
    end).

Definition cassetta_send_inline (token : str) (files : list SendInlineFile) : M W json :=
  claims <- catch (verify_token token) (λ e,
    match e with TokenError t => Some (raise (mcp_jwt_error t)) | _ => None end);;
  if negb (get_is "mode" "inline" claims) then value_error "unauthenticated: reason=wrong_mode"
  else
    manifest_files <- of_res (manifest_files_of claims);;
    by_name <- of_res (by_name_of manifest_files);;
    decoded_by_name <- of_res (decode_files by_name ∅ files);;
    of_res (check_missing by_name decoded_by_name);;;
    bundle_path <- of_res (dict_item "bundle_path" claims);;
    bundle_id <- of_res (dict_item "bundle_id" claims);;
    let bundle_id := py_str bundle_id in
    let sender := default JNull (dict_get "sender" claims) in
    struct_log INFO "upload_stream_start";;;
    writer <- open_or_value_error (py_str bundle_path);;
    catch (
      '(written, _) <- fold_m (inline_step decoded_by_name) (writer, 0%Z) manifest_files;;
      w <- get;;
      on_store (sb_commit written (uploaded_meta bundle_id sender (w_now w) manifest_files));;;
      ret tt)
    (λ e, Some (
      on_store (sb_abort writer);;;
      when (is_ValueError e) (struct_log WARNING "upload_manifest_violation");;;
      struct_log WARNING "upload_rollback";;;
      raise e));;;
    struct_log INFO "upload_stream_complete";;;
    ret (JDict [("bundle_id", JStr bundle_id); ("ok", JBool true)]).

(** ** The store *)

Definition cassetta_put (caller : Caller) (path content files : str) : M W json :=
  mcp_validate_path path;;;
  if startswith "inbox/" path || startswith "store/" path
  then value_error ("Invalid path: Reserved path prefix in " +:+ repr path)
  else
    parsed <- tool_files path content files;;
    let total_size := sumZ (map (λ f : str * bytes, blen f.2) parsed) in
    let file_count := length parsed in
    evaluate_upload_or_raise caller parsed;;;
    mcp_enforce caller ("files:" +:+ path) "write";;;
    let bundle_path := store_path path in
    bundle_id <- new_bundle_id;;
    delete_bundle_quiet bundle_path;;;
    catch (mcp_write_bundle bundle_path parsed JNull "application/octet-stream" bundle_id;;; ret tt)
      (λ e, match e with
        | BundlePathConflictError _ _ => Some (value_error (exn_text e))
        | _ => None
        end);;;
    struct_log INFO "file.uploaded";;;
    raw_count "cassetta.files.operations" "put";;;
    emit_metric (Increment "cassetta.files.bytes" total_size [("action", "put")]);;;
    ret (JStr (if (1 <? file_count)%nat
               then "Stored bundle '" +:+ path +:+ "' (" +:+ pretty (Z.of_nat file_count) +:+ " files, "
                    +:+ pretty total_size +:+ " bytes)"
               else "Stored " +:+ path +:+ " (" +:+ pretty total_size +:+ " bytes)")).

(** [read_bundle_meta] and the expiry check with the tools' errors. *)
Definition mcp_live_meta (bundle_path path : str) : M W dict :=
  meta <- try_read_meta bundle_path;;
  match meta with
  | None => mcp_not_found path
  | Some meta =>
      expired <- is_expired meta;;
      if expired : bool then delete_bundle_quiet bundle_path;;; mcp_not_found path
      else ret meta
  end.

(** The mode the policy decides for a bundle, with its records. *)
Definition mcp_mode (caller : Caller) (meta : dict) (file_count : Z) : M W (list json * DownloadMode * Z) :=
  records <- of_res (get_list "files" meta);;
  total_size <- of_res (total_size_of records);;
  mode <- of_res (evaluate_download app_limits (caller_identity caller)
                    {| de_file_count := file_count; de_total_size := total_size |});;
  struct_log DEBUG "download_mode_decision";;;
  ret (records, mode, total_size).

Definition cassetta_get (caller : Caller) (path : str) : M W json :=
  mcp_validate_path path;;;
  mcp_enforce caller ("files:" +:+ path) "read";;;
  let bundle_path := store_path path in
  let identity := caller_identity caller in
  meta <- mcp_live_meta bundle_path path;;
  file_count <- of_res (get_int "file_count" 1 meta);;
  struct_log INFO "file.downloaded";;;
  raw_count "cassetta.files.operations" "get";;;
  '((records, mode), total_size) <- mcp_mode caller meta file_count;;
  match mode with
  | Reference =>
      envelope <- build_reference_payload_for_store identity bundle_path meta (id_label identity);;
      ret (JStr (json_dumps envelope))
  | _ =>
      payloads <- collect_bundle_files bundle_path records;;
      emit_metric (Increment "cassetta.files.bytes" total_size [("action", "get")]);;;
      ret (JStr (json_dumps (build_inline_envelope meta payloads)))
  end.

Definition cassetta_delete (caller : Caller) (path : str) : M W json :=
  mcp_validate_path path;;;
  mcp_enforce caller ("files:" +:+ path) "delete";;;
  catch (on_store (sb_delete_bundle (store_path path)))
    (λ e, if is_FileNotFoundError e then Some (mcp_not_found path) else None);;;
  struct_log INFO "file.deleted";;;
  raw_count "cassetta.files.operations" "delete";;;
  ret (JStr ("Deleted " +:+ path)).

Definition mcp_list_step (hidden : gset str) (prefix : str) (sender : bool) (entries : list dict)
    (ref : BundleRef) : M W (list dict) :=
  if decide (br_path ref ∈ hidden) then ret entries
  else
    meta <- try_read_meta (br_path ref);;
    match meta with
    | None => ret entries
    | Some meta =>
        expired <- is_expired meta;;
        if expired : bool then ret entries
        else
          w <- get;;
          e <- of_res (mcp_listing_entry (w_now w) (removeprefix prefix (br_path ref)) meta
                         (cf_default_ttl app_config) sender);;
          ret (entries ++ [e])
    end.

(** The text of a listing: [json.dumps(entries, indent=2)], here without the
    indentation. *)
Definition listing_text (entries : list dict) : json := JStr (json_dumps (JList (map JDict entries))).

Definition cassetta_list (caller : Caller) (prefix : str) : M W json :=
  mcp_enforce caller "files:*" "list";;;
  refs <- list_bundles_w (store_path (lstrip "/" prefix)) false;;
  entries <- fold_m (mcp_list_step ∅ (store_path "") false) [] refs;;
  match entries with
  | [] => ret (JStr "No files found.")
  | _ =>
      struct_log INFO "file.listed";;;
      raw_count "cassetta.files.operations" "list";;;
      ret (listing_text entries)
  end.

(** ** The inbox *)

(** [agent or _sender_label.get() or ""]. *)
Definition inbox_target (caller : Caller) (agent : str) : str :=
  if decide (agent = "") then default "" (mc_sender caller) else agent.

Definition cassetta_inbox (caller : Caller) (agent prefix : str) : M W json :=
  let target := inbox_target caller agent in
  if decide (target = "") then value_error "No agent specified and no sender identity available"
  else
    mcp_enforce caller ("inbox:" +:+ target) "list";;;
    w <- get;;
    hidden <- on_claims (cs_iter_active (w_now w)
                (ttl_download_claim (ttls app_limits (caller_identity caller))));;
    refs <- list_bundles_w (inbox_path target prefix) false;;
    entries <- fold_m (mcp_list_step (dom hidden) (inbox_path target "") true) [] refs;;
    match entries with
    | [] => ret (JStr (json_dumps (JList [])))
    | _ =>
        struct_log INFO "inbox.listed";;;
        raw_count "cassetta.inbox.operations" "list";;;
        ret (listing_text (stable_sort newer_first entries))
    end.

(** [_resolve_latest_inbox_bundle]: the REST search without its log record. *)
Definition mcp_newest_step (acc : str * option (str * dict)) (ref : BundleRef)
    : M W (str * option (str * dict)) :=
  meta <- try_read_meta (br_path ref);;
  match meta with
  | None => ret acc
  | Some meta =>
      expired <- is_expired meta;;
      if expired : bool then ret acc
      else
        let created_at := get_str "created_at" "" meta in
        if str_ltb acc.1 created_at then ret (created_at, Some (br_path ref, meta)) else ret acc
  end.
Definition resolve_latest_inbox_bundle (target : str) : M W (option (str * dict)) :=
  refs <- list_bundles_w (inbox_path target "") false;;
  acc <- fold_m mcp_newest_step ("", None) refs;;
  ret acc.2.

Definition mcp_pick_target (target path : str) : M W (str * dict) :=
  if decide (path = "latest") then
    newest <- resolve_latest_inbox_bundle target;;
    match newest with None => value_error "No files in inbox" | Some r => ret r end
  else
    mcp_validate_path path;;;
    let bundle_path := inbox_path target path in
    meta <- mcp_live_meta bundle_path path;;
    ret (bundle_path, meta).

Definition cassetta_pick (caller : Caller) (path : str) : M W json :=
  let target := default "" (mc_sender caller) in
  let identity := caller_identity caller in
  if decide (target = "") then value_error "No sender identity available for inbox access"
  else
    mcp_enforce caller ("inbox:" +:+ target) "pick";;;
    '(bundle_path, meta) <- mcp_pick_target target path;;
    records <- of_res (get_list "files" meta);;
    file_count <- of_res (get_int "file_count" (Z.of_nat (length records)) meta);;
    '((records, mode), _) <- mcp_mode caller meta file_count;;
    match mode with
    | Reference =>
        envelope <- catch (build_reference_payload_for_inbox identity bundle_path meta target true)
          (λ e, match e with BundleClaimedError _ => Some (mcp_not_found path) | _ => None end);;
        struct_log INFO "inbox.picked";;;
        raw_count "cassetta.inbox.operations" "pick";;;
        ret (JStr (json_dumps envelope))
    | _ =>
        payloads <- collect_bundle_files bundle_path records;;
        delete_bundle_quiet bundle_path;;;
        struct_log INFO "inbox.picked";;;
        raw_count "cassetta.inbox.operations" "pick";;;
        ret (JStr (json_dumps (build_inline_envelope meta payloads)))
    end.

(** ** Peeking *)

(** Where a path points: the bundle, the resource of the policy, and whether
    it is in an inbox. *)
Definition peek_location (path : str) : M W (str * str * bool) :=
  if startswith "inbox/" path then
    match split1 "/" (removeprefix "inbox/" path) with
    | None => value_error ("Invalid path: " +:+ path)
    | Some (agent, file_path) =>
        mcp_validate_path file_path;;; ret (path, "inbox:" +:+ agent, true)
    end
  else if startswith "store/" path then
    let file_path := removeprefix "store/" path in
    mcp_validate_path file_path;;; ret (path, "files:" +:+ file_path, false)
  else mcp_validate_path path;;; ret (store_path path, "files:" +:+ path, false).

Definition cassetta_peek (caller : Caller) (path : str) : M W json :=
  '((bundle_path, resource), is_inbox) <- peek_location path;;
  mcp_enforce caller resource "peek";;;
  meta <- try_read_meta bundle_path;;
  match meta with
  | None => struct_log INFO "peek.not_found";;; value_error ("Not found: " +:+ path)
  | Some meta =>
      expired <- is_expired meta;;
      if expired : bool then struct_log INFO "peek.not_found";;; value_error ("Not found: " +:+ path)
      else
        _ <- of_res (get_int "file_count" 0 meta);;
        files <- of_res (get_list "files" meta);;
        _ <- of_res (total_size_of files);;
        struct_log DEBUG "peek.ok";;;
        raw_count (if is_inbox : bool then "cassetta.inbox.operations" else "cassetta.files.operations") "peek";;;
        ret (JStr (json_dumps (JDict [("bundle", JDict meta)])))
  end.

(** ** Agents and broadcasts *)

(** A recipient of a tool broadcast, whose errors are only counted. *)
Definition cassetta_broadcast (caller : Caller) (request : option HttpRequest) (path content files : str)
    : M W json :=
  match request with
  | None => ret tt
  | Some rq =>
      catch (check_rate_limit_imperative rq (cf_rate_limit_broadcast app_config)) (λ e,
        match e with
        | RateLimitExceeded expiry =>
            Some (emit_metric (Increment "cassetta.rate_limit.hits" 1
                    [("route", "broadcast"); ("reason", "rate")]);;;
                  value_error (json_dumps (JDict [("error", JStr "rate_limit");
                                                  ("retry_after", JInt (default 60%Z expiry))])))
        | _ => None
        end)
  end;;;
  mcp_validate_path path;;;
  parsed <- tool_files path content files;;
  let sender := mc_sender caller in
  evaluate_upload_or_raise caller parsed;;;
  keys <- on_keys kp_list_keys;;
  let candidates := candidate_labels sender keys in
  catch (of_res (check_fanout_cap (Z.of_nat (length candidates)) (cf_broadcast_max_targets app_config)))
    (λ e, match e with
      | FanoutCapExceeded max_targets =>
          Some (emit_metric (Increment "cassetta.rate_limit.hits" 1
                  [("route", "broadcast"); ("reason", "fanout_cap")]);;;
                value_error (json_dumps (JDict [("error", JStr "rate_limit");
                  ("reason", JStr "fanout_cap"); ("max_targets", JInt max_targets)])))
      | _ => None
      end);;;
  '(visible, visibility_failed) <- visible_labels (caller_identity caller) candidates
                                     "broadcast.visibility_failed";;
  outcomes <- fan_out (caller_identity caller) path (no_mime parsed) sender visible;;
  safe_emit (Some (INFO, "broadcast.sent"))
    (Some (count_event "cassetta.broadcast.operations" "result"
             (broadcast_result visibility_failed visible outcomes)));;;
  ret (JStr (
    if decide (visible = []) then "Broadcast '" +:+ path +:+ "': no visible recipients"
    else "Broadcast '" +:+ path +:+ "' to " +:+ pretty (Z.of_nat (length (delivered_of outcomes)))
         +:+ " recipients (" +:+ pretty (Z.of_nat (length (denied_of outcomes))) +:+ " denied, "
         +:+ pretty (Z.of_nat (length (failed_of outcomes))) +:+ " failed): "
         +:+ join_str ", " (delivered_of outcomes))).

Definition cassetta_agents (caller : Caller) : M W json :=
  keys <- on_keys kp_list_keys;;
  let active := filter (λ k, ki_is_active k = true) keys in
  let labels := map ki_label active in
  '(visible, _) <- visible_labels (caller_identity caller) labels "agents.visibility_failed";;
  emit_metric (count_event "cassetta.agents.list" "result"
    (if bool_decide (length visible = length labels) then "unfiltered" else "filtered"));;;
  ret (JStr (json_dumps (JList (map agent_json (filter (λ k, ki_label k ∈ visible) active))))).

(** [_cassetta_capabilities]. *)
Definition cassetta_capabilities (server_version : str) (caller : Caller) : M W json :=
  let doc := build_capabilities_document server_version app_limits (caller_identity caller) in
  struct_log DEBUG "capabilities.queried";;;
  safe_emit None (Some (count_event "cassetta.capabilities.queries" "via" "mcp"));;;
  ret (JStr (json_dumps (capabilities_json doc))).

(** ** [mcp_auth.py] *)

(** What [MCPAuthMiddleware] does with an HTTP request: a caller for the tools
    or a 401; [None] in dev mode leaves the context variables alone. *)
Definition mcp_authenticate (authorization : str) : M W (option Caller) :=
  if cf_dev_mode app_config then ret None
  else if negb (startswith "Bearer " authorization) then
    emit_auth_failure "mcp" "missing_bearer" None;;;
    http_error 401 "Missing authentication credentials"
  else
    let token := str_drop 7 authorization in
    key_info <- on_keys (kp_validate token);;
    match key_info with
    | None =>
        emit_auth_failure "mcp" "invalid_key"
          (if decide (token = "") then None else Some (str_take 12 token));;;
        http_error 401 "Invalid or revoked API key"
    | Some info =>
        identity <- of_res (app_identity info);;
        ret (Some {| mc_identity := Some identity; mc_sender := Some (id_label identity) |})
    end.
End mcp.

(** ** What the tools do on concrete calls *)

#[local] Existing Instances Demo.storage Demo.claims Demo.keys ToyJwt.
#[local] Instance open_server : App KeyStore := Demo.core true.
Definition anonymous : Caller := {| mc_identity := None; mc_sender := None |}.

(** A metrics provider that fails makes the tool fail after the bundle is
    stored, where the REST routes hide it. *)
Example raw_metrics_fail_a_stored_put :
  let run := cassetta_put (H2 := with_metric_failures (λ _, true) open_server) anonymous "a.txt" "hello" ""
    (Demo.world 0) in
  run.1 = Raise (OtherError "metrics") ∧
  (open_bundle_file_read [] "store/a.txt" "a.txt" (w_store run.2)).1 = Ok "hello".
Proof. split; vm_compute; reflexivity. Qed.

(** A second put replaces the bundle. *)
Example put_overwrites :
  let run := (cassetta_put anonymous "a.txt" "hello" "";;; cassetta_put anonymous "a.txt" "bye" "") (Demo.world 0) in
  run.1 = Ok (JStr "Stored a.txt (3 bytes)") ∧
  (open_bundle_file_read [] "store/a.txt" "a.txt" (w_store run.2)).1 = Ok "bye".
Proof. split; vm_compute; reflexivity. Qed.
