(* ===== verification/Agree.v ===== *)
(** * The tools and the routes agree

    [mcp_server.py] and [routes/*.py] are two front ends of the same store.
    [related] is a relational logic for a computation of each; with it, a
    tool call and the request for the same operation are shown to reach the
    same state, to answer with the same envelope, and to refuse for the same
    reason. *)

From Stdlib Require Import Ascii String.
From stdpp Require Import pretty.
From S2P Require Import Prelude PyStr PyCodec Json DateTime Effects PyNum Paths Limits Config.
From S2P Require Import Claims KeyStore Jwt FsModel Storage World Frame Backends Bundles Downloads Inbox Files RoundTrips.
From S2P Require Import SendInit Upload Agents Server Mcp.
Local Open Scope string_scope.
Local Open Scope list_scope.
Local Open Scope effect_scope.

(** ** A call of a tool over HTTP *)

(** [MCPAuthMiddleware.__call__] around a tool: the context variables start
    empty, and hold what the middleware found out about the bearer. *)
Definition mcp_call {S C K A} `{KeyStoreProtocol K, App K} (authorization : str)
    (tool : Caller → M (World S C K) A) : M (World S C K) A :=
  caller <- mcp_authenticate authorization;;
  tool (default {| mc_identity := None; mc_sender := None |} caller).

(** The operations that both front ends offer. *)
Inductive SharedOp :=
  | SGet (path : str)
  | SPeek (path : str)
  | SDelete (path : str)
  | SPick (agent path : str).

Section ops.
Context {S C K : Type} `{StorageBackend S, ClaimStorage C, KeyStoreProtocol K, !App K, PyJwt}.
Abbreviation W := (World S C K).

Definition route_of (op : SharedOp) (rq : HttpRequest) : M W Response :=
  match op with
  | SGet path => download_file rq path
  | SPeek path => peek_store_file rq path
  | SDelete path => delete_file rq path
  | SPick agent path => pick_inbox_file rq agent path
  end.

Definition tool_of (op : SharedOp) (caller : Caller) : M W json :=
  match op with
  | SGet path => cassetta_get caller path
  | SPeek path => cassetta_peek caller path
  | SDelete path => cassetta_delete caller path
  | SPick _ path => cassetta_pick caller path
  end.
End ops.

(** The text of a tool for the answer of the route. *)
Definition tool_text (op : SharedOp) (rsp : Response) : json :=
  match op with
  | SDelete path => JStr ("Deleted " +:+ path)
  | _ => JStr (json_dumps (rsp_body rsp))
  end.

(** The errors of a tool for the errors of the route: the status becomes a
    phrase, and what is not a refusal is the same exception. *)
Inductive same_refusal : exn → exn → Prop :=
  | refused_caller d d' : same_refusal (HTTPException 401 (DText d)) (HTTPException 401 (DText d'))
  | refused_path msg :
      same_refusal (HTTPException 400 (DText msg)) (ValueError PlainValueError ("Invalid path: " +:+ msg))
  | refused_policy : same_refusal (HTTPException 403 (DText "Forbidden")) (ValueError PlainValueError "Forbidden")
  | refused_missing path :
      same_refusal (HTTPException 404 (DText ("File not found: " +:+ path)))
        (ValueError PlainValueError ("File not found: " +:+ path))
  | refused_peek path :
      same_refusal (HTTPException 404 (DText ("File not found: " +:+ path)))
        (ValueError PlainValueError ("Not found: " +:+ path))
  | refused_empty :
      same_refusal (HTTPException 404 (DText "No files in inbox")) (ValueError PlainValueError "No files in inbox")
  | failed_alike e : same_refusal e e.

Definition same_reply (op : SharedOp) (route : res Response) (tool : res json) : Prop :=
  match route, tool with
  | Ok rsp, Ok text => rsp_status rsp = 200%Z ∧ text = tool_text op rsp
  | Raise e1, Raise e2 => same_refusal e1 e2
  | _, _ => False
  end.

(** ** Lemmas: a relational logic *)

Section related.
Context {S C K : Type}.
Abbreviation W := (World S C K).

(** Both return with results and states in [Q], or both raise, alike and in
    the same state. *)
Definition related {A B} (Q : A → B → relation W) (m1 : M W A) (m2 : M W B) (w1 w2 : W) : Prop :=
  match m1 w1, m2 w2 with
  | (Ok a, w1'), (Ok b, w2') => Q a b w1' w2'
  | (Raise e1, w1'), (Raise e2, w2') => same_refusal e1 e2 ∧ eqv w1' w2'
  | _, _ => False
  end.

(** The same result in the same state. *)
Definition alike {A} (a b : A) (w1 w2 : W) : Prop := a = b ∧ eqv w1 w2.

Lemma related_mono {A B} (Q Q' : A → B → relation W) m1 m2 w1 w2 :
  (∀ a b w1 w2, Q a b w1 w2 → Q' a b w1 w2) → related Q m1 m2 w1 w2 → related Q' m1 m2 w1 w2.
Proof. unfold related. intros HQ. destruct (m1 w1) as [[]], (m2 w2) as [[]]; auto. Qed.

Lemma related_bind {A B A' B'} (Q : A → B → relation W) (Q' : A' → B' → relation W) m1 m2 k1 k2 w1 w2 :
  related Q m1 m2 w1 w2 → (∀ a b w1 w2, Q a b w1 w2 → related Q' (k1 a) (k2 b) w1 w2) →
  related Q' (bind m1 k1) (bind m2 k2) w1 w2.
Proof.
  unfold related, bind. intros Hm Hk. destruct (m1 w1) as [[a|e1] w1'], (m2 w2) as [[b|e2] w2']; [|done..].
  by apply Hk.
Qed.

Lemma related_frames {A B} (R : relation W) (Q : A → B → relation W) m1 m2 w1 w2 :
  frames R m1 → related Q m1 m2 w1 w2 → related (λ a b v1 v2, Q a b v1 v2 ∧ R w1 v1) m1 m2 w1 w2.
Proof.
  intros Hf. specialize (Hf w1). unfold related.
  destruct (m1 w1) as [[a|e1] v1], (m2 w2) as [[b|e2] v2]; cbn in Hf; auto.
Qed.
Lemma related_fold_m {A B} (I : B → B → relation W) (f1 f2 : B → A → M W B) l acc1 acc2 w1 w2 :
  I acc1 acc2 w1 w2 →
  (∀ x acc1 acc2 w1 w2, I acc1 acc2 w1 w2 → related I (f1 acc1 x) (f2 acc2 x) w1 w2) →
  related I (fold_m f1 acc1 l) (fold_m f2 acc2 l) w1 w2.
Proof.
  intros HI Hf. revert acc1 acc2 w1 w2 HI. induction l as [|x l IH]; intros acc1 acc2 w1 w2 HI; [done|].
  cbn [fold_m]. eapply related_bind; [by apply Hf|]. intros. by apply IH.
Qed.

Lemma related_ret {A B} (Q : A → B → relation W) a b w1 w2 : Q a b w1 w2 → related Q (ret a) (ret b) w1 w2.
Proof. done. Qed.
Lemma related_raise {A B} (Q : A → B → relation W) e1 e2 w1 w2 :
  same_refusal e1 e2 → eqv w1 w2 → related Q (raise e1) (raise e2) w1 w2.
Proof. done. Qed.

Lemma related_run {A} (m1 m2 : M W A) w1 w2 : same_run m1 m2 → eqv w1 w2 → related alike m1 m2 w1 w2.
Proof.
  intros Hm Hw. specialize (Hm w1 w2 Hw). unfold related, alike.
  destruct (m1 w1) as [[a|e1] w1'], (m2 w2) as [[b|e2] w2']; cbn in Hm; destruct Hm as [Hr ?]; simplify_eq; [done|].
  split; [constructor|done].
Qed.

Lemma related_of_res {A B A'} (r : res A) (Q : A' → B → relation W) k1 k2 w1 w2 :
  eqv w1 w2 → (∀ a, r = Ok a → related Q (k1 a) (k2 a) w1 w2) →
  related Q (bind (of_res r) k1) (bind (of_res r) k2) w1 w2.
Proof. unfold related, bind, of_res. intros Hw Hk. destruct r; [by apply Hk|]. split; [constructor|done]. Qed.

Lemma related_catch {A} (m : M W A) h1 h2 w1 w2 :
  same_run m m → eqv w1 w2 →
  (∀ e v1 v2, eqv v1 v2 → match h1 e, h2 e with
     | Some x, Some y => related alike x y v1 v2 | None, None => True | _, _ => False end) →
  related alike (catch m h1) (catch m h2) w1 w2.
Proof.
  intros Hm Hw Hh. specialize (Hm w1 w2 Hw). unfold related, catch.
  destruct (m w1) as [[a|e1] v1], (m w2) as [[b|e2] v2]; cbn in Hm; destruct Hm as [Hr Hv]; simplify_eq; [done|].
  specialize (Hh e2 v1 v2 Hv). destruct (h1 e2), (h2 e2); try done. split; [constructor|done].
Qed.

Lemma related_assoc_l {A B A' B'} (Q : A → B → relation W) (m : M W A') (k : A' → M W B') k' m2 w1 w2 :
  related Q (bind m (λ a, bind (k a) k')) m2 w1 w2 → related Q (bind (bind m k) k') m2 w1 w2.
Proof. unfold related, bind. by destruct (m w1) as [[]]. Qed.
Lemma related_assoc_r {A B A' B'} (Q : A → B → relation W) (m : M W A') (k : A' → M W B') k' m1 w1 w2 :
  related Q m1 (bind m (λ a, bind (k a) k')) w1 w2 → related Q m1 (bind (bind m k) k') w1 w2.
Proof. unfold related, bind. by destruct (m w2) as [[]]. Qed.
Lemma related_ret_l {A B A'} (Q : A → B → relation W) (a : A') k m2 w1 w2 :
  related Q (k a) m2 w1 w2 → related Q (bind (ret a) k) m2 w1 w2.
Proof. done. Qed.
Lemma related_ok_l {A B A'} (Q : A → B → relation W) (r : res A') a k m2 w1 w2 :
  r = Ok a → related Q (k a) m2 w1 w2 → related Q (bind (of_res r) k) m2 w1 w2.
Proof. by intros ->. Qed.
Lemma related_ok_r {A B A'} (Q : A → B → relation W) (r : res A') a k m1 w1 w2 :
  r = Ok a → related Q m1 (k a) w1 w2 → related Q m1 (bind (of_res r) k) w1 w2.
Proof. by intros ->. Qed.
Lemma related_ret_r {A B A'} (Q : A → B → relation W) (a : A') k m1 w1 w2 :
  related Q m1 (k a) w1 w2 → related Q m1 (bind (ret a) k) w1 w2.
Proof. done. Qed.

(** What only emits is invisible, on either side. *)
Definition emits (m : M W unit) : Prop := ∀ w, ∃ evs, m w = (Ok tt, add_events evs w).

Lemma related_left {A B} (Q : A → B → relation W) m k m2 w1 w2 :
  emits m → (∀ evs, related Q (k tt) m2 (add_events evs w1) w2) → related Q (bind m k) m2 w1 w2.
Proof. intros Hm Hk. unfold related, bind. destruct (Hm w1) as [evs ->]. apply Hk. Qed.
Lemma related_right {A B} (Q : A → B → relation W) m k m1 w1 w2 :
  emits m → (∀ evs, related Q m1 (k tt) w1 (add_events evs w2)) → related Q m1 (bind m k) w1 w2.
Proof. intros Hm Hk. unfold related. destruct (Hm w2) as [evs E]. unfold bind. rewrite E. apply Hk. Qed.

Lemma emits_struct_log level name : emits (struct_log level name).
Proof. intros w. by exists [Log level name]. Qed.
Lemma emits_safe_emit `{!App K} log metric : emits (safe_emit log metric).
Proof. intros w. apply safe_emit_ok. Qed.
Lemma emits_auth_failure `{!App K} source reason hint : hint_ok hint = true → emits (emit_auth_failure source reason hint).
Proof. intros Hh w. by apply emit_auth_failure_ok. Qed.

(** A metrics provider that works. *)
Definition metrics_work `{!App K} : Prop := ∀ e, app_metric_fails e = false.
Lemma emits_metric `{!App K} e : metrics_work → emits (emit_metric e).
Proof. intros Hm w. exists [e]. unfold emit_metric. by rewrite Hm. Qed.

End related.

(** The same computation on both sides. *)
Lemma related_same {S C K A B B'} (m : M (World S C K) A) (Q : B → B' → relation (World S C K)) k1 k2 w1 w2 :
  same_run m m → eqv w1 w2 → (∀ a v1 v2, eqv v1 v2 → related Q (k1 a) (k2 a) v1 v2) →
  related Q (bind m k1) (bind m k2) w1 w2.
Proof. intros Hm Hw Hk. eapply related_bind; [by apply related_run|]. intros a ? v1 v2 [<- Hv]. by apply Hk. Qed.

Create HintDb agree.

(** [relate] takes the steps of either side that emit and those that both take
    on the same data. *)
Ltac relate_step :=
  lazymatch goal with
  | |- related _ (bind (bind _ _) _) _ _ _ => apply related_assoc_l
  | |- related _ _ (bind (bind _ _) _) _ _ => apply related_assoc_r
  | |- related _ (bind (ret _) _) _ _ _ => apply related_ret_l
  | |- related _ _ (bind (ret _) _) _ _ => apply related_ret_r
  | |- related _ (bind (struct_log _ _) _) _ _ _ => apply related_left; [apply emits_struct_log|intros ?]
  | |- related _ (bind (safe_emit _ _) _) _ _ _ => apply related_left; [apply emits_safe_emit|intros ?]
  | |- related _ (bind (count_inbox _) _) _ _ _ => apply related_left; [apply emits_safe_emit|intros ?]
  | |- related _ _ (bind (struct_log _ _) _) _ _ => apply related_right; [apply emits_struct_log|intros ?]
  | |- related _ _ (bind (emit_metric _) _) _ _ => apply related_right; [by apply emits_metric|intros ?]
  | |- related _ _ (bind (raw_count _ _) _) _ _ => apply related_right; [by apply emits_metric|intros ?]
  | |- related _ (bind (of_res ?r) _) (bind (of_res ?r) _) _ _ => apply related_of_res; [done|intros ? ?]
  | E : ?r = Ok _ |- related _ (bind (of_res ?r) _) _ _ _ => apply (related_ok_l _ _ _ _ _ _ _ E)
  | E : ?r = Ok _ |- related _ _ (bind (of_res ?r) _) _ _ => apply (related_ok_r _ _ _ _ _ _ _ E)
  | |- related _ (bind ?m _) (bind ?m _) _ _ =>
      apply related_same; [solve [auto with agree]|done|intros ? ? ? ?]
  | |- related _ (match ?x with _ => _ end) _ _ _ => destruct x eqn:?
  | |- related _ (raise _) (raise _) _ _ => apply related_raise; [constructor|done]
  | |- related _ (ret _) (ret _) _ _ => by apply related_ret
  end.
Ltac relate := repeat (relate_step; cbv beta zeta).

(** ** Lemmas: the steps of the two front ends *)

Section steps.
Context {S C K : Type} `{StorageReads S, ClaimReads C, KeyReads K, !App K, !PyJwt}.
Abbreviation W := (World S C K).
Implicit Types (w : W).
Hypothesis Hmetrics : metrics_work.

(** The tools check a path against the configured characters, the routes that
    read against the default ones. *)
Definition same_charset (path : str) : Prop :=
  validate_path path (Some (cf_allowed_path_chars app_config)) = validate_path path None.

Lemma related_validate path w1 w2 :
  same_charset path → eqv w1 w2 →
  related (λ _ _, eqv) (validate_or_400 path None) (mcp_validate_path path) w1 w2.
Proof.
  intros Hc Hw. unfold validate_or_400, mcp_validate_path, catch, of_res. rewrite Hc.
  unfold related. destruct (validate_path path None) as [|e]; [done|].
  destruct e as [[] ?| | | | | | | | | | | | | | | | | | |]; split; try done; constructor.
Qed.

Lemma related_enforce identity caller resource action w1 w2 :
  caller_identity caller = identity → eqv w1 w2 →
  related (λ _ _, eqv) (enforce identity resource action) (mcp_enforce caller resource action) w1 w2.
Proof.
  intros <- Hw. unfold enforce, mcp_enforce. eapply related_bind.
  - apply related_run; [|done]. unfold check_policy. same_run.
  - intros allowed ? v1 v2 [<- Hv]. destruct allowed; [done|]. apply related_raise; [constructor|done].
Qed.

Lemma run_try_read_meta p : same_run (try_read_meta p : M W (option dict)) (try_read_meta p).
Proof. unfold try_read_meta. same_run. Qed.
Lemma run_delete_quiet p : same_run (delete_bundle_quiet p : M W unit) (delete_bundle_quiet p).
Proof. unfold delete_bundle_quiet. same_run. Qed.
Lemma run_is_expired meta : same_run (is_expired meta : M W bool) (is_expired meta).
Proof. unfold is_expired. same_run. Qed.
Lemma run_collect p records : same_run (collect_bundle_files p records : M W _) (collect_bundle_files p records).
Proof. unfold collect_bundle_files. same_run. Qed.
Lemma run_reference_store identity p meta recipient :
  same_run (build_reference_payload_for_store identity p meta recipient : M W json)
    (build_reference_payload_for_store identity p meta recipient).
Proof. unfold build_reference_payload_for_store, mint_download_token, new_uuid. same_run. Qed.
Lemma run_reference_inbox identity p meta recipient b :
  same_run (build_reference_payload_for_inbox identity p meta recipient b : M W json)
    (build_reference_payload_for_inbox identity p meta recipient b).
Proof. unfold build_reference_payload_for_inbox, mint_download_token, new_uuid. same_run. Qed.

#[local] Hint Resolve run_try_read_meta run_delete_quiet run_is_expired run_collect run_reference_store
  run_reference_inbox : agree.

(** The metadata both found is that of the bundle, in the store as it was. *)
Definition read_alike (p : str) (s : S) (a b : dict) w1 w2 : Prop :=
  alike a b w1 w2 ∧ w_store w1 = s ∧ (sb_read_bundle_meta p s).1 = Ok a.

Lemma try_read_meta_Some p w meta w' :
  try_read_meta p w = (Ok (Some meta), w') →
  (sb_read_bundle_meta p (w_store w)).1 = Ok meta ∧ w_store w' = w_store w.
Proof.
  unfold try_read_meta, catch, bind, on_store, lift. pose proof (sr_meta p (w_store w)) as Hp.
  destruct (sb_read_bundle_meta p (w_store w)) as [[d|e] s]; cbn in *; subst s.
  - by intros [= -> <-].
  - by destruct (is_FileNotFoundError e).
Qed.

Lemma related_try_read p w1 w2 :
  eqv w1 w2 →
  related (λ a b v1 v2, alike a b v1 v2 ∧ ∀ meta, a = Some meta →
      (sb_read_bundle_meta p (w_store w1)).1 = Ok meta ∧ w_store v1 = w_store w1)
    (try_read_meta p) (try_read_meta p) w1 w2.
Proof.
  intros Hw. pose proof (related_run _ _ w1 w2 (run_try_read_meta p) Hw) as Hr. unfold related in *.
  destruct (try_read_meta p w1) as [[a|e1] v1] eqn:E, (try_read_meta p w2) as [[b|e2] v2]; try done.
  split; [done|]. intros meta ->. by eapply try_read_meta_Some.
Qed.

Lemma related_expired meta w1 w2 :
  eqv w1 w2 →
  related (λ a b v1 v2, alike a b v1 v2 ∧ w_store v1 = w_store w1) (is_expired meta) (is_expired meta) w1 w2.
Proof.
  intros Hw. pose proof (related_run _ _ w1 w2 (run_is_expired meta) Hw) as Hr.
  unfold related, is_expired, bind, get, of_res in *. by destruct (is_expired_by_meta (w_now w1) _ _), (is_expired_by_meta (w_now w2) _ _).
Qed.

Lemma related_live_meta p path w1 w2 :
  eqv w1 w2 →
  related (read_alike p (w_store w1)) (live_meta p path) (mcp_live_meta p path) w1 w2.
Proof.
  intros Hw. unfold live_meta, mcp_live_meta. eapply related_bind; [by apply related_try_read|].
  intros [meta|] ? v1 v2 [[<- Hv] Hread].
  2:{ apply related_raise; [constructor|done]. }
  destruct (Hread meta eq_refl) as [Hm Hs]. eapply related_bind; [by apply related_expired|].
  intros expired ? u1 u2 [[<- Hu] Es]. destruct expired.
  - eapply related_bind; [apply related_run; [apply run_delete_quiet|done]|].
    intros [] [] x1 x2 [_ Hx]. apply related_raise; [constructor|done].
  - apply related_ret. split_and!; [by split|congruence|done].
Qed.

(** ** Lemmas: the two ways in *)

(** A request with an API key as its bearer token, and the call with the same
    header. *)
Definition bearer (rq : HttpRequest) (token : str) : Prop :=
  rq_x_setup_token rq = None ∧ rq_credentials rq = Some token.

Lemma related_authenticate rq token w1 w2 :
  bearer rq token → eqv w1 w2 →
  related (λ id caller v1 v2, eqv v1 v2 ∧ (get_current_identity rq w1).1 = Ok id ∧
      let c := default {| mc_identity := None; mc_sender := None |} caller in
      caller_identity c = id ∧ (cf_dev_mode app_config = false → mc_sender c = Some (id_label id)))
    (get_current_identity rq) (mcp_authenticate ("Bearer " +:+ token)) w1 w2.
Proof.
  intros [Hs Hc] Hw.
  assert (Hr : related (λ id caller v1 v2, eqv v1 v2 ∧
      let c := default {| mc_identity := None; mc_sender := None |} caller in
      caller_identity c = id ∧ (cf_dev_mode app_config = false → mc_sender c = Some (id_label id)))
    (get_current_identity rq) (mcp_authenticate ("Bearer " +:+ token)) w1 w2).
  - unfold get_current_identity, mcp_authenticate. rewrite Hs, Hc. destruct (cf_dev_mode app_config); [done|].
    rewrite decide_False by done. cbv zeta. change (negb (startswith "Bearer " ("Bearer " +:+ token))) with false.
    change (str_drop 7 ("Bearer " +:+ token)) with token. cbv iota.
    eapply related_bind; [apply related_run; [apply run_on_keys|done]|].
    intros [info|] ? v1 v2 [<- Hv].
    + destruct (app_identity info) as [id|e]; [done|]. split; [constructor|done].
    + apply related_left; [apply emits_auth_failure, hint_ok_credentials|]. intros evs1.
      apply related_right; [apply emits_auth_failure, hint_ok_credentials|]. intros evs2.
      apply related_raise; [constructor|done].
  - unfold related in *. destruct (get_current_identity rq w1) as [[id|e1] v1],
      (mcp_authenticate ("Bearer " +:+ token) w2) as [[c|e2] v2]; try done.
    cbn [fst]. by destruct Hr as [? ?].
Qed.

(** ** Lemmas: the operations *)

(** Answers of the route and the tool, in the same state. *)
Definition answered (op : SharedOp) (rsp : Response) (text : json) : relation W := λ w1 w2,
  eqv w1 w2 ∧ rsp_status rsp = 200%Z ∧ text = tool_text op rsp.

(** The two ways in, then the operation for the caller they agree on. *)
Lemma related_call op rq token k tool w1 w2 :
  bearer rq token → eqv w1 w2 →
  (∀ identity caller v1 v2, eqv v1 v2 → same_data w1 v1 → (get_current_identity rq w1).1 = Ok identity →
     caller_identity caller = identity → (cf_dev_mode app_config = false → mc_sender caller = Some (id_label identity)) →
     related (answered op) (k identity) (tool caller) v1 v2) →
  related (answered op) (bind (get_current_identity rq) k) (mcp_call ("Bearer " +:+ token) tool) w1 w2.
Proof.
  intros Hb Hw Hk. unfold mcp_call. eapply related_bind.
  { apply related_frames; [apply frames_current_identity|by apply related_authenticate]. }
  intros id oc v1 v2 [(Hv & Hid & Hc & Hs) Hd]. by apply Hk.
Qed.

Lemma related_delete rq token path w1 w2 :
  bearer rq token → same_charset path → eqv w1 w2 →
  related (answered (SDelete path)) (delete_file rq path)
    (mcp_call ("Bearer " +:+ token) (λ caller, cassetta_delete caller path)) w1 w2.
Proof.
  intros Hb Hc Hw. apply related_call; [done..|]. intros identity caller u1 u2 Hu _ _ Hid _.
  unfold cassetta_delete. eapply related_bind; [by apply related_validate|]. intros [] [] v1 v2 Hv.
  eapply related_bind; [by apply related_enforce|]. intros [] [] x1 x2 Hx.
  eapply related_bind.
  { apply related_catch; [apply run_on_store|done|]. intros e y1 y2 Hy.
    destruct (is_FileNotFoundError e); [|done]. apply related_raise; [constructor|done]. }
  intros [] [] y1 y2 [_ Hy]. relate.
Qed.

Lemma related_get rq token path w1 w2 :
  bearer rq token → same_charset path → eqv w1 w2 →
  related (answered (SGet path)) (download_file rq path)
    (mcp_call ("Bearer " +:+ token) (λ caller, cassetta_get caller path)) w1 w2.
Proof.
  intros Hb Hc Hw. apply related_call; [done..|]. intros identity caller u1 u2 Hu _ _ Hid _.
  unfold cassetta_get. eapply related_bind; [by apply related_validate|]. intros [] [] v1 v2 Hv.
  eapply related_bind; [by apply related_enforce|]. intros [] [] x1 x2 Hx. cbv zeta.
  eapply related_bind; [by apply related_live_meta|]. intros meta ? y1 y2 [[<- Hy] _]. rewrite Hid.
  unfold download_mode, mcp_mode. rewrite Hid. relate.
Qed.

(** Where a tool looks for a bare path. *)
Lemma related_peek_location path w1 w2 :
  find_first (λ p, startswith p path) RESERVED_PREFIXES = None → same_charset path → eqv w1 w2 →
  related (λ _ location v1 v2, eqv v1 v2 ∧ location = (store_path path, "files:" +:+ path, false))
    (validate_or_400 path None) (peek_location path) w1 w2.
Proof.
  intros Hp Hc Hw. unfold peek_location.
  assert (startswith "inbox/" path = false ∧ startswith "store/" path = false) as [-> ->].
  { unfold RESERVED_PREFIXES in Hp. cbv [find_first] in Hp.
    destruct (startswith "inbox/" path); [done|]. by destruct (startswith "store/" path). }
  pose proof (related_validate path w1 w2 Hc Hw) as Hr. unfold related, bind in *.
  destruct (validate_or_400 path None w1) as [[] v1], (mcp_validate_path path w2) as [[] v2]; try done.
Qed.

Lemma related_peek rq token path w1 w2 :
  find_first (λ p, startswith p path) RESERVED_PREFIXES = None →
  bearer rq token → same_charset path → eqv w1 w2 →
  related (answered (SPeek path)) (peek_store_file rq path)
    (mcp_call ("Bearer " +:+ token) (λ caller, cassetta_peek caller path)) w1 w2.
Proof.
  intros Hp Hb Hc Hw. apply related_call; [done..|]. intros identity caller u1 u2 Hu _ _ Hid _.
  unfold cassetta_peek. eapply related_bind; [by apply related_peek_location|]. intros [] ? v1 v2 [Hv ->].
  eapply related_bind; [by apply related_enforce|]. intros [] [] x1 x2 Hx.
  eapply related_bind; [by apply related_try_read|]. intros [meta|] ? y1 y2 [[<- Hy] _].
  2:{ unfold file_not_found, http_error, value_error. relate. }
  eapply related_bind; [by apply related_expired|]. intros expired ? z1 z2 [[<- Hz] _].
  unfold file_not_found, http_error, value_error. relate.
Qed.

(** ** Lemmas: picking *)

Lemma related_list prefix w1 w2 :
  eqv w1 w2 →
  related (λ a b v1 v2, alike a b v1 v2 ∧ same_data w1 v1) (list_bundles_w prefix false) (list_bundles_w prefix false) w1 w2.
Proof. intros Hw. apply related_frames; [apply frames_list_bundles|]. by apply related_run; [apply run_list_bundles|]. Qed.

(** The newest bundle so far was read from the store. *)
Definition newest_alike (s : S) (acc1 acc2 : str * option (str * dict)) w1 w2 : Prop :=
  alike acc1 acc2 w1 w2 ∧ w_store w1 = s ∧
  ∀ p meta, acc1.2 = Some (p, meta) → (sb_read_bundle_meta p s).1 = Ok meta.

Lemma related_newest_step s ref acc1 acc2 w1 w2 :
  newest_alike s acc1 acc2 w1 w2 → related (newest_alike s) (newest_step acc1 ref) (mcp_newest_step acc2 ref) w1 w2.
Proof.
  intros ([<- Hw] & Es & Hr). unfold newest_step, mcp_newest_step.
  eapply related_bind; [apply related_frames; [apply frames_try_read_meta|by apply related_try_read]|].
  intros [meta|] ? v1 v2 [[[<- Hv] Hread] Hd]; pose proof (sd_store _ _ Hd) as Ev.
  2:{ relate. split_and!; [by split|by rewrite <- Es|done]. }
  destruct (Hread meta eq_refl) as [Hm _]. rewrite Es in Hm.
  eapply related_bind; [by apply related_expired|]. intros expired ? u1 u2 [[<- Hu] Eu].
  assert (Hacc : newest_alike s acc1 acc1 u1 u2) by (split_and!; [by split|congruence|done]).
  relate. split_and!; [by split|congruence|]. by intros p meta' [= <- <-].
Qed.

Lemma related_pick_target agent path w1 w2 :
  path = "latest" ∨ validate_path path (Some (cf_allowed_path_chars app_config)) = Ok tt → eqv w1 w2 →
  related (λ r1 r2 v1 v2, eqv v1 v2 ∧ r2 = (r1.1.1, r1.2) ∧ (sb_read_bundle_meta r1.1.1 (w_store w1)).1 = Ok r1.2)
    (pick_target agent path) (mcp_pick_target agent path) w1 w2.
Proof.
  intros Hp Hw. unfold pick_target, mcp_pick_target. case_decide.
  - unfold find_newest, resolve_latest_inbox_bundle. relate.
    eapply related_bind; [by apply related_list|]. intros refs ? v1 v2 [[<- Hv] Hd]. relate.
    eapply related_bind.
    { apply (related_fold_m (newest_alike (w_store w1))); [|intros; by apply related_newest_step].
      split_and!; [by split|apply Hd|done]. }
    intros acc ? u1 u2 ([<- Hu] & _ & Hr). unfold http_error, value_error. relate. apply related_ret. split_and!; [done..|]. by apply Hr.
  - destruct Hp as [?|Hv]; [done|]. cbv zeta. apply related_right.
    { intros w. exists []. unfold mcp_validate_path, catch, of_res. by rewrite Hv, add_events_nil. }
    intros evs. eapply related_bind; [by apply related_live_meta|].
    intros meta ? v1 v2 [[<- Hv'] [_ Hm]]. by apply related_ret.
Qed.

(** The metadata of the stored bundles states the number of files, as that of
    every bundle the server commits does: without one the route counts one file
    and the tool its records. *)
Definition counted (s : S) : Prop :=
  ∀ p meta, (sb_read_bundle_meta p s).1 = Ok meta → ∃ n, ∀ dflt, get_int "file_count" dflt meta = Ok n.

Lemma related_pick rq token agent path w1 w2 :
  cf_dev_mode app_config = false → agent ≠ "" → (∀ id, (get_current_identity rq w1).1 = Ok id → id_label id = agent) →
  path = "latest" ∨ validate_path path (Some (cf_allowed_path_chars app_config)) = Ok tt →
  counted (w_store w1) → bearer rq token → eqv w1 w2 →
  related (answered (SPick agent path)) (pick_inbox_file rq agent path)
    (mcp_call ("Bearer " +:+ token) (λ caller, cassetta_pick caller path)) w1 w2.
Proof.
  intros Hdev Hne Hown Hp Hcount Hb Hw. apply related_call; [done..|]. intros identity caller u1 u2 Hu Hd1 Hid Hc Hs.
  apply Hown in Hid. unfold cassetta_pick. rewrite (Hs Hdev), Hid, Hc. cbn [default]. rewrite decide_False by done.
  eapply related_bind; [by apply related_frames; [apply frames_enforce|apply related_enforce]|].
  intros [] [] v1 v2 [Hv Hd2]. relate.
  eapply related_bind; [by apply related_pick_target|]. intros [[p actual] meta] ? x1 x2 (Hx & -> & Hm). cbn [fst snd] in *.
  destruct (Hcount p meta) as [n Hn].
  { cbn [w_store add_events] in Hm. by rewrite (sd_store _ _ Hd2), (sd_store _ _ Hd1) in Hm. }
  unfold download_mode, mcp_mode. rewrite Hc. pose proof (Hn 1%Z) as Hn1. relate.
  specialize (Hn (Z.of_nat (length a))). unfold id. relate.
  eapply related_bind.
  { apply related_catch; [apply run_reference_inbox|done|]. intros e y1 y2 Hy.
    destruct e; try done. apply related_raise; [constructor|done]. }
  intros envelope ? y1 y2 [<- Hy]. relate.
Qed.
End steps.

(** ** Properties *)

(** What an operation needs for the two front ends to agree: a path that both
    character sets treat alike; for a peek, a bare path; for a pick, an
    authenticated caller picking from its own inbox. *)
Definition comparable {S C K} `{StorageBackend S, ClaimStorage C, KeyStoreProtocol K, !App K, PyJwt}
    (op : SharedOp) (rq : HttpRequest) (w : World S C K) : Prop :=
  match op with
  | SGet path | SDelete path => same_charset path
  | SPeek path => find_first (λ p, startswith p path) RESERVED_PREFIXES = None ∧ same_charset path
  | SPick agent path =>
      cf_dev_mode app_config = false ∧ agent ≠ "" ∧
      (∀ id, (get_current_identity rq w).1 = Ok id → id_label id = agent) ∧
      (path = "latest" ∨ validate_path path (Some (cf_allowed_path_chars app_config)) = Ok tt) ∧
      counted (w_store w)
  end.

(** C8: the tools are the routes in other words: for a working metrics provider
    and any storage, claims, keys, policies and configuration, reading,
    peeking, deleting and picking over MCP with an API key leaves the same
    bundles, claims, keys and identifiers as the request with that key; it
    answers exactly when the route answers 200, with the text of the same
    envelope, inline or by reference; and when the route refuses or fails, it
    refuses for the same reason. *)
Theorem tools_agree_with_routes {S C K} `{StorageReads S, ClaimReads C, KeyReads K, !App K, PyJwt}
    op rq token (w : World S C K) :
  metrics_work → bearer rq token → comparable op rq w →
  let route := route_of op rq w in
  let tool := mcp_call ("Bearer " +:+ token) (tool_of op) w in
  same_reply op route.1 tool.1 ∧ eqv route.2 tool.2.
Proof.
  intros Hm Hb Hc route tool.
  enough (Hr : related (answered op) (route_of op rq) (mcp_call ("Bearer " +:+ token) (tool_of op)) w w).
  { unfold related in Hr. fold route tool in Hr. destruct route as [[rsp|e1] w1], tool as [[text|e2] w2]; try done.
    destruct Hr as (? & ? & ?). done. }
  assert (Hw : eqv w w) by done. destruct op; cbn [route_of tool_of]; unfold comparable in Hc.
  - by apply related_get.
  - destruct Hc. by apply related_peek.
  - by apply related_delete.
  - destruct Hc as (? & ? & ? & ? & ?). by apply related_pick.
Qed.

#[local] Existing Instances Demo.storage Demo.claims Demo.keys ToyJwt demo_bundle_laws.

(** Every file of the tree that is a JSON object states a number of files. *)
Definition states_count (body : bytes) : bool :=
  match utf8_decode body ≫= json_loads with
  | Some (JDict meta) => match dict_get "file_count" meta with Some (JInt _) => true | _ => false end
  | _ => true
  end.
Definition fs_countedb (fs : Fs) : bool :=
  forallb (λ kv, match kv.2 with NFile body => states_count body | NDir => true end) (map_to_list (nodes fs)).

Lemma fs_countedb_sound fs : fs_countedb fs = true → counted fs.
Proof.
  intros Hc p meta. cbn [sb_read_bundle_meta Demo.storage FilesystemBackend].
  unfold read_bundle_meta, read_bytes, lookup_path, bind, get. cbv zeta. destruct (is_file fs _); [|done].
  destruct (namei fs [] _) as [q|]; [|done]. cbn.
  destruct (nodes fs !! q) as [[body|]|] eqn:Eq; [|done..].
  assert (Hs : states_count body = true).
  { unfold fs_countedb in Hc. rewrite forallb_forall in Hc.
    apply (Hc (q, NFile body)), list_elem_of_In, elem_of_map_to_list. done. }
  unfold states_count in Hs. unfold ret at 1. cbv beta iota. destruct (utf8_decode body) as [text|]; [|by intros [=]].
  change (Some text ≫= json_loads) with (json_loads text) in Hs.
  destruct (json_loads text) as [[| | | | | |d]|]; try (by intros [=]). intros [= ->].
  destruct (dict_get "file_count" meta) as [[]|] eqn:E; try done.
  eexists. intros dflt. unfold get_int. by rewrite E.
Qed.

#[local] Instance closed_server : App KeyStore := Demo.core false.

(** Bob, with a key, and the message for him. *)
Definition bobs_key : str * KeyStore :=
  match kp_create_key "bob" (fresh_store [] 0) with (Ok (key, _), keys) => (key, keys) | (_, keys) => ("", keys) end.
Definition bobs_inbox : Demo.World := set_keystore bobs_key.2 demo_inbox.
Definition bobs_request : HttpRequest := {|
  rq_x_setup_token := None; rq_credentials := Some bobs_key.1; rq_authorization := "Bearer " +:+ bobs_key.1;
  rq_x_sender := None; rq_raw_path := ""; rq_content_type := ""; rq_content_encoding := ""; rq_body := [];
  rq_body_error := None; rq_form := []; rq_client := "127.0.0.1" |}.

Lemma tools_agree_with_routes_witness :
  let route := route_of (SPick "bob" "m1") bobs_request bobs_inbox in
  let tool := mcp_call ("Bearer " +:+ bobs_key.1) (tool_of (SPick "bob" "m1")) bobs_inbox in
  (∃ rsp, route.1 = Ok rsp ∧ tool.1 = Ok (JStr (json_dumps (rsp_body rsp)))) ∧ eqv route.2 tool.2.
Proof.
  intros route tool.
  destruct (tools_agree_with_routes (SPick "bob" "m1") bobs_request bobs_key.1 bobs_inbox) as [Hr He].
  - intros e. reflexivity.
  - split; reflexivity.
  - split; [reflexivity|]. split; [discriminate|]. split.
    { intros id Hid. vm_compute in Hid. injection Hid as <-. reflexivity. }
    split; [right; vm_compute; reflexivity|]. apply fs_countedb_sound. vm_compute. reflexivity.
  - split; [|exact He]. assert (Eok : ∃ rsp, route.1 = Ok rsp) by (eexists; vm_compute; reflexivity).
    destruct Eok as [rsp Er]. exists rsp. split; [exact Er|]. fold route tool in Hr. rewrite Er in Hr.
    destruct tool as [[text|e] w2]; [|destruct Hr]. destruct Hr as [_ ->]. reflexivity.
Defined.
