(* ===== verification/McpFlow.v ===== *)
(** * Sending and storing over MCP

    The writing tools of [Mcp] over any store that keeps the contract of
    [Bundles]: an inline send stores exactly the files its credential declares
    or changes nothing, and what a put stored is what every reader of the store
    gets. *)

From Stdlib Require Import Ascii String.
From stdpp Require Import pretty.
From S2P Require Import Prelude PyStr PyCodec Json DateTime Effects PyNum Paths Limits Config.
From S2P Require Import Claims KeyStore Jwt FsModel Storage World Frame Backends Bundles Downloads Inbox Files RoundTrips.
From S2P Require Import SendInit Upload Download TwoPhase SendFlow Agents Server Mcp Agree.
Local Open Scope string_scope.
Local Open Scope list_scope.
Local Open Scope effect_scope.

(** ** Lemmas: the decoded contents *)

(** The call has the contents [d] for the name [n]. *)
Definition supplied (files : list SendInlineFile) (n : str) (d : bytes) : Prop :=
  ∃ f, f ∈ files ∧ il_name f = n ∧ decode_inline_content (il_content f) (il_encoding f) n = Ok d.

Lemma decode_files_sound by_name files D decoded :
  decode_files by_name D files = Ok decoded →
  (∀ n, n ∈ dom decoded → n ∈ dom D ∨ n ∈ dom by_name) ∧
  ∀ n d, decoded !! n = Some d → D !! n = Some d ∨ supplied files n d.
Proof.
  revert D. induction files as [|f files IH]; intros D.
  { intros [= ->]. split; auto. }
  cbn [decode_files]. unfold res_bind. destruct (by_name !! il_name f) as [declared|] eqn:Eb; [|done].
  destruct (decode_inline_content _ _ _) as [d|] eqn:Ed; [|done].
  destruct (get_int "size" 0 declared) as [z|]; [|done]. case_decide; [|done].
  intros [Hdom Hlook]%IH. split.
  - intros n [Hn|?]%Hdom; [|by right]. rewrite dom_insert in Hn.
    apply elem_of_union in Hn as [->%elem_of_singleton|?]; [|by left]. right. by apply elem_of_dom.
  - intros n d' [Hn|(g & ? & ? & ?)]%Hlook.
    + destruct (decide (il_name f = n)) as [<-|Hne].
      * rewrite lookup_insert_eq in Hn. injection Hn as <-. right. exists f. split_and!; [by left|done|done].
      * rewrite lookup_insert_ne in Hn by done. by left.
    + right. exists g. split_and!; [by right|done|done].
Qed.

Lemma check_missing_ok by_name decoded :
  check_missing by_name decoded = Ok tt → dom by_name ⊆ (dom decoded : gset str).
Proof.
  unfold check_missing. destruct (sorted _) as [|x l] eqn:E; [|done]. intros _ n Hn.
  destruct (decide (n ∈ (dom decoded : gset str))) as [?|Hnot]; [done|]. exfalso.
  assert (Hin : n ∈ sorted (elements (dom by_name ∖ dom decoded : gset str))).
  { rewrite elem_of_sorted. set_solver. }
  rewrite E in Hin. by apply not_elem_of_nil in Hin.
Qed.

(** The files in the order of the manifest. *)
Definition contents_of (decoded : gmap str bytes) (names : list str) : list (str * bytes) :=
  omap (λ n, d ← decoded !! n; Some (n, d)) names.

Lemma contents_names decoded names :
  (∀ n, n ∈ names → is_Some (decoded !! n)) → (contents_of decoded names).*1 = names.
Proof.
  induction names as [|n names IH]; intros Hd; [done|]. destruct (Hd n) as [d E]; [by left|].
  unfold contents_of. cbn. rewrite E. cbn. f_equal. apply IH. intros m Hm. apply Hd. by right.
Qed.

Lemma contents_lookup decoded names n d : (n, d) ∈ contents_of decoded names → decoded !! n = Some d.
Proof.
  unfold contents_of. rewrite list_elem_of_omap. intros (m & _ & Em). destruct (decoded !! m) as [d'|] eqn:E; [|done].
  cbn in Em. by simplify_eq.
Qed.

(** ** Lemmas: an inline send *)

Section inline.
Context {S C K : Type} `{StorageReads S, !BundleLaws S, ClaimReads C, KeyReads K, !App K, PyJwt}.
Abbreviation W := (World S C K).
Implicit Types (w : W).

Lemma wp_inline_files p h0 s0 decoded names V0 (entries : list json) h total w :
  declared_names entries = Ok names → (∀ n, n ∈ names → is_Some (decoded !! n)) →
  names_ok (V0.*1 ++ names) → bl_session p h0 V0 s0 (w_store w) h →
  wp (fold_m (inline_step decoded) (h, total) entries)
    (λ r w', bl_session p h0 (V0 ++ contents_of decoded names) s0 (w_store w') r.1 ∧ w_now w' = w_now w)
    (λ _ _, False) w.
Proof.
  intros Hn%map_res_Ok. revert V0 h total w. induction Hn as [|e n entries names He Hn IH]; intros V0 h total w Hd Hok Hs.
  { cbn. by rewrite app_nil_r. }
  destruct (Hd n) as [d E]; [by left|]. cbn [fold_m]. apply wp_bind. unfold inline_step at 1.
  apply wp_bind, wp_of_res. rewrite He, E. apply wp_bind, wp_on_store.
  assert (Hok1 : names_ok (V0.*1 ++ [n])) by (apply (names_ok_prefix _ names); by rewrite <- app_assoc).
  destruct (bl_write _ _ _ _ _ _ n d Hs Hok1) as (h' & s' & Ew & Hs'). unfold wp at 1. cbn [fst]. rewrite Ew.
  apply wp_ret. eapply wp_mono; [| |apply (IH (V0 ++ [(n, d)]))].
  - intros r w' [Hs2 Hnow]. split; [|done]. unfold contents_of. cbn. rewrite E. cbn.
    by rewrite <- app_assoc in Hs2.
  - done.
  - intros m Hm. apply Hd. by right.
  - rewrite fmap_app, <- app_assoc. exact Hok.
  - exact Hs'.
Qed.

(** What a failure of the body leaves: the reads of before the call. *)
Lemma wp_inline_failed {A} (P : Prop) p h0 (h : sb_writer) V s0 e w (Q : A → W → Prop) :
  bl_session p h0 V s0 (w_store w) h → P →
  wp (on_store (sb_abort h0);;;
      when (is_ValueError e) (struct_log WARNING "upload_manifest_violation");;;
      struct_log WARNING "upload_rollback";;;
      raise e) Q (λ _ w', bl_inv (w_store w') ∧ same_reads s0 (w_store w') ∧ P) w.
Proof.
  intros Hs HP. destruct (bl_abort _ _ _ _ _ _ Hs) as (s' & E & Hi & Hsame).
  apply wp_bind, wp_on_store. unfold wp at 1. rewrite E.
  apply wp_bind. destruct (is_ValueError e); [apply wp_struct_log|apply wp_ret]; by apply wp_bind, wp_struct_log, wp_raise.
Qed.

Lemma wp_open_or_value_error (P : Prop) p s0 w (Q : sb_writer → W → Prop) :
  w_store w = s0 → bl_inv s0 → key_ok p → (¬ bl_free s0 p → P) →
  (∀ h s, bl_session p h [] s0 s h → Q h (set_store s w)) →
  wp (open_or_value_error p) Q (λ _ w', bl_inv (w_store w') ∧ same_reads s0 (w_store w') ∧ P) w.
Proof.
  intros <- Hi Hp HP HQ. unfold open_or_value_error. apply wp_catch, wp_on_store.
  pose proof (bl_open p (w_store w) Hi Hp) as Ho. unfold wp at 1. unfold wp in Ho.
  destruct (sb_open_bundle_write p (w_store w)) as [[h|e] s] eqn:E; [by apply HQ|].
  assert P as HP'.
  { apply HP. intros Hfree. destruct (bl_open_free p (w_store w) Hi Hp Hfree) as (h & s' & E'). congruence. }
  destruct Ho. by destruct e as [| |[]| | | | | | | | | | | | | | | | |].
Qed.

(** What a successful inline send stored: for every declared name one file, in
    the order of the manifest, with the contents the call has for it. *)
Definition inline_stored (files : list SendInlineFile) (claims : dict) (path : str) w w' : Prop :=
  ∃ entries names id V,
    let meta := uploaded_meta id (default JNull (dict_get "sender" claims)) (w_now w) entries in
    manifest_files_of claims = Ok entries ∧ declared_names entries = Ok names ∧
    dict_get "bundle_id" claims = Some (JStr id) ∧ V.*1 = names ∧
    (∀ n d, (n, d) ∈ V → supplied files n d) ∧ declares meta (written_of V) ∧
    stored (w_store w') path meta V.

(** The call and the credential fit, and the path is free. *)
Definition inline_fits (files : list SendInlineFile) (claims : dict) (path : str) w : Prop :=
  get_is "mode" "inline" claims = true ∧ bl_free (w_store w) path ∧
  ∃ entries names by_name decoded id,
    manifest_files_of claims = Ok entries ∧ declared_names entries = Ok names ∧ by_name_of entries = Ok by_name ∧
    decode_files by_name ∅ files = Ok decoded ∧ check_missing by_name decoded = Ok tt ∧
    dict_get "bundle_id" claims = Some (JStr id) ∧
    declares (uploaded_meta id (default JNull (dict_get "sender" claims)) (w_now w) entries)
      (written_of (contents_of decoded names)).

#[local] Ltac misfit := split_and!; [done|done|]; intros (? & ? & ? & ? & ? & ? & ? & ? & ? & ? & ? & ? & ? & ?);
  simplify_eq; try done; try congruence.

(** An inline send succeeds or changes no read, and it fails only when the
    call does not fit. *)
Lemma wp_send_inline token files claims path w :
  bl_inv (w_store w) → (verify_token token w).1 = Ok claims → credential_ok claims path →
  dict_get "bundle_path" claims = Some (JStr path) →
  wp (cassetta_send_inline token files)
    (λ reply w', reply = JDict [("bundle_id", default JNull (dict_get "bundle_id" claims)); ("ok", JBool true)] ∧
       get_is "mode" "inline" claims = true ∧ bl_inv (w_store w') ∧
       same_reads_outside path (w_store w) (w_store w') ∧ inline_stored files claims path w w')
    (λ _ w', bl_inv (w_store w') ∧ same_reads (w_store w) (w_store w') ∧ ¬ inline_fits files claims path w) w.
Proof.
  intros Hi Hcl (Hp & Hw & (id & Hid) & Hfn) Hpath. unfold cassetta_send_inline. apply wp_bind, wp_catch.
  unfold wp at 1. rewrite verify_token_eq in Hcl |- *. cbv zeta in Hcl |- *. cbn [fst] in Hcl. rewrite Hcl.
  set (w1 := set_slots _ w). change (w_store w) with (w_store w1) in Hi |- *. change (inline_fits files claims path w) with (inline_fits files claims path w1).
  unfold inline_fits. destruct (get_is "mode" "inline" claims); [|misfit]. cbn [negb].
  apply wp_bind, wp_of_res. destruct (manifest_files_of claims) as [entries|] eqn:Ef; [|misfit].
  destruct (Hfn entries eq_refl) as (names & Hn & Hok).
  apply wp_bind, wp_of_res. destruct (by_name_of entries) as [bn|] eqn:Ebn; [|misfit].
  pose proof (by_name_dom _ _ _ Hn Ebn) as Hbn.
  apply wp_bind, wp_of_res. destruct (decode_files bn ∅ files) as [decoded|] eqn:Ed; [|misfit].
  pose proof (decode_files_sound _ _ _ _ Ed) as [Hdom Hlook].
  apply wp_bind, wp_of_res. destruct (check_missing bn decoded) as [[]|] eqn:Em; [|misfit].
  pose proof (check_missing_ok _ _ Em) as Hin.
  apply wp_bind, wp_of_res. unfold dict_item. rewrite Hpath. apply wp_bind, wp_of_res. rewrite Hid.
  cbv zeta. cbn [py_str]. apply wp_bind, wp_struct_log, wp_bind, wp_open_or_value_error; [done..|by intros ? (_ & ? & _)|].
  intros h0 s Hs. cbn [w_store add_events] in Hs. set (w2 := set_store s _).
  assert (Hd : ∀ n, n ∈ names → is_Some (decoded !! n)).
  { intros n Hn'. apply elem_of_dom, Hin. rewrite Hbn. by apply elem_of_list_to_set. }
  pose proof (contents_names _ _ Hd) as Hnames.
  apply wp_bind, wp_catch, wp_bind.
  eapply wp_mono; [| |apply (wp_inline_files path h0 (w_store w1) decoded names [] entries h0 0 w2 Hn Hd Hok Hs)]; [|done].
  intros [h total] w3 [Hs3 Hnow]. cbn [fst app] in Hs3. apply wp_bind, wp_get, wp_bind, wp_on_store.
  assert (Hmeta : json_wf (JDict (uploaded_meta id (default JNull (dict_get "sender" claims)) (w_now w3) entries)) = true).
  { apply bundle_meta_wf.
    - exact (dict_get_wf _ _ _ Hw Hid).
    - destruct (dict_get "sender" claims) eqn:E; [by eapply dict_get_wf|done].
    - by destruct (_ <? _)%nat.
    - by eapply manifest_files_wf. }
  assert (HokV : names_ok (contents_of decoded names).*1) by by rewrite Hnames.
  eapply wp_mono; [| |exact (wp_commit_session path h0 h _ _ _ _ HokV Hmeta Hs3)].
  2:{ intros e s' [-> Hnot]. eapply wp_inline_failed; [exact Hs3|]. rewrite Hnow in Hnot.
      intros (_ & _ & ? & ? & ? & ? & ? & [= <-] & En & Eb & Ed' & _ & [= <-] & ?).
      rewrite Hn in En. rewrite Ebn in Eb. simplify_eq. rewrite Ed in Ed'. by simplify_eq. }
  intros h' s' (Hdecl & Hi' & Hst & Hout). apply wp_ret, wp_bind, wp_struct_log, wp_ret.
  split_and!; [done..|]. rewrite Hnow in Hdecl, Hst. exists entries, names, id, (contents_of decoded names).
  split_and!; [done..| |done|done]. intros n d Hn'%contents_lookup%Hlook. by destruct Hn'.
Qed.

(** *** A call that fits *)

(** A file of the call carries a name and contents. *)
Definition carried (f : SendInlineFile) (v : str * bytes) : Prop :=
  il_name f = v.1 ∧ decode_inline_content (il_content f) (il_encoding f) v.1 = Ok v.2.

Lemma decode_files_accepts (by_name : gmap str dict) D files V :
  Forall2 carried files V →
  (∀ n d, (n, d) ∈ V → ∃ dict, by_name !! n = Some dict ∧ get_int "size" 0 dict = Ok (blen d)) →
  decode_files by_name D files = Ok (foldl (λ m e, <[e.1 := e.2]> m) D V).
Proof.
  intros Hc. revert D. induction Hc as [|f [n d] files V [En Ed] Hc IH]; intros D Hb; [done|].
  destruct (Hb n d) as (declared & Eb & Ez); [by left|]. cbn [fst snd] in *. cbn [decode_files foldl fst snd].
  unfold res_bind. rewrite En, Eb, Ed, Ez. rewrite decide_True by done. apply IH. intros m e Hin. apply Hb. by right.
Qed.

Lemma supplied_carried files V n d : Forall2 carried files V → supplied files n d → (n, d) ∈ V.
Proof.
  intros Hc (f & Hf & <- & Ed). apply list_elem_of_lookup in Hf as [i Hi].
  destruct (Forall2_lookup_l _ _ _ _ _ Hc Hi) as ([m e] & Hv & Em & Ee). cbn in *. rewrite Em in Ed |- *.
  rewrite Ee in Ed. injection Ed as ->. apply list_elem_of_lookup. by exists i.
Qed.

(** Files with distinct names are determined by their names. *)
Lemma same_names_same_files (V V0 : list (str * bytes)) :
  NoDup V.*1 → V0.*1 ≡ₚ V.*1 → (∀ n d, (n, d) ∈ V0 → (n, d) ∈ V) → V0 ≡ₚ V.
Proof.
  intros Hnd Hp Hsub. assert (Hnd0 : NoDup V0.*1) by by rewrite Hp.
  apply NoDup_Permutation; [by eapply NoDup_fmap_1|by eapply NoDup_fmap_1|]. intros [n d]. split; [apply Hsub|].
  intros Hin. assert (Hn : n ∈ V0.*1) by (rewrite Hp; apply list_elem_of_fmap; by exists (n, d)).
  apply list_elem_of_fmap in Hn as ([m e] & -> & Hin0). cbn in Hin |- *. pose proof (Hsub _ _ Hin0) as Hin1.
  by rewrite (NoDup_fst_inj V m d e Hnd Hin Hin1).
Qed.

Lemma inline_fits_accepted manifest mfiles files claims path bid sender V w :
  get_is "mode" "inline" claims = true → bl_free (w_store w) path →
  manifest_files_of claims = Ok (manifest_records mfiles) → dict_get "bundle_id" claims = Some (JStr bid) →
  dict_get "sender" claims = Some sender →
  sm_files manifest ≠ [] → enriched_of manifest mfiles → names_ok (map mf_name mfiles) →
  Forall2 carried files V → matches manifest V → inline_fits files claims path w.
Proof.
  intros Hmode Hfree Hfiles Hid Hsd Hne He Hok Hc Hm. pose proof (matches_names _ _ _ He Hm) as Hnames.
  assert (Hnd : NoDup V.*1) by (rewrite Hnames; apply Hok).
  destruct (by_name_of_records mfiles) as (bn & Ebn & Hbn); [apply Hok|].
  pose proof (by_name_dom _ _ _ (declared_of_records mfiles) Ebn) as Hdom.
  set (decoded := foldl (λ m e, <[e.1 := e.2]> m) (∅ : gmap str bytes) V).
  assert (Hlook : ∀ n d, (n, d) ∈ V → decoded !! n = Some d) by (intros; by apply foldl_insert_lookup).
  assert (Hd : ∀ n, n ∈ map mf_name mfiles → is_Some (decoded !! n)).
  { intros n Hn. rewrite <- Hnames in Hn. apply list_elem_of_fmap in Hn as ([m d] & -> & Hin). eexists. by apply Hlook. }
  split_and!; [done..|]. exists (manifest_records mfiles), (map mf_name mfiles), bn, decoded, bid. split_and!; try done.
  - apply declared_of_records.
  - apply decode_files_accepts; [done|]. intros n d Hin. apply Hbn. rewrite (enriched_pairs _ _ He), <- Hm.
    apply list_elem_of_In, in_map_iff. exists (n, d). split; [done|]. by apply list_elem_of_In.
  - unfold check_missing. replace (elements (dom bn ∖ dom decoded)) with (@nil str); [done|].
    symmetry. apply elements_empty_iff. rewrite Hdom. intros n. split; [|set_solver].
    intros [Hn%elem_of_list_to_set Hnot]%elem_of_difference. by apply Hd, elem_of_dom in Hn.
  - rewrite Hsd. apply (records_declared manifest); [done..| |apply Hok]. unfold matches. rewrite <- Hm.
    apply Permutation_map, same_names_same_files; [done|by rewrite contents_names|].
    intros n d Hin. pose proof (contents_lookup _ _ _ _ Hin) as El.
    assert (Hn : n ∈ V.*1). { rewrite Hnames. rewrite <- (contents_names _ _ Hd). apply list_elem_of_fmap. by exists (n, d). }
    apply list_elem_of_fmap in Hn as ([m e] & -> & Hv). cbn in *. rewrite (Hlook _ _ Hv) in El. by injection El as ->.
Qed.

(** ** Lemmas: a put *)

Lemma no_mime_data files : parts_data (no_mime files) = files.
Proof. unfold parts_data, no_mime. rewrite map_map. induction files as [|[n d] files IH]; [done|]. cbn. by rewrite IH. Qed.

Lemma tool_files_state path content files w : (tool_files path content files w).2 = w.
Proof. unfold tool_files. cbv zeta. by repeat case_match. Qed.

Lemma mcp_validate_state path w :
  (mcp_validate_path path w).2 = w ∧
  ((mcp_validate_path path w).1 = Ok tt → validate_path path (Some (cf_allowed_path_chars app_config)) = Ok tt).
Proof.
  unfold mcp_validate_path, catch, of_res. destruct (validate_path path _) as [[]|e]; [done|].
  destruct e as [[] ?| | | | | | | | | | | | | | | | | | |]; done.
Qed.

Lemma frames_limits identity parts :
  frames same_data (limits_as_value_error (evaluate_or_raise identity parts) : M W unit).
Proof. unfold limits_as_value_error, evaluate_or_raise, reject_limits, value_error. frame. Qed.
Lemma frames_mcp_enforce caller resource action : frames same_data (mcp_enforce caller resource action : M W unit).
Proof. unfold mcp_enforce, value_error. frame. Qed.
Lemma frames_raw_count name action : frames same_data (raw_count name action : M W unit).
Proof. apply frames_emit_metric. Qed.

Lemma wp_put caller path content files parsed w :
  mime_text → uuid_text → bl_inv (w_store w) → (tool_files path content files w).1 = Ok parsed →
  Forall part_text (no_mime parsed) → names_ok (map part_name (no_mime parsed)) →
  wp (cassetta_put caller path content files)
    (λ _ w', outside_kept (store_path path) w w' ∧ uploaded path (no_mime parsed) w w')
    (λ _, outside_kept (store_path path) w) w.
Proof.
  intros Hmt Hu Hi Hfiles Ht Hok. set (p := store_path path).
  assert (Ho : outside_kept p w w) by by apply outside_quiet.
  unfold cassetta_put. apply wp_bind. unfold wp at 1.
  destruct (mcp_validate_state path w) as [Es Hv]. destruct (mcp_validate_path path w) as [[[]|e] w0]; cbn in Es, Hv; subst w0; [|done].
  specialize (Hv eq_refl). apply store_path_ok in Hv. fold p in Hv. destruct (_ || _); [exact Ho|].
  apply wp_bind. unfold wp at 1. pose proof (tool_files_state path content files w) as Es.
  destruct (tool_files path content files w) as [r w0]. cbn in Hfiles, Es. subst r w0. cbv zeta.
  eapply wp_quiet; [exact Ho|apply frames_limits|]. intros [] w1 _ Ho1 _.
  eapply wp_quiet; [exact Ho1|apply frames_mcp_enforce|]. intros [] w2 _ Ho2 _. fold p.
  eapply wp_quiet; [exact Ho2|apply frames_bundle_id|]. intros id w3 Hid Ho3 _. apply bundle_id_text in Hid; [|done].
  apply wp_bind, wp_delete_quiet; [apply Ho3|done|]. intros s Hs _ Hout.
  assert (Ho4 : outside_kept p w (set_store s w3)).
  { eapply outside_trans; [exact Ho3|]. by split_and!. }
  apply wp_bind, wp_catch, wp_bind. unfold mcp_write_bundle.
  eapply wp_mono; [| |apply (wp_write_bundle p (no_mime parsed) JNull _ id (set_store s w3)); done].
  - intros meta w5 (Hi5 & Hout5 & En5 & recs & -> & Hr & Hst). apply wp_ret.
    assert (Ho5 : outside_kept p w w5) by by eapply outside_trans.
    assert (Hup : uploaded path (no_mime parsed) w w5).
    { exists id, recs. cbn [w_now set_store] in Hst. destruct Ho3 as (_ & _ & En3). rewrite En3 in Hst. by split. }
    eapply wp_quiet; [exact Ho5|apply frames_struct_log|]. intros [] w6 _ Ho6 Es6.
    eapply wp_quiet; [exact Ho6|apply frames_raw_count|]. intros [] w7 _ Ho7 Es7.
    eapply wp_quiet; [exact Ho7|apply frames_emit_metric|]. intros [] w8 _ Ho8 Es8.
    apply wp_ret. split; [done|]. unfold uploaded. by rewrite Es8, Es7, Es6.
  - intros e w5 (Hi5 & Hsame & En5 & _).
    assert (outside_kept p w w5).
    { eapply outside_trans; [exact Ho4|]. split; [done|]. split; [by apply same_reads_weaken|done]. }
    by destruct e.
Qed.

(** The second step, with the credential of the first. *)
Lemma inline_accepts `{!PyJwtLaws} recipient path bid sender fresh count manifest mfiles now ttl key files V w :
  let p := inbox_path recipient path in
  let token := sign fresh (credential SendInline recipient path bid sender count mfiles now ttl) key in
  manifest_text manifest → sm_files manifest ≠ [] → enriched_of manifest mfiles →
  utf8_valid bid = true ∧ utf8_valid fresh = true ∧ utf8_valid sender = true ∧ utf8_valid recipient = true ∧
    utf8_valid p = true →
  (∀ jti, app_revocation jti = Ok tt) → (now <= now_seconds w < now + ttl)%Z →
  key = primary (w_slots w) ∨ (resolve_secondary (w_mono w) (w_slots w)).1 = Some key →
  key_ok p → names_ok (map sf_name (sm_files manifest)) → bl_inv (w_store w) → bl_free (w_store w) p →
  Forall2 carried files V → matches manifest V →
  ∃ w' meta, cassetta_send_inline token files w = (Ok (JDict [("bundle_id", JStr bid); ("ok", JBool true)]), w') ∧
    stored (w_store w') p meta V ∧ same_reads_outside p (w_store w) (w_store w') ∧
    dict_get "sender" meta = Some (JStr sender) ∧ dict_get "bundle_id" meta = Some (JStr bid).
Proof.
  intros p token Ht Hne He Htext Hrev Hnow Hslot Hkey Hnames Hi Hfree Hc Hm.
  pose proof (manifest_records_wf _ _ Ht He) as Hrw. pose proof (enriched_names_ok _ _ He Hnames) as Hok.
  destruct (credential_verifies SendInline recipient path bid sender fresh count mfiles now ttl Hrw Htext w key Hrev Hnow Hslot)
    as (Ev & _ & _).
  destruct (payload_claims SendInline recipient path bid sender fresh count mfiles now ttl Hrw Htext)
    as (Hcw & Hid & Hsd & Hmode & Hpath & Hfiles). set (claims := payload _ _ _ _ _ _ _ _ _ _) in *.
  assert (Hcred : credential_ok claims p).
  { split_and!; [done|done|by exists bid|]. rewrite Hfiles. intros fs [= <-]. eexists. split; [apply declared_of_records|done]. }
  pose proof (wp_send_inline token files claims p w Hi Ev Hcred Hpath) as Hw. unfold wp in Hw.
  destruct (cassetta_send_inline token files w) as [[reply|e] w'].
  2:{ destruct Hw as (_ & _ & []). by eapply inline_fits_accepted. }
  destruct Hw as (-> & _ & _ & Hout & entries & names & id & V0 & Ef & En & Eid & HV & Hsup & _ & [Hmeta Hst]).
  rewrite Hid in Eid |- *. injection Eid as <-. rewrite Hfiles in Ef. injection Ef as <-.
  rewrite declared_of_records in En. injection En as <-. rewrite Hsd in Hmeta.
  exists w', (uploaded_meta bid (JStr sender) (w_now w) (manifest_records mfiles)).
  split_and!; [done| |done|done|done]. split; [exact Hmeta|]. intros n d Hin. apply Hst.
  enough (V0 ≡ₚ V) as -> by done. pose proof (matches_names _ _ _ He Hm) as HVn.
  apply same_names_same_files; [rewrite HVn; apply Hok|by rewrite HV, HVn|].
  intros m e Hme. by eapply supplied_carried, Hsup.
Qed.
End inline.

(** ** Properties *)

(** C12: an inline send is all or nothing, over any store that keeps the
    contract: with a credential that verifies, either its mode is inline, the
    reply confirms its bundle, and the bundle reads back with the sender of the
    credential and one file for each name of its manifest, in that order, of the
    declared size and with the contents of the call decoded, no bundle beside it
    changed; or the tool raises and every read of every bundle is as before. *)
Theorem send_inline_all_or_nothing {S C K} `{StorageReads S, !BundleLaws S, ClaimReads C, KeyReads K, !App K, PyJwt}
    token files claims path (w : World S C K) :
  bl_inv (w_store w) → (verify_token token w).1 = Ok claims → credential_ok claims path →
  dict_get "bundle_path" claims = Some (JStr path) →
  match cassetta_send_inline token files w with
  | (Ok reply, w') =>
      reply = JDict [("bundle_id", default JNull (dict_get "bundle_id" claims)); ("ok", JBool true)] ∧
      get_is "mode" "inline" claims = true ∧ same_reads_outside path (w_store w) (w_store w') ∧
      inline_stored files claims path w w'
  | (Raise _, w') => same_reads (w_store w) (w_store w')
  end.
Proof.
  intros Hi Hcl Hok Hp. pose proof (wp_send_inline token files claims path w Hi Hcl Hok Hp) as Hw.
  unfold wp in Hw. destruct (cassetta_send_inline token files w) as [[reply|e] w']; [|apply Hw].
  by destruct Hw as (? & ? & _ & ? & ?).
Qed.

(** C11: the two steps of an inline send fit together: when the first tool
    answers with an inline token, then at any time from the issue to the end of
    its lifetime, and under the signing key or one that overlaps with it, the
    second tool accepts the token with one entry for each declared file, in any
    order and encoding, of the declared size; it confirms the identifier of the
    first step, and the bundle reads back from the inbox of the resolved
    recipient with the decoded contents and the sender, no bundle beside it
    touched. *)
Theorem inline_send_completes {S C K} `{StorageReads S, !BundleLaws S, ClaimReads C, KeyReads K,
    !App K, !AliasReads K, PyJwtLaws} caller to path manifest recipient bid token expires (w w1 : World S C K) :
  let p := inbox_path recipient path in
  let sender := sender_or_label (mc_sender caller) (caller_identity caller) in
  mime_text → uuid_text → manifest_text manifest → sm_files manifest ≠ [] → utf8_valid sender = true →
  (∀ jti, app_revocation jti = Ok tt) →
  (resolve_recipient (Some app_alias) to (mc_sender caller) w).1 = Ok recipient →
  cassetta_send_init caller to path manifest w
    = (Ok (JDict [("bundle_id", JStr bid); ("mode", JStr "inline"); ("inline_token", JStr token);
                  ("expires_at", JStr expires)]), w1) →
  ∀ files V (w2 : World S C K),
    utf8_valid recipient = true → utf8_valid p = true → key_ok p → names_ok (map sf_name (sm_files manifest)) →
    bl_inv (w_store w2) → bl_free (w_store w2) p →
    (now_seconds w <= now_seconds w2 < now_seconds w + upload_ttl (caller_identity caller))%Z →
    cf_jwt_primary_key app_config = primary (w_slots w2) ∨
      (resolve_secondary (w_mono w2) (w_slots w2)).1 = Some (cf_jwt_primary_key app_config) →
    Forall2 carried files V → matches manifest V →
    ∃ w3 meta, cassetta_send_inline token files w2 = (Ok (JDict [("bundle_id", JStr bid); ("ok", JBool true)]), w3) ∧
      stored (w_store w3) p meta V ∧ same_reads_outside p (w_store w2) (w_store w3) ∧
      dict_get "sender" meta = Some (JStr sender) ∧ dict_get "bundle_id" meta = Some (JStr bid).
Proof.
  intros p sender Hmt Hu Ht Hne Hsender Hrev Erec E files V w2 Hr Hp Hkey Hnames Hi Hfree Hnow Hslots Hc Hm.
  unfold cassetta_send_init, limits_as_value_error, bind, catch in E.
  pose proof (wp_prepare to path manifest (caller_identity caller) (mc_sender caller) true w Hmt Hu Ht) as Hw.
  unfold wp in Hw. destruct (prepare_send_init _ _ _ _ _ _ _ w) as [[res|e] w0]; [|by destruct e].
  destruct Hw as (_ & _ & recipient' & bid' & fresh & count & mfiles & Erec' & He & Hb & Hf & Ebid & _ & Etok).
  rewrite Erec in Erec'. injection Erec' as <-. destruct (sr_mode res) eqn:Emode; [|by injection E].
  unfold ret in E. injection E as Eb Et _ _. subst bid' token. rewrite Eb in *. rewrite Etok.
  eapply inline_accepts; [exact Ht|exact Hne|exact He|by split_and!|done..].
Qed.

(** C10: what a put over MCP stored is what both front ends read: whatever the
    tool does, no bundle above, below or beside its path changes; and when it
    answers, then as long as the bundle is not changed and not past its
    lifetime, a caller whom the policies let read inline gets exactly the files
    of the call, in their order, from the route and, with a working metrics
    provider, the same envelope from the tool. *)
Theorem tool_put_reads_back {S C K} `{StorageReads S, !BundleLaws S, ClaimReads C, KeyReads K, !App K, PyJwt}
    caller path content files parsed rq id (w w2 : World S C K) :
  let w1 := (cassetta_put caller path content files w).2 in
  mime_text → uuid_text → bl_inv (w_store w) → (tool_files path content files w).1 = Ok parsed →
  Forall part_text (no_mime parsed) → names_ok parsed.*1 →
  same_bundle (store_path path) (w_store w1) (w_store w2) → representable (w_now w) →
  (cf_default_ttl app_config <= 0 ∨ w_now w2 - w_now w <= cf_default_ttl app_config * 1000000)%Z →
  validate_path path None = Ok tt → (get_current_identity rq w2).1 = Ok id →
  ap_check app_access id ("files:" +:+ path) "read" = Ok true →
  evaluate_download app_limits id
    {| de_file_count := Z.of_nat (length parsed); de_total_size := sumZ (map (λ f, blen f.2) parsed) |} = Ok InlineDownload →
  same_reads_outside (store_path path) (w_store w) (w_store w1) ∧
  ((∃ text, (cassetta_put caller path content files w).1 = Ok text) →
   ∃ meta hdr w3, download_file rq path w2 = (Ok (json_response 200 (build_inline_envelope meta parsed) hdr), w3) ∧
     ∀ token, metrics_work → bearer rq token → same_charset path →
       (mcp_call ("Bearer " +:+ token) (λ caller, cassetta_get caller path) w2).1
       = Ok (JStr (json_dumps (build_inline_envelope meta parsed)))).
Proof.
  intros w1 Hmt Hu Hi Hfiles Ht Hok Hsame Hnow Hage Hv Hid Hacc He.
  assert (Hnames : map part_name (no_mime parsed) = parsed.*1) by by rewrite <- parts_data_names, no_mime_data.
  rewrite <- Hnames in Hok.
  pose proof (wp_put caller path content files parsed w Hmt Hu Hi Hfiles Ht Hok) as Hw. unfold wp in Hw. subst w1.
  destruct (cassetta_put caller path content files w) as [[text|e] w1]; [|by split; [apply Hw|intros [text [=]]]].
  destruct Hw as [(_ & Hout & _) (bid & recs & Hr & Hs)]. split; [done|]. intros _. rewrite no_mime_data in Hs.
  apply (stored_same _ _ _ _ (w_store w2)) in Hs.
  3:{ exact Hsame. }
  2:{ intros n Hn. apply (parts_key_ok (no_mime parsed)); [done|]. by rewrite no_mime_data. }
  pose proof (bundle_meta_manifest bid JNull (w_now w) "application/octet-stream" _ _ Hr) as Hm. rewrite no_mime_data in Hm.
  pose proof (wp_download_inline rq path id _ recs parsed w2 Hv Hid Hacc Hs Hm (fresh_written _ _ _ _ _ _ Hnow Hage) He) as Hd.
  unfold wp in Hd. destruct (download_file rq path w2) as [[r|e] w3] eqn:Ed; [|done]. destruct Hd as [-> Ew].
  eexists _, _, w3. split; [done|]. intros token Hmetrics Hb Hc.
  assert (Hw : eqv w2 w2) by done. pose proof (related_get Hmetrics rq token path w2 w2 Hb Hc Hw) as Hrel.
  unfold related in Hrel. rewrite Ed in Hrel. destruct (mcp_call _ _ w2) as [[text'|e'] w4]; [|done].
  by destruct Hrel as (_ & _ & ->).
Qed.

#[local] Existing Instances Demo.storage Demo.claims Demo.keys ToyJwt demo_bundle_laws.
#[local] Instance open_server : App KeyStore := Demo.core true.

(** An inline credential for two files, one of them empty. *)
Definition demo_inline_claims : dict :=
  upload_claims "inbox/bob/m2" "b2" "alice" "bob" SendInline
    {| um_file_count := 2; um_files := [{| mf_name := "a.txt"; mf_size := 2; mf_mime := Some "text/plain" |};
      {| mf_name := "b"; mf_size := 0; mf_mime := Some "text/plain" |}] |} 0 60.
Definition demo_token : str := sign "j1" demo_inline_claims "primary".
Definition demo_files (data : str) : list SendInlineFile :=
  [{| il_name := "b"; il_content := ""; il_encoding := "utf8" |};
   {| il_name := "a.txt"; il_content := data; il_encoding := "base64" |}].
#[local] Abbreviation demo_inline data := (cassetta_send_inline demo_token (demo_files data) (Demo.world 0)).

(** The right content is stored; one byte less and nothing is. *)
Lemma send_inline_all_or_nothing_witness :
  let claims := dict_set "jti" (JStr "j1") demo_inline_claims in
  (∃ w', demo_inline "aGk=" = (Ok (JDict [("bundle_id", JStr "b2"); ("ok", JBool true)]), w') ∧
    (open_bundle_file_read [] "inbox/bob/m2" "a.txt" (w_store w')).1 = Ok "hi" ∧
    inline_stored (demo_files "aGk=") claims "inbox/bob/m2" (Demo.world 0) w') ∧
  same_reads fs_init (w_store (demo_inline "aA==").2).
Proof.
  intros claims.
  assert (Hok : credential_ok claims "inbox/bob/m2").
  { split_and!.
    - apply key_okb_sound. vm_compute. reflexivity.
    - vm_compute. reflexivity.
    - exists "b2". reflexivity.
    - intros files [= <-]. exists ["a.txt"; "b"]. split; [reflexivity|]. apply names_okb_sound. vm_compute. reflexivity. }
  assert (Ev : (verify_token demo_token (Demo.world 0)).1 = Ok claims) by (vm_compute; reflexivity).
  pose proof (λ files, send_inline_all_or_nothing demo_token files claims "inbox/bob/m2" (Demo.world 0)
    fs_init_wf Ev Hok eq_refl) as Hall.
  assert (Eok : (demo_inline "aGk=").1 = Ok (JDict [("bundle_id", JStr "b2"); ("ok", JBool true)])) by (vm_compute; reflexivity).
  assert (Efile : (open_bundle_file_read [] "inbox/bob/m2" "a.txt" (w_store (demo_inline "aGk=").2)).1 = Ok "hi")
    by (vm_compute; reflexivity).
  assert (Ebad : (demo_inline "aA==").1 = Raise (manifest_violation "wrong_size" "a.txt")) by (vm_compute; reflexivity).
  split.
  - pose proof (Hall (demo_files "aGk=")) as Hw.
    destruct (demo_inline "aGk=") as [r w'].
    destruct r as [reply|e]; [|discriminate Eok]. injection Eok as ->.
    exists w'. split; [reflexivity|]. split; [exact Efile|]. apply Hw.
  - pose proof (Hall (demo_files "aA==")) as Hw.
    destruct (demo_inline "aA==") as [r w'].
    destruct r as [reply|e]; [discriminate Ebad|]. exact Hw.
Defined.

(** A bundle of two files, as the argument [files] gives them. *)
Definition demo_bundle : str := json_dumps (JList
  [JDict [("name", JStr "a.txt"); ("content", JStr "hello")]; JDict [("name", JStr "sub/b"); ("content", JStr "bye")]]).
Definition demo_parsed : list (str * bytes) := [("a.txt", "hello"); ("sub/b", "bye")].
Definition keyed_request : HttpRequest := {|
  rq_x_setup_token := None; rq_credentials := Some "key"; rq_authorization := "Bearer key"; rq_x_sender := None;
  rq_raw_path := ""; rq_content_type := ""; rq_content_encoding := ""; rq_body := []; rq_body_error := None;
  rq_form := []; rq_client := "127.0.0.1" |}.
#[local] Abbreviation demo_put := (cassetta_put anonymous "docs/1" "" demo_bundle (Demo.world 0)).

Lemma tool_put_reads_back_witness :
  demo_put.1 = Ok (JStr "Stored bundle 'docs/1' (2 files, 8 bytes)") ∧
  ∃ meta hdr w3, download_file keyed_request "docs/1" demo_put.2
      = (Ok (json_response 200 (build_inline_envelope meta demo_parsed) hdr), w3) ∧
    (mcp_call "Bearer key" (λ caller, cassetta_get caller "docs/1") demo_put.2).1
      = Ok (JStr (json_dumps (build_inline_envelope meta demo_parsed))).
Proof.
  assert (E : demo_put.1 = Ok (JStr "Stored bundle 'docs/1' (2 files, 8 bytes)")) by (vm_compute; reflexivity).
  split; [exact E|].
  destruct (tool_put_reads_back anonymous "docs/1" "" demo_bundle demo_parsed keyed_request dev_identity
    (Demo.world 0) demo_put.2) as [_ Hread].
  - intros n m [=].
  - exact (demo_uuid_text true).
  - exact fs_init_wf.
  - vm_compute. reflexivity.
  - repeat constructor; intros m [=].
  - apply names_okb_sound. vm_compute. reflexivity.
  - reflexivity.
  - unfold representable. split; vm_compute; congruence.
  - left. vm_compute. congruence.
  - vm_compute. reflexivity.
  - reflexivity.
  - reflexivity.
  - reflexivity.
  - destruct (Hread (ex_intro _ _ E)) as (meta & hdr & w3 & Ed & Ht).
    exists meta, hdr, w3. split; [exact Ed|]. apply (Ht "key").
    + intros e. reflexivity.
    + split; reflexivity.
    + vm_compute. reflexivity.
Defined.

(** An inline send of the manifest of [SendFlow], in another order. *)
Definition carol : Caller := {| mc_identity := Some {| id_label := "carol"; id_extra := [] |}; mc_sender := Some "carol" |}.
#[local] Abbreviation demo_init := (cassetta_send_init carol "bob" "m2" demo_manifest (Demo.world 0)).
Definition init_field (k : str) (r : res json) : str :=
  match r with Ok (JDict d) => get_str k "" d | _ => "" end.
Definition demo_contents : list (str * bytes) := [("sub/b", ""); ("a.txt", "hello")].
Definition demo_call : list SendInlineFile :=
  [{| il_name := "sub/b"; il_content := ""; il_encoding := "base64" |};
   {| il_name := "a.txt"; il_content := "hello"; il_encoding := "utf8" |}].

Lemma inline_send_completes_witness :
  ∃ w3 meta, cassetta_send_inline (init_field "inline_token" demo_init.1) demo_call demo_init.2
      = (Ok (JDict [("bundle_id", JStr (init_field "bundle_id" demo_init.1)); ("ok", JBool true)]), w3) ∧
    stored (w_store w3) "inbox/bob/m2" meta demo_contents ∧ dict_get "sender" meta = Some (JStr "carol").
Proof.
  destruct (inline_send_completes carol "bob" "m2" demo_manifest "bob" (init_field "bundle_id" demo_init.1)
    (init_field "inline_token" demo_init.1) (init_field "expires_at" demo_init.1) (Demo.world 0) demo_init.2)
    with (files := demo_call) (V := demo_contents) (w2 := demo_init.2) as (w3 & meta & E & Hst & _ & Hsd & _).
  - intros n m [=].
  - exact (demo_uuid_text true).
  - repeat constructor; intros m [= <-]; reflexivity.
  - intros [=].
  - reflexivity.
  - reflexivity.
  - reflexivity.
  - vm_compute. reflexivity.
  - reflexivity.
  - reflexivity.
  - apply key_okb_sound. vm_compute. reflexivity.
  - apply names_okb_sound. vm_compute. reflexivity.
  - assert (Es : w_store demo_init.2 = fs_init) by (vm_compute; reflexivity). rewrite Es. exact fs_init_wf.
  - assert (Es : w_store demo_init.2 = fs_init) by (vm_compute; reflexivity). rewrite Es.
    apply fs_init_storable; [apply key_okb_sound|]; vm_compute; reflexivity.
  - vm_compute. split; congruence.
  - left. vm_compute. reflexivity.
  - repeat constructor.
  - apply Permutation_swap.
  - exists w3, meta. split; [exact E|]. split; [exact Hst|exact Hsd].
Defined.
