(* ===== verification/SyncDocs.v ===== *)
(** * The version in the documents

    [scripts/sync-docs-version.py], which rewrites the version in the sample
    output under [docs/].  A text is a list of code points; [is_space] and
    [is_digit] are the classes [\s] and [\d] of [re] on them.  What the script
    prints is left out. *)

From Stdlib Require Import Ascii String.
From S2P Require Import Prelude PyStr.
Local Open Scope list_scope.
Local Open Scope Z_scope.

Abbreviation text := (list Z).

(** The code points of a literal. *)
Fixpoint chars (s : string) : text :=
  match s with
  | EmptyString => []
  | String a s' => Z.of_N (N_of_ascii a) :: chars s'
  end.

Definition QUOTE : Z := 34.
Definition DOT : Z := 46.
Definition BACKSLASH : Z := 92.
Definition NEWLINE : Z := 10.

(** The rest after a literal. *)
Fixpoint strip_literal (lit l : text) : option text :=
  match lit, l with
  | [], _ => Some l
  | a :: lit', b :: l' => if decide (a = b) then strip_literal lit' l' else None
  | _ :: _, [] => None
  end.

(** The longest prefix in a class, and the rest. *)
Fixpoint span (p : Z → bool) (l : text) : text * text :=
  match l with
  | a :: l' => if p a then let '(x, r) := span p l' in (a :: x, r) else ([], l)
  | [] => ([], [])
  end.

(** ** [DUNDER_VERSION_RE] *)

(** The match at the start of a line. *)
Definition match_dunder (l : text) : option text :=
  match strip_literal (chars "__version__ = " ++ [QUOTE]) l with
  | Some r =>
      match span (λ a, negb (a =? QUOTE)) r with
      | ((_ :: _) as v, _ :: _) => Some v
      | _ => None
      end
  | None => None
  end.

(** [search] with [re.MULTILINE]. *)
Fixpoint search_dunder (line_start : bool) (l : text) : option text :=
  match (if line_start then match_dunder l else None), l with
  | Some v, _ => Some v
  | None, a :: l' => search_dunder (a =? NEWLINE) l'
  | None, [] => None
  end.

(** [declared_version], of the text of the module; [None] is the exit. *)
Definition declared_version (init : text) : option text := search_dunder true init.

Section script.
Variable is_space is_digit : Z → bool.

(** ** [SAMPLE_OUTPUT_RE]

    A match at the start of a text: what the first group takes, what the
    second takes, and the rest.  The classes do not overlap and [DOT] is in
    neither, so the greedy runs are the only ones that can match. *)

(** [\d+]. *)
Definition digits1 (l : text) : option (text * text) :=
  match span is_digit l with
  | ((_ :: _) as d, r) => Some (d, r)
  | ([], _) => None
  end.

(** [\d+\.\d+\.\d+]. *)
Definition match_version (l : text) : option (text * text) :=
  '(a, l1) ← digits1 l;
  l2 ← strip_literal [DOT] l1;
  '(b, l3) ← digits1 l2;
  l4 ← strip_literal [DOT] l3;
  '(c, l5) ← digits1 l4;
  Some (a ++ [DOT] ++ b ++ [DOT] ++ c, l5).

Definition SAMPLE : text := chars "Server version:".
Definition match_sample (l : text) : option (text * text * text) :=
  l1 ← strip_literal SAMPLE l;
  let '(sp, l2) := span is_space l1 in
  '(v, l3) ← match_version l2;
  Some (SAMPLE ++ sp, v, l3).

(** A text as its matches, from the left, and the characters between them. *)
Inductive piece := Plain (a : Z) | Sample (group1 version : text).
Fixpoint pieces (fuel : nat) (l : text) : list piece :=
  match fuel with
  | O => []
  | S fuel' =>
      match match_sample l with
      | Some (g, v, r) => Sample g v :: pieces fuel' r
      | None => match l with a :: l' => Plain a :: pieces fuel' l' | [] => [] end
      end
  end.
Definition scan (l : text) : list piece := pieces (length l) l.

(** [SAMPLE_OUTPUT_RE.findall(text)], the second groups. *)
Definition findall (l : text) : list text :=
  omap (λ p, match p with Sample _ v => Some v | Plain _ => None end) (scan l).

Definition render (version : text) (p : piece) : text :=
  match p with Plain a => [a] | Sample g _ => g ++ version end.

(** [rewrite].  A backslash in the version makes the replacement a template,
    which is not modelled: [None]. *)
Definition rewrite (l version : text) : option text :=
  if decide (BACKSLASH ∈ version) then None
  else Some (concat (map (render version) (scan l))).

(** ** [sync] *)

(** One document: its text afterwards, the samples in it and whether it is
    written. *)
Definition sync_document (version original : text) : option (text * nat * bool) :=
  match findall original with
  | [] => Some (original, 0%nat, false)
  | samples =>
      updated ← rewrite original version;
      Some (updated, length samples, negb (bool_decide (updated = original)))
  end.

(** The documents in their order: their texts afterwards, the samples found,
    and the paths written. *)
Fixpoint sync (version : text) (docs : list (string * text)) : option (list (string * text) * nat * list string) :=
  match docs with
  | [] => Some ([], 0%nat, [])
  | (path, original) :: docs' =>
      '(updated, n, written) ← sync_document version original;
      '(rest, found, changed) ← sync version docs';
      Some ((path, updated) :: rest, (n + found)%nat, (if written : bool then [path] else []) ++ changed)
  end.

(** [main] on the module and the documents, [None] for a missing [docs/]: the
    exit status, the documents afterwards and the paths written. *)
Definition main (init : text) (docs : option (list (string * text)))
    : option (Z * list (string * text) * list string) :=
  match declared_version init, docs with
  | None, _ => Some (1, default [] docs, [])
  | Some _, None => Some (1, [], [])
  | Some version, Some docs =>
      '(docs', found, changed) ← sync version docs;
      Some (if decide (found = 0%nat) then 1 else 0, docs', changed)
  end.
End script.

(** ** Lemmas *)

(** The first character of a sample, which occurs in it only once. *)
Definition CAP_S : Z := 83.

(** Two texts that agree up to their ends or to a [CAP_S] in both. *)
Inductive sim : text → text → Prop :=
  | sim_nil : sim [] []
  | sim_S x x' : sim (CAP_S :: x) (CAP_S :: x')
  | sim_cons a l l' : sim l l' → sim (a :: l) (a :: l').

Lemma sim_app l x x' : sim x x' → sim (l ++ x) (l ++ x').
Proof. induction l; cbn; [done|]. intros. by apply sim_cons, IHl. Qed.

Definition sim_option (o o' : option text) : Prop :=
  match o, o' with Some l, Some l' => sim l l' | None, None => True | _, _ => False end.

Lemma sim_strip lit l l' : CAP_S ∉ lit → sim l l' → sim_option (strip_literal lit l) (strip_literal lit l').
Proof.
  revert l l'. induction lit as [|a lit IH]; intros l l' Hlit Hs; [done|].
  apply not_elem_of_cons in Hlit as [Ha Hlit]. inversion Hs; subst; cbn [strip_literal]; [done| |].
  - by rewrite !decide_False by congruence.
  - case_decide; [by apply IH|done].
Qed.

Lemma sim_span p l l' :
  p CAP_S = false → sim l l' → (span p l).1 = (span p l').1 ∧ sim (span p l).2 (span p l').2.
Proof.
  intros Hp Hs. induction Hs as [|x x'|a l l' Hs IH]; cbn [span]; [by repeat constructor| |].
  - rewrite Hp. split; [done|constructor].
  - destruct (p a); [|split; [done|by constructor]].
    destruct (span p l), (span p l'). cbn in *. by destruct IH as [-> ?].
Qed.

Lemma span_app p d r :
  Forall (λ a, p a = true) d → match r with a :: _ => p a = false | [] => True end → span p (d ++ r) = (d, r).
Proof.
  intros Hd Hr. induction Hd as [|a d Ha Hd IH]; cbn [app span]; [|by rewrite Ha, IH].
  destruct r as [|a r]; cbn [span]; [done|by rewrite Hr].
Qed.
Lemma span_spec p l :
  l = (span p l).1 ++ (span p l).2 ∧ Forall (λ a, p a = true) (span p l).1 ∧
  match (span p l).2 with a :: _ => p a = false | [] => True end.
Proof.
  induction l as [|a l IH]; cbn [span]; [by repeat constructor|].
  destruct (p a) eqn:E; [|by repeat constructor]. destruct (span p l) as [x r]. cbn in *.
  destruct IH as (-> & ? & ?). by repeat constructor.
Qed.
Lemma strip_literal_app lit r : strip_literal lit (lit ++ r) = Some r.
Proof. induction lit as [|a lit IH]; cbn; [done|]. by rewrite decide_True. Qed.
Lemma strip_literal_Some lit l r : strip_literal lit l = Some r → l = lit ++ r.
Proof.
  revert l. induction lit as [|a lit IH]; intros l; cbn [strip_literal]; [by intros [= ->]|].
  destruct l as [|b l]; [done|]. case_decide; [|done]. subst. by intros ->%IH.
Qed.

Section laws.
Variable is_space is_digit : Z → bool.
Hypothesis space_not_digit : ∀ a, is_space a = true → is_digit a = false.
Hypothesis S_no_space : is_space CAP_S = false.
Hypothesis S_no_digit : is_digit CAP_S = false.
Hypothesis dot_no_digit : is_digit DOT = false.

(** A release version. *)
Definition release (v : text) : Prop :=
  ∃ a b c, v = a ++ [DOT] ++ b ++ [DOT] ++ c ∧
    Forall (λ d, d ≠ [] ∧ Forall (λ x, is_digit x = true) d) [a; b; c].

Definition no_digit_next (r : text) : Prop := match r with a :: _ => is_digit a = false | [] => True end.

Lemma digits1_app d r :
  d ≠ [] → Forall (λ x, is_digit x = true) d → no_digit_next r → digits1 is_digit (d ++ r) = Some (d, r).
Proof. intros Hne Hd Hr. unfold digits1. rewrite span_app; [destruct d as [|x d]; [by destruct Hne|reflexivity]|done|exact Hr]. Qed.
Lemma digits1_Some l d r :
  digits1 is_digit l = Some (d, r) → l = d ++ r ∧ d ≠ [] ∧ Forall (λ x, is_digit x = true) d ∧ no_digit_next r.
Proof.
  unfold digits1. destruct (span_spec is_digit l) as (E & Hd & Hr).
  destruct (span is_digit l) as [[|a d'] r']; [done|]. intros [= <- <-]. by split_and!.
Qed.

Lemma match_version_release v r :
  release v → no_digit_next r → match_version is_digit (v ++ r) = Some (v, r).
Proof.
  intros (a & b & c & -> & Hv) Hr. apply Forall_cons in Hv as [[Ha1 Ha2] Hv].
  apply Forall_cons in Hv as [[Hb1 Hb2] Hv]. apply Forall_cons in Hv as [[Hc1 Hc2] _].
  unfold match_version. rewrite <- !app_assoc. rewrite digits1_app by done. cbn [mbind option_bind].
  rewrite strip_literal_app. cbn [mbind option_bind]. rewrite digits1_app by done. cbn [mbind option_bind].
  rewrite strip_literal_app. cbn [mbind option_bind]. by rewrite digits1_app.
Qed.
Lemma match_version_Some l v r :
  match_version is_digit l = Some (v, r) → l = v ++ r ∧ release v ∧ no_digit_next r.
Proof.
  unfold match_version. intros H.
  destruct (digits1 is_digit l) as [[a l1]|] eqn:E1; [|done]. cbn [mbind option_bind] in H.
  destruct (strip_literal [DOT] l1) as [l2|] eqn:E2; [|done]. cbn [mbind option_bind] in H.
  destruct (digits1 is_digit l2) as [[b l3]|] eqn:E3; [|done]. cbn [mbind option_bind] in H.
  destruct (strip_literal [DOT] l3) as [l4|] eqn:E4; [|done]. cbn [mbind option_bind] in H.
  destruct (digits1 is_digit l4) as [[c l5]|] eqn:E5; [|done]. injection H as <- <-.
  apply digits1_Some in E1 as (-> & ? & ? & _), E3 as (-> & ? & ? & _), E5 as (-> & ? & ? & ?).
  apply strip_literal_Some in E2 as ->, E4 as ->. split_and!; [|exists a, b, c|done].
  - by rewrite <- !app_assoc; cbn; rewrite <- !app_assoc.
  - split; [done|]. by repeat constructor.
Qed.

Lemma digits1_sim l l' :
  sim l l' →
  match digits1 is_digit l, digits1 is_digit l' with
  | Some (d, r), Some (d', r') => d = d' ∧ sim r r'
  | None, None => True
  | _, _ => False
  end.
Proof.
  intros Hs. unfold digits1. destruct (sim_span is_digit _ _ S_no_digit Hs) as [E Hr].
  destruct (span is_digit l) as [[|x d] r], (span is_digit l') as [[|x' d'] r']; cbn in *; done.
Qed.
Lemma dot_sim l l' : sim l l' → sim_option (strip_literal [DOT] l) (strip_literal [DOT] l').
Proof. apply sim_strip. by apply not_elem_of_cons; split; [|apply not_elem_of_nil]. Qed.

Lemma match_version_sim l l' :
  sim l l' → match_version is_digit l = None → match_version is_digit l' = None.
Proof.
  unfold match_version. intros Hs.
  pose proof (digits1_sim _ _ Hs) as E1.
  destruct (digits1 is_digit l) as [[a l1]|], (digits1 is_digit l') as [[a' l1']|]; try done.
  destruct E1 as [-> H1]. cbn [mbind option_bind]. pose proof (dot_sim _ _ H1) as E2.
  destruct (strip_literal _ l1) as [l2|], (strip_literal _ l1') as [l2'|]; try done.
  cbn [mbind option_bind]. pose proof (digits1_sim _ _ E2) as E3.
  destruct (digits1 is_digit l2) as [[b l3]|], (digits1 is_digit l2') as [[b' l3']|]; try done.
  destruct E3 as [-> H3]. cbn [mbind option_bind]. pose proof (dot_sim _ _ H3) as E4.
  destruct (strip_literal _ l3) as [l4|], (strip_literal _ l3') as [l4'|]; try done.
  cbn [mbind option_bind]. pose proof (digits1_sim _ _ E4) as E5.
  destruct (digits1 is_digit l4) as [[c l5]|], (digits1 is_digit l4') as [[c' l5']|]; done.
Qed.

(** The literal has its [CAP_S] at the start. *)
Definition SAMPLE_TAIL : text := chars "erver version:".
Lemma sample_literal : SAMPLE = CAP_S :: SAMPLE_TAIL.
Proof. reflexivity. Qed.
#[local] Opaque SAMPLE.
Lemma sample_tail_no_S : CAP_S ∉ SAMPLE_TAIL.
Proof. apply (bool_decide_unpack _). vm_compute. exact I. Qed.

Lemma match_sample_sim a l l' :
  sim l l' → match_sample is_space is_digit (a :: l) = None → match_sample is_space is_digit (a :: l') = None.
Proof.
  intros Hs. unfold match_sample. rewrite sample_literal. cbn [strip_literal].
  case_decide as Ha; [|done]. pose proof (sim_strip _ _ _ sample_tail_no_S Hs) as E1.
  destruct (strip_literal SAMPLE_TAIL l) as [l1|], (strip_literal SAMPLE_TAIL l') as [l1'|]; try done.
  cbn [mbind option_bind]. destruct (sim_span is_space _ _ S_no_space E1) as [E2 H2].
  destruct (span is_space l1) as [sp l2], (span is_space l1') as [sp' l2']. cbn in E2, H2. subst sp'.
  pose proof (match_version_sim _ _ H2) as Hv.
  destruct (match_version is_digit l2) as [[v l3]|]; [done|]. intros _. by rewrite Hv.
Qed.

Lemma match_sample_Some l g v r :
  match_sample is_space is_digit l = Some (g, v, r) →
  l = g ++ v ++ r ∧ release v ∧ no_digit_next r ∧
  ∃ sp, g = SAMPLE ++ sp ∧ Forall (λ a, is_space a = true) sp.
Proof.
  unfold match_sample. intros H. destruct (strip_literal SAMPLE l) as [l1|] eqn:E1; [|done].
  cbn [mbind option_bind] in H. destruct (span_spec is_space l1) as (E2 & Hsp & _).
  destruct (span is_space l1) as [sp l2]. cbn [fst snd] in *.
  destruct (match_version is_digit l2) as [[v' l3]|] eqn:E3; [|done]. injection H as <- <- <-.
  apply strip_literal_Some in E1 as ->. apply match_version_Some in E3 as (-> & Hv & Hr).
  subst l1. split_and!; [by rewrite <- !app_assoc|done|done|by exists sp].
Qed.

Lemma match_sample_release sp v r :
  Forall (λ a, is_space a = true) sp → release v → no_digit_next r →
  match_sample is_space is_digit ((SAMPLE ++ sp) ++ v ++ r) = Some (SAMPLE ++ sp, v, r).
Proof.
  intros Hsp Hv Hr. unfold match_sample. rewrite <- app_assoc, strip_literal_app. cbn [mbind option_bind].
  rewrite span_app; [|done|].
  - by rewrite match_version_release.
  - destruct Hv as (a & b & c & -> & Hv). apply Forall_cons in Hv as [[Ha1 Ha2] _].
    destruct a as [|x a]; [done|]. apply Forall_cons in Ha2 as [Hx _]. cbn.
    destruct (is_space x) eqn:E; [|done]. apply space_not_digit in E. congruence.
Qed.

(** *** Scanning what was rewritten *)

Abbreviation scanned := (pieces is_space is_digit).
Definition with_version (v : text) (p : piece) : piece :=
  match p with Plain a => Plain a | Sample g _ => Sample g v end.
Definition flatten (v : text) (ps : list piece) : text := concat (map (render v) ps).

Lemma flatten_sim v fuel l : (length l ≤ fuel)%nat → sim l (flatten v (scanned fuel l)).
Proof.
  revert l. induction fuel as [|fuel IH]; intros l Hl; cbn [pieces].
  { destruct l; cbn in *; [constructor|lia]. }
  destruct (match_sample is_space is_digit l) as [[[g w] r]|] eqn:E.
  - apply match_sample_Some in E as (-> & _ & _ & sp & -> & _). rewrite sample_literal.
    unfold flatten. cbn. rewrite <- !app_assoc. cbn. constructor.
  - destruct l as [|a l]; [constructor|]. cbn in *. constructor. apply IH. lia.
Qed.

Lemma flatten_no_digit v fuel l :
  (length l ≤ fuel)%nat → no_digit_next l → no_digit_next (flatten v (scanned fuel l)).
Proof.
  intros Hl Hd. destruct (flatten_sim v fuel l Hl) as [|x x'|a l1 l2]; [done|by cbn|done].
Qed.

Lemma pieces_flatten v fuel fuel' l :
  release v → (length l ≤ fuel)%nat → (length (flatten v (scanned fuel l)) ≤ fuel')%nat →
  scanned fuel' (flatten v (scanned fuel l)) = map (with_version v) (scanned fuel l).
Proof.
  intros Hv. revert fuel' l. induction fuel as [|fuel IH]; intros fuel' l Hl Hl'.
  { destruct fuel'; [done|]. cbn. done. }
  cbn [pieces] in *. destruct (match_sample is_space is_digit l) as [[[g w] r]|] eqn:E.
  - apply match_sample_Some in E as (-> & Hw & Hr & sp & -> & Hsp).
    rewrite !length_app in Hl. assert (Hg : (1 ≤ length SAMPLE)%nat) by (rewrite sample_literal; cbn; lia).
    unfold flatten in *. cbn [map concat render] in *. rewrite <- app_assoc in *. rewrite !length_app in Hl'.
    destruct fuel' as [|fuel']; [lia|]. cbn [pieces].
    rewrite match_sample_release; [|done|done|apply flatten_no_digit; [lia|done]]. f_equal.
    apply IH; unfold flatten; rewrite ?length_app in *; lia.
  - destruct l as [|a l]; [by destruct fuel'|]. unfold flatten in *. cbn [map concat render app] in *. cbn [length] in *.
    destruct fuel' as [|fuel']; [lia|]. cbn [pieces].
    rewrite (match_sample_sim a l); [|apply flatten_sim; lia|done]. f_equal. apply IH; unfold flatten; lia.
Qed.

Lemma release_no_backslash v : is_digit BACKSLASH = false → release v → BACKSLASH ∉ v.
Proof.
  intros Hb (a & b & c & -> & Hv).
  apply Forall_cons in Hv as [[_ Ha] Hv]. apply Forall_cons in Hv as [[_ Hb'] Hv].
  apply Forall_cons in Hv as [[_ Hc] _].
  assert (Hd : ∀ d, Forall (λ x, is_digit x = true) d → BACKSLASH ∉ d).
  { intros d Hd Hin. rewrite Forall_forall in Hd. apply Hd in Hin. congruence. }
  assert (Hdot : BACKSLASH ∉ [DOT]) by (intros [=]%list_elem_of_singleton).
  rewrite !not_elem_of_app. by split_and!; auto.
Qed.

(** Scanning a rewritten text finds the same samples, with the version. *)
Lemma scan_flatten v l :
  release v → scan is_space is_digit (flatten v (scan is_space is_digit l))
              = map (with_version v) (scan is_space is_digit l).
Proof. intros Hv. unfold scan. by apply pieces_flatten. Qed.
Lemma flatten_twice v ps : flatten v (map (with_version v) ps) = flatten v ps.
Proof. unfold flatten. f_equal. rewrite map_map. apply map_ext. by intros []. Qed.

Lemma findall_flatten v l :
  release v → findall is_space is_digit (flatten v (scan is_space is_digit l))
              = map (λ _, v) (findall is_space is_digit l).
Proof.
  intros Hv. unfold findall. rewrite scan_flatten by done.
  induction (scan is_space is_digit l) as [|[a|g w] ps IH]; cbn; [done|done|]. by f_equal.
Qed.

Lemma rewrite_flatten v l :
  is_digit BACKSLASH = false → release v →
  rewrite is_space is_digit l v = Some (flatten v (scan is_space is_digit l)).
Proof. intros Hb Hv. unfold rewrite. rewrite decide_False; [done|]. by apply release_no_backslash. Qed.

Lemma sync_document_twice v l :
  is_digit BACKSLASH = false → release v →
  ∃ l' n written, sync_document is_space is_digit v l = Some (l', n, written) ∧
    sync_document is_space is_digit v l' = Some (l', n, false) ∧
    findall is_space is_digit l' = map (λ _, v) (findall is_space is_digit l) ∧
    n = length (findall is_space is_digit l) ∧ (written = false → l' = l).
Proof.
  intros Hb Hv. unfold sync_document. destruct (findall is_space is_digit l) as [|s ss] eqn:E.
  - exists l, 0%nat, false. by rewrite E.
  - rewrite rewrite_flatten by done. cbn [mbind option_bind].
    pose proof (findall_flatten v l Hv) as Ef. rewrite E in Ef.
    eexists _, _, _. split; [done|]. rewrite Ef. cbn [map]. rewrite rewrite_flatten by done.
    cbn [mbind option_bind]. rewrite scan_flatten, flatten_twice by done. rewrite bool_decide_true by done.
    cbn [length negb]. rewrite length_map. split_and!; [done..|]. intros Hw. apply negb_false_iff in Hw. by apply bool_decide_eq_true in Hw.
Qed.
End laws.

(** ** Properties *)

(** Synchronising the documents is idempotent.  For a release version, three
    runs of digits with dots between them, a run succeeds; afterwards every
    sample in every document shows the version, there are as many as before,
    and a document that is not written is unchanged; and a second run finds as
    many samples, changes nothing and writes nothing. *)
Theorem sync_idempotent is_space is_digit version docs :
  (∀ a, is_space a = true → is_digit a = false) → is_space CAP_S = false → is_digit CAP_S = false →
  is_digit DOT = false → is_digit BACKSLASH = false → release is_digit version →
  ∃ docs' found changed, sync is_space is_digit version docs = Some (docs', found, changed) ∧
    docs'.*1 = docs.*1 ∧
    Forall2 (λ d d', findall is_space is_digit d'.2 = map (λ _, version) (findall is_space is_digit d.2) ∧
                     (d.1 ∉ changed → d'.2 = d.2)) docs docs' ∧
    sync is_space is_digit version docs' = Some (docs', found, []).
Proof.
  intros Hsp HS1 HS2 Hdot Hb Hv. induction docs as [|[path original] docs IH]; cbn [sync].
  { by eexists _, _, _. }
  destruct IH as (docs' & found & changed & -> & Ep & Hall & E2).
  destruct (sync_document_twice is_space is_digit Hsp HS1 HS2 Hdot version original Hb Hv)
    as (l' & n & written & -> & E1' & Ef & _ & Hw).
  cbn [mbind option_bind]. eexists _, _, _. split; [done|]. split_and!.
  - cbn. by f_equal.
  - constructor.
    + split; [done|]. cbn. intros Hn. destruct written; [|by apply Hw]. set_solver.
    + eapply Forall2_impl; [exact Hall|]. intros d d' [H1 H2]. split; [done|]. intros Hn. apply H2. set_solver.
  - cbn [sync]. rewrite E1'. cbn [mbind option_bind]. by rewrite E2.
Qed.

(** *** A document *)

(** The classes on ASCII. *)
Definition ascii_space (a : Z) : bool := bool_decide (a = 32 ∨ 9 ≤ a ≤ 13 ∨ 28 ≤ a ≤ 31).
Definition ascii_digit (a : Z) : bool := bool_decide (48 ≤ a ≤ 57).
Definition demo_doc : text := chars "Server version:  0.28.2, docs".
Definition demo_init : text := chars "x = 1" ++ [NEWLINE] ++ chars "__version__ = " ++ [QUOTE] ++ chars "0.30.1" ++ [QUOTE].

Lemma sync_idempotent_witness :
  declared_version demo_init = Some (chars "0.30.1") ∧
  ∃ docs', sync ascii_space ascii_digit (chars "0.30.1") [("a.md"%string, demo_doc)] = Some (docs', 1%nat, ["a.md"%string]) ∧
    sync ascii_space ascii_digit (chars "0.30.1") docs' = Some (docs', 1%nat, []) ∧
    docs' = [("a.md"%string, chars "Server version:  0.30.1, docs")].
Proof.
  split; [vm_compute; reflexivity|].
  destruct (sync_idempotent ascii_space ascii_digit (chars "0.30.1") [("a.md"%string, demo_doc)])
    as (docs' & found & changed & E & _ & _ & E2); try reflexivity.
  - intros a. unfold ascii_space, ascii_digit. rewrite bool_decide_eq_true, bool_decide_eq_false. lia.
  - exists (chars "0"), (chars "30"), (chars "1"). split; [reflexivity|].
    repeat (constructor; [split; [discriminate|by repeat constructor]|]). constructor.
  - assert (Ex : sync ascii_space ascii_digit (chars "0.30.1") [("a.md"%string, demo_doc)]
      = Some ([("a.md"%string, chars "Server version:  0.30.1, docs")], 1%nat, ["a.md"%string]))
      by (vm_compute; reflexivity).
    rewrite Ex in E. injection E as <- <- <-. eexists. split_and!; [exact Ex|exact E2|reflexivity].
Defined.

(** A version with a suffix, which the module may declare as well, is not
    covered: the suffix is appended again on every run. *)
Example suffix_accumulates :
  let v := chars "1.0.0rc1" in
  ∃ once twice, rewrite ascii_space ascii_digit demo_doc v = Some once ∧
    once = chars "Server version:  1.0.0rc1, docs" ∧
    rewrite ascii_space ascii_digit once v = Some twice ∧
    twice = chars "Server version:  1.0.0rc1rc1, docs".
Proof. eexists _, _. split_and!; vm_compute; reflexivity. Qed.
